(** * labwc menu subsystem: a shallow embedding of src/menu/menu.c

    The C structures become records, the intrusive [wl_list]s become
    lists in list order, and every pointer becomes an address: a
    [struct menu *] or [struct menuitem *] is the [addr] stored in the
    record it points to, and [NULL] is [None].  File-level statics
    ([current_menu], [waiting_for_pipe_menu], [selected_item], ...) live
    next to the server fields in one [state] record that every function
    threads explicitly.

    A function returns [None] where the C program has no defined
    outcome: a failed [assert], a dereference of [NULL] or of a freed
    object, or a recursion that never returns (out of fuel).

    C [int] arithmetic is rendered in [Z]; signed overflow is undefined
    in C and is not given a meaning here.  The scene graph is kept only
    as far as menu.c reads it back: node positions and the enabled flag
    of a menu's tree.  Diagnostics are recorded by kind, without their
    formatted text. *)

From Stdlib Require Import ZArith List String Ascii Bool Lia Arith.
Import ListNotations.
Open Scope Z_scope.

Set Implicit Arguments.
Set Warnings "-register-all".

(** ** Constants *)

Definition PIPEMENU_MAX_BUF_SIZE : Z := 1048576.
Definition PIPEMENU_TIMEOUT_IN_MS : Z := 4000.
Definition SIGTERM : Z := 15.

(** [enum menu_align] is declared in menu/menu.h: automatic alignment is
    zero and the four directions are separate bits. *)
Definition LAB_MENU_OPEN_AUTO : Z := 0.
Definition LAB_MENU_OPEN_LEFT : Z := 1.
Definition LAB_MENU_OPEN_RIGHT : Z := 2.
Definition LAB_MENU_OPEN_TOP : Z := 4.
Definition LAB_MENU_OPEN_BOTTOM : Z := 8.

(** ** Data model *)

Definition addr := nat.

Definition addr_eqb : addr -> addr -> bool := Nat.eqb.

Definition ptr_eqb (p : option addr) (a : addr) : bool :=
  match p with
  | Some b => addr_eqb b a
  | None => false
  end.

Record theme : Type := mkTheme {
  menu_min_width : Z;
  menu_max_width : Z;
  menu_item_padding_x : Z;
  menu_item_padding_y : Z;
  menu_overlap_x : Z;
  menu_overlap_y : Z;
  menu_separator_line_thickness : Z;
  menu_separator_padding_height : Z;
  menu_separator_padding_width : Z
}.

Record action : Type := mkAction {
  action_addr : addr;
  action_name : string;
  action_args : list (string * string)
}.

Record menuitem : Type := mkItem {
  item_addr : addr;
  item_parent : addr;
  item_execute : option string;
  item_id : option string;
  item_selectable : bool;
  item_height_of : Z;
  item_native_width : Z;
  item_submenu : option addr;
  item_node_y : Z;
  item_selected_background : bool;
  item_actions : list action
}.

Record menu : Type := mkMenu {
  menu_addr : addr;
  menu_id : string;
  menu_label : string;
  menu_parent : option addr;
  size_width : Z;
  size_height : Z;
  menu_item_height : Z;
  menuitems : list menuitem;
  is_pipemenu : bool;
  menu_align : Z;
  selection_item : option addr;
  selection_menu : option addr;
  node_x : Z;
  node_y : Z;
  node_enabled : bool;
  triggered_by_view : option addr
}.

Record wlr_box : Type := mkBox {
  box_x : Z; box_y : Z; box_width : Z; box_height : Z
}.

(** An output with its position in the output layout and its usable
    area. *)
Record output : Type := mkOutput {
  output_lx : Z;
  output_ly : Z;
  usable_area : wlr_box
}.

Record pipe_context : Type := mkCtx {
  ctx_addr : addr;
  ctx_item : addr;
  ctx_buf : string;
  ctx_pid : Z;
  ctx_pipe_fd : Z
}.

Inductive input_state : Type :=
| LAB_INPUT_STATE_PASSTHROUGH
| LAB_INPUT_STATE_MENU.

(** The [wlr_log(WLR_ERROR, ...)] calls of menu.c, one constructor per
    call site. *)
Inductive diag : Type :=
| DiagMenuIdExists
| DiagInvalidAction
| DiagItemCreateFailed
| DiagExpectItemLabel
| DiagExpectActionName
| DiagLinkFromPipemenu
| DiagNoMenuWithId
| DiagXmlParse
| DiagNoScreenSpace
| DiagCloseNonExisting
| DiagPipeInvalidParent
| DiagPipeParentClosed
| DiagPipeTimeout
| DiagPipeReadFailed
| DiagPipeTooBig
| DiagPipeExpectLessThan
| DiagPipeDuplicateId
| DiagPipeSpawnFailed.

(** An XML node as libxml2 hands it to the tree walk: its name, its
    text content, its attributes and its children. *)
Inductive xmlNode : Type :=
| XmlNode (name : option string) (content : option string)
          (properties : list (string * string)) (children : list xmlNode).

Definition xml_name (n : xmlNode) : option string :=
  match n with XmlNode name _ _ _ => name end.

Definition xml_content (n : xmlNode) : option string :=
  match n with XmlNode _ content _ _ => content end.

Definition xml_properties (n : xmlNode) : list (string * string) :=
  match n with XmlNode _ _ properties _ => properties end.

Definition xml_children (n : xmlNode) : list xmlNode :=
  match n with XmlNode _ _ _ children => children end.

(** The server fields menu.c uses, its file-level statics, the event
    loop's registered pipe-menu contexts, and the trace of what the
    file sends outwards (diagnostics and signals). *)
Record state : Type := mkState {
  menus : list menu;
  menu_current : option addr;
  input_mode : input_state;
  in_item : bool;
  current_item : option addr;
  current_item_action : option addr;
  menu_level : Z;
  current_menu : option addr;
  waiting_for_pipe_menu : bool;
  selected_item : option addr;
  ctxs : list pipe_context;
  log : list diag;
  killed : list (Z * Z);
  next_addr : addr
}.

(** What menu.c takes from its collaborators: the theme, font
    measurement, libxml2, the node-name and string helpers, the action
    engine and the output layout.  [scaled_font_buffer_create a] tells
    whether both font buffers of the item allocated at [a] could be
    created. *)
Class Platform : Type := mkPlatform {
  server_theme : theme;
  font_width : string -> Z;
  font_height : Z;
  scaled_font_buffer_create : addr -> bool;
  nodename : list string -> xmlNode -> option string;
  xmlIsBlankNode : xmlNode -> bool;
  xmlNodeGetContent : xmlNode -> option string;
  xmlParseMemory : string -> option xmlNode;
  string_truncate_at_pattern : string -> string -> string;
  action_create : string -> bool;
  action_is_valid : action -> bool;
  wlr_output_layout_output_at : Z -> Z -> option output
}.

(** ** Field updates *)

Definition set_menus (s : state) (l : list menu) : state :=
  mkState l (menu_current s) (input_mode s) (in_item s) (current_item s)
    (current_item_action s) (menu_level s) (current_menu s)
    (waiting_for_pipe_menu s) (selected_item s) (ctxs s) (log s) (killed s)
    (next_addr s).

Definition set_menu_current (s : state) (p : option addr) : state :=
  mkState (menus s) p (input_mode s) (in_item s) (current_item s)
    (current_item_action s) (menu_level s) (current_menu s)
    (waiting_for_pipe_menu s) (selected_item s) (ctxs s) (log s) (killed s)
    (next_addr s).

Definition set_input_mode (s : state) (i : input_state) : state :=
  mkState (menus s) (menu_current s) i (in_item s) (current_item s)
    (current_item_action s) (menu_level s) (current_menu s)
    (waiting_for_pipe_menu s) (selected_item s) (ctxs s) (log s) (killed s)
    (next_addr s).

Definition set_in_item (s : state) (b : bool) : state :=
  mkState (menus s) (menu_current s) (input_mode s) b (current_item s)
    (current_item_action s) (menu_level s) (current_menu s)
    (waiting_for_pipe_menu s) (selected_item s) (ctxs s) (log s) (killed s)
    (next_addr s).

Definition set_current_item (s : state) (p : option addr) : state :=
  mkState (menus s) (menu_current s) (input_mode s) (in_item s) p
    (current_item_action s) (menu_level s) (current_menu s)
    (waiting_for_pipe_menu s) (selected_item s) (ctxs s) (log s) (killed s)
    (next_addr s).

Definition set_current_item_action (s : state) (p : option addr) : state :=
  mkState (menus s) (menu_current s) (input_mode s) (in_item s)
    (current_item s) p (menu_level s) (current_menu s)
    (waiting_for_pipe_menu s) (selected_item s) (ctxs s) (log s) (killed s)
    (next_addr s).

Definition set_menu_level (s : state) (z : Z) : state :=
  mkState (menus s) (menu_current s) (input_mode s) (in_item s)
    (current_item s) (current_item_action s) z (current_menu s)
    (waiting_for_pipe_menu s) (selected_item s) (ctxs s) (log s) (killed s)
    (next_addr s).

Definition set_current_menu (s : state) (p : option addr) : state :=
  mkState (menus s) (menu_current s) (input_mode s) (in_item s)
    (current_item s) (current_item_action s) (menu_level s) p
    (waiting_for_pipe_menu s) (selected_item s) (ctxs s) (log s) (killed s)
    (next_addr s).

Definition set_waiting_for_pipe_menu (s : state) (b : bool) : state :=
  mkState (menus s) (menu_current s) (input_mode s) (in_item s)
    (current_item s) (current_item_action s) (menu_level s) (current_menu s)
    b (selected_item s) (ctxs s) (log s) (killed s) (next_addr s).

Definition set_selected_item (s : state) (p : option addr) : state :=
  mkState (menus s) (menu_current s) (input_mode s) (in_item s)
    (current_item s) (current_item_action s) (menu_level s) (current_menu s)
    (waiting_for_pipe_menu s) p (ctxs s) (log s) (killed s) (next_addr s).

Definition set_ctxs (s : state) (l : list pipe_context) : state :=
  mkState (menus s) (menu_current s) (input_mode s) (in_item s)
    (current_item s) (current_item_action s) (menu_level s) (current_menu s)
    (waiting_for_pipe_menu s) (selected_item s) l (log s) (killed s)
    (next_addr s).

Definition wlr_log (s : state) (d : diag) : state :=
  mkState (menus s) (menu_current s) (input_mode s) (in_item s)
    (current_item s) (current_item_action s) (menu_level s) (current_menu s)
    (waiting_for_pipe_menu s) (selected_item s) (ctxs s) (log s ++ [d])
    (killed s) (next_addr s).

Definition kill (s : state) (pid sig : Z) : state :=
  mkState (menus s) (menu_current s) (input_mode s) (in_item s)
    (current_item s) (current_item_action s) (menu_level s) (current_menu s)
    (waiting_for_pipe_menu s) (selected_item s) (ctxs s) (log s)
    (killed s ++ [(pid, sig)]) (next_addr s).

(** [znew]: the next unused address is handed out. *)
Definition znew (s : state) : state * addr :=
  (mkState (menus s) (menu_current s) (input_mode s) (in_item s)
     (current_item s) (current_item_action s) (menu_level s) (current_menu s)
     (waiting_for_pipe_menu s) (selected_item s) (ctxs s) (log s) (killed s)
     (S (next_addr s)),
   next_addr s).

Definition with_items (m : menu) (l : list menuitem) : menu :=
  mkMenu (menu_addr m) (menu_id m) (menu_label m) (menu_parent m)
    (size_width m) (size_height m) (menu_item_height m) l (is_pipemenu m)
    (menu_align m) (selection_item m) (selection_menu m) (node_x m)
    (node_y m) (node_enabled m) (triggered_by_view m).

Definition with_parent (m : menu) (p : option addr) : menu :=
  mkMenu (menu_addr m) (menu_id m) (menu_label m) p
    (size_width m) (size_height m) (menu_item_height m) (menuitems m)
    (is_pipemenu m) (menu_align m) (selection_item m) (selection_menu m)
    (node_x m) (node_y m) (node_enabled m) (triggered_by_view m).

Definition with_size_width (m : menu) (w : Z) : menu :=
  mkMenu (menu_addr m) (menu_id m) (menu_label m) (menu_parent m)
    w (size_height m) (menu_item_height m) (menuitems m)
    (is_pipemenu m) (menu_align m) (selection_item m) (selection_menu m)
    (node_x m) (node_y m) (node_enabled m) (triggered_by_view m).

Definition with_size_height (m : menu) (h : Z) : menu :=
  mkMenu (menu_addr m) (menu_id m) (menu_label m) (menu_parent m)
    (size_width m) h (menu_item_height m) (menuitems m)
    (is_pipemenu m) (menu_align m) (selection_item m) (selection_menu m)
    (node_x m) (node_y m) (node_enabled m) (triggered_by_view m).

Definition with_item_height (m : menu) (h : Z) : menu :=
  mkMenu (menu_addr m) (menu_id m) (menu_label m) (menu_parent m)
    (size_width m) (size_height m) h (menuitems m)
    (is_pipemenu m) (menu_align m) (selection_item m) (selection_menu m)
    (node_x m) (node_y m) (node_enabled m) (triggered_by_view m).

Definition with_is_pipemenu (m : menu) (b : bool) : menu :=
  mkMenu (menu_addr m) (menu_id m) (menu_label m) (menu_parent m)
    (size_width m) (size_height m) (menu_item_height m) (menuitems m)
    b (menu_align m) (selection_item m) (selection_menu m)
    (node_x m) (node_y m) (node_enabled m) (triggered_by_view m).

Definition with_align (m : menu) (a : Z) : menu :=
  mkMenu (menu_addr m) (menu_id m) (menu_label m) (menu_parent m)
    (size_width m) (size_height m) (menu_item_height m) (menuitems m)
    (is_pipemenu m) a (selection_item m) (selection_menu m)
    (node_x m) (node_y m) (node_enabled m) (triggered_by_view m).

Definition with_selection_item (m : menu) (p : option addr) : menu :=
  mkMenu (menu_addr m) (menu_id m) (menu_label m) (menu_parent m)
    (size_width m) (size_height m) (menu_item_height m) (menuitems m)
    (is_pipemenu m) (menu_align m) p (selection_menu m)
    (node_x m) (node_y m) (node_enabled m) (triggered_by_view m).

Definition with_selection_menu (m : menu) (p : option addr) : menu :=
  mkMenu (menu_addr m) (menu_id m) (menu_label m) (menu_parent m)
    (size_width m) (size_height m) (menu_item_height m) (menuitems m)
    (is_pipemenu m) (menu_align m) (selection_item m) p
    (node_x m) (node_y m) (node_enabled m) (triggered_by_view m).

Definition with_position (m : menu) (x y : Z) : menu :=
  mkMenu (menu_addr m) (menu_id m) (menu_label m) (menu_parent m)
    (size_width m) (size_height m) (menu_item_height m) (menuitems m)
    (is_pipemenu m) (menu_align m) (selection_item m) (selection_menu m)
    x y (node_enabled m) (triggered_by_view m).

Definition with_enabled (m : menu) (b : bool) : menu :=
  mkMenu (menu_addr m) (menu_id m) (menu_label m) (menu_parent m)
    (size_width m) (size_height m) (menu_item_height m) (menuitems m)
    (is_pipemenu m) (menu_align m) (selection_item m) (selection_menu m)
    (node_x m) (node_y m) b (triggered_by_view m).

Definition with_triggered_by_view (m : menu) (p : option addr) : menu :=
  mkMenu (menu_addr m) (menu_id m) (menu_label m) (menu_parent m)
    (size_width m) (size_height m) (menu_item_height m) (menuitems m)
    (is_pipemenu m) (menu_align m) (selection_item m) (selection_menu m)
    (node_x m) (node_y m) (node_enabled m) p.

Definition with_submenu (i : menuitem) (p : option addr) : menuitem :=
  mkItem (item_addr i) (item_parent i) (item_execute i) (item_id i)
    (item_selectable i) (item_height_of i) (item_native_width i) p
    (item_node_y i) (item_selected_background i) (item_actions i).

Definition with_execute_id (i : menuitem) (e id : option string) : menuitem :=
  mkItem (item_addr i) (item_parent i) e id
    (item_selectable i) (item_height_of i) (item_native_width i)
    (item_submenu i) (item_node_y i) (item_selected_background i)
    (item_actions i).

Definition with_node_y (i : menuitem) (y : Z) : menuitem :=
  mkItem (item_addr i) (item_parent i) (item_execute i) (item_id i)
    (item_selectable i) (item_height_of i) (item_native_width i)
    (item_submenu i) y (item_selected_background i) (item_actions i).

Definition with_actions (i : menuitem) (l : list action) : menuitem :=
  mkItem (item_addr i) (item_parent i) (item_execute i) (item_id i)
    (item_selectable i) (item_height_of i) (item_native_width i)
    (item_submenu i) (item_node_y i) (item_selected_background i) l.

(** ** Pointers into the menu list *)

(** Dereference of a [struct menu *]. *)
Definition find_menu (s : state) (a : addr) : option menu :=
  find (fun m => addr_eqb (menu_addr m) a) (menus s).

(** A write through a [struct menu *]. *)
Definition update_menu (s : state) (a : addr) (f : menu -> menu) : state :=
  set_menus s
    (map (fun m => if addr_eqb (menu_addr m) a then f m else m) (menus s)).

Definition all_items (s : state) : list menuitem :=
  flat_map menuitems (menus s).

(** Dereference of a [struct menuitem *]. *)
Definition find_item (s : state) (a : addr) : option menuitem :=
  find (fun i => addr_eqb (item_addr i) a) (all_items s).

(** A write through a [struct menuitem *]. *)
Definition update_item (s : state) (a : addr) (f : menuitem -> menuitem)
  : state :=
  set_menus s
    (map (fun m =>
            with_items m
              (map (fun i => if addr_eqb (item_addr i) a then f i else i)
                 (menuitems m)))
       (menus s)).

Definition bind {A B : Type} (x : option A) (f : A -> option B) : option B :=
  match x with
  | Some a => f a
  | None => None
  end.

Notation "x <- e ;; k" := (bind e (fun x => k))
  (at level 61, e at next level, right associativity).
Notation "' p <- e ;; k" := (bind e (fun p => k))
  (at level 61, p pattern, e at next level, right associativity).

Section Menu.

Context {P : Platform}.

(** ** Menu registry *)

Definition is_unique_id (s : state) (id : string) : bool :=
  negb (existsb (fun m => String.eqb (menu_id m) id) (menus s)).

Definition menu_create (s : state) (id : string) (label : option string)
  : state * addr :=
  let s := if is_unique_id s id then s else wlr_log s DiagMenuIdExists in
  let '(s, a) := znew s in
  let m :=
    mkMenu a id
      (match label with Some l => l | None => id end)
      (current_menu s)
      (menu_min_width server_theme) 0 0 []
      (waiting_for_pipe_menu s)
      0 None None 0 0 false None in
  (set_menus s (menus s ++ [m]), a).

Definition menu_get_by_id (s : state) (id : option string) : option menu :=
  match id with
  | None => None
  | Some id => find (fun m => String.eqb (menu_id m) id) (menus s)
  end.

(** ** Widths *)

(** The value an [int] holds after an arithmetic operation whose exact
    result is [z]: the result modulo 2^32, in [-2^31, 2^31).  (Signed
    overflow is undefined in C; this is what the two's-complement
    machines the compositor runs on compute.) *)
Definition wrap_int (z : Z) : Z := (z + 2 ^ 31) mod 2 ^ 32 - 2 ^ 31.

Definition in_int (z : Z) : Prop := - 2 ^ 31 <= z < 2 ^ 31.

Definition menu_update_width (m : menu) : menu :=
  let theme := server_theme in
  let max_width :=
    fold_left
      (fun max_width item =>
         if item_native_width item >? max_width
         then (if item_native_width item <? menu_max_width theme
               then item_native_width item
               else menu_max_width theme)
         else max_width)
      (menuitems m) (menu_min_width theme) in
  with_size_width m
    (wrap_int (max_width + wrap_int (2 * menu_item_padding_x theme))).

Definition post_processing (s : state) : state :=
  set_menus s (map menu_update_width (menus s)).

(** ** Validation *)

Definition validate_menu (m : menu) : menu :=
  with_items m
    (map (fun item =>
            with_actions item (filter action_is_valid (item_actions item)))
       (menuitems m)).

Definition invalid_actions (m : menu) : nat :=
  List.length
    (filter (fun a => negb (action_is_valid a))
       (flat_map item_actions (menuitems m))).

Definition validate (s : state) : state :=
  let n := fold_right (fun m acc => (invalid_actions m + acc)%nat) 0%nat
             (menus s) in
  fold_left wlr_log (repeat DiagInvalidAction n)
    (set_menus s (map validate_menu (menus s))).

(** ** Items *)

(** The submenu arrow, U+203A in UTF-8. *)
Definition arrow : string :=
  String (ascii_of_nat 226)
    (String (ascii_of_nat 128) (String (ascii_of_nat 186) EmptyString)).

Definition item_create (s : state) (menu : option addr) (text : string)
    (show_arrow : bool) : option (state * option addr) :=
  ma <- menu ;;
  _ <- find_menu s ma ;;
  let theme := server_theme in
  let '(s, a) := znew s in
  let s :=
    update_menu s ma
      (fun m =>
         if menu_item_height m =? 0
         then with_item_height m
                (font_height + 2 * menu_item_padding_y theme)
         else m) in
  let native_width :=
    font_width text + (if show_arrow then font_width arrow else 0) in
  if scaled_font_buffer_create a then
    Some (update_menu s ma
            (fun m =>
               let item :=
                 mkItem a ma None None true (menu_item_height m) native_width
                   None (size_height m) true [] in
               with_items
                 (with_size_height m (size_height m + item_height_of item))
                 (menuitems m ++ [item])),
          Some a)
  else Some (wlr_log s DiagItemCreateFailed, None).

Definition separator_create (s : state) (menu : option addr)
    (label : option string) : option (state * option addr) :=
  ma <- menu ;;
  _ <- find_menu s ma ;;
  let theme := server_theme in
  let '(s, a) := znew s in
  let h := menu_separator_line_thickness theme
           + 2 * menu_separator_padding_height theme in
  Some (update_menu s ma
          (fun m =>
             let item :=
               mkItem a ma None None false h 0 None (size_height m) false
                 [] in
             with_items
               (with_size_height m (size_height m + item_height_of item))
               (menuitems m ++ [item])),
        Some a).

(** Dereference of a [struct action *]. *)
Definition find_action (s : state) (a : addr) : option action :=
  find (fun act => addr_eqb (action_addr act) a)
    (flat_map item_actions (all_items s)).

(** The argument an action gains in [action_arg_from_xml_node]. *)
Definition action_arg_write (s : state) (a : addr)
    (nodename content : string) : state :=
  set_menus s
    (map (fun m =>
            with_items m
              (map (fun i =>
                      with_actions i
                        (map (fun act =>
                                if addr_eqb (action_addr act) a
                                then mkAction (action_addr act)
                                       (action_name act)
                                       (action_args act
                                          ++ [(nodename, content)])
                                else act)
                           (item_actions i)))
                 (menuitems m)))
       (menus s)).

(** [action_arg_from_xml_node], a write through a [struct action *]. *)
Definition action_arg_from_xml_node (s : state) (a : addr)
    (nodename content : string) : option state :=
  _ <- find_action s a ;;
  Some (action_arg_write s a nodename content).

Definition fill_item (s : state) (nodename content : string) : option state :=
  let nodename := string_truncate_at_pattern nodename ".item.menu" in
  let nodename := string_truncate_at_pattern nodename ".item" in
  if String.eqb nodename "label" then
    ' (s, item) <- item_create s (current_menu s) content false ;;
    Some (set_current_item_action (set_current_item s item) None)
  else
    match current_item s with
    | None => Some (wlr_log s DiagExpectItemLabel)
    | Some ci =>
      if String.eqb nodename "icon" then Some s
      else if String.eqb nodename "name.action" then
        if action_create content then
          let '(s, a) := znew s in
          let s := set_current_item_action s (Some a) in
          _ <- find_item s ci ;;
          Some (update_item s ci
                  (fun i =>
                     with_actions i
                       (item_actions i ++ [mkAction a content []])))
        else Some (set_current_item_action s None)
      else
        match current_item_action s with
        | None => Some (wlr_log s DiagExpectActionName)
        | Some act => action_arg_from_xml_node s act nodename content
        end
    end.

Definition nodename_supports_cdata (nodename : string) : bool :=
  String.prefix "command.action." nodename
  || String.prefix "execute.action." nodename.

Definition entry (s : state) (node : xmlNode) (nodename : option string)
    (content : option string) : option state :=
  match nodename with
  | None => Some s
  | Some nodename =>
    let cdata :=
      match content with
      | None =>
        if nodename_supports_cdata nodename then xmlNodeGetContent node
        else None
      | Some _ => None
      end in
    match (match content with Some c => Some c | None => cdata end) with
    | None => Some s
    | Some text =>
      let nodename := string_truncate_at_pattern nodename ".openbox_menu" in
      let nodename :=
        string_truncate_at_pattern nodename ".openbox_pipe_menu" in
      if in_item s then fill_item s nodename text else Some s
    end
  end.

(** [parents] are the names of the enclosing nodes, nearest first. *)
Definition process_node (s : state) (parents : list string) (node : xmlNode)
  : option state :=
  if xmlIsBlankNode node then Some s
  else entry s node (nodename parents node) (xml_content node).

(** ** Tree walk over a parsed document *)

Definition tolower (c : ascii) : ascii :=
  let n := nat_of_ascii c in
  if ((65 <=? n) && (n <=? 90))%nat then ascii_of_nat (n + 32) else c.

Fixpoint string_tolower (x : string) : string :=
  match x with
  | EmptyString => EmptyString
  | String c r => String (tolower c) (string_tolower r)
  end.

(** [!strcasecmp(a, b)] *)
Definition strcasecmp_eq (a b : string) : bool :=
  String.eqb (string_tolower a) (string_tolower b).

Definition xmlGetProp (n : xmlNode) (name : string) : option string :=
  match find (fun p => String.eqb (fst p) name) (xml_properties n) with
  | Some p => Some (snd p)
  | None => None
  end.

(** The document node above the root element counts as a parent. *)
Definition nr_parents (parents : list string) : Z :=
  Z.of_nat (S (List.length parents)).

Definition is_toplevel_static_menu_definition (s : state)
    (parents : list string) (id : option string) : bool :=
  if negb (menu_level s =? 0) then false
  else match id with
       | Some _ => nr_parents parents =? 2
       | None => false
       end.

Definition is_some {A : Type} (x : option A) : bool :=
  match x with Some _ => true | None => false end.

(** [traverse] stands for [traverse(n, server)] on the element itself. *)
Definition handle_menu_element (traverse : state -> option state)
    (s : state) (parents : list string) (n : xmlNode) : option state :=
  let label := xmlGetProp n "label" in
  let execute := xmlGetProp n "execute" in
  let id := xmlGetProp n "id" in
  match execute, label, id with
  | Some e, Some l, Some i =>
    ' (s, item) <- item_create s (current_menu s) l true ;;
    let s := set_current_item_action (set_current_item s item) None in
    ci <- item ;;
    _ <- find_item s ci ;;
    Some (update_item s ci (fun it => with_execute_id it (Some e) (Some i)))
  | _, _, Some i =>
    if is_some label || is_toplevel_static_menu_definition s parents id then
      ' (s, submenu) <-
        (if menu_level s >? 0 then
           l <- label ;;
           ' (s, item) <- item_create s (current_menu s) l true ;;
           Some (set_current_item s item, item)
         else Some (s, None)) ;;
      let s := set_menu_level s (menu_level s + 1) in
      let '(s, ma) := menu_create s i label in
      let s := set_current_menu s (Some ma) in
      let s :=
        match submenu with
        | Some it => update_item s it (fun x => with_submenu x (Some ma))
        | None => s
        end in
      s <- traverse s ;;
      cm <- current_menu s ;;
      m <- find_menu s cm ;;
      Some (set_menu_level (set_current_menu s (menu_parent m))
              (menu_level s - 1))
    else
      from_pipemenu <-
        match current_menu s with
        | Some cm => m <- find_menu s cm ;; Some (is_pipemenu m)
        | None => Some false
        end ;;
      if from_pipemenu : bool then Some (wlr_log s DiagLinkFromPipemenu)
      else
        match menu_get_by_id s (Some i) with
        | Some target =>
          ' (s, item) <-
            item_create s (current_menu s) (menu_label target) true ;;
          let s := set_current_item s item in
          Some (match item with
                | Some it =>
                  update_item s it
                    (fun x => with_submenu x (Some (menu_addr target)))
                | None => s
                end)
        | None => Some (wlr_log s DiagNoMenuWithId)
        end
  | _, _, None => Some s
  end.

Definition handle_separator_element (s : state) (n : xmlNode)
  : option state :=
  let label := xmlGetProp n "label" in
  ' (s, item) <- separator_create s (current_menu s) label ;;
  Some (set_current_item s item).

(** The loop of [xml_tree_walk] over a node and its following siblings;
    it stops at the first node without a name. *)
Definition xml_tree_walk_with
    (traverse : list string -> xmlNode -> state -> option state)
    (parents : list string) : list xmlNode -> state -> option state :=
  fix walk (nodes : list xmlNode) (s : state) {struct nodes} : option state :=
    match nodes with
    | [] => Some s
    | n :: rest =>
      match xml_name n with
      | None => Some s
      | Some name =>
        if strcasecmp_eq name "comment" then walk rest s
        else if strcasecmp_eq name "menu" then
          s <- handle_menu_element (traverse parents n) s parents n ;;
          walk rest s
        else if strcasecmp_eq name "separator" then
          s <- handle_separator_element s n ;;
          walk rest s
        else if strcasecmp_eq name "item" then
          s <- traverse parents n (set_in_item s true) ;;
          walk rest (set_in_item s false)
        else
          s <- traverse parents n s ;;
          walk rest s
      end
    end.

(** The children of an attribute are one text node holding its value
    (none for an empty value); such a node has no attributes and no
    children, so walking it is [process_node] on it. *)
Definition walk_attribute (s : state) (parents : list string)
    (attr : string * string) : option state :=
  if String.eqb (snd attr) "" then Some s
  else process_node s (fst attr :: parents)
         (XmlNode (Some "text"%string) (Some (snd attr)) [] []).

Definition enclosing (parents : list string) (n : xmlNode) : list string :=
  match xml_name n with
  | Some name => name :: parents
  | None => parents
  end.

Fixpoint traverse (parents : list string) (n : xmlNode) (s : state)
    {struct n} : option state :=
  match n with
  | XmlNode _ _ properties children =>
    s <- process_node s parents n ;;
    s <- fold_left
           (fun acc attr =>
              s <- acc ;; walk_attribute s (enclosing parents n) attr)
           properties (Some s) ;;
    xml_tree_walk_with traverse (enclosing parents n) children s
  end.

Definition xml_tree_walk := xml_tree_walk_with traverse.

Definition parse_buf (s : state) (buf : string) : option (state * bool) :=
  match xmlParseMemory buf with
  | None => Some (wlr_log s DiagXmlParse, false)
  | Some root =>
    s <- xml_tree_walk [] [root] s ;;
    Some (s, true)
  end.

(** ** Placement *)

Fixpoint menu_get_full_width (fuel : nat) (s : state) (a : addr)
  : option Z :=
  match fuel with
  | O => None
  | S fuel =>
    m <- find_menu s a ;;
    let width := size_width m - menu_overlap_x server_theme in
    max_child_width <-
      fold_left
        (fun acc item =>
           max_child_width <- acc ;;
           match item_submenu item with
           | None => Some max_child_width
           | Some sub =>
             child_width <- menu_get_full_width fuel s sub ;;
             Some (if child_width >? max_child_width
                   then child_width else max_child_width)
           end)
        (menuitems m) (Some 0) ;;
    Some (width + max_child_width)
  end.

Definition get_submenu_position (s : state) (item : menuitem) (align : Z)
  : option (Z * Z) :=
  m <- find_menu s (item_parent item) ;;
  let theme := server_theme in
  let lx := node_x m in
  let ly := node_y m in
  let x :=
    if negb (Z.land align LAB_MENU_OPEN_RIGHT =? 0)
    then lx + size_width m - menu_overlap_x theme
    else lx in
  let rel_y := item_node_y item in
  Some (x, ly + rel_y - menu_overlap_y theme).

(** The alignment [menu_configure] settles on for a menu of full width
    [full_width] and height [height] at output-local ([ox], [oy]). *)
Definition resolve_align (align full_width height ox oy : Z) (area : wlr_box)
  : Z :=
  let align :=
    if align =? LAB_MENU_OPEN_AUTO then
      if ox + full_width >? box_width area
      then LAB_MENU_OPEN_LEFT else LAB_MENU_OPEN_RIGHT
    else align in
  if oy + height >? box_height area
  then Z.lor (Z.land align (Z.lnot LAB_MENU_OPEN_BOTTOM)) LAB_MENU_OPEN_TOP
  else Z.lor (Z.land align (Z.lnot LAB_MENU_OPEN_TOP)) LAB_MENU_OPEN_BOTTOM.

Fixpoint menu_configure (fuel : nat) (s : state) (a : addr)
    (lx ly align : Z) : option state :=
  match fuel with
  | O => None
  | S fuel =>
    m <- find_menu s a ;;
    let theme := server_theme in
    match wlr_output_layout_output_at lx ly with
    | None => Some (wlr_log s DiagNoScreenSpace)
    | Some output =>
      let ox := lx - output_lx output in
      let oy := ly - output_ly output in
      full_width <-
        (if align =? LAB_MENU_OPEN_AUTO
         then menu_get_full_width fuel s a else Some 0) ;;
      let align :=
        resolve_align align full_width (size_height m) ox oy
          (usable_area output) in
      let lx :=
        if negb (Z.land align LAB_MENU_OPEN_LEFT =? 0)
        then lx - (size_width m - menu_overlap_x theme) else lx in
      let ly :=
        if negb (Z.land align LAB_MENU_OPEN_TOP =? 0)
        then (ly - size_height m)
             + (if is_some (menu_parent m) then menu_item_height m else 0)
        else ly in
      let s :=
        update_menu s a (fun m => with_align (with_position m lx ly) align) in
      fold_left
        (fun acc item =>
           s <- acc ;;
           match item_submenu item with
           | None => Some s
           | Some sub =>
             ' (x, y) <- get_submenu_position s item align ;;
             menu_configure fuel s sub x y align
           end)
        (menuitems m) (Some s)
    end
  end.

Fixpoint reposition (y : Z) (items : list menuitem) : list menuitem * Z :=
  match items with
  | [] => ([], y)
  | item :: rest =>
    let '(rest, h) := reposition (y + item_height_of item) rest in
    (with_node_y item y :: rest, h)
  end.

(** The body of the loop over the menus in [menu_hide_submenu]. *)
Definition hide_submenu_in (hide_menu : addr) (m : menu) : menu :=
  let points item := ptr_eqb (item_submenu item) hide_menu in
  if existsb points (menuitems m) then
    let '(items, h) :=
      reposition 0 (filter (fun item => negb (points item)) (menuitems m)) in
    with_items (with_size_height m h) items
  else m.

Definition menu_hide_submenu (s : state) (id : string) : state :=
  match menu_get_by_id s (Some id) with
  | None => s
  | Some hide_menu =>
    set_menus s (map (hide_submenu_in (menu_addr hide_menu)) (menus s))
  end.

(** ** Teardown *)

(** The body of the loop over the menus in
    [nullify_item_pointing_to_this_menu]. *)
Definition nullify_in (a : addr) (iter : menu) : menu :=
  let iter :=
    with_items iter
      (map (fun item =>
              if ptr_eqb (item_submenu item) a
              then with_submenu item None else item)
         (menuitems iter)) in
  if ptr_eqb (menu_parent iter) a then with_parent iter None else iter.

Definition nullify_item_pointing_to_this_menu (s : state) (a : addr)
  : state :=
  set_menus s (map (nullify_in a) (menus s)).

Definition menu_free (s : state) (a : addr) : state :=
  let s := nullify_item_pointing_to_this_menu s a in
  set_menus s (filter (fun m => negb (addr_eqb (menu_addr m) a)) (menus s)).

(** The loop runs over the list as it stands on entry; freeing a menu
    unlinks that menu alone. *)
Definition menu_free_from (s : state) (from : option addr) : state :=
  snd
    (fold_left
       (fun (acc : bool * state) m =>
          let '(destroying, s) := acc in
          let destroying := destroying || ptr_eqb from (menu_addr m) in
          if destroying then (destroying, menu_free s (menu_addr m))
          else (destroying, s))
       (menus s)
       (negb (is_some from), s)).

Definition menu_finish (s : state) : state := menu_free_from s None.

Definition destroy_pipemenus (s : state) : state :=
  fold_left
    (fun s iter => if is_pipemenu iter then menu_free s (menu_addr iter) else s)
    (menus s) s.

(** ** Selection *)

Definition menu_set_selection (s : state) (a : addr) (item : option addr)
  : state :=
  update_menu s a (fun m => with_selection_item m item).

Fixpoint close_all_submenus (fuel : nat) (s : state) (a : addr)
  : option state :=
  match fuel with
  | O => None
  | S fuel =>
    m <- find_menu s a ;;
    s <- fold_left
           (fun acc item =>
              s <- acc ;;
              match item_submenu item with
              | None => Some s
              | Some sub =>
                _ <- find_menu s sub ;;
                close_all_submenus fuel
                  (update_menu s sub (fun m => with_enabled m false)) sub
              end)
           (menuitems m) (Some s) ;;
    Some (update_menu s a (fun m => with_selection_menu m None))
  end.

Fixpoint _close (fuel : nat) (s : state) (a : addr) : option state :=
  match fuel with
  | O => None
  | S fuel =>
    _ <- find_menu s a ;;
    let s := update_menu s a (fun m => with_enabled m false) in
    let s := menu_set_selection s a None in
    m <- find_menu s a ;;
    match selection_menu m with
    | None => Some s
    | Some sub =>
      s <- _close fuel s sub ;;
      Some (update_menu s a (fun m => with_selection_menu m None))
    end
  end.

Definition menu_close (fuel : nat) (s : state) (p : option addr)
  : option state :=
  match p with
  | None => Some (wlr_log s DiagCloseNonExisting)
  | Some a => _close fuel s a
  end.

Definition menu_open_root (fuel : nat) (s : state) (a : addr) (x y : Z)
  : option state :=
  s <- match menu_current s with
       | Some _ =>
         s <- menu_close fuel s (menu_current s) ;;
         Some (destroy_pipemenus s)
       | None => Some s
       end ;;
  s <- close_all_submenus fuel s a ;;
  let s := menu_set_selection s a None in
  s <- menu_configure fuel s a x y LAB_MENU_OPEN_AUTO ;;
  _ <- find_menu s a ;;
  let s := update_menu s a (fun m => with_enabled m true) in
  let s := set_menu_current s (Some a) in
  let s := set_input_mode s LAB_INPUT_STATE_MENU in
  Some (set_selected_item s None).

Definition menu_close_root (fuel : nat) (s : state) : option state :=
  match input_mode s with
  | LAB_INPUT_STATE_PASSTHROUGH => None
  | LAB_INPUT_STATE_MENU =>
    s <- match menu_current s with
         | Some _ =>
           s <- menu_close fuel s (menu_current s) ;;
           Some (destroy_pipemenus (set_menu_current s None))
         | None => Some s
         end ;;
    Some (set_input_mode s LAB_INPUT_STATE_PASSTHROUGH)
  end.

(** ** Pipe menus *)

Definition with_buf (c : pipe_context) (b : string) : pipe_context :=
  mkCtx (ctx_addr c) (ctx_item c) b (ctx_pid c) (ctx_pipe_fd c).

(** Dereference of the [struct pipe_context *] an event source carries. *)
Definition find_ctx (s : state) (c : addr) : option pipe_context :=
  find (fun x => addr_eqb (ctx_addr x) c) (ctxs s).

(** The bytes of a chunk up to its first NUL: what a C string function
    sees of it. *)
Fixpoint c_string (data : string) : string :=
  match data with
  | EmptyString => EmptyString
  | String c rest =>
    if Ascii.eqb c zero then EmptyString else String c (c_string rest)
  end.

(** [buf_add] of common/buf.c appends a C string to the buffer. *)
Definition buf_add (b data : string) : string := b ++ c_string data.

Definition buf_len (b : string) : Z := Z.of_nat (String.length b).

(** [s + strspn(s, " \t\r\n")] *)
Fixpoint skip_blanks (x : string) : string :=
  match x with
  | EmptyString => EmptyString
  | String c rest =>
    if Ascii.eqb c " " || Ascii.eqb c (ascii_of_nat 9)
       || Ascii.eqb c (ascii_of_nat 13) || Ascii.eqb c (ascii_of_nat 10)
    then skip_blanks rest else x
  end.

Definition starts_with_less_than (x : string) : bool :=
  match skip_blanks x with
  | String c _ => Ascii.eqb c "<"
  | EmptyString => false
  end.

Definition create_pipe_menu (fuel : nat) (s : state) (ctx : pipe_context)
  : option state :=
  item <- find_item s (ctx_item ctx) ;;
  (* [item->parent] is set when the item is created and never cleared *)
  let pa := item_parent item in
  pipe_parent <- find_menu s pa ;;
  if negb (node_enabled pipe_parent) then Some (wlr_log s DiagPipeParentClosed)
  else
    id <- item_id item ;;
    let '(s, pm) := menu_create s id None in
    let s :=
      update_menu s pm
        (fun m =>
           with_parent
             (with_triggered_by_view (with_is_pipemenu m true)
                (triggered_by_view pipe_parent))
             (Some pa)) in
    let s := set_menu_level s (menu_level s + 1) in
    let s := set_current_menu s (Some pm) in
    ' (s, ok) <- parse_buf s (ctx_buf ctx) ;;
    s <-
      (if ok : bool then
         _ <- find_item s (ctx_item ctx) ;;
         let s :=
           update_item s (ctx_item ctx) (fun i => with_submenu i (Some pm)) in
         let s := post_processing s in
         item <- find_item s (ctx_item ctx) ;;
         parent <- find_menu s (item_parent item) ;;
         let align := menu_align parent in
         pipe_parent <- find_menu s pa ;;
         let x :=
           node_x pipe_parent
           + (if negb (Z.land align LAB_MENU_OPEN_RIGHT =? 0)
              then size_width pipe_parent else 0) in
         let y := node_y pipe_parent + item_node_y item in
         s <- menu_configure fuel s pm x y align ;;
         let s := validate s in
         _ <- find_menu s pm ;;
         let s := update_menu s pm (fun m => with_enabled m true) in
         Some (update_menu s pa (fun m => with_selection_menu m (Some pm)))
       else
         let s := menu_free s pm in
         _ <- find_item s (ctx_item ctx) ;;
         Some (update_item s (ctx_item ctx) (fun i => with_submenu i None))) ;;
    Some (set_menu_level (set_current_menu s (Some pa)) (menu_level s - 1)).

(** Both event sources of the context are removed and the context is
    freed. *)
Definition pipemenu_ctx_destroy (s : state) (c : addr) : state :=
  set_waiting_for_pipe_menu
    (set_ctxs s (filter (fun x => negb (addr_eqb (ctx_addr x) c)) (ctxs s)))
    false.

Definition handle_pipemenu_timeout (s : state) (c : addr) : option state :=
  ctx <- find_ctx s c ;;
  (* the log line reads [ctx->item->execute] *)
  _ <- find_item s (ctx_item ctx) ;;
  let s := wlr_log s DiagPipeTimeout in
  let s := kill s (ctx_pid ctx) SIGTERM in
  Some (pipemenu_ctx_destroy s c).

(** What [read] returned once it was not interrupted: an error, or the
    bytes read (none at the end of the stream). *)
Inductive read_result : Type :=
| ReadError
| ReadOk (data : string).

Definition handle_pipemenu_readable (fuel : nat) (s : state) (c : addr)
    (r : read_result) : option state :=
  ctx <- find_ctx s c ;;
  match r with
  | ReadError =>
    (* the log line reads [ctx->item->execute] *)
    _ <- find_item s (ctx_item ctx) ;;
    Some (pipemenu_ctx_destroy (wlr_log s DiagPipeReadFailed) c)
  | ReadOk data =>
    let size := buf_len data in
    if buf_len (ctx_buf ctx) + size >? PIPEMENU_MAX_BUF_SIZE then
      (* so does this one *)
      _ <- find_item s (ctx_item ctx) ;;
      let s := wlr_log s DiagPipeTooBig in
      let s := kill s (ctx_pid ctx) SIGTERM in
      Some (pipemenu_ctx_destroy s c)
    else if negb (size =? 0) then
      Some (set_ctxs s
              (map (fun x =>
                      if addr_eqb (ctx_addr x) c
                      then with_buf x (buf_add (ctx_buf x) data) else x)
                 (ctxs s)))
    else if negb (starts_with_less_than (ctx_buf ctx)) then
      Some (pipemenu_ctx_destroy (wlr_log s DiagPipeExpectLessThan) c)
    else
      s <- create_pipe_menu fuel s ctx ;;
      Some (pipemenu_ctx_destroy s c)
  end.

(** [spawn_piped] is the answer of the spawning primitive, a process id
    and a descriptor, for the item's command. *)
Definition parse_pipemenu (spawn_piped : string -> Z * Z) (s : state)
    (item : menuitem) : option state :=
  id <- item_id item ;;
  if negb (is_unique_id s id) then Some (wlr_log s DiagPipeDuplicateId)
  else
    execute <- item_execute item ;;
    let '(pid, pipe_fd) := spawn_piped execute in
    if pid <=? 0 then Some (wlr_log s DiagPipeSpawnFailed)
    else
      let s := set_waiting_for_pipe_menu s true in
      let '(s, c) := znew s in
      Some (set_ctxs s
              (ctxs s ++ [mkCtx c (item_addr item) EmptyString pid pipe_fd])).

Definition menu_process_item_selection (fuel : nat)
    (spawn_piped : string -> Z * Z) (s : state) (item : addr)
  : option state :=
  if ptr_eqb (selected_item s) item then Some s
  else if waiting_for_pipe_menu s then Some s
  else
    let s := set_selected_item s (Some item) in
    it <- find_item s item ;;
    if negb (item_selectable it) then Some s
    else
      let pa := item_parent it in
      _ <- find_menu s pa ;;
      let s := menu_set_selection s pa (Some item) in
      parent <- find_menu s pa ;;
      s <- match selection_menu parent with
           | Some sub => menu_close fuel s (Some sub)
           | None => Some s
           end ;;
      it <- find_item s item ;;
      if is_some (item_execute it) && negb (is_some (item_submenu it))
      then parse_pipemenu spawn_piped s it
      else
        s <- match item_submenu it with
             | Some sub =>
               parent <- find_menu s pa ;;
               _ <- find_menu s sub ;;
               Some (update_menu s sub
                       (fun m =>
                          with_enabled
                            (with_parent
                               (with_triggered_by_view m
                                  (triggered_by_view parent))
                               (Some pa))
                            true))
             | None => Some s
             end ;;
        _ <- find_menu s pa ;;
        Some (update_menu s pa
                (fun m => with_selection_menu m (item_submenu it))).

(** Mouse based selection: the node under the pointer is an item's. *)
Definition menu_process_cursor_motion := menu_process_item_selection.

(** [cursor_update_focus] and [actions_run] belong to the compositor;
    what the actions do is not part of this file's state. *)
Definition menu_execute_item (fuel : nat) (s : state) (item : addr)
  : option (state * bool) :=
  it <- find_item s item ;;
  if is_some (item_submenu it) || negb (item_selectable it)
  then Some (s, false)
  else
    _ <- find_menu s (item_parent it) ;;
    s <- menu_close fuel s (menu_current s) ;;
    let s := set_input_mode s LAB_INPUT_STATE_PASSTHROUGH in
    let s := set_menu_current s None in
    Some (destroy_pipemenus s, true).

Definition menu_call_actions := menu_execute_item.

End Menu.

(** ** Properties the specification names *)

(** Pairwise distinct ids among the live menus. *)
Definition ids_unique (s : state) : Prop := NoDup (map menu_id (menus s)).

(** [m] is the menu registered first under [id]: nothing before it in
    the registration order carries that id. *)
Definition first_registered (s : state) (id : string) (m : menu) : Prop :=
  exists before after,
    menus s = before ++ m :: after /\
    menu_id m = id /\
    forall x, In x before -> menu_id x <> id.

(** The width the specification describes: the configured minimum or
    the widest item clamped to the configured maximum, whichever is
    larger, plus the padding on both sides.  A menu without items has
    no widest item and keeps the minimum. *)
Definition widest_native_width (items : list menuitem) : option Z :=
  match items with
  | [] => None
  | item :: rest =>
    Some (fold_left Z.max (map item_native_width rest)
            (item_native_width item))
  end.

Definition spec_menu_width (t : theme) (items : list menuitem) : Z :=
  match widest_native_width items with
  | Some widest =>
    Z.max (menu_min_width t) (Z.min widest (menu_max_width t))
  | None => menu_min_width t
  end + 2 * menu_item_padding_x t.

(** The body of the loop in [menu_update_width]. *)
Definition width_step (t : theme) (max_width : Z) (item : menuitem) : Z :=
  if item_native_width item >? max_width
  then (if item_native_width item <? menu_max_width t
        then item_native_width item
        else menu_max_width t)
  else max_width.

(** What the loop of [menu_update_width] leaves in [max_width]: the
    minimum while no item is wider than it, and from then on the
    widest item so far, cut at the maximum. *)
Definition loop_max_width (t : theme) (items : list menuitem) : Z :=
  match widest_native_width items with
  | Some widest =>
    if widest >? menu_min_width t then Z.min widest (menu_max_width t)
    else menu_min_width t
  | None => menu_min_width t
  end.

(** Sum of the item heights, and items stacked from [y] downwards. *)
Fixpoint heights_sum (items : list menuitem) : Z :=
  match items with
  | [] => 0
  | item :: rest => item_height_of item + heights_sum rest
  end.

Fixpoint stacked_from (y : Z) (items : list menuitem) : Prop :=
  match items with
  | [] => True
  | item :: rest =>
    item_node_y item = y /\ stacked_from (y + item_height_of item) rest
  end.

Definition layout_ok (m : menu) : Prop :=
  size_height m = heights_sum (menuitems m) /\
  stacked_from 0 (menuitems m).

(** ** Primitive mutations

    What the builder, the layout pass and teardown do to the state,
    cut into the steps the invariants are checked against. *)

(** A write to a menu that leaves its identity, items and height. *)
Definition menu_frame (m' m : menu) : Prop :=
  menu_addr m' = menu_addr m /\ menu_id m' = menu_id m /\
  menuitems m' = menuitems m /\ size_height m' = size_height m.

(** A write to an item that leaves its identity, height and position. *)
Definition item_frame (i' i : menuitem) : Prop :=
  item_addr i' = item_addr i /\ item_height_of i' = item_height_of i /\
  item_node_y i' = item_node_y i.

Definition map_items (g : menuitem -> menuitem) (s : state) : state :=
  set_menus s (map (fun m => with_items m (map g (menuitems m))) (menus s)).

(** The second half of the loop body in
    [nullify_item_pointing_to_this_menu]. *)
Definition update_menu_parent (s : state) (a : addr) : state :=
  set_menus s
    (map (fun m => if ptr_eqb (menu_parent m) a then with_parent m None else m)
       (menus s)).

Section Runs.

Context {P : Platform}.

Inductive prim : state -> state -> Prop :=
| prim_statics s s' :
    menus s' = menus s -> ctxs s' = ctxs s ->
    waiting_for_pipe_menu s' = waiting_for_pipe_menu s ->
    killed s' = killed s -> selected_item s' = selected_item s ->
    (exists l, log s' = log s ++ l) ->
    (next_addr s <= next_addr s')%nat ->
    prim s s'
| prim_map_menus s f :
    (forall m, menu_frame (f m) m) ->
    prim s (set_menus s (map f (menus s)))
| prim_map_items s g :
    (forall i, item_frame (g i) i) ->
    prim s (map_items g s)
| prim_filter_menus s f :
    prim s (set_menus s (filter f (menus s)))
| prim_item_create s menu text show_arrow s' r :
    item_create s menu text show_arrow = Some (s', r) -> prim s s'
| prim_separator_create s menu label s' r :
    separator_create s menu label = Some (s', r) -> prim s s'
| prim_menu_create s id label :
    prim s (fst (menu_create s id label))
| prim_hide_submenu s id :
    prim s (menu_hide_submenu s id).

Inductive run : state -> state -> Prop :=
| run_refl s : run s s
| run_step s s1 s2 : prim s s1 -> run s1 s2 -> run s s2.

End Runs.

(** The tests [menu_configure] and [get_submenu_position] make on a
    resolved alignment. *)
Definition opens_left (align : Z) : bool :=
  negb (Z.land align LAB_MENU_OPEN_LEFT =? 0).
Definition opens_right (align : Z) : bool :=
  negb (Z.land align LAB_MENU_OPEN_RIGHT =? 0).
Definition opens_top (align : Z) : bool :=
  negb (Z.land align LAB_MENU_OPEN_TOP =? 0).
Definition opens_bottom (align : Z) : bool :=
  negb (Z.land align LAB_MENU_OPEN_BOTTOM =? 0).


(** What placement reads of a menu and never writes. *)
Definition shape (m : menu) : addr * Z * list menuitem :=
  (menu_addr m, size_width m, menuitems m).

Definition same_shape (s s' : state) : Prop :=
  map shape (menus s') = map shape (menus s).


(** Menu [m] still points to the menu at [a], as its parent or as the
    submenu of one of its items. *)
Definition references (m : menu) (a : addr) : Prop :=
  menu_parent m = Some a \/
  exists item, In item (menuitems m) /\ item_submenu item = Some a.

(** No menu of [s'] points to a menu that was live in [s] and is gone
    in [s']. *)
Definition no_dangling (s s' : state) : Prop :=
  forall m,
    In m (menus s) -> ~ In (menu_addr m) (map menu_addr (menus s')) ->
    forall m', In m' (menus s') -> ~ references m' (menu_addr m).

(** [menu_free] on each address in turn. *)
Definition free_all (l : list addr) (s : state) : state :=
  fold_left (fun s a => set_menus s
                          (filter (fun m => negb (addr_eqb (menu_addr m) a))
                             (map (nullify_in a) (menus s)))) l s.

(** The menus [menu_free_from] frees: those from the first one at
    [from] onwards. *)
Fixpoint freed_from (destroying : bool) (from : option addr) (l : list menu)
  : list addr :=
  match l with
  | [] => []
  | m :: rest =>
    let destroying := destroying || ptr_eqb from (menu_addr m) in
    if destroying then menu_addr m :: freed_from destroying from rest
    else freed_from destroying from rest
  end.

(** The number of ids in the list that occur again later in it. *)
Fixpoint repeated (ids : list string) : nat :=
  match ids with
  | [] => 0
  | id :: rest =>
    (if existsb (String.eqb id) rest then 1 else 0) + repeated rest
  end.

(** The number of live menus that share their id with a menu
    registered after them. *)
Definition repeated_ids (s : state) : nat :=
  repeated (map menu_id (menus s)).

Definition is_id_exists (d : diag) : bool :=
  match d with
  | DiagMenuIdExists => true
  | _ => false
  end.

(** The number of "menu id already exists" diagnostics logged so far. *)
Definition diagnosed (s : state) : nat :=
  List.length (filter is_id_exists (log s)).

(** What [s'] has of repeated ids beyond [s] has been diagnosed in
    between. *)
Definition accounted (s s' : state) : Prop :=
  (repeated_ids s' + diagnosed s <= repeated_ids s + diagnosed s')%nat.

Definition all_layout_ok (s : state) : Prop :=
  forall m, In m (menus s) -> layout_ok m.

(** A run followed through changes to the pipe-menu bookkeeping, which
    leave the menus alone. *)
Inductive evolves {P : Platform} : state -> state -> Prop :=
| evolves_run s s' : run s s' -> evolves s s'
| evolves_pipe s s' :
    menus s' = menus s -> (exists l, log s' = log s ++ l) ->
    (next_addr s <= next_addr s')%nat -> evolves s s'
| evolves_trans s s1 s2 : evolves s s1 -> evolves s1 s2 -> evolves s s2.

(** ** Operations as events

    The entry points of the file and the steps of [menu_init], as the
    event loop and the rest of the compositor can invoke them. *)

Inductive event : Type :=
| MenuCreate (id : string) (label : option string)
| ItemCreate (owner : option addr) (text : string) (show_arrow : bool)
| SeparatorCreate (owner : option addr) (label : option string)
| SetSubmenu (item : addr) (target : option addr)
| FillItem (nodename content : string)
| HideSubmenu (id : string)
| ParseBuf (buf : string)
| PostProcessing
| Validate
| OpenRoot (root : addr) (x y : Z)
| CloseRoot
| Finish
| Select (item : addr) (spawn_piped : string -> Z * Z)
| Readable (c : addr) (r : read_result)
| Timeout (c : addr)
| Execute (item : addr).

Section Events.

Context {P : Platform}.

Definition exec (fuel : nat) (s : state) (e : event) : option state :=
  match e with
  | MenuCreate id label => Some (fst (menu_create s id label))
  | ItemCreate owner text show_arrow =>
    ' (s, item) <- item_create s owner text show_arrow ;;
    Some (set_current_item s item)
  | SeparatorCreate owner label =>
    ' (s, item) <- separator_create s owner label ;;
    Some (set_current_item s item)
  | SetSubmenu item target =>
    _ <- find_item s item ;;
    Some (update_item s item (fun i => with_submenu i target))
  | FillItem nodename content => fill_item s nodename content
  | HideSubmenu id => Some (menu_hide_submenu s id)
  | ParseBuf buf => ' (s, _) <- parse_buf s buf ;; Some s
  | PostProcessing => Some (post_processing s)
  | Validate => Some (validate s)
  | OpenRoot root x y => menu_open_root fuel s root x y
  | CloseRoot => menu_close_root fuel s
  | Finish => Some (menu_finish s)
  | Select item spawn_piped =>
    menu_process_item_selection fuel spawn_piped s item
  | Readable c r => handle_pipemenu_readable fuel s c r
  | Timeout c => handle_pipemenu_timeout s c
  | Execute item => ' (s, _) <- menu_call_actions fuel s item ;; Some s
  end.

(** The events that occur while a menu is shown. *)
Definition interactive (e : event) : bool :=
  match e with
  | OpenRoot _ _ _ | CloseRoot | Select _ _ | Readable _ _ | Timeout _
  | Execute _ => true
  | _ => false
  end.

Inductive trace (allowed : event -> bool) : state -> state -> Prop :=
| trace_nil s : trace allowed s s
| trace_cons s fuel e s1 s2 :
    allowed e = true -> exec fuel s e = Some s1 ->
    trace allowed s1 s2 -> trace allowed s s2.

Definition any_event (e : event) : bool := true.

End Events.

(** No pipe-menu request is in flight. *)
Definition idle (s : state) : Prop :=
  ctxs s = [] /\ waiting_for_pipe_menu s = false.

(** The state right after [parse_pipemenu] registered a request. *)
Definition spawned (s : state) (item : addr) (pid fd : Z) : state :=
  set_ctxs (fst (znew (set_waiting_for_pipe_menu s true)))
    (ctxs s ++ [mkCtx (next_addr s) item EmptyString pid fd]).

(** What one event can do to the set of requests in flight. *)
Inductive pipe_step : state -> state -> Prop :=
| pipe_same s s' :
    ctxs s' = ctxs s ->
    waiting_for_pipe_menu s' = waiting_for_pipe_menu s ->
    pipe_step s s'
| pipe_spawn s s' ctx :
    waiting_for_pipe_menu s = false ->
    waiting_for_pipe_menu s' = true ->
    ctxs s' = ctxs s ++ [ctx] ->
    pipe_step s s'
| pipe_read s s' c data :
    ctxs s' = map (fun x => if addr_eqb (ctx_addr x) c
                            then with_buf x (buf_add (ctx_buf x) data)
                            else x) (ctxs s) ->
    waiting_for_pipe_menu s' = waiting_for_pipe_menu s ->
    pipe_step s s'
| pipe_done s s' c ctx :
    find_ctx s c = Some ctx ->
    ctxs s' = filter (fun x => negb (addr_eqb (ctx_addr x) c)) (ctxs s) ->
    waiting_for_pipe_menu s' = false ->
    pipe_step s s'.

(** The flag is set exactly while a request is registered, and there is
    never more than one. *)
Definition one_request (s : state) : Prop :=
  (waiting_for_pipe_menu s = true <-> ctxs s <> []) /\
  (List.length (ctxs s) <= 1)%nat.

(** ** The state after [wl_list_init(&server->menus)] *)

Definition initial_state : state :=
  mkState [] None LAB_INPUT_STATE_PASSTHROUGH false None None 0 None false
    None [] [] [] 1%nat.

(** ** A concrete platform for worked examples

    Fonts are eight pixels wide per byte and sixteen high, every font
    buffer can be created, every action name is known and valid, and a
    single 1920x1080 output sits at the origin of the layout. *)

Fixpoint join_names (l : list string) : string :=
  match l with
  | [] => EmptyString
  | [x] => string_tolower x
  | x :: rest => string_tolower x ++ "." ++ join_names rest
  end.

Definition example_nodename (parents : list string) (n : xmlNode)
  : option string :=
  match xml_name n with
  | None => None
  | Some name =>
    Some (join_names (if String.eqb name "text" then parents
                      else name :: parents))
  end.

Definition example_theme : theme := mkTheme 20 200 7 4 0 0 1 3 6.

Definition example_output : output := mkOutput 0 0 (mkBox 0 0 1920 1080).

(** The string cut at the first occurrence of the pattern. *)
Fixpoint truncate_at (x pattern : string) : string :=
  match x with
  | EmptyString => EmptyString
  | String c rest =>
    if String.prefix pattern x then EmptyString
    else String c (truncate_at rest pattern)
  end.

Definition element (name : string) (properties : list (string * string))
    (children : list xmlNode) : xmlNode :=
  XmlNode (Some name) None properties children.

(** A root menu with a pipe-menu item, a separator and an Exit item. *)
Definition example_config_text : string :=
  "<openbox_menu><menu id='root-menu' label='Root'><menu id='apps' label='Apps' execute='list-apps'/><separator/><item label='Exit'><action name='Exit'/></item></menu></openbox_menu>".

Definition example_config : xmlNode :=
  element "openbox_menu" []
    [element "menu" [("id", "root-menu"); ("label", "Root")]
       [element "menu"
          [("id", "apps"); ("label", "Apps"); ("execute", "list-apps")] [];
        element "separator" [] [];
        element "item" [("label", "Exit")]
          [element "action" [("name", "Exit")] []]]]%string.

(** Two menu definitions under one id. *)
Definition duplicate_config_text : string :=
  "<openbox_menu><menu id='a' label='First'/><menu id='a' label='Second'/></openbox_menu>".

Definition duplicate_config : xmlNode :=
  element "openbox_menu" []
    [element "menu" [("id", "a"); ("label", "First")] [];
     element "menu" [("id", "a"); ("label", "Second")] []]%string.

Definition example_xmlParseMemory (buf : string) : option xmlNode :=
  if String.eqb buf example_config_text then Some example_config
  else if String.eqb buf duplicate_config_text then Some duplicate_config
  else None.

Definition example_platform : Platform :=
  mkPlatform example_theme
    (fun text => 8 * Z.of_nat (String.length text))
    16
    (fun _ => true)
    example_nodename
    (fun _ => false)
    (fun _ => None)
    example_xmlParseMemory
    truncate_at
    (fun _ => true)
    (fun _ => true)
    (fun x y =>
       if (0 <=? x) && (x <? 1920) && (0 <=? y) && (y <? 1080)
       then Some example_output else None).

(** The example configuration loaded into the initial state. *)
Definition example_loaded : option state :=
  exec (P := example_platform) 0 initial_state (ParseBuf example_config_text).

Definition example_menu_state : state :=
  Eval vm_compute in
    match example_loaded with Some s => s | None => initial_state end.

(** The spawning primitive answers with process 100 and descriptor 5. *)
Definition example_spawn (command : string) : Z * Z := (100, 5).

(** The pointer has moved onto the pipe-menu item (at address 2). *)
Definition example_requested : state :=
  Eval vm_compute in
    match exec (P := example_platform) 1 example_menu_state
            (Select 2%nat example_spawn) with
    | Some s => s
    | None => initial_state
    end.

(** The subprocess has written "not xml". *)
Definition example_streaming : state :=
  Eval vm_compute in
    match exec (P := example_platform) 1 example_requested
            (Readable 6%nat (ReadOk "not xml")) with
    | Some s => s
    | None => initial_state
    end.

(** A chunk of [n] bytes. *)
Fixpoint chunk_of (n : nat) : string :=
  match n with
  | O => EmptyString
  | S n => String "x" (chunk_of n)
  end.

(** One [read] of [handle_pipemenu_readable] returns at most 8192
    bytes. *)
Definition read_size : nat := Z.to_nat 8192.

(** The state [s] with one request in flight, for the item at [item],
    whose subprocess 100 has written [k] chunks of that size. *)
Definition filled (s : state) (c item : addr) (k : nat) : state :=
  set_ctxs s [mkCtx c item (chunk_of (k * read_size)) 100 5].

(** A workspace submenu added to the example and hidden again. *)
Definition example_workspace_events : list event :=
  [ParseBuf example_config_text;
   MenuCreate "workspaces" (Some ""%string);
   ItemCreate (Some 6%nat) "Move left" false;
   ItemCreate (Some 1%nat) "Workspace" true;
   SetSubmenu 8%nat (Some 6%nat);
   HideSubmenu "workspaces"]%string.

Definition example_root_menu : menu :=
  Eval vm_compute in
    nth 0 (menus example_menu_state)
      (mkMenu 0%nat "" "" None 0 0 0 [] false 0 None None 0 0 false None).

(** A theme whose minimum width lies above its maximum width. *)
Definition unordered_platform : Platform :=
  mkPlatform (mkTheme 100 50 7 4 0 0 1 3 6)
    (fun text => 8 * Z.of_nat (String.length text))
    16 (fun _ => true) example_nodename (fun _ => false) (fun _ => None)
    example_xmlParseMemory truncate_at (fun _ => true) (fun _ => true)
    (fun _ _ => Some example_output).

(** A menu of that platform with one item of natural width 150. *)
Definition example_wide_menu : menu :=
  with_items example_root_menu
    [mkItem 9%nat 1%nat None None true 24 150 None 0 true []].

(** A theme whose horizontal item padding is 2^30. *)
Definition padded_platform : Platform :=
  mkPlatform (mkTheme 20 200 1073741824 4 0 0 1 3 6)
    (fun text => 8 * Z.of_nat (String.length text))
    16 (fun _ => true) example_nodename (fun _ => false) (fun _ => None)
    example_xmlParseMemory truncate_at (fun _ => true) (fun _ => true)
    (fun _ _ => Some example_output).

(** The item at [a], if it is live, has no submenu. *)
Definition item_without_submenu (s : state) (a : addr) : Prop :=
  forall it, In it (all_items s) -> item_addr it = a -> item_submenu it = None.

(** Addresses identify menus and items, and all of them were handed out
    by the allocator. *)
Definition well_formed (s : state) : Prop :=
  NoDup (map menu_addr (menus s)) /\
  NoDup (map item_addr (all_items s)) /\
  (forall m, In m (menus s) -> (menu_addr m < next_addr s)%nat) /\
  (forall i, In i (all_items s) -> (item_addr i < next_addr s)%nat).

(** Items are only removed, or lose their submenu. *)
Definition calm (s s' : state) : Prop :=
  forall i',
    In i' (all_items s') ->
    exists i,
      In i (all_items s) /\ item_addr i = item_addr i' /\
      (item_submenu i' = item_submenu i \/ item_submenu i' = None).

(** Every request in flight holds at most 1 MiB and belongs to an item
    without a submenu. *)
Definition requests_bounded (s : state) : Prop :=
  forall ctx,
    In ctx (ctxs s) ->
    buf_len (ctx_buf ctx) <= PIPEMENU_MAX_BUF_SIZE /\
    item_without_submenu s (ctx_item ctx).

(** ** Reading the configuration and building the default menus *)

(** What [menu_init] takes from its surroundings besides the platform:
    the translation of a message, [rc.merge_config], the number of
    configured workspaces, the paths [paths_config_create] lists for a
    file name in order of precedence, and the files that can be opened,
    each as the lines successive [getline] calls return. *)
Class Environment : Type := mkEnvironment {
  gettext : string -> string;
  rc_merge_config : bool;
  rc_workspaces : nat;
  paths_config_create : string -> list string;
  fopen : string -> option (list string)
}.

Definition is_nil {A : Type} (l : list A) : bool :=
  match l with [] => true | _ :: _ => false end.

(** [strrchr(line, '\n')] on a C string: what precedes the last
    newline, if there is one. *)
Fixpoint cut_last_newline (line : string) : option string :=
  match line with
  | EmptyString => None
  | String c rest =>
    match cut_last_newline rest with
    | Some kept => Some (String c kept)
    | None =>
      if Ascii.eqb c (ascii_of_nat 10) then Some EmptyString else None
    end
  end.

(** The line as [buf_add] sees it once [*p = '\0'] has cut it. *)
Definition strip_newline (line : string) : string :=
  match cut_last_newline (c_string line) with
  | Some kept => kept
  | None => c_string line
  end.

Section Startup.

Context {P : Platform} {E : Environment}.

Definition parse_stream (s : state) (stream : list string) : option state :=
  let b :=
    fold_left (fun b line => buf_add b (strip_newline line)) stream
      EmptyString in
  ' (s, _) <- parse_buf s b ;;
  Some s.

(** The loop of [parse_xml] over the paths in the order [iter] visits
    them. *)
Fixpoint parse_paths (should_merge_config : bool) (s : state)
    (paths : list string) : option state :=
  match paths with
  | [] => Some s
  | path :: rest =>
    match fopen path with
    | None => Some s
    | Some stream =>
      s <- parse_stream s stream ;;
      if should_merge_config then parse_paths should_merge_config s rest
      else Some s
    end
  end.

(** [paths_get_prev] walks the list from its tail, [paths_get_next]
    from its head. *)
Definition parse_xml (s : state) (filename : string) : option state :=
  let paths := paths_config_create filename in
  let should_merge_config := rc_merge_config in
  parse_paths should_merge_config s
    (if should_merge_config then rev paths else paths).

(** The menu registered under [id], or a new one with an empty label
    and no parent if there is none. *)
Definition default_menu (s : state) (id : string) : option (state * menu) :=
  match menu_get_by_id s (Some id) with
  | Some m => Some (s, m)
  | None =>
    let s := set_current_menu s None in
    let '(s, a) := menu_create s id (Some EmptyString) in
    m <- find_menu s a ;;
    Some (s, m)
  end.

(** [current_item = item_create(menu, _(text), false);
     fill_item("name.action", action);] *)
Definition default_item (s : state) (menu : addr) (text action : string)
  : option state :=
  ' (s, item) <- item_create s (Some menu) (gettext text) false ;;
  fill_item (set_current_item s item) "name.action" action.

Definition init_rootmenu (s : state) : option state :=
  ' (s, m) <- default_menu s "root-menu" ;;
  if is_nil (menuitems m) then
    let menu := menu_addr m in
    s <- default_item s menu "Reconfigure" "Reconfigure" ;;
    default_item s menu "Exit" "Exit"
  else Some s.

Definition init_windowmenu (s : state) : option state :=
  ' (s, m) <- default_menu s "client-menu" ;;
  s <-
    (if is_nil (menuitems m) then
       let menu := menu_addr m in
       s <- default_item s menu "Minimize" "Iconify" ;;
       s <- default_item s menu "Maximize" "ToggleMaximize" ;;
       s <- default_item s menu "Fullscreen" "ToggleFullscreen" ;;
       s <- default_item s menu "Roll up/down" "ToggleShade" ;;
       s <- default_item s menu "Decorations" "ToggleDecorations" ;;
       s <- default_item s menu "Always on Top" "ToggleAlwaysOnTop" ;;
       let '(s, workspace_menu) :=
         menu_create s "workspaces" (Some EmptyString) in
       s <- default_item s workspace_menu "Move left" "SendToDesktop" ;;
       s <- fill_item s "to.action" "left" ;;
       s <- default_item s workspace_menu "Move right" "SendToDesktop" ;;
       s <- fill_item s "to.action" "right" ;;
       ' (s, item) <-
         separator_create s (Some workspace_menu) (Some EmptyString) ;;
       let s := set_current_item s item in
       s <- default_item s workspace_menu "Always on Visible Workspace"
              "ToggleOmnipresent" ;;
       ' (s, item) <- item_create s (Some menu) (gettext "Workspace") true ;;
       let s := set_current_item s item in
       ci <- item ;;
       _ <- find_item s ci ;;
       let s :=
         update_item s ci (fun i => with_submenu i (Some workspace_menu)) in
       default_item s menu "Close" "Close"
     else Some s) ;;
  Some (if (rc_workspaces =? 1)%nat then menu_hide_submenu s "workspaces"
        else s).

Definition menu_init (s : state) : option state :=
  let s := set_menus s [] in
  s <- parse_xml s "menu.xml" ;;
  s <- init_rootmenu s ;;
  s <- init_windowmenu s ;;
  Some (validate (post_processing s)).

Definition menu_reconfigure (s : state) : option state :=
  menu_init (set_menu_current (menu_finish s) None).

End Startup.

(** ** Keyboard navigation *)

(** The loop of [get_selection_leaf], from the menu at [a]. *)
Fixpoint selection_leaf_loop (fuel : nat) (s : state) (a : addr)
  : option addr :=
  match fuel with
  | O => None
  | S fuel =>
    m <- find_menu s a ;;
    match selection_menu m with
    | None => Some a
    | Some sub =>
      open <- find_menu s sub ;;
      if is_some (selection_item open) then selection_leaf_loop fuel s sub
      else Some a
    end
  end.

Definition get_selection_leaf (fuel : nat) (s : state)
  : option (option addr) :=
  match menu_current s with
  | None => Some None
  | Some a =>
    leaf <- selection_leaf_loop fuel s a ;;
    Some (Some leaf)
  end.

(** A [struct wl_list *] into the circular list of a menu's items:
    position [0] is the list head [&menu->menuitems] and position
    [S k] is the link of the item at index [k]. *)
Definition link_next (items : list menuitem) (p : nat) : nat :=
  if (p =? List.length items)%nat then 0%nat else S p.

Definition link_prev (items : list menuitem) (p : nat) : nat :=
  match p with
  | O => List.length items
  | S k => k
  end.

(** [wl_container_of(current, item, link)] *)
Definition link_item (items : list menuitem) (p : nat) : option menuitem :=
  match p with
  | O => None
  | S k => nth_error items k
  end.

(** [&selection->link]: the position of the item at [a]. *)
Fixpoint link_of (a : addr) (items : list menuitem) : option nat :=
  match items with
  | [] => None
  | item :: rest =>
    if addr_eqb (item_addr item) a then Some 1%nat
    else match link_of a rest with
         | Some p => Some (S p)
         | None => None
         end
  end.

(** The loop of [menu_item_select]: [Some None] where it returns
    without an item, [Some (Some item)] where it leaves the loop with a
    selectable item. *)
Fixpoint item_select_loop (fuel : nat) (forward : bool)
    (items : list menuitem) (start current : nat)
  : option (option menuitem) :=
  match fuel with
  | O => None
  | S fuel =>
    let current :=
      if forward then link_next items current else link_prev items current in
    if (current =? start)%nat then Some None
    else if (current =? 0)%nat then
      item_select_loop fuel forward items start current
    else
      item <- link_item items current ;;
      if item_selectable item then Some (Some item)
      else item_select_loop fuel forward items start current
  end.

(** The loop visits every link at most once before it is back at
    [start]. *)
Definition menu_item_select (fuel : nat) (spawn_piped : string -> Z * Z)
    (s : state) (forward : bool) : option state :=
  leaf <- get_selection_leaf fuel s ;;
  match leaf with
  | None => Some s
  | Some a =>
    m <- find_menu s a ;;
    start <-
      match selection_item m with
      | Some selection => link_of selection (menuitems m)
      | None => Some 0%nat
      end ;;
    found <-
      item_select_loop (S (List.length (menuitems m))) forward (menuitems m)
        start start ;;
    match found with
    | None => Some s
    | Some item =>
      menu_process_item_selection fuel spawn_piped s (item_addr item)
    end
  end.

Definition menu_item_select_next (fuel : nat)
    (spawn_piped : string -> Z * Z) (s : state) : option state :=
  menu_item_select fuel spawn_piped s true.

Definition menu_item_select_previous (fuel : nat)
    (spawn_piped : string -> Z * Z) (s : state) : option state :=
  menu_item_select fuel spawn_piped s false.

Definition menu_call_selected_actions (fuel : nat) (s : state)
  : option (state * bool) :=
  leaf <- get_selection_leaf fuel s ;;
  match leaf with
  | None => Some (s, false)
  | Some a =>
    m <- find_menu s a ;;
    match selection_item m with
    | None => Some (s, false)
    | Some item => menu_execute_item fuel s item
    end
  end.

(** The loop of [menu_submenu_enter], which starts at the list head. *)
Fixpoint submenu_enter_loop (fuel : nat) (items : list menuitem)
    (start current : nat) : option (option menuitem) :=
  match fuel with
  | O => None
  | S fuel =>
    let current := link_next items current in
    if (current =? start)%nat then Some None
    else
      item <- link_item items current ;;
      if item_selectable item then Some (Some item)
      else submenu_enter_loop fuel items start current
  end.

Definition menu_submenu_enter (fuel : nat) (spawn_piped : string -> Z * Z)
    (s : state) : option state :=
  leaf <- get_selection_leaf fuel s ;;
  match leaf with
  | None => Some s
  | Some a =>
    m <- find_menu s a ;;
    match selection_menu m with
    | None => Some s
    | Some sub =>
      open <- find_menu s sub ;;
      found <-
        submenu_enter_loop (S (List.length (menuitems open)))
          (menuitems open) 0 0 ;;
      match found with
      | None => Some s
      | Some item =>
        menu_process_item_selection fuel spawn_piped s (item_addr item)
      end
    end
  end.

Definition menu_submenu_leave (fuel : nat) (spawn_piped : string -> Z * Z)
    (s : state) : option state :=
  leaf <- get_selection_leaf fuel s ;;
  match leaf with
  | None => Some s
  | Some a =>
    m <- find_menu s a ;;
    match menu_parent m with
    | None => Some s
    | Some pa =>
      parent <- find_menu s pa ;;
      match selection_item parent with
      | None => Some s
      | Some item => menu_process_item_selection fuel spawn_piped s item
      end
    end
  end.

(** What identifies a menu and its items. *)
Definition outline (m : menu) : addr * string * list addr :=
  (menu_addr m, menu_id m, map item_addr (menuitems m)).

(** The output of the example's pipe-menu command. *)
Definition example_pipe_text : string :=
  "<openbox_pipe_menu><item label='Terminal'><action name='Execute'><command>foot</command></action></item><separator/><menu id='more' label='More'><item label='Editor'/></menu></openbox_pipe_menu>".

Definition example_pipe_document : xmlNode :=
  element "openbox_pipe_menu" []
    [element "item" [("label", "Terminal")]
       [element "action" [("name", "Execute")]
          [element "command" []
             [XmlNode (Some "text") (Some "foot") [] []]]];
     element "separator" [] [];
     element "menu" [("id", "more"); ("label", "More")]
       [element "item" [("label", "Editor")] []]]%string.

(** The example platform with a parser that also knows the pipe-menu
    output. *)
Definition piped_platform : Platform :=
  mkPlatform example_theme
    (fun text => 8 * Z.of_nat (String.length text))
    16
    (fun _ => true)
    example_nodename
    (fun _ => false)
    (fun _ => None)
    (fun buf =>
       if String.eqb buf example_pipe_text then Some example_pipe_document
       else example_xmlParseMemory buf)
    truncate_at
    (fun _ => true)
    (fun _ => true)
    (fun x y =>
       if (0 <=? x) && (x <? 1920) && (0 <=? y) && (y <? 1080)
       then Some example_output else None).

Fixpoint exec_all {P : Platform} (fuel : nat) (s : state) (l : list event)
  : option state :=
  match l with
  | [] => Some s
  | e :: rest => s <- exec fuel s e ;; exec_all fuel s rest
  end.

(** The output of a pipe-menu command that lists a pipe menu of its
    own. *)
Definition nested_pipe_text : string :=
  "<openbox_pipe_menu><menu id='more' label='More' execute='list-more'/></openbox_pipe_menu>".

Definition nested_pipe_document : xmlNode :=
  element "openbox_pipe_menu" []
    [element "menu"
       [("id", "more"); ("label", "More"); ("execute", "list-more")]
       []]%string.

(** The example platform with a parser that knows that output. *)
Definition nested_platform : Platform :=
  mkPlatform example_theme
    (fun text => 8 * Z.of_nat (String.length text))
    16
    (fun _ => true)
    example_nodename
    (fun _ => false)
    (fun _ => None)
    (fun buf =>
       if String.eqb buf nested_pipe_text then Some nested_pipe_document
       else example_xmlParseMemory buf)
    truncate_at
    (fun _ => true)
    (fun _ => true)
    (fun x y =>
       if (0 <=? x) && (x <? 1920) && (0 <=? y) && (y <? 1080)
       then Some example_output else None).

(** The root menu is opened, the pointer moves onto the pipe-menu item
    and the subprocess writes that output and exits; the pointer moves
    onto the pipe-menu item of the menu just built (at address 8), and
    the menu is closed before that item's subprocess has written
    anything. *)
Definition example_orphaned_events : list event :=
  [OpenRoot 1%nat 100 100;
   Select 2%nat example_spawn;
   Readable 6%nat (ReadOk nested_pipe_text);
   Readable 6%nat (ReadOk EmptyString);
   Select 8%nat example_spawn;
   CloseRoot].

Definition example_orphaned : state :=
  Eval vm_compute in
    match exec_all (P := nested_platform) 5 example_menu_state
            example_orphaned_events with
    | Some s => s
    | None => initial_state
    end.

(** The root menu is opened at (100, 100), the pointer moves onto the
    pipe-menu item, and the subprocess writes its menu and exits. *)
Definition example_piped_events : list event :=
  [OpenRoot 1%nat 100 100;
   Select 2%nat example_spawn;
   Readable 6%nat (ReadOk example_pipe_text);
   Readable 6%nat (ReadOk EmptyString)].

Definition example_piped : state :=
  Eval vm_compute in
    match exec_all (P := piped_platform) 5 example_menu_state
            example_piped_events with
    | Some s => s
    | None => initial_state
    end.

(** The bytes [strspn(s, " \t\r\n")] skips. *)
Definition blank (c : ascii) : bool :=
  Ascii.eqb c " " || Ascii.eqb c (ascii_of_nat 9)
  || Ascii.eqb c (ascii_of_nat 13) || Ascii.eqb c (ascii_of_nat 10).

Fixpoint all_blank (x : string) : bool :=
  match x with
  | EmptyString => true
  | String c rest => blank c && all_blank rest
  end.

(** Every action of every item, in list order. *)
Definition all_actions (s : state) : list action :=
  flat_map item_actions (all_items s).

(** ** What building menus does to the registry *)

(** A menu is still the menu it was: same address, id and parent, and
    a pipe menu or not as before. *)
Definition menu_kept (m' m : menu) : Prop :=
  menu_addr m' = menu_addr m /\ menu_id m' = menu_id m /\
  menu_parent m' = menu_parent m /\ is_pipemenu m' = is_pipemenu m.

(** Menus are only appended, at addresses handed out in between, and
    the menus that were there are kept; nothing outside the registry,
    the parser's statics, the log and the allocator is written. *)
Definition grows (s s' : state) : Prop :=
  (exists f l,
      menus s' = map f (menus s) ++ l /\
      (forall m, menu_kept (f m) m) /\
      (forall m, In m l -> (next_addr s <= menu_addr m < next_addr s')%nat)) /\
  (next_addr s <= next_addr s')%nat /\
  menu_current s' = menu_current s /\ input_mode s' = input_mode s /\
  ctxs s' = ctxs s /\ waiting_for_pipe_menu s' = waiting_for_pipe_menu s /\
  selected_item s' = selected_item s /\ killed s' = killed s.

(** Every menu address was handed out by the allocator. *)
Definition menus_below (s : state) : Prop :=
  forall m, In m (menus s) -> (menu_addr m < next_addr s)%nat.

(** The registry grows and the parser is where it was. *)
Definition steady (s s' : state) : Prop :=
  grows s s' /\ menu_level s' = menu_level s /\
  current_menu s' = current_menu s.

(** The registry grows and, from a state whose menu addresses were all
    handed out by the allocator, the parser is back where it was. *)
Definition balanced (s s' : state) : Prop :=
  grows s s' /\
  (menus_below s ->
   menu_level s' = menu_level s /\ current_menu s' = current_menu s).

(** A menu as the registry knows it: its address and its id. *)
Definition outline_id (m : menu) : addr * string := (menu_addr m, menu_id m).

(** The two truncations of [fill_item] leave the node name as it is. *)
Definition keeps_nodename {P : Platform} (nodename : string) : Prop :=
  string_truncate_at_pattern
    (string_truncate_at_pattern nodename ".item.menu") ".item" = nodename.

(** No configuration file can be opened; one workspace is configured. *)
Definition example_environment : Environment :=
  mkEnvironment (fun text => text) false 1%nat
    (fun filename =>
       [("/home/user/.config/labwc/" ++ filename)%string;
        ("/etc/xdg/labwc/" ++ filename)%string])
    (fun _ => None).

(** Every item was allocated at [n] or later. *)
Definition items_from (n : addr) (s : state) : Prop :=
  (n <= next_addr s)%nat /\
  forall i, In i (all_items s) -> (n <= item_addr i)%nat.


(** The pointer is on the pipe-menu item and the subprocess has written
    its menu, but has not closed the pipe yet. *)
Definition example_received : state :=
  Eval vm_compute in
    match exec_all (P := piped_platform) 5 example_menu_state
            [OpenRoot 1%nat 100 100;
             Select 2%nat example_spawn;
             Readable 6%nat (ReadOk example_pipe_text)] with
    | Some s => s
    | None => initial_state
    end.

(** The configuration is reloaded while that request is in flight. *)
Definition example_reconfigured : state :=
  Eval vm_compute in
    match menu_reconfigure (P := piped_platform) (E := example_environment)
            example_received with
    | Some s => s
    | None => initial_state
    end.

(** The items in the order in which a walk from position [start] of
    the circular list meets them before it is back at [start]: forward,
    those after [start] and then, past the list head, those before it;
    backward, the other way round. *)
Definition visit_order (forward : bool) (items : list menuitem) (start : nat)
  : list menuitem :=
  if forward then skipn start items ++ firstn (start - 1) items
  else rev (firstn (start - 1) items) ++ rev (skipn start items).

(** Every menu of [s'] was a menu of [s], at the same address, and is
    related to it by [K]. *)
Definition traced (K : menu -> menu -> Prop) (s s' : state) : Prop :=
  forall a m',
    find_menu s' a = Some m' ->
    exists m, find_menu s a = Some m /\ K m' m.

(** The menu is where it was. *)
Definition same_place (m' m : menu) : Prop :=
  node_x m' = node_x m /\ node_y m' = node_y m.

(** What was hidden, unselected or without an open submenu still is. *)
Definition stays_closed (m' m : menu) : Prop :=
  (node_enabled m = false -> node_enabled m' = false) /\
  (selection_item m = None -> selection_item m' = None) /\
  (selection_menu m = None -> selection_menu m' = None).

(** Hidden, with no selected item and no open submenu. *)
Definition closed (m : menu) : Prop :=
  node_enabled m = false /\ selection_item m = None /\
  selection_menu m = None.

(** The paths up to the first one that cannot be opened. *)
Fixpoint readable_prefix {E : Environment} (paths : list string)
  : list string :=
  match paths with
  | [] => []
  | path :: rest =>
    if is_some (fopen path) then path :: readable_prefix rest else []
  end.

(** The example platform without font buffers. *)
Definition fontless_platform : Platform :=
  mkPlatform example_theme
    (fun text => 8 * Z.of_nat (String.length text))
    16
    (fun _ => false)
    example_nodename
    (fun _ => false)
    (fun _ => None)
    example_xmlParseMemory
    truncate_at
    (fun _ => true)
    (fun _ => true)
    (fun x y =>
       if (0 <=? x) && (x <? 1920) && (0 <=? y) && (y <? 1080)
       then Some example_output else None).

(** Every menu of [s] is still registered in [s'], and is kept. *)
Definition carried (s s' : state) : Prop :=
  forall a m,
    find_menu s a = Some m ->
    exists m', find_menu s' a = Some m' /\ menu_kept m' m.

(** A line body as [getline] delimits it: without NUL and without
    newline. *)
Fixpoint plain_line (x : string) : bool :=
  match x with
  | EmptyString => true
  | String c rest =>
    negb (Ascii.eqb c zero) && negb (Ascii.eqb c (ascii_of_nat 10))
    && plain_line rest
  end.

Definition newline : string := String (ascii_of_nat 10) EmptyString.

(** The parser's current action is null or live. *)
Definition current_action_live (s : state) : Prop :=
  match current_item_action s with
  | None => True
  | Some a => find_action s a <> None
  end.

(** ** The widest chain of submenus, as the specification has it *)








(** Induction on a document, with the hypothesis on every child. *)
Section xmlNode_induction.

Variable Q : xmlNode -> Prop.
Hypothesis Q_node :
  forall name content properties children,
    Forall Q children -> Q (XmlNode name content properties children).

Fixpoint xmlNode_forall_ind (n : xmlNode) : Q n :=
  match n with
  | XmlNode name content properties children =>
    Q_node name content properties
      ((fix all (l : list xmlNode) : Forall Q l :=
          match l with
          | [] => Forall_nil Q
          | x :: rest => Forall_cons x (xmlNode_forall_ind x) (all rest)
          end) children)
  end.

End xmlNode_induction.

(** ** Lemmas on the registry *)

Lemma find_first_registered (s : state) (id : string) (m : menu) :
  first_registered s id m ->
  find (fun x => String.eqb (menu_id x) id) (menus s) = Some m.
Proof.
  intros (before & after & Hm & Hid & Hbefore).
  rewrite Hm. clear Hm.
  induction before as [|x before IH]; simpl.
  - rewrite Hid, String.eqb_refl. reflexivity.
  - destruct (String.eqb_spec (menu_id x) id) as [E|_].
    + exfalso. apply (Hbefore x); [left; reflexivity | exact E].
    + apply IH. intros y Hy. apply Hbefore. right. exact Hy.
Qed.

Lemma is_unique_id_false_iff (s : state) (id : string) :
  is_unique_id s id = false <-> In id (map menu_id (menus s)).
Proof.
  unfold is_unique_id. rewrite negb_false_iff, existsb_exists. split.
  - intros (m & Hin & E). apply String.eqb_eq in E. subst id.
    apply in_map. exact Hin.
  - intros Hin. apply in_map_iff in Hin. destruct Hin as (m & E & Hin).
    exists m. split; [exact Hin|]. apply String.eqb_eq. exact E.
Qed.

Lemma is_unique_id_true_iff (s : state) (id : string) :
  is_unique_id s id = true <-> ~ In id (map menu_id (menus s)).
Proof.
  rewrite <- is_unique_id_false_iff.
  destruct (is_unique_id s id); split; congruence.
Qed.

Lemma menu_create_menus `{Platform} (s : state) (id : string)
    (label : option string) :
  exists m,
    menus (fst (menu_create s id label)) = menus s ++ [m] /\
    menu_addr m = snd (menu_create s id label) /\
    menu_id m = id /\ menuitems m = [] /\ size_height m = 0.
Proof.
  unfold menu_create.
  destruct (is_unique_id s id); simpl; eexists; repeat split.
Qed.

Lemma menu_create_log `{Platform} (s : state) (id : string)
    (label : option string) :
  log (fst (menu_create s id label)) =
  if is_unique_id s id then log s else log s ++ [DiagMenuIdExists].
Proof.
  unfold menu_create. destruct (is_unique_id s id); reflexivity.
Qed.

(** ** C7: duplicate ids are diagnosed, and lookup keeps the first *)

(** C7.  Creating a menu under an id that is already registered logs
    the "already exists" diagnostic and still appends the new menu to
    the registry; a later lookup of that id returns the menu that was
    registered first under it.  Looking up a null id, or an id that no
    live menu carries, returns not-found. *)
Theorem menu_create_duplicate_keeps_first `{Platform} :
  (forall s id label first,
      first_registered s id first ->
      let s' := fst (menu_create s id label) in
      log s' = log s ++ [DiagMenuIdExists] /\
      (exists m, menus s' = menus s ++ [m] /\
                 menu_addr m = snd (menu_create s id label) /\
                 menu_id m = id) /\
      menu_get_by_id s' (Some id) = Some first /\
      first_registered s' id first) /\
  (forall s, menu_get_by_id s None = None) /\
  (forall s id,
      (forall m, In m (menus s) -> menu_id m <> id) ->
      menu_get_by_id s (Some id) = None).
Proof.
  split; [|split].
  - intros s id label first Hfirst s'.
    assert (Hreg : first_registered s' id first).
    { destruct Hfirst as (before & after & Hm & Hid & Hbefore).
      destruct (menu_create_menus s id label) as (m & Hs' & _).
      exists before, (after ++ [m]). repeat split; try assumption.
      unfold s'. rewrite Hs', Hm, <- app_assoc. reflexivity. }
    split; [|split; [|split]].
    + unfold s'. rewrite menu_create_log.
      assert (Hdup : is_unique_id s id = false).
      { apply is_unique_id_false_iff.
        destruct Hfirst as (before & after & Hm & Hid & _).
        rewrite Hm, map_app. apply in_or_app. right. left. exact Hid. }
      rewrite Hdup. reflexivity.
    + destruct (menu_create_menus s id label) as (m & Hs' & Ha & Hid & _).
      exists m. repeat split; assumption.
    + unfold menu_get_by_id. apply find_first_registered. exact Hreg.
    + exact Hreg.
  - reflexivity.
  - intros s id Hnone. unfold menu_get_by_id.
    destruct (find (fun m => String.eqb (menu_id m) id) (menus s)) as [m|] eqn:E;
      [|reflexivity].
    apply find_some in E. destruct E as [Hin E].
    apply String.eqb_eq in E. exfalso. exact (Hnone m Hin E).
Qed.

(** ** Runs of primitive mutations *)

Ltac bind_inv H :=
  unfold znew in H; cbv beta iota zeta in H;
  repeat
    match type of H with
    | bind ?x _ = Some _ =>
      let E := fresh "E" in
      destruct x eqn:E; [cbn [bind] in H | discriminate H]
    | (let '(_, _) := ?x in _) = Some _ =>
      let E := fresh "E" in destruct x eqn:E
    | (if ?b then _ else _) = Some _ =>
      let E := fresh "E" in destruct b eqn:E
    | match ?x with _ => _ end = Some _ =>
      let E := fresh "E" in destruct x eqn:E
    | Some _ = Some _ => injection H as H
    | None = Some _ => discriminate H
    end.

Ltac frame_tac :=
  intros; unfold menu_frame, item_frame;
  repeat match goal with |- context [if ?b then _ else _] => destruct b end;
  repeat split; reflexivity.

Section RunLemmas.

Context {P : Platform}.

Lemma run_trans (a b c : state) : run a b -> run b c -> run a c.
Proof.
  induction 1 as [|a a1 b Hp _ IH]; intros Hbc; [exact Hbc|].
  exact (run_step Hp (IH Hbc)).
Qed.

Lemma run_prim (a b : state) : prim a b -> run a b.
Proof. intros Hp. exact (run_step Hp (run_refl b)). Qed.

Lemma run_statics (s s' : state) :
  menus s' = menus s -> ctxs s' = ctxs s ->
  waiting_for_pipe_menu s' = waiting_for_pipe_menu s ->
  killed s' = killed s -> selected_item s' = selected_item s ->
  (exists l, log s' = log s ++ l) ->
  (next_addr s <= next_addr s')%nat ->
  run s s'.
Proof. intros. apply run_prim, prim_statics; assumption. Qed.

Ltac statics :=
  apply run_statics; try reflexivity; try (simpl; lia);
  first [ exists (@nil diag); simpl; rewrite app_nil_r; reflexivity
        | eexists; reflexivity ].

Lemma run_wlr_log (s : state) (d : diag) : run s (wlr_log s d).
Proof. statics. Qed.

Lemma run_znew (s : state) : run s (fst (znew s)).
Proof. statics. Qed.

Lemma run_update_menu (s : state) (a : addr) (g : menu -> menu) :
  (forall m, menu_frame (g m) m) -> run s (update_menu s a g).
Proof.
  intros Hg. apply run_prim. unfold update_menu.
  apply prim_map_menus. intros m.
  destruct (addr_eqb (menu_addr m) a); [apply Hg | frame_tac].
Qed.

Lemma run_update_item (s : state) (a : addr) (g : menuitem -> menuitem) :
  (forall i, item_frame (g i) i) -> run s (update_item s a g).
Proof.
  intros Hg. apply run_prim.
  change (update_item s a g)
    with (map_items (fun i => if addr_eqb (item_addr i) a then g i else i) s).
  apply prim_map_items. intros i.
  destruct (addr_eqb (item_addr i) a); [apply Hg | frame_tac].
Qed.

Lemma run_item_create (s : state) menu text show_arrow s' r :
  item_create s menu text show_arrow = Some (s', r) -> run s s'.
Proof. intros H. eapply run_prim, prim_item_create, H. Qed.

Lemma run_separator_create (s : state) menu label s' r :
  separator_create s menu label = Some (s', r) -> run s s'.
Proof. intros H. eapply run_prim, prim_separator_create, H. Qed.

Lemma run_menu_create (s : state) id label :
  run s (fst (menu_create s id label)).
Proof. apply run_prim, prim_menu_create. Qed.

Lemma run_action_arg (s : state) a n c s' :
  action_arg_from_xml_node s a n c = Some s' -> run s s'.
Proof.
  unfold action_arg_from_xml_node. intros H.
  destruct (find_action s a); [cbn [bind] in H | discriminate H].
  injection H as <-. apply run_prim.
  change (action_arg_write s a n c)
    with (map_items
            (fun i =>
               with_actions i
                 (map (fun act =>
                         if addr_eqb (action_addr act) a
                         then mkAction (action_addr act) (action_name act)
                                (action_args act ++ [(n, c)])
                         else act)
                    (item_actions i))) s).
  apply prim_map_items. frame_tac.
Qed.

Lemma run_fill_item (s : state) n c s' :
  fill_item s n c = Some s' -> run s s'.
Proof.
  unfold fill_item. intros H. bind_inv H; subst.
  - eapply run_trans; [eapply run_item_create; eassumption|]. statics.
  - apply run_refl.
  - eapply run_trans; [|apply run_update_item; frame_tac]. statics.
  - statics.
  - eapply run_action_arg; eassumption.
  - apply run_wlr_log.
  - apply run_wlr_log.
Qed.

Lemma run_entry (s : state) node n c s' :
  entry s node n c = Some s' -> run s s'.
Proof.
  unfold entry. intros H. bind_inv H; subst;
    try apply run_refl; eapply run_fill_item; eassumption.
Qed.

Lemma run_process_node (s : state) parents node s' :
  process_node s parents node = Some s' -> run s s'.
Proof.
  unfold process_node. intros H. bind_inv H; subst;
    [apply run_refl | eapply run_entry; eassumption].
Qed.

Lemma run_walk_attribute (s : state) parents attr s' :
  walk_attribute s parents attr = Some s' -> run s s'.
Proof.
  unfold walk_attribute. intros H. bind_inv H; subst;
    [apply run_refl | eapply run_process_node; eassumption].
Qed.

Lemma run_handle_separator_element (s : state) n s' :
  handle_separator_element s n = Some s' -> run s s'.
Proof.
  unfold handle_separator_element. intros H. bind_inv H; subst.
  eapply run_trans; [eapply run_separator_create; eassumption|]. statics.
Qed.

Lemma run_inline_item s (label : option string) s2 o :
  (if menu_level s >? 0
   then l <- label ;;
        ' (s, item) <- item_create s (current_menu s) l true ;;
        Some (set_current_item s item, item)
   else Some (s, None)) = Some (s2, o) ->
  run s s2.
Proof.
  intros H. bind_inv H; subst; [|apply run_refl].
  eapply run_trans; [eapply run_item_create; eassumption|]. statics.
Qed.

Lemma run_link_item s (o : option addr) (p : option addr) :
  run s match o with
        | Some it => update_item s it (fun x => with_submenu x p)
        | None => s
        end.
Proof.
  destruct o; [apply run_update_item; frame_tac | apply run_refl].
Qed.

Lemma run_handle_menu_element (trav : state -> option state) s parents n s' :
  (forall s0 s1, trav s0 = Some s1 -> run s0 s1) ->
  handle_menu_element trav s parents n = Some s' -> run s s'.
Proof.
  intros Htrav. unfold handle_menu_element. intros H. bind_inv H; subst;
    repeat match goal with
           | E : item_create _ _ _ _ = Some _ |- _ =>
             apply run_item_create in E
           | E : trav _ = Some _ |- _ => apply Htrav in E
           | E : (if menu_level _ >? 0 then _ else _) = Some _ |- _ =>
             apply run_inline_item in E
           | E : menu_create ?s ?i ?l = _ |- _ =>
             let R := fresh "R" in
             pose proof (run_menu_create s i l) as R; rewrite E in R;
             simpl in R; clear E
           end;
    try apply run_refl; try apply run_wlr_log.
  all: try (eapply run_trans; [eassumption|]).
  all: try (eapply run_trans; [|apply run_update_item; frame_tac]; statics).
  all: try statics.
  all: try (eapply run_trans; [|apply run_link_item]; statics).
  all: match goal with
       | R : run (set_menu_level ?a _) ?b,
         E : run (match ?o with _ => _ end) ?c |- run ?a _ =>
         apply run_trans with (set_menu_level a (menu_level a + 1));
           [statics|];
         apply run_trans with b; [exact R|];
         eapply run_trans; [|eapply run_trans; [exact E|statics]];
         eapply run_trans; [|apply run_link_item];
         statics
       end.
Qed.

Lemma fold_bind_none {A B : Type} (f : B -> A -> option B) (l : list A) :
  fold_left (fun acc x => b <- acc ;; f b x) l None = None.
Proof. induction l as [|x l IH]; [reflexivity | exact IH]. Qed.

Lemma run_fold_bind {A : Type} (f : state -> A -> option state)
    (l : list A) :
  Forall (fun x => forall s s', f s x = Some s' -> run s s') l ->
  forall s s',
    fold_left (fun acc x => s <- acc ;; f s x) l (Some s) = Some s' ->
    run s s'.
Proof.
  induction 1 as [|x l Hx _ IH]; intros s s' H; simpl in H.
  - injection H as <-. apply run_refl.
  - destruct (f s x) as [s1|] eqn:E.
    + eapply run_trans; [exact (Hx _ _ E) | exact (IH _ _ H)].
    + rewrite fold_bind_none in H. discriminate H.
Qed.

Lemma run_xml_tree_walk_with
    (trav : list string -> xmlNode -> state -> option state) parents nodes :
  Forall (fun n => forall p s s', trav p n s = Some s' -> run s s') nodes ->
  forall s s', xml_tree_walk_with trav parents nodes s = Some s' -> run s s'.
Proof.
  induction 1 as [|n nodes Hn _ IH]; intros s s' H; simpl in H.
  - injection H as <-. apply run_refl.
  - destruct (xml_name n) as [name|]; [|injection H as <-; apply run_refl].
    destruct (strcasecmp_eq name "comment"); [exact (IH _ _ H)|].
    destruct (strcasecmp_eq name "menu").
    { destruct (handle_menu_element (trav parents n) s parents n)
        as [s1|] eqn:E; [|discriminate H].
      eapply run_trans; [|exact (IH _ _ H)].
      eapply run_handle_menu_element; [|exact E].
      intros s0 s2. apply Hn. }
    destruct (strcasecmp_eq name "separator").
    { destruct (handle_separator_element s n) as [s1|] eqn:E;
        [|discriminate H].
      eapply run_trans; [|exact (IH _ _ H)].
      eapply run_handle_separator_element. exact E. }
    destruct (strcasecmp_eq name "item").
    { destruct (trav parents n (set_in_item s true)) as [s1|] eqn:E;
        [|discriminate H].
      apply run_trans with (set_in_item s true); [statics|].
      eapply run_trans; [exact (Hn _ _ _ E)|].
      apply run_trans with (set_in_item s1 false); [statics|].
      exact (IH _ _ H). }
    destruct (trav parents n s) as [s1|] eqn:E; [|discriminate H].
    eapply run_trans; [exact (Hn _ _ _ E) | exact (IH _ _ H)].
Qed.

Lemma run_traverse (n : xmlNode) :
  forall parents s s', traverse parents n s = Some s' -> run s s'.
Proof.
  induction n as [name content properties children IH]
    using xmlNode_forall_ind.
  intros parents s s' H. simpl in H.
  destruct (process_node s parents (XmlNode name content properties children))
    as [s1|] eqn:E1; [|discriminate H].
  cbn [bind] in H.
  match type of H with
  | bind ?x _ = _ => destruct x as [s2|] eqn:E2; [|discriminate H]
  end.
  cbn [bind] in H.
  eapply run_trans; [eapply run_process_node; exact E1|].
  eapply run_trans.
  - eapply run_fold_bind; cycle 1; [exact E2|].
    apply Forall_forall. intros attr _ s0 s3.
    apply run_walk_attribute.
  - eapply run_xml_tree_walk_with; [|exact H]. exact IH.
Qed.

Lemma run_xml_tree_walk parents nodes s s' :
  xml_tree_walk parents nodes s = Some s' -> run s s'.
Proof.
  apply run_xml_tree_walk_with.
  apply Forall_forall. intros n _ p s0 s1. apply run_traverse.
Qed.

Lemma run_parse_buf s buf s' ok :
  parse_buf s buf = Some (s', ok) -> run s s'.
Proof.
  unfold parse_buf. intros H.
  destruct (xmlParseMemory buf) as [root|].
  - destruct (xml_tree_walk [] [root] s) as [s1|] eqn:E; [|discriminate H].
    injection H as <- _. eapply run_xml_tree_walk. exact E.
  - injection H as <- _. apply run_wlr_log.
Qed.

Lemma run_post_processing s : run s (post_processing s).
Proof.
  apply run_prim. unfold post_processing. apply prim_map_menus. frame_tac.
Qed.

Lemma run_logs s (l : list diag) : run s (fold_left wlr_log l s).
Proof.
  revert s. induction l as [|d l IH]; intros s; simpl; [apply run_refl|].
  eapply run_trans; [apply run_wlr_log | apply IH].
Qed.

Lemma run_validate s : run s (validate s).
Proof.
  unfold validate. eapply run_trans; [|apply run_logs].
  apply run_prim.
  change (set_menus s (map validate_menu (menus s)))
    with (map_items
            (fun item =>
               with_actions item (filter action_is_valid (item_actions item)))
            s).
  apply prim_map_items. frame_tac.
Qed.

Lemma nullify_split s a :
  nullify_item_pointing_to_this_menu s a =
  update_menu_parent
    (map_items (fun item => if ptr_eqb (item_submenu item) a
                            then with_submenu item None else item) s) a.
Proof.
  unfold nullify_item_pointing_to_this_menu, update_menu_parent, map_items,
    set_menus.
  cbn. rewrite map_map. reflexivity.
Qed.

Lemma run_menu_free s a : run s (menu_free s a).
Proof.
  unfold menu_free. rewrite nullify_split.
  set (s1 := map_items _ s).
  apply run_trans with s1; [apply run_prim, prim_map_items; frame_tac|].
  apply run_trans with (update_menu_parent s1 a).
  - apply run_prim. unfold update_menu_parent.
    apply prim_map_menus. frame_tac.
  - apply run_prim, prim_filter_menus.
Qed.

Lemma run_destroy_pipemenus s : run s (destroy_pipemenus s).
Proof.
  unfold destroy_pipemenus. generalize (menus s) as l. intros l. revert s.
  induction l as [|m l IH]; intros s; simpl; [apply run_refl|].
  eapply run_trans; [|apply IH].
  destruct (is_pipemenu m); [apply run_menu_free | apply run_refl].
Qed.

Lemma run_menu_free_from s from : run s (menu_free_from s from).
Proof.
  unfold menu_free_from. generalize (negb (is_some from)) as d.
  generalize (menus s) as l. intros l. revert s.
  induction l as [|m l IH]; intros s d; simpl; [apply run_refl|].
  destruct (d || ptr_eqb from (menu_addr m)).
  - eapply run_trans; [apply run_menu_free | apply IH].
  - apply IH.
Qed.

Lemma run_menu_configure fuel :
  forall s a lx ly align s',
    menu_configure fuel s a lx ly align = Some s' -> run s s'.
Proof.
  induction fuel as [|fuel IH]; intros s a lx ly align s' H; simpl in H;
    [discriminate H|].
  destruct (find_menu s a) as [m|]; [cbn [bind] in H | discriminate H].
  destruct (wlr_output_layout_output_at lx ly) as [out|];
    [|injection H as <-; apply run_wlr_log].
  match type of H with
  | bind ?x _ = _ => destruct x as [fw|]; [cbn [bind] in H | discriminate H]
  end.
  match type of H with
  | fold_left _ _ (Some ?x) = _ =>
    apply run_trans with x; [apply run_update_menu; frame_tac|]
  end.
  eapply run_fold_bind; cycle 1; [exact H|].
  apply Forall_forall. intros item _ s0 s1 H0.
  destruct (item_submenu item); [|injection H0 as <-; apply run_refl].
  destruct (get_submenu_position s0 item _) as [[x y]|];
    [cbn [bind] in H0 | discriminate H0].
  eapply IH. exact H0.
Qed.

Lemma run__close fuel :
  forall s a s', _close fuel s a = Some s' -> run s s'.
Proof.
  induction fuel as [|fuel IH]; intros s a s' H; simpl in H;
    [discriminate H|].
  destruct (find_menu s a); [cbn [bind] in H | discriminate H].
  set (s1 := menu_set_selection _ a None) in H.
  assert (H1 : run s s1).
  { unfold s1, menu_set_selection.
    eapply run_trans; apply run_update_menu; frame_tac. }
  destruct (find_menu s1 a) as [m1|]; [cbn [bind] in H | discriminate H].
  destruct (selection_menu m1) as [sub|].
  - destruct (_close fuel s1 sub) as [s2|] eqn:E2;
      [cbn [bind] in H | discriminate H].
    injection H as <-.
    apply run_trans with s1; [exact H1|].
    apply run_trans with s2; [exact (IH _ _ _ E2)|].
    apply run_update_menu; frame_tac.
  - injection H as <-. exact H1.
Qed.

Lemma run_menu_close fuel s p s' : menu_close fuel s p = Some s' -> run s s'.
Proof.
  destruct p as [a|]; simpl; intros H.
  - eapply run__close. exact H.
  - injection H as <-. apply run_wlr_log.
Qed.

Lemma run_close_all_submenus fuel :
  forall s a s', close_all_submenus fuel s a = Some s' -> run s s'.
Proof.
  induction fuel as [|fuel IH]; intros s a s' H; simpl in H;
    [discriminate H|].
  destruct (find_menu s a) as [m|]; [cbn [bind] in H | discriminate H].
  match type of H with
  | bind ?x _ = _ => destruct x as [s1|] eqn:E; [cbn [bind] in H
                                               | discriminate H]
  end.
  injection H as <-.
  eapply run_trans; [|apply run_update_menu; frame_tac].
  eapply run_fold_bind; cycle 1; [exact E|].
  apply Forall_forall. intros item _ s0 s2 H0.
  destruct (item_submenu item) as [sub|]; [|injection H0 as <-; apply run_refl].
  destruct (find_menu s0 sub); [cbn [bind] in H0 | discriminate H0].
  eapply run_trans; [|eapply IH; exact H0].
  apply run_update_menu; frame_tac.
Qed.

Lemma run_menu_open_root fuel s a x y s' :
  menu_open_root fuel s a x y = Some s' ->
  exists s3,
    run s s3 /\
    s' = set_selected_item
           (set_input_mode
              (set_menu_current
                 (update_menu s3 a (fun m => with_enabled m true)) (Some a))
              LAB_INPUT_STATE_MENU) None.
Proof.
  unfold menu_open_root. intros H.
  match type of H with
  | bind ?x _ = _ => destruct x as [s1|] eqn:E1; [cbn [bind] in H
                                                | discriminate H]
  end.
  destruct (close_all_submenus fuel s1 a) as [s2|] eqn:E2;
    [cbn [bind] in H | discriminate H].
  destruct (menu_configure fuel (menu_set_selection s2 a None) a x y
              LAB_MENU_OPEN_AUTO) as [s3|] eqn:E3;
    [cbn [bind] in H | discriminate H].
  destruct (find_menu s3 a); [cbn [bind] in H | discriminate H].
  injection H as <-. exists s3. split; [|reflexivity].
  apply run_trans with s1.
  { destruct (menu_current s); [|injection E1 as <-; apply run_refl].
    destruct (menu_close fuel s (Some a0)) as [s0|] eqn:E0;
      [cbn [bind] in E1 | discriminate E1].
    injection E1 as <-.
    eapply run_trans; [eapply run_menu_close; exact E0|].
    apply run_destroy_pipemenus. }
  eapply run_trans; [eapply run_close_all_submenus; exact E2|].
  eapply run_trans; [|eapply run_menu_configure; exact E3].
  apply run_update_menu; frame_tac.
Qed.

Lemma run_menu_close_root fuel s s' :
  menu_close_root fuel s = Some s' ->
  exists s1,
    run s s1 /\
    s' = set_input_mode (destroy_pipemenus (set_menu_current s1 None))
           LAB_INPUT_STATE_PASSTHROUGH \/
    s' = set_input_mode s LAB_INPUT_STATE_PASSTHROUGH.
Proof.
  unfold menu_close_root. intros H.
  destruct (input_mode s); [discriminate H|].
  destruct (menu_current s) as [a|] eqn:Ec; cbn [bind] in H.
  - destruct (menu_close fuel s (Some a)) as [s0|] eqn:E0;
      [cbn [bind] in H | discriminate H].
    injection H as <-. exists s0. left. split; [|reflexivity].
    eapply run_menu_close; exact E0.
  - injection H as <-. exists s. right. reflexivity.
Qed.

Lemma run_menu_hide_submenu s id : run s (menu_hide_submenu s id).
Proof. apply run_prim, prim_hide_submenu. Qed.

Lemma run_create_pipe_menu fuel s ctx s' :
  create_pipe_menu fuel s ctx = Some s' -> run s s'.
Proof.
  unfold create_pipe_menu. intros H.
  destruct (find_item s (ctx_item ctx)) as [item|];
    [cbn [bind] in H | discriminate H].
  destruct (find_menu s (item_parent item)) as [pp|];
    [cbn [bind] in H | discriminate H].
  destruct (node_enabled pp); cbn [negb] in H;
    [|injection H as <-; apply run_wlr_log].
  destruct (item_id item) as [id|]; [cbn [bind] in H | discriminate H].
  pose proof (run_menu_create s id None) as Hc.
  destruct (menu_create s id None) as [s1 pm]. cbn [fst] in Hc.
  match type of H with
  | bind (parse_buf ?x _) _ = _ =>
    destruct (parse_buf x (ctx_buf ctx)) as [[s2 ok]|] eqn:Ep;
      [cbn [bind] in H | discriminate H];
    assert (H12 : run s1 s2)
  end.
  { eapply run_trans; [|eapply run_parse_buf; exact Ep].
    match goal with
    | |- run _ (set_current_menu (set_menu_level ?x _) _) =>
      apply run_trans with x; [apply run_update_menu; frame_tac | statics]
    end. }
  match type of H with
  | bind ?x _ = _ => destruct x as [s3|] eqn:E3; [cbn [bind] in H
                                                | discriminate H]
  end.
  injection H as <-.
  eapply run_trans; [exact Hc|]. eapply run_trans; [exact H12|].
  apply run_trans with s3; [|statics].
  destruct ok.
  - destruct (find_item s2 (ctx_item ctx)); [cbn [bind] in E3|discriminate E3].
    set (s4 := post_processing _) in E3.
    assert (H24 : run s2 s4).
    { unfold s4. eapply run_trans; [|apply run_post_processing].
      apply run_update_item; frame_tac. }
    destruct (find_item s4 (ctx_item ctx)) as [it|];
      [cbn [bind] in E3|discriminate E3].
    destruct (find_menu s4 (item_parent it)) as [par|];
      [cbn [bind] in E3|discriminate E3].
    destruct (find_menu s4 (item_parent item)) as [pp2|];
      [cbn [bind] in E3|discriminate E3].
    match type of E3 with
    | bind ?x _ = _ => destruct x as [s5|] eqn:E5; [cbn [bind] in E3
                                                  | discriminate E3]
    end.
    destruct (find_menu (validate s5) pm); [cbn [bind] in E3|discriminate E3].
    injection E3 as <-.
    apply run_trans with s4; [exact H24|].
    apply run_trans with s5; [eapply run_menu_configure; exact E5|].
    apply run_trans with (validate s5); [apply run_validate|].
    eapply run_trans; apply run_update_menu; frame_tac.
  - destruct (find_item (menu_free s2 pm) (ctx_item ctx));
      [cbn [bind] in E3|discriminate E3].
    injection E3 as <-.
    apply run_trans with (menu_free s2 pm); [apply run_menu_free|].
    apply run_update_item; frame_tac.
Qed.

Lemma run_menu_execute_item fuel s item s' b :
  menu_execute_item fuel s item = Some (s', b) -> run s s'.
Proof.
  unfold menu_execute_item. intros H.
  destruct (find_item s item) as [it|]; [cbn [bind] in H|discriminate H].
  destruct (is_some (item_submenu it) || negb (item_selectable it));
    [injection H as <- _; apply run_refl|].
  destruct (find_menu s (item_parent it)); [cbn [bind] in H|discriminate H].
  destruct (menu_close fuel s (menu_current s)) as [s1|] eqn:E;
    [cbn [bind] in H|discriminate H].
  injection H as <- _.
  eapply run_trans; [eapply run_menu_close; exact E|].
  eapply run_trans; [|apply run_destroy_pipemenus]. statics.
Qed.

End RunLemmas.

Ltac statics :=
  apply run_statics; try reflexivity; try (simpl; lia);
  first [ exists (@nil diag); simpl; rewrite app_nil_r; reflexivity
        | eexists; reflexivity ].

(** ** C6: the width set by the layout pass *)

Section Width.

Context {P : Platform}.

Lemma wrap_int_id (z : Z) : in_int z -> wrap_int z = z.
Proof.
  unfold in_int, wrap_int. intros H.
  rewrite Z.mod_small by lia. lia.
Qed.

(** The loop keeps the minimum until an item is wider than it, and
    then holds the widest item met, cut at the maximum. *)
Lemma width_fold_from (t : theme) (items : list menuitem) :
  forall widest,
    fold_left (width_step t) items
      (if widest >? menu_min_width t then Z.min widest (menu_max_width t)
       else menu_min_width t)
    = if fold_left Z.max (map item_native_width items) widest
         >? menu_min_width t
      then Z.min (fold_left Z.max (map item_native_width items) widest)
             (menu_max_width t)
      else menu_min_width t.
Proof.
  induction items as [|item items IH]; intros widest; [reflexivity|].
  cbn [fold_left map]. rewrite <- IH. f_equal. unfold width_step.
  destruct (Z.gtb_spec widest (menu_min_width t));
    destruct (Z.gtb_spec (Z.max widest (item_native_width item))
                (menu_min_width t));
    match goal with
    | |- context [item_native_width item >? ?x] =>
      destruct (Z.gtb_spec (item_native_width item) x)
    end;
    destruct (Z.ltb_spec (item_native_width item) (menu_max_width t));
    lia.
Qed.

Lemma width_fold_loop (t : theme) (items : list menuitem) :
  fold_left (width_step t) items (menu_min_width t) = loop_max_width t items.
Proof.
  unfold loop_max_width, widest_native_width.
  destruct items as [|item rest]; [reflexivity|].
  cbn [fold_left]. rewrite <- (width_fold_from t rest (item_native_width item)).
  f_equal. unfold width_step.
  destruct (Z.gtb_spec (item_native_width item) (menu_min_width t));
    [|reflexivity].
  destruct (Z.ltb_spec (item_native_width item) (menu_max_width t)); lia.
Qed.

(** C6.  The width [menu_update_width] stores is, in [int] arithmetic,
    twice the horizontal item padding added to what its loop leaves:
    the widest item's natural width cut at the maximum if an item is
    wider than the minimum, and the minimum otherwise.  Where the
    theme's minimum width is not above its maximum width and neither
    the doubling nor the sum leaves the range of [int], this is the
    larger of the minimum and the widest item's natural width clamped
    to the maximum, plus twice the padding. *)
Theorem menu_update_width_spec (m : menu) :
  size_width (menu_update_width m)
  = wrap_int (loop_max_width server_theme (menuitems m)
              + wrap_int (2 * menu_item_padding_x server_theme)) /\
  (menu_min_width server_theme <= menu_max_width server_theme ->
   in_int (2 * menu_item_padding_x server_theme) ->
   in_int (spec_menu_width server_theme (menuitems m)) ->
   size_width (menu_update_width m)
   = spec_menu_width server_theme (menuitems m)).
Proof.
  assert (Hcode :
            size_width (menu_update_width m)
            = wrap_int (loop_max_width server_theme (menuitems m)
                        + wrap_int (2 * menu_item_padding_x server_theme))).
  { unfold menu_update_width. cbn [size_width with_size_width].
    change (fold_left _ (menuitems m) (menu_min_width server_theme))
      with (fold_left (width_step server_theme) (menuitems m)
              (menu_min_width server_theme)).
    rewrite width_fold_loop. reflexivity. }
  split; [exact Hcode|].
  intros Hle Hpad Hsum. rewrite Hcode, (wrap_int_id Hpad).
  assert (Hbase :
            loop_max_width server_theme (menuitems m)
            + 2 * menu_item_padding_x server_theme
            = spec_menu_width server_theme (menuitems m)).
  { unfold loop_max_width, spec_menu_width.
    destruct (widest_native_width (menuitems m)) as [w|]; [|reflexivity].
    destruct (Z.gtb_spec w (menu_min_width server_theme)); lia. }
  rewrite Hbase. apply wrap_int_id. exact Hsum.
Qed.

End Width.

(** ** Invariants of runs *)

Section Invariants.

Context {P : Platform}.

Lemma run_invariant (Q : state -> Prop) :
  (forall s s', prim s s' -> Q s -> Q s') ->
  forall s s', run s s' -> Q s -> Q s'.
Proof.
  intros Hprim s s' Hrun. induction Hrun as [|s s1 s2 Hp _ IH]; intros HQ.
  - exact HQ.
  - apply IH. exact (Hprim _ _ Hp HQ).
Qed.

Lemma map_update_frame {A : Type} (proj : menu -> A) (f : menu -> menu)
    (l : list menu) :
  (forall m, proj (f m) = proj m) -> map proj (map f l) = map proj l.
Proof.
  intros Hf. rewrite map_map. apply map_ext. exact Hf.
Qed.

Lemma heights_sum_app (l1 l2 : list menuitem) :
  heights_sum (l1 ++ l2) = heights_sum l1 + heights_sum l2.
Proof. induction l1 as [|i l1 IH]; simpl; [reflexivity | lia]. Qed.

Lemma stacked_from_app (l1 l2 : list menuitem) :
  forall y,
    stacked_from y (l1 ++ l2) <->
    stacked_from y l1 /\ stacked_from (y + heights_sum l1) l2.
Proof.
  induction l1 as [|i l1 IH]; intros y; simpl.
  - rewrite Z.add_0_r. tauto.
  - rewrite IH, Z.add_assoc. tauto.
Qed.

Lemma layout_ok_append (m m' : menu) (item : menuitem) :
  menuitems m' = menuitems m ++ [item] ->
  size_height m' = size_height m + item_height_of item ->
  item_node_y item = size_height m ->
  layout_ok m -> layout_ok m'.
Proof.
  intros Hitems Hheight Hy [Hh Hs]. unfold layout_ok.
  rewrite Hitems, Hheight, heights_sum_app. split.
  - simpl. lia.
  - apply stacked_from_app. split; [exact Hs|]. simpl.
    split; [|exact I]. rewrite Hy, Hh. lia.
Qed.

Ltac creation_frame :=
  split; [reflexivity|split; [reflexivity|]];
  first [ tauto
        | let Hok := fresh "Hok" in
          intros Hok; eapply layout_ok_append; [| | |exact Hok];
          reflexivity ].

Lemma item_create_menus s menu text show_arrow s' r :
  item_create s menu text show_arrow = Some (s', r) ->
  exists f,
    menus s' = map f (menus s) /\
    (forall m, menu_addr (f m) = menu_addr m /\ menu_id (f m) = menu_id m /\
               (layout_ok m -> layout_ok (f m))) /\
    ctxs s' = ctxs s /\ waiting_for_pipe_menu s' = waiting_for_pipe_menu s /\
    killed s' = killed s /\ (exists l, log s' = log s ++ l).
Proof.
  unfold item_create. intros H. bind_inv H; subst.
  - eexists. split; [cbn [menus update_menu set_menus]; rewrite map_map;
                     reflexivity|].
    split; [|repeat split; exists []; simpl; rewrite app_nil_r; reflexivity].
    intros m0. cbv beta.
    destruct (addr_eqb (menu_addr m0) a) eqn:Ea.
    + destruct (menu_item_height m0 =? 0);
        cbn [menu_addr with_item_height]; rewrite Ea; creation_frame.
    + rewrite Ea. creation_frame.
  - eexists. split; [cbn [menus update_menu set_menus wlr_log]; reflexivity|].
    split; [|repeat split; eexists; reflexivity].
    intros m0. cbv beta.
    destruct (addr_eqb (menu_addr m0) a);
      [destruct (menu_item_height m0 =? 0)|]; creation_frame.
Qed.

Lemma separator_create_menus s menu label s' r :
  separator_create s menu label = Some (s', r) ->
  exists f,
    menus s' = map f (menus s) /\
    (forall m, menu_addr (f m) = menu_addr m /\ menu_id (f m) = menu_id m /\
               (layout_ok m -> layout_ok (f m))) /\
    ctxs s' = ctxs s /\ waiting_for_pipe_menu s' = waiting_for_pipe_menu s /\
    killed s' = killed s /\ (exists l, log s' = log s ++ l).
Proof.
  unfold separator_create. intros H. bind_inv H; subst.
  eexists. split; [cbn [menus update_menu set_menus]; reflexivity|].
  split; [|repeat split; exists []; simpl; rewrite app_nil_r; reflexivity].
  intros m0. cbv beta.
  destruct (addr_eqb (menu_addr m0) a); creation_frame.
Qed.

Lemma reposition_spec (items : list menuitem) :
  forall y,
    snd (reposition y items) = y + heights_sum (fst (reposition y items)) /\
    stacked_from y (fst (reposition y items)).
Proof.
  induction items as [|i items IH]; intros y; simpl.
  - split; [lia | exact I].
  - specialize (IH (y + item_height_of i)).
    destruct (reposition (y + item_height_of i) items) as [rest h].
    simpl in *. destruct IH as [Hh Hs]. repeat split; [lia | exact Hs].
Qed.

Lemma hide_submenu_in_frame (hide : addr) (m : menu) :
  menu_addr (hide_submenu_in hide m) = menu_addr m /\
  menu_id (hide_submenu_in hide m) = menu_id m /\
  (layout_ok m -> layout_ok (hide_submenu_in hide m)).
Proof.
  unfold hide_submenu_in.
  destruct (existsb _ (menuitems m));
    [|split; [reflexivity|split; [reflexivity|tauto]]].
  match goal with
  | |- context [reposition 0 ?l] =>
    pose proof (reposition_spec l 0) as [Hh Hs];
      destruct (reposition 0 l) as [items h]
  end.
  simpl in *. split; [reflexivity|split; [reflexivity|]].
  intros _. split; simpl; [lia | exact Hs].
Qed.

Lemma menu_hide_submenu_menus s id :
  exists f,
    menus (menu_hide_submenu s id) = map f (menus s) /\
    (forall m, menu_addr (f m) = menu_addr m /\ menu_id (f m) = menu_id m /\
               (layout_ok m -> layout_ok (f m))) /\
    ctxs (menu_hide_submenu s id) = ctxs s /\
    waiting_for_pipe_menu (menu_hide_submenu s id)
    = waiting_for_pipe_menu s /\
    killed (menu_hide_submenu s id) = killed s /\
    (exists l, log (menu_hide_submenu s id) = log s ++ l).
Proof.
  unfold menu_hide_submenu.
  destruct (menu_get_by_id s (Some id)) as [hide|].
  - exists (hide_submenu_in (menu_addr hide)).
    split; [reflexivity|]. split; [apply hide_submenu_in_frame|].
    split; [reflexivity|]. split; [reflexivity|]. split; [reflexivity|].
    exists []. simpl. rewrite app_nil_r. reflexivity.
  - exists (fun m => m). rewrite map_id. split; [reflexivity|].
    split; [intros m; split; [reflexivity|split; [reflexivity|tauto]]|].
    split; [reflexivity|]. split; [reflexivity|]. split; [reflexivity|].
    exists []. rewrite app_nil_r. reflexivity.
Qed.

Lemma prim_pipe_frame s s' :
  prim s s' ->
  ctxs s' = ctxs s /\ waiting_for_pipe_menu s' = waiting_for_pipe_menu s /\
  killed s' = killed s.
Proof.
  intros Hp. destruct Hp as
      [s s' _ Hc Hw Hk _ _ _ | s f _ | s g _ | s f
       | s menu text show_arrow s' r H | s menu label s' r H
       | s id label | s id].
  - auto.
  - repeat split.
  - repeat split.
  - repeat split.
  - destruct (item_create_menus _ _ _ _ H) as (f & _ & _ & Hc & Hw & Hk & _).
    auto.
  - destruct (separator_create_menus _ _ _ H) as (f & _ & _ & Hc & Hw & Hk & _).
    auto.
  - unfold menu_create. destruct (is_unique_id s id); repeat split.
  - destruct (menu_hide_submenu_menus s id) as (f & _ & _ & Hc & Hw & Hk & _).
    auto.
Qed.

Lemma run_pipe_frame s s' :
  run s s' ->
  ctxs s' = ctxs s /\ waiting_for_pipe_menu s' = waiting_for_pipe_menu s /\
  killed s' = killed s.
Proof.
  induction 1 as [|s s1 s2 Hp _ IH]; [repeat split|].
  destruct (prim_pipe_frame Hp) as (Hc & Hw & Hk).
  destruct IH as (Hc' & Hw' & Hk'). repeat split; congruence.
Qed.

Lemma heights_sum_map (g : menuitem -> menuitem) (l : list menuitem) :
  (forall i, item_frame (g i) i) -> heights_sum (map g l) = heights_sum l.
Proof.
  intros Hg. induction l as [|i l IH]; simpl; [reflexivity|].
  destruct (Hg i) as (_ & Hh & _). rewrite Hh, IH. reflexivity.
Qed.

Lemma stacked_from_map (g : menuitem -> menuitem) (l : list menuitem) :
  (forall i, item_frame (g i) i) ->
  forall y, stacked_from y l -> stacked_from y (map g l).
Proof.
  intros Hg. induction l as [|i l IH]; intros y; simpl; [trivial|].
  destruct (Hg i) as (_ & Hh & Hy). rewrite Hh, Hy.
  intros [E Hs]. split; [exact E | apply IH; exact Hs].
Qed.

Lemma all_layout_ok_map s (f : menu -> menu) :
  (forall m, layout_ok m -> layout_ok (f m)) ->
  all_layout_ok s -> all_layout_ok (set_menus s (map f (menus s))).
Proof.
  intros Hf Hok m Hin. simpl in Hin. apply in_map_iff in Hin.
  destruct Hin as (m0 & <- & Hin). apply Hf, Hok, Hin.
Qed.

Lemma all_layout_ok_menus s s' (f : menu -> menu) :
  menus s' = map f (menus s) ->
  (forall m, layout_ok m -> layout_ok (f m)) ->
  all_layout_ok s -> all_layout_ok s'.
Proof.
  intros Hm Hf Hok m Hin. rewrite Hm in Hin. apply in_map_iff in Hin.
  destruct Hin as (m0 & <- & Hin). apply Hf, Hok, Hin.
Qed.

Lemma prim_layout s s' : prim s s' -> all_layout_ok s -> all_layout_ok s'.
Proof.
  intros Hp Hok. destruct Hp as
      [s s' Hm _ _ _ _ _ _ | s f Hf | s g Hg | s f
       | s menu text show_arrow s' r H | s menu label s' r H
       | s id label | s id].
  - intros m Hin. rewrite Hm in Hin. exact (Hok m Hin).
  - apply all_layout_ok_map; [|exact Hok].
    intros m [Hh Hs]. destruct (Hf m) as (_ & _ & Hi & Hz).
    unfold layout_ok. rewrite Hi, Hz. split; assumption.
  - apply all_layout_ok_map; [|exact Hok].
    intros m [Hh Hs]. split; simpl.
    + rewrite heights_sum_map by exact Hg. exact Hh.
    + apply stacked_from_map; assumption.
  - intros m Hin. simpl in Hin. apply filter_In in Hin. apply Hok, Hin.
  - destruct (item_create_menus _ _ _ _ H) as (f & Hm & Hf & _).
    eapply all_layout_ok_menus; [exact Hm | apply Hf | exact Hok].
  - destruct (separator_create_menus _ _ _ H) as (f & Hm & Hf & _).
    eapply all_layout_ok_menus; [exact Hm | apply Hf | exact Hok].
  - destruct (menu_create_menus s id label) as (m0 & Hm & _ & _ & Hi & Hh).
    intros m Hin. rewrite Hm in Hin. apply in_app_or in Hin.
    destruct Hin as [Hin|[<-|[]]]; [exact (Hok m Hin)|].
    split; [rewrite Hi, Hh; reflexivity | rewrite Hi; exact I].
  - destruct (menu_hide_submenu_menus s id) as (f & Hm & Hf & _).
    eapply all_layout_ok_menus; [exact Hm | apply Hf | exact Hok].
Qed.

Lemma NoDup_map_filter {A B : Type} (proj : A -> B) (f : A -> bool)
    (l : list A) :
  NoDup (map proj l) -> NoDup (map proj (filter f l)).
Proof.
  induction l as [|x l IH]; simpl; intros Hnd; [exact Hnd|].
  inversion Hnd as [|y l' Hnotin Hnd']. subst.
  destruct (f x); simpl; [|exact (IH Hnd')].
  constructor; [|exact (IH Hnd')].
  intros Hin. apply Hnotin. apply in_map_iff in Hin.
  destruct Hin as (z & E & Hz). apply filter_In in Hz.
  apply in_map_iff. exists z. split; [exact E | apply Hz].
Qed.

Lemma log_extends_refl (s : state) : exists l, log s = log s ++ l.
Proof. exists []. rewrite app_nil_r. reflexivity. Qed.

Lemma repeated_NoDup (ids : list string) : repeated ids = 0%nat <-> NoDup ids.
Proof.
  induction ids as [|id rest IH]; cbn [repeated].
  - split; [constructor | reflexivity].
  - destruct (existsb (String.eqb id) rest) eqn:Ex.
    + split; [discriminate|]. intros Hnd. exfalso.
      inversion Hnd as [|x l Hnotin _]. subst. apply Hnotin.
      apply existsb_exists in Ex. destruct Ex as (y & Hy & E).
      apply String.eqb_eq in E. subst y. exact Hy.
    + cbn [Nat.add]. rewrite IH. split.
      * intros Hnd. constructor; [|exact Hnd]. intros Hin.
        assert (existsb (String.eqb id) rest = true); [|congruence].
        apply existsb_exists. exists id. split; [exact Hin|].
        apply String.eqb_refl.
      * intros Hnd. inversion Hnd. assumption.
Qed.

Lemma repeated_filter {A : Type} (proj : A -> string) (f : A -> bool)
    (l : list A) :
  (repeated (map proj (filter f l)) <= repeated (map proj l))%nat.
Proof.
  induction l as [|x l IH]; cbn [filter map repeated]; [lia|].
  destruct (f x); cbn [map repeated]; [|lia].
  destruct (existsb (String.eqb (proj x)) (map proj (filter f l))) eqn:Ex;
    [|lia].
  assert (Ex' : existsb (String.eqb (proj x)) (map proj l) = true).
  { apply existsb_exists in Ex. destruct Ex as (y & Hy & E).
    apply existsb_exists. exists y. split; [|exact E].
    apply in_map_iff in Hy. destruct Hy as (z & <- & Hz).
    apply filter_In in Hz. apply in_map. apply Hz. }
  rewrite Ex'. lia.
Qed.

Lemma repeated_snoc (ids : list string) (id : string) :
  repeated (ids ++ [id])
  = (repeated ids
     + (if existsb (fun x => String.eqb x id) ids then 1 else 0))%nat.
Proof.
  induction ids as [|x rest IH]; [reflexivity|].
  cbn [app repeated existsb]. rewrite IH, existsb_app.
  cbn [existsb]. rewrite orb_false_r.
  destruct (String.eqb x id) eqn:E.
  - apply String.eqb_eq in E. subst x. rewrite orb_true_r.
    assert (Hsym : existsb (String.eqb id) rest
                   = existsb (fun x => String.eqb x id) rest).
    { clear IH. induction rest as [|y rest IHr]; [reflexivity|].
      cbn [existsb]. rewrite IHr, (String.eqb_sym id y). reflexivity. }
    rewrite Hsym.
    destruct (existsb (fun x => String.eqb x id) rest); cbn; lia.
  - rewrite orb_false_r.
    destruct (existsb (String.eqb x) rest),
             (existsb (fun x0 => String.eqb x0 id) rest); cbn; lia.
Qed.

Lemma diagnosed_extends (s s' : state) :
  (exists l, log s' = log s ++ l) -> (diagnosed s <= diagnosed s')%nat.
Proof.
  intros (l & Hl). unfold diagnosed. rewrite Hl, filter_app, length_app. lia.
Qed.

Lemma accounted_refl (s : state) : accounted s s.
Proof. unfold accounted. lia. Qed.

Lemma accounted_trans (s1 s2 s3 : state) :
  accounted s1 s2 -> accounted s2 s3 -> accounted s1 s3.
Proof. unfold accounted. lia. Qed.

Lemma accounted_same s s' :
  map menu_id (menus s') = map menu_id (menus s) ->
  (exists l, log s' = log s ++ l) -> accounted s s'.
Proof.
  intros Hids Hlog. pose proof (@diagnosed_extends _ _ Hlog).
  unfold accounted, repeated_ids. rewrite Hids. lia.
Qed.

Lemma existsb_ids (l : list menu) (id : string) :
  existsb (fun x => String.eqb x id) (map menu_id l)
  = existsb (fun m => String.eqb (menu_id m) id) l.
Proof.
  induction l as [|m l IH]; [reflexivity|].
  cbn [map existsb]. rewrite IH. reflexivity.
Qed.

(** Only [menu_create] under an id that is taken adds a repeated id,
    and it logs the diagnostic. *)
Lemma menu_create_accounted (s : state) (id : string)
    (label : option string) :
  exists m,
    menus (fst (menu_create s id label)) = menus s ++ [m] /\
    menu_id m = id /\
    if is_unique_id s id then
      log (fst (menu_create s id label)) = log s /\
      repeated_ids (fst (menu_create s id label)) = repeated_ids s
    else
      log (fst (menu_create s id label)) = log s ++ [DiagMenuIdExists] /\
      repeated_ids (fst (menu_create s id label)) = S (repeated_ids s).
Proof.
  destruct (menu_create_menus s id label) as (m & Hm & _ & Hid & _).
  exists m. split; [exact Hm|]. split; [exact Hid|].
  rewrite menu_create_log. unfold repeated_ids.
  rewrite Hm, map_app. cbn [map]. rewrite Hid, repeated_snoc.
  unfold is_unique_id.
  rewrite existsb_ids.
  destruct (existsb (fun m0 => String.eqb (menu_id m0) id) (menus s));
    cbn [negb]; split; try reflexivity; lia.
Qed.

Lemma prim_accounted s s' : prim s s' -> accounted s s'.
Proof.
  intros Hp. destruct Hp as
      [s s' Hm _ _ _ _ Hl _ | s f Hf | s g Hg | s f
       | s menu text show_arrow s' r H | s menu label s' r H
       | s id label | s id].
  - apply accounted_same; [rewrite Hm; reflexivity | exact Hl].
  - apply accounted_same; [|exact (log_extends_refl s)].
    simpl. apply map_update_frame. intros m. apply Hf.
  - apply accounted_same; [|exact (log_extends_refl s)].
    simpl. apply map_update_frame. reflexivity.
  - unfold accounted, repeated_ids. cbn [menus set_menus].
    pose proof (repeated_filter menu_id f (menus s)).
    change (diagnosed (set_menus s (filter f (menus s)))) with (diagnosed s).
    lia.
  - destruct (item_create_menus _ _ _ _ H)
      as (f & Hm & Hf & _ & _ & _ & Hl).
    apply accounted_same; [|exact Hl].
    rewrite Hm. apply map_update_frame. intros m. apply Hf.
  - destruct (separator_create_menus _ _ _ H)
      as (f & Hm & Hf & _ & _ & _ & Hl).
    apply accounted_same; [|exact Hl].
    rewrite Hm. apply map_update_frame. intros m. apply Hf.
  - destruct (menu_create_accounted s id label) as (m & _ & _ & Hc).
    unfold accounted, diagnosed.
    destruct (is_unique_id s id); destruct Hc as [Hlog Hr];
      rewrite Hlog, Hr; [lia|].
    rewrite filter_app, length_app. cbn. lia.
  - destruct (menu_hide_submenu_menus s id)
      as (f & Hm & Hf & _ & _ & _ & Hl).
    apply accounted_same; [|exact Hl].
    rewrite Hm. apply map_update_frame. intros m. apply Hf.
Qed.

Lemma run_accounted s s' : run s s' -> accounted s s'.
Proof.
  induction 1 as [s | s s1 s2 Hp _ IH]; [apply accounted_refl|].
  exact (@accounted_trans _ _ _ (prim_accounted Hp) IH).
Qed.

Lemma evolves_layout s s' :
  evolves s s' -> all_layout_ok s -> all_layout_ok s'.
Proof.
  induction 1 as [s s' Hr | s s' Hm _ _ | s s1 s2 _ IH1 _ IH2]; intros Hok.
  - exact (run_invariant _ (@prim_layout) Hr Hok).
  - intros m Hin. rewrite Hm in Hin. exact (Hok m Hin).
  - exact (IH2 (IH1 Hok)).
Qed.

Lemma evolves_accounted s s' : evolves s s' -> accounted s s'.
Proof.
  induction 1 as [s s' Hr | s s' Hm Hl _ | s s1 s2 _ IH1 _ IH2].
  - exact (run_accounted Hr).
  - apply accounted_same; [rewrite Hm; reflexivity | exact Hl].
  - exact (@accounted_trans _ _ _ IH1 IH2).
Qed.

End Invariants.

(** ** What the events do to the pipe-menu bookkeeping *)

Section Pipe.

Context {P : Platform}.

Lemma parse_pipemenu_cases spawn_piped s it s' :
  parse_pipemenu spawn_piped s it = Some s' ->
  (exists d, s' = wlr_log s d) \/
  (exists pid fd, s' = spawned s (item_addr it) pid fd).
Proof.
  unfold parse_pipemenu. intros H. bind_inv H; subst.
  - left. eexists. reflexivity.
  - left. eexists. reflexivity.
  - right. eexists. eexists. reflexivity.
Qed.

Lemma find_item_addr s a it : find_item s a = Some it -> item_addr it = a.
Proof.
  unfold find_item. intros H. apply find_some in H. destruct H as [_ H].
  apply Nat.eqb_eq in H. exact H.
Qed.

Lemma select_cases fuel spawn_piped s item s' :
  menu_process_item_selection fuel spawn_piped s item = Some s' ->
  ((ptr_eqb (selected_item s) item = true \/
    waiting_for_pipe_menu s = true) /\ s' = s) \/
  (waiting_for_pipe_menu s = false /\
   exists s1,
     run (set_selected_item s (Some item)) s1 /\
     (s' = s1 \/
      exists it,
        find_item s1 item = Some it /\ item_submenu it = None /\
        parse_pipemenu spawn_piped s1 it = Some s')).
Proof.
  unfold menu_process_item_selection. intros H.
  destruct (ptr_eqb (selected_item s) item);
    [left; split; [left; reflexivity | congruence]|].
  destruct (waiting_for_pipe_menu s) eqn:Ew;
    [left; split; [right; reflexivity | congruence]|].
  right. split; [reflexivity|].
  set (s0 := set_selected_item s (Some item)) in *.
  destruct (find_item s0 item) as [it|]; [cbn [bind] in H|discriminate H].
  destruct (item_selectable it); cbn [negb] in H;
    [|injection H as <-; exists s0; split; [apply run_refl | left; reflexivity]].
  destruct (find_menu s0 (item_parent it));
    [cbn [bind] in H|discriminate H].
  set (s1 := menu_set_selection s0 _ _) in H.
  assert (H1 : run s0 s1) by (apply run_update_menu; frame_tac).
  destruct (find_menu s1 (item_parent it)) as [parent|];
    [cbn [bind] in H|discriminate H].
  match type of H with
  | bind ?x _ = _ => destruct x as [s2|] eqn:E2; [cbn [bind] in H
                                                | discriminate H]
  end.
  assert (H2 : run s0 s2).
  { eapply run_trans; [exact H1|].
    destruct (selection_menu parent) as [sub|].
    - eapply run_menu_close. exact E2.
    - injection E2 as <-. apply run_refl. }
  destruct (find_item s2 item) as [it2|] eqn:Ei;
    [cbn [bind] in H|discriminate H].
  destruct (is_some (item_execute it2) && negb (is_some (item_submenu it2)))
    eqn:Eb.
  - exists s2. split; [exact H2|]. right. exists it2.
    apply andb_prop in Eb. destruct Eb as [_ Eb].
    destruct (item_submenu it2); [discriminate Eb|]. auto.
  - match type of H with
    | bind ?x _ = _ => destruct x as [s3|] eqn:E3; [cbn [bind] in H
                                                  | discriminate H]
    end.
    destruct (find_menu s3 (item_parent it));
      [cbn [bind] in H|discriminate H].
    injection H as <-. eexists. split; [|left; reflexivity].
    eapply run_trans; [exact H2|].
    apply run_trans with s3; [|apply run_update_menu; frame_tac].
    destruct (item_submenu it2) as [sub|];
      [|injection E3 as <-; apply run_refl].
    bind_inv E3. subst. apply run_update_menu; frame_tac.
Qed.

Lemma readable_cases fuel s c r s' :
  handle_pipemenu_readable fuel s c r = Some s' ->
  exists ctx,
    find_ctx s c = Some ctx /\
    ((r = ReadError /\
      s' = pipemenu_ctx_destroy (wlr_log s DiagPipeReadFailed) c) \/
     (exists data,
         r = ReadOk data /\
         buf_len (ctx_buf ctx) + buf_len data > PIPEMENU_MAX_BUF_SIZE /\
         s' = pipemenu_ctx_destroy
                (kill (wlr_log s DiagPipeTooBig) (ctx_pid ctx) SIGTERM) c) \/
     (exists data,
         r = ReadOk data /\
         buf_len (ctx_buf ctx) + buf_len data <= PIPEMENU_MAX_BUF_SIZE /\
         buf_len data <> 0 /\
         s' = set_ctxs s
                (map (fun x => if addr_eqb (ctx_addr x) c
                               then with_buf x (buf_add (ctx_buf x) data)
                               else x) (ctxs s))) \/
     (exists data,
         r = ReadOk data /\ buf_len data = 0 /\
         buf_len (ctx_buf ctx) <= PIPEMENU_MAX_BUF_SIZE /\
         starts_with_less_than (ctx_buf ctx) = false /\
         s' = pipemenu_ctx_destroy (wlr_log s DiagPipeExpectLessThan) c) \/
     (exists data s1,
         r = ReadOk data /\ buf_len data = 0 /\
         buf_len (ctx_buf ctx) <= PIPEMENU_MAX_BUF_SIZE /\
         starts_with_less_than (ctx_buf ctx) = true /\
         create_pipe_menu fuel s ctx = Some s1 /\
         s' = pipemenu_ctx_destroy s1 c)).
Proof.
  unfold handle_pipemenu_readable. intros H.
  destruct (find_ctx s c) as [ctx|]; [cbn [bind] in H|discriminate H].
  exists ctx. split; [reflexivity|].
  destruct r as [|data].
  - destruct (find_item s (ctx_item ctx)); [cbn [bind] in H|discriminate H].
    left. split; [reflexivity|]. congruence.
  - right.
    destruct (Z.gtb_spec (buf_len (ctx_buf ctx) + buf_len data)
                PIPEMENU_MAX_BUF_SIZE) as [Hgt|Hle].
    { destruct (find_item s (ctx_item ctx));
        [cbn [bind] in H|discriminate H].
      left. exists data. repeat split; [lia | congruence]. }
    right.
    destruct (Z.eqb_spec (buf_len data) 0) as [Hz|Hnz]; cbn [negb] in H.
    + right. rewrite Hz in Hle.
      destruct (starts_with_less_than (ctx_buf ctx)) eqn:Es; cbn [negb] in H.
      * right. destruct (create_pipe_menu fuel s ctx) as [s1|];
          [cbn [bind] in H|discriminate H].
        exists data, s1. repeat split; try assumption; try lia. congruence.
      * left. exists data. repeat split; try assumption; try lia. congruence.
    + left. exists data. repeat split; try assumption. congruence.
Qed.

Lemma timeout_cases s c s' :
  handle_pipemenu_timeout s c = Some s' ->
  exists ctx,
    find_ctx s c = Some ctx /\
    s' = pipemenu_ctx_destroy
           (kill (wlr_log s DiagPipeTimeout) (ctx_pid ctx) SIGTERM) c.
Proof.
  unfold handle_pipemenu_timeout. intros H.
  destruct (find_ctx s c) as [ctx|]; [cbn [bind] in H|discriminate H].
  destruct (find_item s (ctx_item ctx)); [cbn [bind] in H|discriminate H].
  exists ctx. split; [reflexivity|]. congruence.
Qed.

Lemma run_pipe_same s s' : run s s' -> pipe_step s s'.
Proof.
  intros Hr. destruct (run_pipe_frame Hr) as (Hc & Hw & _).
  apply pipe_same; assumption.
Qed.

Lemma exec_pipe_step fuel s e s' : exec fuel s e = Some s' -> pipe_step s s'.
Proof.
  destruct e; simpl; intros H.
  - injection H as <-. apply run_pipe_same, run_menu_create.
  - bind_inv H; subst.
    destruct (run_pipe_frame (run_item_create _ _ _ _ E)) as (Hc & Hw & _).
    apply pipe_same; assumption.
  - bind_inv H; subst.
    destruct (run_pipe_frame (run_separator_create _ _ _ E)) as (Hc & Hw & _).
    apply pipe_same; assumption.
  - bind_inv H; subst. apply pipe_same; reflexivity.
  - apply run_pipe_same. eapply run_fill_item. exact H.
  - injection H as <-. apply run_pipe_same, run_menu_hide_submenu.
  - bind_inv H; subst. apply run_pipe_same. eapply run_parse_buf. exact E.
  - injection H as <-. apply run_pipe_same, run_post_processing.
  - injection H as <-. apply run_pipe_same, run_validate.
  - destruct (run_menu_open_root _ _ _ _ _ H) as (s3 & Hr & ->).
    destruct (run_pipe_frame Hr) as (Hc & Hw & _).
    apply pipe_same; assumption.
  - destruct (run_menu_close_root _ _ H) as (s1 & [(Hr & ->)| ->]).
    + destruct (run_pipe_frame Hr) as (Hc & Hw & _).
      destruct (run_pipe_frame
                  (run_destroy_pipemenus (set_menu_current s1 None)))
        as (Hc' & Hw' & _).
      apply pipe_same; simpl; [rewrite Hc' | rewrite Hw']; assumption.
    + apply pipe_same; reflexivity.
  - injection H as <-. apply run_pipe_same, run_menu_free_from.
  - destruct (select_cases _ _ _ _ H)
      as [(_ & ->)|(Hw & s1 & Hr & [->|(it & _ & _ & Hp)])].
    + apply pipe_same; reflexivity.
    + destruct (run_pipe_frame Hr) as (Hc & Hw' & _).
      apply pipe_same; assumption.
    + destruct (run_pipe_frame Hr) as (Hc & Hw' & _).
      destruct (parse_pipemenu_cases _ _ _ Hp) as [(d & ->)|(pid & fd & ->)].
      * apply pipe_same; assumption.
      * eapply pipe_spawn; [exact Hw | reflexivity|].
        simpl. rewrite Hc. reflexivity.
  - destruct (readable_cases _ _ _ _ H) as (ctx & Hf & Hcases).
    destruct Hcases as
        [(_ & ->)|[(d & _ & _ & ->)|[(d & _ & _ & _ & ->)
         |[(d & _ & _ & _ & _ & ->)|(d & s1 & _ & _ & _ & _ & Hc & ->)]]]].
    + eapply pipe_done; [exact Hf | reflexivity | reflexivity].
    + eapply pipe_done; [exact Hf | reflexivity | reflexivity].
    + eapply pipe_read; reflexivity.
    + eapply pipe_done; [exact Hf | reflexivity | reflexivity].
    + destruct (run_pipe_frame (run_create_pipe_menu _ _ _ Hc))
        as (Hc1 & _ & _).
      eapply pipe_done; [exact Hf | simpl; rewrite Hc1; reflexivity
                         | reflexivity].
  - destruct (timeout_cases _ _ H) as (ctx & Hf & ->).
    eapply pipe_done; [exact Hf | reflexivity | reflexivity].
  - bind_inv H; subst. apply run_pipe_same.
    eapply run_menu_execute_item. exact E.
Qed.

Lemma pipe_step_one_request s s' :
  pipe_step s s' -> one_request s -> one_request s'.
Proof.
  intros Hstep [Hiff Hlen].
  destruct Hstep as [s s' Hc Hw | s s' ctx Hw Hw' Hc | s s' c data Hc Hw
                     | s s' c ctx Hf Hc Hw].
  - unfold one_request. rewrite Hc, Hw. split; assumption.
  - assert (Hnil : ctxs s = []).
    { destruct (ctxs s) as [|x l] eqn:E; [reflexivity|].
      assert (Ht : waiting_for_pipe_menu s = true)
        by (apply Hiff; discriminate).
      congruence. }
    unfold one_request. rewrite Hc, Hw', Hnil. simpl.
    split; [split; [discriminate | reflexivity] | lia].
  - unfold one_request. rewrite Hc, Hw, length_map. split; [|exact Hlen].
    rewrite Hiff. destruct (ctxs s); simpl; split; congruence.
  - assert (Hnil : ctxs s' = []).
    { rewrite Hc. unfold find_ctx in Hf.
      destruct (ctxs s) as [|x [|y l]]; simpl in *; try lia;
        [discriminate Hf|].
      destruct (addr_eqb (ctx_addr x) c); [reflexivity | discriminate Hf]. }
    unfold one_request. rewrite Hnil, Hw. simpl.
    split; [split; [discriminate | congruence] | lia].
Qed.

Lemma prim_selected_item s s' : prim s s' -> selected_item s' = selected_item s.
Proof.
  intros Hp. destruct Hp as
      [s s' _ _ _ _ Hs _ _ | s f _ | s g _ | s f
       | s menu text show_arrow s' r H | s menu label s' r H
       | s id label | s id]; try reflexivity.
  - exact Hs.
  - unfold item_create in H. bind_inv H; subst; reflexivity.
  - unfold separator_create in H. bind_inv H; subst; reflexivity.
  - unfold menu_create. destruct (is_unique_id s id); reflexivity.
  - unfold menu_hide_submenu. destruct (menu_get_by_id s (Some id));
      reflexivity.
Qed.

Lemma run_selected_item s s' : run s s' -> selected_item s' = selected_item s.
Proof.
  induction 1 as [|s s1 s2 Hp _ IH]; [reflexivity|].
  rewrite IH. apply prim_selected_item. exact Hp.
Qed.

Lemma ptr_eqb_refl (a : addr) : ptr_eqb (Some a) a = true.
Proof. apply Nat.eqb_refl. Qed.

(** ** C9: selecting the same item again *)

(** C9.  Once [select(item)] has returned, an immediately following
    [select(item)] returns the state unchanged: selection pointers,
    open submenus and the set of spawned requests all stay as the first
    call left them, whatever the spawning primitive would answer. *)
Theorem select_same_item_again fuel spawn_piped s item s' :
  menu_process_item_selection fuel spawn_piped s item = Some s' ->
  forall fuel' spawn_piped',
    menu_process_item_selection fuel' spawn_piped' s' item = Some s'.
Proof.
  intros H fuel' spawn_piped'.
  destruct (select_cases _ _ _ _ H)
    as [([Hsel|Hw] & ->)|(Hw & s1 & Hr & Hs')].
  - unfold menu_process_item_selection. rewrite Hsel. reflexivity.
  - unfold menu_process_item_selection. rewrite Hw.
    destruct (ptr_eqb (selected_item s) item); reflexivity.
  - assert (Hsel : selected_item s' = Some item).
    { pose proof (run_selected_item Hr) as H1. simpl in H1.
      destruct Hs' as [->|(it & _ & _ & Hp)]; [exact H1|].
      destruct (parse_pipemenu_cases _ _ _ Hp) as [(d & ->)|(pid & fd & ->)];
        exact H1. }
    unfold menu_process_item_selection.
    rewrite Hsel, ptr_eqb_refl. reflexivity.
Qed.

(** ** C2: one request at a time *)

Lemma idle_one_request s : idle s -> one_request s.
Proof.
  intros [Hc Hw]. unfold one_request. rewrite Hc, Hw. simpl.
  split; [split; [discriminate | congruence] | lia].
Qed.

Lemma trace_one_request allowed s s' :
  trace allowed s s' -> one_request s -> one_request s'.
Proof.
  induction 1 as [|s fuel e s1 s2 _ He _ IH]; intros Hone; [exact Hone|].
  apply IH. eapply pipe_step_one_request; [|exact Hone].
  eapply exec_pipe_step. exact He.
Qed.

(** C2.  Along any sequence of events that starts with no request in
    flight, while a pipe-menu context is registered (from the spawn
    until [pipemenu_ctx_destroy]) every [select(item)] returns the state
    unchanged, for every item; and there is never more than one
    registered context. *)
Theorem select_ignored_while_request_in_flight s s' :
  idle s -> trace any_event s s' ->
  (ctxs s' <> [] ->
   forall fuel spawn_piped item,
     menu_process_item_selection fuel spawn_piped s' item = Some s') /\
  (List.length (ctxs s') <= 1)%nat.
Proof.
  intros Hidle Htrace.
  destruct (trace_one_request Htrace (idle_one_request Hidle)) as [Hiff Hlen].
  split; [|exact Hlen].
  intros Hne fuel spawn_piped item. apply Hiff in Hne.
  unfold menu_process_item_selection. rewrite Hne.
  destruct (ptr_eqb (selected_item s') item); reflexivity.
Qed.

End Pipe.

(** ** Every event, seen from the menus *)

Section Evolution.

Context {P : Platform}.

Lemma evolves_same s s' :
  menus s' = menus s -> log s' = log s -> next_addr s' = next_addr s ->
  evolves s s'.
Proof.
  intros Hm Hl Hn. apply evolves_pipe; [exact Hm| |lia].
  exists []. rewrite app_nil_r. exact Hl.
Qed.

Lemma exec_evolves fuel s e s' : exec fuel s e = Some s' -> evolves s s'.
Proof.
  destruct e; simpl; intros H.
  - injection H as <-. apply evolves_run, run_menu_create.
  - bind_inv H; subst. eapply evolves_trans.
    + eapply evolves_run, run_item_create. exact E.
    + apply evolves_same; reflexivity.
  - bind_inv H; subst. eapply evolves_trans.
    + eapply evolves_run, run_separator_create. exact E.
    + apply evolves_same; reflexivity.
  - bind_inv H; subst. apply evolves_run, run_update_item. frame_tac.
  - eapply evolves_run, run_fill_item. exact H.
  - injection H as <-. apply evolves_run, run_menu_hide_submenu.
  - bind_inv H; subst. eapply evolves_run, run_parse_buf. exact E.
  - injection H as <-. apply evolves_run, run_post_processing.
  - injection H as <-. apply evolves_run, run_validate.
  - destruct (run_menu_open_root _ _ _ _ _ H) as (s3 & Hr & ->).
    eapply evolves_trans; [apply evolves_run; exact Hr|].
    eapply evolves_trans;
      [apply evolves_run, run_update_menu with (a := root)
                                              (g := fun m => with_enabled m true);
       frame_tac|].
    apply evolves_same; reflexivity.
  - destruct (run_menu_close_root _ _ H) as (s1 & [(Hr & ->)| ->]).
    + eapply evolves_trans; [apply evolves_run; exact Hr|].
      apply evolves_trans with (set_menu_current s1 None);
        [apply evolves_same; reflexivity|].
      eapply evolves_trans; [apply evolves_run, run_destroy_pipemenus|].
      apply evolves_same; reflexivity.
    + apply evolves_same; reflexivity.
  - injection H as <-. apply evolves_run, run_menu_free_from.
  - destruct (select_cases _ _ _ _ H)
      as [(_ & ->)|(Hw & s1 & Hr & Hs')]; [apply evolves_run, run_refl|].
    apply evolves_trans with (set_selected_item s (Some item));
      [apply evolves_same; reflexivity|].
    eapply evolves_trans; [apply evolves_run; exact Hr|].
    destruct Hs' as [->|(it & _ & _ & Hp)]; [apply evolves_run, run_refl|].
    destruct (parse_pipemenu_cases _ _ _ Hp) as [(d & ->)|(pid & fd & ->)].
    + apply evolves_run, run_wlr_log.
    + apply evolves_pipe; [reflexivity| |simpl; lia].
      exists []. rewrite app_nil_r. reflexivity.
  - destruct (readable_cases _ _ _ _ H) as (ctx & Hf & Hcases).
    destruct Hcases as
        [(_ & ->)|[(d & _ & _ & ->)|[(d & _ & _ & _ & ->)
         |[(d & _ & _ & _ & _ & ->)|(d & s1 & _ & _ & _ & _ & Hc & ->)]]]].
    + apply evolves_pipe; [reflexivity| |simpl; lia].
      eexists. reflexivity.
    + apply evolves_pipe; [reflexivity| |simpl; lia].
      eexists. reflexivity.
    + apply evolves_same; reflexivity.
    + apply evolves_pipe; [reflexivity| |simpl; lia].
      eexists. reflexivity.
    + eapply evolves_trans;
        [apply evolves_run; eapply run_create_pipe_menu; exact Hc|].
      apply evolves_same; reflexivity.
  - destruct (timeout_cases _ _ H) as (ctx & Hf & ->).
    apply evolves_pipe; [reflexivity| |simpl; lia].
    eexists. reflexivity.
  - bind_inv H; subst. eapply evolves_run, run_menu_execute_item. exact E.
Qed.

Lemma trace_evolves allowed s s' : trace allowed s s' -> evolves s s'.
Proof.
  induction 1 as [|s fuel e s1 s2 _ He _ IH].
  - apply evolves_run, run_refl.
  - eapply evolves_trans; [eapply exec_evolves; exact He | exact IH].
Qed.

(** ** C5: heights and positions *)


(** ** C4: ids of live menus *)

(** C4, amended.  Along any sequence of events (building from a
    document, splicing a pipe menu, tearing menus down) the number of
    live menus that share their id with a menu registered after them
    grows by no more than the number of "menu id already exists"
    diagnostics logged in between: the ids of the live menus stay
    pairwise distinct as long as none is logged.  The diagnostic is
    logged by [menu_create], exactly when the id is taken; the menu is
    registered all the same, behind the menus that were there, and is
    then one more menu with a repeated id. *)
Theorem ids_unique_unless_diagnosed s s' :
  trace any_event s s' ->
  accounted s s' /\
  (ids_unique s -> diagnosed s' = diagnosed s -> ids_unique s') /\
  forall id label,
    exists m,
      menus (fst (menu_create s' id label)) = menus s' ++ [m] /\
      menu_id m = id /\
      if is_unique_id s' id then
        log (fst (menu_create s' id label)) = log s' /\
        repeated_ids (fst (menu_create s' id label)) = repeated_ids s'
      else
        log (fst (menu_create s' id label)) = log s' ++ [DiagMenuIdExists] /\
        repeated_ids (fst (menu_create s' id label)) = S (repeated_ids s').
Proof.
  intros Htrace.
  pose proof (evolves_accounted (trace_evolves Htrace)) as Ha.
  split; [exact Ha|]. split; [|apply menu_create_accounted].
  intros Hu Hd. apply repeated_NoDup. apply repeated_NoDup in Hu.
  unfold accounted, repeated_ids in Ha. unfold ids_unique in Hu.
  rewrite Hu, Hd in Ha. unfold ids_unique. lia.
Qed.

End Evolution.

(** C4 as stated fails: loading a document that defines two menus
    under the id "a" into the initial state leaves two live menus with
    that id. *)
Lemma duplicate_ids_after_build :
  exists s',
    @trace example_platform any_event initial_state s' /\
    ids_unique initial_state /\
    ~ ids_unique s'.
Proof.
  destruct (exec (P := example_platform) 0 initial_state
              (ParseBuf duplicate_config_text)) as [s'|] eqn:E;
    [|vm_compute in E; discriminate E].
  exists s'. split; [|split].
  - eapply trace_cons; [reflexivity | exact E | apply trace_nil].
  - constructor.
  - vm_compute in E. injection E as <-. unfold ids_unique. simpl.
    intros Hnd. inversion Hnd as [|x l Hnotin _]. subst.
    apply Hnotin. left. reflexivity.
Qed.

(** ** C10: no reference to a freed menu survives *)

Section Teardown.

Lemma ptr_eqb_true (p : option addr) (a : addr) :
  ptr_eqb p a = true <-> p = Some a.
Proof.
  destruct p as [b|]; simpl; [|split; discriminate].
  unfold addr_eqb. rewrite Nat.eqb_eq. split; congruence.
Qed.

Lemma references_nullify_in (a b : addr) (m : menu) :
  references (nullify_in a m) b -> references m b /\ b <> a.
Proof.
  unfold nullify_in, references.
  set (items := map _ (menuitems m)).
  assert (Hitems :
            forall item, In item items -> item_submenu item = Some b ->
                         b <> a /\
                         exists item0, In item0 (menuitems m) /\
                                       item_submenu item0 = Some b).
  { intros item Hin Hsub. apply in_map_iff in Hin.
    destruct Hin as (item0 & <- & Hin0).
    destruct (ptr_eqb (item_submenu item0) a) eqn:E; [discriminate Hsub|].
    split; [|exists item0; auto].
    intros ->. apply ptr_eqb_true in Hsub. congruence. }
  destruct (ptr_eqb (menu_parent (with_items m items)) a) eqn:Ep;
    cbn [menu_parent menuitems with_items with_parent] in *.
  - intros [Hp|(item & Hin & Hsub)]; [discriminate Hp|].
    destruct (Hitems item Hin Hsub) as [Hne Hex]. auto.
  - intros [Hp|(item & Hin & Hsub)].
    + split; [left; exact Hp|]. intros ->. apply ptr_eqb_true in Hp.
      congruence.
    + destruct (Hitems item Hin Hsub) as [Hne Hex]. auto.
Qed.

Lemma menu_free_menus (s : state) (a : addr) :
  menus (menu_free s a)
  = filter (fun m => negb (addr_eqb (menu_addr m) a))
      (map (nullify_in a) (menus s)).
Proof. reflexivity. Qed.

Lemma menu_free_references (s : state) (a b : addr) (m' : menu) :
  In m' (menus (menu_free s a)) -> references m' b ->
  b <> a /\ exists m, In m (menus s) /\ references m b.
Proof.
  rewrite menu_free_menus. intros Hin Href.
  apply filter_In in Hin. destruct Hin as [Hin _].
  apply in_map_iff in Hin. destruct Hin as (m & <- & Hin).
  apply references_nullify_in in Href. destruct Href as [Href Hne].
  split; [exact Hne | exists m; auto].
Qed.

Lemma nullify_in_addr (a : addr) (m : menu) :
  menu_addr (nullify_in a m) = menu_addr m.
Proof.
  unfold nullify_in. destruct (ptr_eqb _ a); reflexivity.
Qed.

Lemma menu_free_keeps (s : state) (a x : addr) :
  In x (map menu_addr (menus s)) -> x <> a ->
  In x (map menu_addr (menus (menu_free s a))).
Proof.
  rewrite menu_free_menus. intros Hin Hne.
  apply in_map_iff in Hin. destruct Hin as (m & <- & Hin).
  apply in_map_iff. exists (nullify_in a m).
  split; [apply nullify_in_addr|].
  apply filter_In. split; [apply in_map; exact Hin|].
  rewrite nullify_in_addr. unfold addr_eqb.
  destruct (Nat.eqb_spec (menu_addr m) a); [contradiction | reflexivity].
Qed.

Lemma free_all_cons (a : addr) (l : list addr) (s : state) :
  free_all (a :: l) s = free_all l (menu_free s a).
Proof. reflexivity. Qed.

Lemma free_all_unreferenced (l : list addr) :
  forall s b,
    (forall m, In m (menus s) -> ~ references m b) ->
    forall m', In m' (menus (free_all l s)) -> ~ references m' b.
Proof.
  induction l as [|a l IH]; intros s b Hnone; [exact Hnone|].
  rewrite free_all_cons. apply IH.
  intros m' Hin Href.
  destruct (@menu_free_references _ _ _ _ Hin Href) as (_ & m & Hm & Hr).
  exact (Hnone m Hm Hr).
Qed.

Lemma free_all_freed (l : list addr) :
  forall s b,
    In b l ->
    forall m', In m' (menus (free_all l s)) -> ~ references m' b.
Proof.
  induction l as [|a l IH]; intros s b Hb; [destruct Hb|].
  rewrite free_all_cons. destruct (Nat.eq_dec a b) as [->|Hne].
  - apply free_all_unreferenced. intros m Hin Href.
    destruct (@menu_free_references _ _ _ _ Hin Href) as (Hbb & _).
    apply Hbb. reflexivity.
  - destruct Hb as [E|Hb]; [contradiction|]. apply IH. exact Hb.
Qed.

Lemma free_all_keeps (l : list addr) :
  forall s x,
    In x (map menu_addr (menus s)) -> ~ In x l ->
    In x (map menu_addr (menus (free_all l s))).
Proof.
  induction l as [|a l IH]; intros s x Hin Hnot; [exact Hin|].
  rewrite free_all_cons. apply IH.
  - apply menu_free_keeps; [exact Hin|]. intros ->. apply Hnot. left.
    reflexivity.
  - intros Hl. apply Hnot. right. exact Hl.
Qed.

Lemma free_all_no_dangling (l : list addr) (s : state) :
  no_dangling s (free_all l s).
Proof.
  intros m Hm Hgone m' Hm'.
  destruct (in_dec Nat.eq_dec (menu_addr m) l) as [Hin|Hnot].
  - exact (@free_all_freed l s _ Hin m' Hm').
  - exfalso. apply Hgone. apply free_all_keeps; [|exact Hnot].
    apply in_map. exact Hm.
Qed.

Lemma destroy_pipemenus_free_all (s : state) :
  destroy_pipemenus s
  = free_all (map menu_addr (filter is_pipemenu (menus s))) s.
Proof.
  unfold destroy_pipemenus. generalize (menus s) as l. intros l. revert s.
  induction l as [|m l IH]; intros s; simpl; [reflexivity|].
  destruct (is_pipemenu m); simpl; rewrite IH; reflexivity.
Qed.

Lemma menu_free_from_free_all (s : state) (from : option addr) :
  menu_free_from s from
  = free_all (freed_from (negb (is_some from)) from (menus s)) s.
Proof.
  unfold menu_free_from. generalize (negb (is_some from)) as d.
  generalize (menus s) as l. intros l. revert s.
  induction l as [|m l IH]; intros s d; simpl; [reflexivity|].
  destruct (d || ptr_eqb from (menu_addr m)); simpl; rewrite IH; reflexivity.
Qed.

(** C10.  After [menu_free], after the teardown of the pipe menus and
    after bulk destruction, no surviving menu has an item whose submenu
    is a freed menu, and no surviving menu has a freed menu as its
    parent. *)
Theorem no_reference_to_freed_menu (s : state) :
  (forall a, no_dangling s (menu_free s a)) /\
  no_dangling s (destroy_pipemenus s) /\
  (forall from, no_dangling s (menu_free_from s from)).
Proof.
  split; [|split].
  - intros a. exact (free_all_no_dangling [a] s).
  - rewrite destroy_pipemenus_free_all. apply free_all_no_dangling.
  - intros from. rewrite menu_free_from_free_all. apply free_all_no_dangling.
Qed.

End Teardown.

(** ** C8: automatic alignment *)

Section Alignment.

Context {P : Platform}.



Lemma same_shape_find s s' a m :
  same_shape s s' -> find_menu s a = Some m ->
  exists m', find_menu s' a = Some m' /\ shape m' = shape m.
Proof.
  unfold same_shape, find_menu.
  generalize (menus s') as l'. induction (menus s) as [|m0 l IH];
    intros l' Hs Hf; simpl in *; [discriminate Hf|].
  destruct l' as [|m0' l']; [discriminate Hs|]. simpl in Hs.
  pose proof (f_equal (@List.tl _) Hs) as Hl.
  pose proof (f_equal (List.hd (shape m0)) Hs) as Hm.
  cbn [List.tl List.hd] in Hl, Hm. simpl.
  assert (Ha : menu_addr m0' = menu_addr m0)
    by (unfold shape in Hm; congruence).
  rewrite Ha. destruct (addr_eqb (menu_addr m0) a).
  - injection Hf as <-. exists m0'. auto.
  - apply IH; assumption.
Qed.


Lemma same_shape_refl s : same_shape s s.
Proof. reflexivity. Qed.

Lemma same_shape_trans s1 s2 s3 :
  same_shape s1 s2 -> same_shape s2 s3 -> same_shape s1 s3.
Proof. unfold same_shape. congruence. Qed.

Lemma same_shape_sym s1 s2 : same_shape s1 s2 -> same_shape s2 s1.
Proof. unfold same_shape. congruence. Qed.

Lemma same_shape_update s a (g : menu -> menu) :
  (forall m, shape (g m) = shape m) -> same_shape s (update_menu s a g).
Proof.
  intros Hg. unfold same_shape, update_menu. simpl. rewrite map_map.
  apply map_ext. intros m. destruct (addr_eqb (menu_addr m) a);
    [apply Hg | reflexivity].
Qed.







Lemma fold_bind_invariant {A : Type} (f : state -> A -> option state)
    (l : list A) (Inv : state -> Prop) :
  (forall x, In x l -> forall s s', Inv s -> f s x = Some s' -> Inv s') ->
  forall s s',
    Inv s ->
    fold_left (fun acc x => s <- acc ;; f s x) l (Some s) = Some s' ->
    Inv s'.
Proof.
  induction l as [|x l IH]; intros Hstep s s' Hs H; simpl in H.
  - injection H as <-. exact Hs.
  - destruct (f s x) as [s1|] eqn:E.
    + apply (IH (fun y Hy => Hstep y (or_intror Hy)) s1 s');
        [|exact H].
      exact (Hstep x (or_introl eq_refl) s s1 Hs E).
    + rewrite fold_bind_none in H. discriminate H.
Qed.

Lemma menu_configure_shape fuel :
  forall s a lx ly align s',
    menu_configure fuel s a lx ly align = Some s' -> same_shape s s'.
Proof.
  induction fuel as [|fuel IH]; intros s a lx ly align s' H; simpl in H;
    [discriminate H|].
  destruct (find_menu s a) as [m|]; [cbn [bind] in H | discriminate H].
  destruct (wlr_output_layout_output_at lx ly) as [out|];
    [|injection H as <-; reflexivity].
  match type of H with
  | bind ?x _ = _ => destruct x as [fw|]; [cbn [bind] in H | discriminate H]
  end.
  eapply (fold_bind_invariant _ _ (same_shape s)); cycle 2; [exact H| |].
  - intros item _ s0 s1 Hs0 H0. cbv beta in H0.
    destruct (item_submenu item) as [sub|]; [|injection H0 as <-; exact Hs0].
    destruct (get_submenu_position s0 item _) as [[x y]|];
      [cbn [bind] in H0 | discriminate H0].
    eapply same_shape_trans; [exact Hs0 | eapply IH; exact H0].
  - apply same_shape_update. reflexivity.
Qed.

Section Leaves.

Variable a : addr.




End Leaves.





Lemma find_menu_in s a m :
  find_menu s a = Some m -> In m (menus s) /\ menu_addr m = a.
Proof.
  unfold find_menu. intros H. apply find_some in H. destruct H as [Hin E].
  apply Nat.eqb_eq in E. auto.
Qed.








End Alignment.


(** ** Addresses stay distinct *)

Section WellFormed.

Context {P : Platform}.

Lemma flat_map_items_same (f : menu -> menu) (l : list menu) :
  (forall m, menuitems (f m) = menuitems m) ->
  flat_map menuitems (map f l) = flat_map menuitems l.
Proof.
  intros Hf. induction l as [|m l IH]; simpl; [reflexivity|].
  rewrite Hf, IH. reflexivity.
Qed.

Lemma all_items_map_items (g : menuitem -> menuitem) (s : state) :
  all_items (map_items g s) = map g (all_items s).
Proof.
  unfold all_items, map_items. simpl.
  induction (menus s) as [|m l IH]; simpl; [reflexivity|].
  rewrite map_app, IH. reflexivity.
Qed.

Lemma NoDup_app_disjoint {A : Type} (l1 l2 : list A) :
  NoDup (l1 ++ l2) -> forall a, In a l1 -> ~ In a l2.
Proof.
  induction l1 as [|x l1 IH]; intros Hnd a Hin; [destruct Hin|].
  simpl in Hnd. inversion Hnd as [|y l Hnotin Hnd']. subst.
  destruct Hin as [->|Hin].
  - intros Hin2. apply Hnotin. apply in_or_app. right. exact Hin2.
  - apply IH; assumption.
Qed.

Lemma in_flat_map_filter {A B : Type} (h : A -> list B) (f : A -> bool)
    (l : list A) (x : B) :
  In x (flat_map h (filter f l)) -> In x (flat_map h l).
Proof.
  rewrite !in_flat_map. intros (a & Ha & Hx). apply filter_In in Ha.
  exists a. split; [apply Ha | exact Hx].
Qed.

Lemma NoDup_flat_map_filter {A B C : Type} (p : B -> C) (h : A -> list B)
    (f : A -> bool) (l : list A) :
  NoDup (map p (flat_map h l)) -> NoDup (map p (flat_map h (filter f l))).
Proof.
  induction l as [|x l IH]; simpl; intros Hnd; [exact Hnd|].
  rewrite map_app in Hnd.
  pose proof (NoDup_app_remove_l _ _ Hnd) as Hr.
  destruct (f x); simpl; [|exact (IH Hr)].
  rewrite map_app. apply NoDup_app.
  - exact (NoDup_app_remove_r _ _ Hnd).
  - exact (IH Hr).
  - intros a Ha Hin. apply (NoDup_app_disjoint _ _ Hnd a Ha).
    apply in_map_iff in Hin. destruct Hin as (b & <- & Hb).
    apply in_map. eapply in_flat_map_filter. exact Hb.
Qed.

Lemma NoDup_map_inj_in {A B : Type} (f : A -> B) (l : list A) :
  NoDup (map f l) ->
  forall x y, In x l -> In y l -> f x = f y -> x = y.
Proof.
  induction l as [|a l IH]; intros Hnd x y Hx Hy E; [destruct Hx|].
  simpl in Hnd. inversion Hnd as [|b l' Hnotin Hnd']. subst.
  destruct Hx as [->|Hx], Hy as [->|Hy].
  - reflexivity.
  - exfalso. apply Hnotin. rewrite E. apply in_map. exact Hy.
  - exfalso. apply Hnotin. rewrite <- E. apply in_map. exact Hx.
  - apply IH; assumption.
Qed.

Lemma well_formed_find s a it :
  well_formed s -> find_item s a = Some it ->
  forall i, In i (all_items s) -> item_addr i = a -> i = it.
Proof.
  intros (_ & Hnd & _) Hf i Hi Ha.
  unfold find_item in Hf. apply find_some in Hf. destruct Hf as [Hin E].
  apply Nat.eqb_eq in E.
  apply (NoDup_map_inj_in _ _ Hnd); [assumption | assumption | congruence].
Qed.

(** Menus rewritten by [f] where [f] keeps the address and may append
    one item at the fresh address to the menu at [ma]. *)
Lemma appended_addrs (ma n : addr) (A : menu -> menu)
    (extra : menu -> list menuitem) (l : list menu) :
  (forall m, menuitems (A m) = menuitems m ++ extra m /\
             (extra m = [] \/ exists i, extra m = [i] /\ item_addr i = n)) ->
  NoDup (map menu_addr l) ->
  let F := fun m => if addr_eqb (menu_addr m) ma then A m else m in
  map item_addr (flat_map menuitems (map F l))
  = map item_addr (flat_map menuitems l) \/
  Add n (map item_addr (flat_map menuitems l))
    (map item_addr (flat_map menuitems (map F l))).
Proof.
  intros HA Hnd F. induction l as [|m l IH]; [left; reflexivity|].
  simpl in Hnd. inversion Hnd as [|x l' Hnotin Hnd']. subst.
  specialize (IH Hnd'). cbn [map flat_map]. rewrite !map_app.
  unfold F at 1 3. destruct (addr_eqb (menu_addr m) ma) eqn:Em.
  - assert (Hrest : map F l = l).
    { rewrite <- (map_id l) at 2. apply map_ext_in. intros x Hx. unfold F.
      destruct (addr_eqb (menu_addr x) ma) eqn:Ex; [|reflexivity].
      exfalso. apply Hnotin. apply Nat.eqb_eq in Em, Ex.
      rewrite Em, <- Ex. apply in_map. exact Hx. }
    rewrite Hrest. destruct (HA m) as [Hitems [Hnil|(i & Hone & Hi)]].
    + left. rewrite Hitems, Hnil, app_nil_r. reflexivity.
    + right. rewrite Hitems, Hone, map_app. cbn [map]. rewrite Hi.
      rewrite <- app_assoc. apply Add_app.
  - destruct IH as [IH|IH]; [left; rewrite IH; reflexivity|].
    right. induction (map item_addr (menuitems m)) as [|y ys IHy];
             [exact IH | apply Add_cons; exact IHy].
Qed.

Lemma well_formed_append s s' ma (A : menu -> menu)
    (extra : menu -> list menuitem) :
  well_formed s ->
  menus s' = map (fun m => if addr_eqb (menu_addr m) ma then A m else m)
               (menus s) ->
  (forall m, menu_addr (A m) = menu_addr m) ->
  (forall m, menuitems (A m) = menuitems m ++ extra m /\
             (extra m = [] \/
              exists i, extra m = [i] /\ item_addr i = next_addr s)) ->
  next_addr s' = S (next_addr s) ->
  well_formed s'.
Proof.
  intros (Hm & Hi & Hbm & Hbi) Hmenus Haddr HA Hnext.
  assert (Haddrs : map menu_addr (menus s') = map menu_addr (menus s)).
  { rewrite Hmenus, map_map. apply map_ext. intros m.
    destruct (addr_eqb (menu_addr m) ma); [apply Haddr | reflexivity]. }
  pose proof (@appended_addrs ma (next_addr s) A extra (menus s) HA Hm) as Hx.
  cbv zeta in Hx. rewrite <- Hmenus in Hx.
  assert (Hfresh : ~ In (next_addr s) (map item_addr (all_items s))).
  { intros Hin. apply in_map_iff in Hin. destruct Hin as (i & E & Hin).
    specialize (Hbi i Hin). lia. }
  unfold well_formed. rewrite Haddrs, Hnext. split; [exact Hm|].
  split; [|split].
  - unfold all_items. destruct Hx as [->|Hadd]; [exact Hi|].
    apply (NoDup_Add Hadd). split; assumption.
  - intros m Hin.
    assert (Hin' : In (menu_addr m) (map menu_addr (menus s)))
      by (rewrite <- Haddrs; apply in_map; exact Hin).
    apply in_map_iff in Hin'. destruct Hin' as (m0 & E & Hm0).
    specialize (Hbm m0 Hm0). lia.
  - intros i Hin.
    assert (Hin' : In (item_addr i) (map item_addr (all_items s')))
      by (apply in_map; exact Hin).
    unfold all_items in Hin'. destruct Hx as [Hx|Hadd].
    + rewrite Hx in Hin'. apply in_map_iff in Hin'.
      destruct Hin' as (i0 & E & Hi0). specialize (Hbi i0 Hi0).
      unfold all_items in *. lia.
    + apply (Add_in Hadd) in Hin'. destruct Hin' as [E|Hin'']; [lia|].
      apply in_map_iff in Hin''. destruct Hin'' as (i0 & E & Hi0).
      specialize (Hbi i0 Hi0). lia.
Qed.

Lemma item_create_append s menu text show_arrow s' r :
  item_create s menu text show_arrow = Some (s', r) ->
  exists ma A extra,
    menus s' = map (fun m => if addr_eqb (menu_addr m) ma then A m else m)
                 (menus s) /\
    (forall m, menu_addr (A m) = menu_addr m) /\
    (forall m, menuitems (A m) = menuitems m ++ extra m /\
               (extra m = [] \/
                exists i, extra m = [i] /\ item_addr i = next_addr s)) /\
    next_addr s' = S (next_addr s).
Proof.
  unfold item_create. intros H. bind_inv H; subst.
  - exists a.
    exists (fun m =>
              let m1 := if menu_item_height m =? 0
                        then with_item_height m
                               (font_height
                                + 2 * menu_item_padding_y server_theme)
                        else m in
              with_items
                (with_size_height m1 (size_height m1 + menu_item_height m1))
                (menuitems m1 ++
                 [mkItem (next_addr s) a None None true (menu_item_height m1)
                    (font_width text
                     + (if show_arrow then font_width arrow else 0))
                    None (size_height m1) true []])).
    exists (fun m =>
              let m1 := if menu_item_height m =? 0
                        then with_item_height m
                               (font_height
                                + 2 * menu_item_padding_y server_theme)
                        else m in
              [mkItem (next_addr s) a None None true (menu_item_height m1)
                 (font_width text
                  + (if show_arrow then font_width arrow else 0))
                 None (size_height m1) true []]).
    split; [|split; [|split]].
    + cbn [menus update_menu set_menus]. rewrite map_map. apply map_ext.
      intros m0. destruct (addr_eqb (menu_addr m0) a) eqn:Ea.
      * destruct (menu_item_height m0 =? 0);
          cbn [menu_addr with_item_height]; rewrite Ea; reflexivity.
      * rewrite Ea. reflexivity.
    + intros m0. cbv zeta. destruct (menu_item_height m0 =? 0); reflexivity.
    + intros m0. cbv zeta. split.
      * destruct (menu_item_height m0 =? 0); reflexivity.
      * right. eexists. split; reflexivity.
    + reflexivity.
  - exists a.
    exists (fun m => if menu_item_height m =? 0
                     then with_item_height m
                            (font_height
                             + 2 * menu_item_padding_y server_theme)
                     else m).
    exists (fun _ => []).
    split; [reflexivity|]. split; [|split].
    + intros m0. destruct (menu_item_height m0 =? 0); reflexivity.
    + intros m0. split; [|left; reflexivity].
      rewrite app_nil_r. destruct (menu_item_height m0 =? 0); reflexivity.
    + reflexivity.
Qed.

Lemma separator_create_append s menu label s' r :
  separator_create s menu label = Some (s', r) ->
  exists ma A extra,
    menus s' = map (fun m => if addr_eqb (menu_addr m) ma then A m else m)
                 (menus s) /\
    (forall m, menu_addr (A m) = menu_addr m) /\
    (forall m, menuitems (A m) = menuitems m ++ extra m /\
               (extra m = [] \/
                exists i, extra m = [i] /\ item_addr i = next_addr s)) /\
    next_addr s' = S (next_addr s).
Proof.
  unfold separator_create. intros H. bind_inv H; subst.
  exists a. eexists. eexists.
  split; [reflexivity|]. split; [|split].
  - intros m0. reflexivity.
  - intros m0. split; [reflexivity|]. right. eexists. split; reflexivity.
  - reflexivity.
Qed.

Lemma reposition_addrs (items : list menuitem) :
  forall y, map item_addr (fst (reposition y items)) = map item_addr items.
Proof.
  induction items as [|i l IH]; intros y; simpl; [reflexivity|].
  specialize (IH (y + item_height_of i)).
  destruct (reposition (y + item_height_of i) l) as [rest h]. simpl in *.
  rewrite IH. reflexivity.
Qed.

Lemma filter_none {A : Type} (f : A -> bool) (l : list A) :
  existsb f l = false -> filter (fun x => negb (f x)) l = l.
Proof.
  induction l as [|x l IH]; simpl; [reflexivity|].
  intros H. apply orb_false_elim in H. destruct H as [Hx Hl].
  rewrite Hx. simpl. rewrite (IH Hl). reflexivity.
Qed.

Lemma hide_submenu_in_addrs (hide : addr) (m : menu) :
  map item_addr (menuitems (hide_submenu_in hide m))
  = map item_addr
      (filter (fun item => negb (ptr_eqb (item_submenu item) hide))
         (menuitems m)).
Proof.
  unfold hide_submenu_in.
  destruct (existsb _ (menuitems m)) eqn:E.
  - match goal with
    | |- context [reposition 0 ?l] =>
      pose proof (reposition_addrs l 0) as Hr;
        destruct (reposition 0 l) as [items h]
    end.
    exact Hr.
  - rewrite (filter_none _ _ E). reflexivity.
Qed.

Lemma hide_all_addrs (hide : addr) (l : list menu) :
  map item_addr (flat_map menuitems (map (hide_submenu_in hide) l))
  = map item_addr
      (filter (fun item => negb (ptr_eqb (item_submenu item) hide))
         (flat_map menuitems l)).
Proof.
  induction l as [|m l IH]; simpl; [reflexivity|].
  rewrite filter_app, !map_app, IH, hide_submenu_in_addrs. reflexivity.
Qed.

Lemma prim_well_formed s s' : prim s s' -> well_formed s -> well_formed s'.
Proof.
  intros Hp Hwf. pose proof Hwf as (Hm & Hi & Hbm & Hbi).
  destruct Hp as
      [s s' Hmenus _ _ _ _ _ Hn | s f Hf | s g Hg | s f
       | s menu text show_arrow s' r H | s menu label s' r H
       | s id label | s id].
  - unfold well_formed, all_items. rewrite Hmenus.
    split; [exact Hm|]. split; [exact Hi|]. split.
    + intros m Hin. specialize (Hbm m Hin). lia.
    + intros i Hin. specialize (Hbi i Hin). lia.
  - assert (Ha : map menu_addr (map f (menus s)) = map menu_addr (menus s)).
    { apply map_update_frame. intros m. apply Hf. }
    assert (Hitems : flat_map menuitems (map f (menus s)) = all_items s).
    { apply flat_map_items_same. intros m. apply Hf. }
    unfold well_formed, all_items. cbn [menus set_menus next_addr].
    rewrite Ha, Hitems. split; [exact Hm|]. split; [exact Hi|].
    split; [|exact Hbi].
    intros m Hin. apply (in_map menu_addr) in Hin. rewrite Ha in Hin.
    apply in_map_iff in Hin. destruct Hin as (m0 & E & Hin).
    specialize (Hbm m0 Hin). lia.
  - unfold well_formed. rewrite all_items_map_items.
    assert (Ha : map menu_addr (menus (map_items g s))
                 = map menu_addr (menus s)).
    { unfold map_items. cbn [menus set_menus]. apply map_update_frame.
      reflexivity. }
    assert (Hia : map item_addr (map g (all_items s))
                  = map item_addr (all_items s)).
    { rewrite map_map. apply map_ext. intros i. apply Hg. }
    rewrite Ha, Hia. split; [exact Hm|]. split; [exact Hi|]. split.
    + intros m Hin. apply (in_map menu_addr) in Hin. rewrite Ha in Hin.
      apply in_map_iff in Hin. destruct Hin as (m0 & E & Hin).
      specialize (Hbm m0 Hin). cbn [next_addr map_items set_menus]. lia.
    + intros i Hin. apply in_map_iff in Hin. destruct Hin as (i0 & <- & Hin).
      destruct (Hg i0) as (E & _). specialize (Hbi i0 Hin).
      cbn [next_addr map_items set_menus]. lia.
  - unfold well_formed, all_items. cbn [menus set_menus next_addr].
    split; [apply NoDup_map_filter; exact Hm|].
    split; [apply NoDup_flat_map_filter; exact Hi|]. split.
    + intros m Hin. apply filter_In in Hin. apply Hbm, Hin.
    + intros i Hin. apply Hbi. eapply in_flat_map_filter. exact Hin.
  - destruct (item_create_append _ _ _ _ H)
      as (ma & A & extra & Hmenus & Haddr & HA & Hnext).
    eapply well_formed_append; eassumption.
  - destruct (separator_create_append _ _ _ H)
      as (ma & A & extra & Hmenus & Haddr & HA & Hnext).
    eapply well_formed_append; eassumption.
  - destruct (menu_create_menus s id label)
      as (m0 & Hmenus & Ha & _ & Hitems & _).
    assert (Hnext : next_addr (fst (menu_create s id label))
                    = S (next_addr s) /\
                    snd (menu_create s id label) = next_addr s).
    { unfold menu_create. destruct (is_unique_id s id); split; reflexivity. }
    destruct Hnext as [Hnext Hsnd]. rewrite Hsnd in Ha.
    unfold well_formed, all_items. rewrite Hmenus, Hnext, map_app.
    rewrite flat_map_app. cbn [flat_map map]. rewrite Hitems, !app_nil_r.
    split; [|split; [exact Hi|split]].
    + apply NoDup_app; [exact Hm | constructor; [intros []|constructor]|].
      intros x Hx [<-|[]]. apply in_map_iff in Hx.
      destruct Hx as (m1 & E & Hin). specialize (Hbm m1 Hin). lia.
    + intros m Hin. apply in_app_or in Hin.
      destruct Hin as [Hin|[<-|[]]]; [specialize (Hbm m Hin)|]; lia.
    + intros i Hin. specialize (Hbi i Hin). unfold all_items in Hbi. lia.
  - unfold menu_hide_submenu.
    destruct (menu_get_by_id s (Some id)) as [hide|]; [|exact Hwf].
    unfold well_formed, all_items. cbn [menus set_menus next_addr].
    assert (Ha : map menu_addr (map (hide_submenu_in (menu_addr hide))
                                  (menus s)) = map menu_addr (menus s)).
    { apply map_update_frame. intros m. apply hide_submenu_in_frame. }
    rewrite Ha, hide_all_addrs. split; [exact Hm|].
    split; [apply NoDup_map_filter; exact Hi|]. split.
    + intros m Hin. apply (in_map menu_addr) in Hin. rewrite Ha in Hin.
      apply in_map_iff in Hin. destruct Hin as (m0 & E & Hin).
      specialize (Hbm m0 Hin). lia.
    + intros i Hin. apply (in_map item_addr) in Hin.
      rewrite hide_all_addrs in Hin. apply in_map_iff in Hin.
      destruct Hin as (i0 & E & Hin). apply filter_In in Hin.
      destruct Hin as [Hin _]. specialize (Hbi i0 Hin).
      unfold all_items in Hbi. lia.
Qed.

Lemma evolves_well_formed s s' :
  evolves s s' -> well_formed s -> well_formed s'.
Proof.
  induction 1 as [s s' Hr | s s' Hm _ Hn | s s1 s2 _ IH1 _ IH2]; intros Hwf.
  - exact (run_invariant _ (@prim_well_formed) Hr Hwf).
  - destruct Hwf as (Hma & Hi & Hbm & Hbi).
    unfold well_formed, all_items. rewrite Hm.
    split; [exact Hma|]. split; [exact Hi|]. split.
    + intros m Hin. specialize (Hbm m Hin). lia.
    + intros i Hin. specialize (Hbi i Hin). lia.
  - exact (IH2 (IH1 Hwf)).
Qed.

End WellFormed.

(** ** Closing and placing menus leaves the items alone *)

Section Calm.

Context {P : Platform}.

Lemma calm_refl s : calm s s.
Proof. intros i Hi. exists i. auto. Qed.

Lemma calm_trans s1 s2 s3 : calm s1 s2 -> calm s2 s3 -> calm s1 s3.
Proof.
  intros H12 H23 i3 Hi3.
  destruct (H23 i3 Hi3) as (i2 & Hi2 & Ha2 & Hs2).
  destruct (H12 i2 Hi2) as (i1 & Hi1 & Ha1 & Hs1).
  exists i1. split; [exact Hi1|]. split; [congruence|].
  destruct Hs2 as [Hs2|Hs2]; [|right; exact Hs2].
  destruct Hs1 as [Hs1|Hs1]; [left|right]; congruence.
Qed.

Lemma calm_same_items s s' : all_items s' = all_items s -> calm s s'.
Proof. intros E i Hi. rewrite E in Hi. exists i. auto. Qed.

Lemma items_update_menu s a (g : menu -> menu) :
  (forall m, menuitems (g m) = menuitems m) ->
  all_items (update_menu s a g) = all_items s.
Proof.
  intros Hg. unfold all_items, update_menu. cbn [menus set_menus].
  apply flat_map_items_same. intros m.
  destruct (addr_eqb (menu_addr m) a); [apply Hg | reflexivity].
Qed.

Lemma _close_items fuel :
  forall s a s', _close fuel s a = Some s' -> all_items s' = all_items s.
Proof.
  induction fuel as [|fuel IH]; intros s a s' H; simpl in H;
    [discriminate H|].
  destruct (find_menu s a); [cbn [bind] in H | discriminate H].
  set (s1 := menu_set_selection _ a None) in H.
  assert (H1 : all_items s1 = all_items s).
  { unfold s1, menu_set_selection.
    rewrite !items_update_menu by reflexivity. reflexivity. }
  destruct (find_menu s1 a) as [m1|]; [cbn [bind] in H | discriminate H].
  destruct (selection_menu m1) as [sub|].
  - destruct (_close fuel s1 sub) as [s2|] eqn:E2;
      [cbn [bind] in H | discriminate H].
    injection H as <-. rewrite items_update_menu by reflexivity.
    rewrite (IH _ _ _ E2). exact H1.
  - injection H as <-. exact H1.
Qed.

Lemma menu_close_items fuel s p s' :
  menu_close fuel s p = Some s' -> all_items s' = all_items s.
Proof.
  destruct p as [a|]; simpl; intros H.
  - eapply _close_items. exact H.
  - injection H as <-. reflexivity.
Qed.

Lemma close_all_submenus_items fuel :
  forall s a s',
    close_all_submenus fuel s a = Some s' -> all_items s' = all_items s.
Proof.
  induction fuel as [|fuel IH]; intros s a s' H; simpl in H;
    [discriminate H|].
  destruct (find_menu s a) as [m|]; [cbn [bind] in H | discriminate H].
  match type of H with
  | bind ?x _ = _ => destruct x as [s1|] eqn:E; [cbn [bind] in H
                                               | discriminate H]
  end.
  injection H as <-. rewrite items_update_menu by reflexivity.
  eapply (fold_bind_invariant _ _ (fun s0 => all_items s0 = all_items s));
    cycle 2; [exact E| |reflexivity].
  intros item _ s0 s2 Hs0 H0. cbv beta in H0.
  destruct (item_submenu item) as [sub|]; [|injection H0 as <-; exact Hs0].
  destruct (find_menu s0 sub); [cbn [bind] in H0 | discriminate H0].
  rewrite (IH _ _ _ H0), items_update_menu by reflexivity. exact Hs0.
Qed.

Lemma menu_configure_items fuel :
  forall s a lx ly align s',
    menu_configure fuel s a lx ly align = Some s' ->
    all_items s' = all_items s.
Proof.
  induction fuel as [|fuel IH]; intros s a lx ly align s' H; simpl in H;
    [discriminate H|].
  destruct (find_menu s a) as [m|]; [cbn [bind] in H | discriminate H].
  destruct (wlr_output_layout_output_at lx ly) as [out|];
    [|injection H as <-; reflexivity].
  match type of H with
  | bind ?x _ = _ => destruct x as [fw|]; [cbn [bind] in H | discriminate H]
  end.
  eapply (fold_bind_invariant _ _ (fun s0 => all_items s0 = all_items s));
    cycle 2; [exact H| |apply items_update_menu; reflexivity].
  intros item _ s0 s1 Hs0 H0. cbv beta in H0.
  destruct (item_submenu item) as [sub|]; [|injection H0 as <-; exact Hs0].
  destruct (get_submenu_position s0 item _) as [[x y]|];
    [cbn [bind] in H0 | discriminate H0].
  rewrite (IH _ _ _ _ _ _ H0). exact Hs0.
Qed.

Lemma calm_menu_free s a : calm s (menu_free s a).
Proof.
  intros i' Hi'. unfold all_items in Hi'. rewrite menu_free_menus in Hi'.
  apply in_flat_map in Hi'. destruct Hi' as (m' & Hm' & Hi').
  apply filter_In in Hm'. destruct Hm' as [Hm' _].
  apply in_map_iff in Hm'. destruct Hm' as (m & <- & Hm).
  assert (Hitems :
            menuitems (nullify_in a m)
            = map (fun item => if ptr_eqb (item_submenu item) a
                               then with_submenu item None else item)
                (menuitems m)).
  { unfold nullify_in. destruct (ptr_eqb _ a); reflexivity. }
  rewrite Hitems in Hi'. apply in_map_iff in Hi'.
  destruct Hi' as (i & <- & Hi).
  exists i. split; [apply in_flat_map; exists m; auto|].
  destruct (ptr_eqb (item_submenu i) a); auto.
Qed.

Lemma calm_free_all (l : list addr) : forall s, calm s (free_all l s).
Proof.
  induction l as [|a l IH]; intros s; [apply calm_refl|].
  rewrite free_all_cons. eapply calm_trans; [apply calm_menu_free | apply IH].
Qed.

Lemma calm_destroy_pipemenus s : calm s (destroy_pipemenus s).
Proof. rewrite destroy_pipemenus_free_all. apply calm_free_all. Qed.

Lemma calm_menu_open_root fuel s a x y s' :
  menu_open_root fuel s a x y = Some s' -> calm s s'.
Proof.
  unfold menu_open_root. intros H.
  match type of H with
  | bind ?x _ = _ => destruct x as [s1|] eqn:E1; [cbn [bind] in H
                                                | discriminate H]
  end.
  destruct (close_all_submenus fuel s1 a) as [s2|] eqn:E2;
    [cbn [bind] in H | discriminate H].
  destruct (menu_configure fuel (menu_set_selection s2 a None) a x y
              LAB_MENU_OPEN_AUTO) as [s3|] eqn:E3;
    [cbn [bind] in H | discriminate H].
  destruct (find_menu s3 a); [cbn [bind] in H | discriminate H].
  injection H as <-.
  apply calm_trans with s1.
  { destruct (menu_current s); [|injection E1 as <-; apply calm_refl].
    destruct (menu_close fuel s (Some a0)) as [s0|] eqn:E0;
      [cbn [bind] in E1 | discriminate E1].
    injection E1 as <-.
    eapply calm_trans; [|apply calm_destroy_pipemenus].
    apply calm_same_items. eapply menu_close_items. exact E0. }
  apply calm_same_items.
  change (all_items (update_menu s3 a (fun m => with_enabled m true))
          = all_items s1).
  rewrite items_update_menu by reflexivity.
  rewrite (menu_configure_items _ _ _ _ _ _ E3).
  unfold menu_set_selection. rewrite items_update_menu by reflexivity.
  eapply close_all_submenus_items. exact E2.
Qed.

Lemma calm_menu_close_root fuel s s' :
  menu_close_root fuel s = Some s' -> calm s s'.
Proof.
  unfold menu_close_root. intros H.
  destruct (input_mode s); [discriminate H|].
  destruct (menu_current s) as [a|] eqn:Ec; cbn [bind] in H.
  - destruct (menu_close fuel s (Some a)) as [s0|] eqn:E0;
      [cbn [bind] in H | discriminate H].
    injection H as <-.
    apply calm_trans with s0;
      [apply calm_same_items; eapply menu_close_items; exact E0|].
    exact (calm_destroy_pipemenus (set_menu_current s0 None)).
  - injection H as <-. apply calm_same_items. reflexivity.
Qed.

Lemma calm_menu_execute_item fuel s item s' b :
  menu_execute_item fuel s item = Some (s', b) -> calm s s'.
Proof.
  unfold menu_execute_item. intros H.
  destruct (find_item s item) as [it|]; [cbn [bind] in H|discriminate H].
  destruct (is_some (item_submenu it) || negb (item_selectable it));
    [injection H as <- _; apply calm_refl|].
  destruct (find_menu s (item_parent it)); [cbn [bind] in H|discriminate H].
  destruct (menu_close fuel s (menu_current s)) as [s1|] eqn:E;
    [cbn [bind] in H|discriminate H].
  injection H as <- _.
  apply calm_trans with s1;
    [apply calm_same_items; eapply menu_close_items; exact E|].
  exact (calm_destroy_pipemenus
           (set_menu_current
              (set_input_mode s1 LAB_INPUT_STATE_PASSTHROUGH) None)).
Qed.

End Calm.

(** ** C1 and C3: oversized and malformed pipe-menu output *)

Section Requests.

Context {P : Platform}.

Lemma string_length_append (a b : string) :
  String.length (a ++ b) = (String.length a + String.length b)%nat.
Proof.
  induction a as [|c a IH]; simpl; [reflexivity | rewrite IH; reflexivity].
Qed.

Lemma c_string_length (data : string) :
  (String.length (c_string data) <= String.length data)%nat.
Proof.
  induction data as [|c data IH]; simpl; [lia|].
  destruct (Ascii.eqb c zero); simpl; lia.
Qed.

Lemma buf_add_len (b data : string) :
  buf_len (buf_add b data) <= buf_len b + buf_len data.
Proof.
  unfold buf_len, buf_add. rewrite string_length_append.
  pose proof (c_string_length data). lia.
Qed.

Lemma one_request_find s c ctx :
  one_request s -> find_ctx s c = Some ctx ->
  ctxs s = [ctx] /\ ctx_addr ctx = c.
Proof.
  intros [_ Hlen] Hf. unfold find_ctx in Hf.
  destruct (ctxs s) as [|x [|y l]]; simpl in *; try lia; [discriminate Hf|].
  destruct (addr_eqb (ctx_addr x) c) eqn:E; [|discriminate Hf].
  injection Hf as <-. apply Nat.eqb_eq in E. auto.
Qed.

Lemma one_request_not_waiting s :
  one_request s -> waiting_for_pipe_menu s = false -> ctxs s = [].
Proof.
  intros [Hiff _] Hw. destruct (ctxs s) as [|x l] eqn:E; [reflexivity|].
  assert (Ht : waiting_for_pipe_menu s = true) by (apply Hiff; discriminate).
  congruence.
Qed.

Lemma requests_bounded_nil s : ctxs s = [] -> requests_bounded s.
Proof. intros Hnil ctx Hin. rewrite Hnil in Hin. destruct Hin. Qed.

Lemma requests_bounded_calm s s' :
  calm s s' -> ctxs s' = ctxs s -> requests_bounded s -> requests_bounded s'.
Proof.
  intros Hcalm Hc Hb ctx Hin. rewrite Hc in Hin.
  destruct (Hb ctx Hin) as [Hlen Hsub]. split; [exact Hlen|].
  intros i' Hi' Ha.
  destruct (Hcalm i' Hi') as (i & Hi & Hai & [Hs|Hs]); [|exact Hs].
  rewrite Hs. apply Hsub; [exact Hi | congruence].
Qed.

Lemma pipemenu_ctx_destroy_nil s c ctx :
  ctxs s = [ctx] -> ctx_addr ctx = c -> ctxs (pipemenu_ctx_destroy s c) = [].
Proof.
  intros Hc Ha. simpl. rewrite Hc. simpl.
  rewrite Ha. unfold addr_eqb. rewrite Nat.eqb_refl. reflexivity.
Qed.

Lemma pipemenu_ctx_destroy_find s c :
  find_ctx (pipemenu_ctx_destroy s c) c = None.
Proof.
  unfold find_ctx. simpl.
  induction (ctxs s) as [|x l IH]; simpl; [reflexivity|].
  destruct (addr_eqb (ctx_addr x) c) eqn:E; simpl; [exact IH|].
  rewrite E. exact IH.
Qed.

Lemma exec_requests_bounded fuel s e s' :
  interactive e = true -> exec fuel s e = Some s' ->
  one_request s -> well_formed s -> requests_bounded s ->
  requests_bounded s'.
Proof.
  intros Hp He Hone Hwf Hb.
  assert (Hone' : one_request s')
    by (eapply pipe_step_one_request; [eapply exec_pipe_step; exact He
                                      | exact Hone]).
  pose proof (exec_pipe_step _ _ _ He) as Hstep.
  destruct e; try discriminate Hp; simpl in He.
  - destruct (run_menu_open_root _ _ _ _ _ He) as (s3 & Hr & Hs').
    destruct (run_pipe_frame Hr) as (Hc & _ & _).
    eapply requests_bounded_calm; [eapply calm_menu_open_root; exact He
                                  | | exact Hb].
    rewrite Hs'. exact Hc.
  - eapply requests_bounded_calm; [eapply calm_menu_close_root; exact He
                                  | | exact Hb].
    destruct (run_menu_close_root _ _ He) as (s1 & [(Hr & ->)| ->]);
      [|reflexivity].
    destruct (run_pipe_frame Hr) as (Hc & _ & _).
    destruct (run_pipe_frame
                (run_destroy_pipemenus (set_menu_current s1 None)))
      as (Hc' & _ & _).
    simpl. rewrite Hc'. exact Hc.
  - destruct (select_cases _ _ _ _ He)
      as [(_ & ->)|(Hw & s1 & Hr & Hs')]; [exact Hb|].
    destruct (run_pipe_frame Hr) as (Hc & _ & _). simpl in Hc.
    pose proof (one_request_not_waiting Hone Hw) as Hnil.
    destruct Hs' as [->|(it & Hfi & Hsub & Hpp)].
    + apply requests_bounded_nil. congruence.
    + destruct (parse_pipemenu_cases _ _ _ Hpp) as [(d & ->)|(pid & fd & ->)].
      * apply requests_bounded_nil. simpl. congruence.
      * assert (Hwf1 : well_formed s1).
        { apply (run_invariant _ (@prim_well_formed P) Hr). exact Hwf. }
        intros ctx Hin. simpl in Hin. rewrite Hc, Hnil in Hin.
        destruct Hin as [<-|[]]. split; [simpl; unfold buf_len; simpl;
                                        unfold PIPEMENU_MAX_BUF_SIZE; lia|].
        intros i Hi Ha. cbn [ctx_item] in Ha.
        change (In i (all_items s1)) in Hi.
        rewrite (find_item_addr _ _ Hfi) in Ha.
        rewrite (well_formed_find Hwf1 Hfi i Hi Ha). exact Hsub.
  - destruct (readable_cases _ _ _ _ He) as (ctx & Hf & Hcases).
    destruct (@one_request_find _ _ _ Hone Hf) as [Hc Ha].
    destruct Hcases as
        [(_ & Hs')|[(d & _ & _ & Hs')|[(d & _ & Hle & _ & ->)
         |[(d & _ & _ & _ & _ & Hs')|(d & s1 & _ & _ & _ & _ & _ & Hs')]]]];
      try (apply requests_bounded_nil;
           apply (one_request_not_waiting Hone'); rewrite Hs'; reflexivity).
    intros ctx' Hin. simpl in Hin. rewrite Hc in Hin. simpl in Hin.
    destruct Hin as [<-|[]].
    destruct (Hb ctx) as [Hlen Hsub]; [rewrite Hc; left; reflexivity|].
    destruct (addr_eqb (ctx_addr ctx) c).
    + split; [|exact Hsub]. cbn [ctx_buf with_buf].
      pose proof (buf_add_len (ctx_buf ctx) d). lia.
    + split; [exact Hlen | exact Hsub].
  - destruct (timeout_cases _ _ He) as (ctx & Hf & ->).
    apply requests_bounded_nil. apply (one_request_not_waiting Hone').
    reflexivity.
  - destruct (menu_call_actions fuel s item) as [[s1 b]|] eqn:E;
      [cbn [bind] in He|discriminate He].
    injection He as <-.
    eapply requests_bounded_calm; [eapply calm_menu_execute_item; exact E
                                  | | exact Hb].
    destruct (run_pipe_frame (run_menu_execute_item _ _ _ E)) as (Hc & _).
    exact Hc.
Qed.

Lemma trace_requests_bounded s s' :
  trace interactive s s' -> idle s -> well_formed s ->
  one_request s' /\ well_formed s' /\ requests_bounded s'.
Proof.
  intros Htrace Hidle Hwf.
  assert (H0 : one_request s /\ well_formed s /\ requests_bounded s).
  { split; [apply idle_one_request; exact Hidle|]. split; [exact Hwf|].
    apply requests_bounded_nil. apply Hidle. }
  clear Hidle Hwf.
  induction Htrace as [|s fuel e s1 s2 Ha He _ IH]; [exact H0|].
  apply IH. destruct H0 as (Hone & Hwf & Hb). split; [|split].
  - eapply pipe_step_one_request; [eapply exec_pipe_step; exact He|exact Hone].
  - eapply evolves_well_formed; [eapply exec_evolves; exact He | exact Hwf].
  - eapply exec_requests_bounded; eassumption.
Qed.

(** X30.  For a registered request whose item is live, a chunk whose
    size added to the buffered length exceeds [PIPEMENU_MAX_BUF_SIZE]
    = 1048576 (as it does whenever appending the chunk would) makes
    the handler send SIGTERM to the subprocess and destroy the
    request: its context is gone, the pending flag is cleared and no
    menu is touched.  In every state reached from a well-formed idle
    state by the events of an open menu, no other request is left and
    the triggering item has no submenu. *)
Theorem oversized_output_terminates fuel s c ctx item data :
  find_ctx s c = Some ctx ->
  find_item s (ctx_item ctx) = Some item ->
  buf_len (ctx_buf ctx) + buf_len data > PIPEMENU_MAX_BUF_SIZE ->
  PIPEMENU_MAX_BUF_SIZE = 1048576 /\
  exists s',
    handle_pipemenu_readable fuel s c (ReadOk data) = Some s' /\
    killed s' = killed s ++ [(ctx_pid ctx, SIGTERM)] /\
    find_ctx s' c = None /\ waiting_for_pipe_menu s' = false /\
    menus s' = menus s /\
    (forall s0,
        well_formed s0 -> idle s0 -> trace interactive s0 s ->
        ctxs s' = [] /\ item_without_submenu s' (ctx_item ctx)).
Proof.
  intros Hf Hitem Hgt. split; [reflexivity|].
  eexists. split.
  - unfold handle_pipemenu_readable. rewrite Hf. cbn [bind].
    destruct (Z.gtb_spec (buf_len (ctx_buf ctx) + buf_len data)
                PIPEMENU_MAX_BUF_SIZE); [|lia].
    rewrite Hitem. reflexivity.
  - split; [reflexivity|]. split; [apply pipemenu_ctx_destroy_find|].
    split; [reflexivity|]. split; [reflexivity|].
    intros s0 Hwf Hidle Htrace.
    destruct (trace_requests_bounded Htrace Hidle Hwf) as (Hone & _ & Hb).
    destruct (@one_request_find _ _ _ Hone Hf) as [Hc Ha].
    split; [exact (pipemenu_ctx_destroy_nil _ Hc Ha)|].
    apply (Hb ctx). rewrite Hc. left. reflexivity.
Qed.

(** Appending a chunk never adds more than its size, so a buffer that
    would exceed the limit after [buf_add] meets the handler's test. *)
Lemma buf_add_over_limit (b data : string) :
  buf_len (buf_add b data) > PIPEMENU_MAX_BUF_SIZE ->
  buf_len b + buf_len data > PIPEMENU_MAX_BUF_SIZE.
Proof. pose proof (buf_add_len b data). lia. Qed.

(** C3.  For a request in flight, in a state reached from a well-formed
    idle state by the events of an open menu, at the end of the stream
    (a read of zero bytes): if the buffer, after leading spaces, tabs,
    carriage returns and newlines, does not start with '<', the handler
    logs the "expect xml data" diagnostic and destroys the request
    without touching any menu, so the triggering item has no submenu;
    hence the item has a submenu afterwards, or any menu changed, only
    if the buffer starts with '<' after that whitespace. *)
Theorem malformed_output_aborts fuel s0 s c ctx :
  well_formed s0 -> idle s0 -> trace interactive s0 s ->
  find_ctx s c = Some ctx ->
  (starts_with_less_than (ctx_buf ctx) = false ->
   exists s',
     handle_pipemenu_readable fuel s c (ReadOk EmptyString) = Some s' /\
     log s' = log s ++ [DiagPipeExpectLessThan] /\
     killed s' = killed s /\
     ctxs s' = [] /\ waiting_for_pipe_menu s' = false /\
     menus s' = menus s /\
     item_without_submenu s' (ctx_item ctx)) /\
  (forall s',
      handle_pipemenu_readable fuel s c (ReadOk EmptyString) = Some s' ->
      (~ item_without_submenu s' (ctx_item ctx) \/ menus s' <> menus s) ->
      starts_with_less_than (ctx_buf ctx) = true).
Proof.
  intros Hwf Hidle Htrace Hf.
  destruct (trace_requests_bounded Htrace Hidle Hwf) as (Hone & _ & Hb).
  destruct (@one_request_find _ _ _ Hone Hf) as [Hc Ha].
  assert (Hin : In ctx (ctxs s)) by (rewrite Hc; left; reflexivity).
  destruct (Hb ctx Hin) as [Hlen Hsub].
  assert (Hstep :
            starts_with_less_than (ctx_buf ctx) = false ->
            handle_pipemenu_readable fuel s c (ReadOk EmptyString)
            = Some (pipemenu_ctx_destroy (wlr_log s DiagPipeExpectLessThan) c)).
  { intros Hs. unfold handle_pipemenu_readable. rewrite Hf. cbn [bind].
    change (buf_len EmptyString) with 0. rewrite Z.add_0_r.
    destruct (Z.gtb_spec (buf_len (ctx_buf ctx)) PIPEMENU_MAX_BUF_SIZE);
      [lia|].
    cbn [Z.eqb negb]. rewrite Hs. reflexivity. }
  split.
  - intros Hs. eexists. split; [exact (Hstep Hs)|].
    split; [reflexivity|]. split; [reflexivity|].
    split; [exact (pipemenu_ctx_destroy_nil _ Hc Ha)|].
    split; [reflexivity|]. split; [reflexivity|]. exact Hsub.
  - intros s' Hs' Hbuilt.
    destruct (starts_with_less_than (ctx_buf ctx)) eqn:Es; [reflexivity|].
    rewrite (Hstep eq_refl) in Hs'. injection Hs' as <-.
    destruct Hbuilt as [Hn|Hn]; exfalso; apply Hn; [exact Hsub|reflexivity].
Qed.

End Requests.

(** ** The theorems at the worked example *)

Lemma example_idle : idle example_menu_state.
Proof. split; reflexivity. Qed.

Lemma example_request_trace :
  @trace example_platform interactive example_menu_state
    example_requested.
Proof.
  apply trace_cons with (fuel := 1%nat) (e := Select 2%nat example_spawn)
                        (s1 := example_requested);
    [reflexivity | vm_compute; reflexivity | apply trace_nil].
Qed.

Lemma example_streaming_trace :
  @trace example_platform interactive example_menu_state
    example_streaming.
Proof.
  apply trace_cons with (fuel := 1%nat) (e := Select 2%nat example_spawn)
                        (s1 := example_requested);
    [reflexivity | vm_compute; reflexivity |].
  apply trace_cons with (fuel := 1%nat)
                        (e := Readable 6%nat (ReadOk "not xml"))
                        (s1 := example_streaming);
    [reflexivity | vm_compute; reflexivity | apply trace_nil].
Qed.

Lemma chunk_of_len (n : nat) : buf_len (chunk_of n) = Z.of_nat n.
Proof.
  unfold buf_len. f_equal.
  induction n as [|n IH]; simpl; [reflexivity | rewrite IH; reflexivity].
Qed.

Lemma example_well_formed : well_formed example_menu_state.
Proof.
  unfold well_formed. cbn. split; [|split; [|split]].
  - repeat constructor. intros [].
  - repeat constructor; cbn; intuition discriminate.
  - intros m [<-|[]]. cbn. lia.
  - intros i [<-|[<-|[<-|[]]]]; cbn; lia.
Qed.

Lemma trace_app {P : Platform} allowed s1 s2 s3 :
  trace allowed s1 s2 -> trace allowed s2 s3 -> trace allowed s1 s3.
Proof.
  intros H12 H23. induction H12 as [|s fuel e sa sb Ha He _ IH];
    [exact H23|].
  eapply trace_cons; [exact Ha | exact He | exact (IH H23)].
Qed.

Lemma c_string_chunk (n : nat) : c_string (chunk_of n) = chunk_of n.
Proof. induction n as [|n IH]; cbn; [reflexivity | rewrite IH; reflexivity]. Qed.

Lemma chunk_of_app (a b : nat) :
  (chunk_of a ++ chunk_of b)%string = chunk_of (a + b).
Proof. induction a as [|a IH]; cbn; [reflexivity | rewrite IH; reflexivity]. Qed.

Lemma read_size_len : buf_len (chunk_of read_size) = 8192.
Proof. rewrite chunk_of_len. reflexivity. Qed.

Lemma filled_len (k : nat) :
  buf_len (chunk_of (k * read_size)) = Z.of_nat k * 8192.
Proof.
  rewrite chunk_of_len, Nat2Z.inj_mul. reflexivity.
Qed.

(** While the buffer stays within the limit, a full read is appended
    and nothing else changes. *)
Lemma filled_step {P : Platform} fuel s c item k :
  Z.of_nat (S k) * 8192 <= PIPEMENU_MAX_BUF_SIZE ->
  handle_pipemenu_readable fuel (filled s c item k) c
    (ReadOk (chunk_of read_size))
  = Some (filled s c item (S k)).
Proof.
  intros Hle. unfold handle_pipemenu_readable, filled, find_ctx.
  cbn [ctxs set_ctxs find ctx_addr]. unfold addr_eqb at 1.
  rewrite Nat.eqb_refl. cbn [bind ctx_buf ctx_item].
  rewrite filled_len, read_size_len.
  destruct (Z.gtb_spec (Z.of_nat k * 8192 + 8192) PIPEMENU_MAX_BUF_SIZE);
    [lia|].
  cbn [Z.eqb negb map ctx_addr]. unfold addr_eqb. rewrite Nat.eqb_refl.
  unfold with_buf, buf_add. cbn [ctx_addr ctx_item ctx_buf ctx_pid ctx_pipe_fd].
  rewrite c_string_chunk, chunk_of_app.
  rewrite <- Nat.mul_succ_l. reflexivity.
Qed.

Lemma filled_trace {P : Platform} s c item (n : nat) :
  forall k,
    Z.of_nat (k + n) * 8192 <= PIPEMENU_MAX_BUF_SIZE ->
    trace interactive (filled s c item k) (filled s c item (k + n)).
Proof.
  induction n as [|n IH]; intros k Hle.
  - rewrite Nat.add_0_r. apply trace_nil.
  - apply trace_cons
      with (fuel := 0%nat) (e := Readable c (ReadOk (chunk_of read_size)))
           (s1 := filled s c item (S k)).
    + reflexivity.
    + apply filled_step. lia.
    + replace (k + S n)%nat with (S k + n)%nat by lia.
      apply IH. lia.
Qed.

Lemma example_filled_trace :
  @trace example_platform interactive example_menu_state
    (filled example_requested 6%nat 2%nat 128).
Proof.
  eapply trace_app; [exact example_request_trace|].
  apply (@filled_trace example_platform example_requested 6%nat 2%nat
           128 0).
  vm_compute. discriminate.
Qed.

Lemma oversized_output_terminates_witness :
  exists s',
    handle_pipemenu_readable (P := example_platform) 0
      (filled example_requested 6%nat 2%nat 128) 6%nat
      (ReadOk (chunk_of 1)) = Some s' /\
    killed s' = killed example_requested ++ [(100, SIGTERM)] /\
    find_ctx s' 6%nat = None /\
    waiting_for_pipe_menu s' = false /\
    menus s' = menus example_requested /\
    ctxs s' = [] /\
    item_without_submenu s' 2%nat.
Proof.
  destruct (find_item (filled example_requested 6%nat 2%nat 128) 2%nat)
    as [item|] eqn:Ei; [|discriminate Ei].
  destruct (@oversized_output_terminates example_platform 0%nat
              (filled example_requested 6%nat 2%nat 128) 6%nat
              (mkCtx 6%nat 2%nat (chunk_of (128 * read_size)) 100 5)
              item (chunk_of 1))
    as (_ & s' & Hs' & Hk & Hf & Hw & Hm & Hreach).
  - reflexivity.
  - exact Ei.
  - cbn [ctx_buf]. rewrite filled_len, chunk_of_len. cbv. reflexivity.
  - exists s'. repeat (split; [assumption|]).
    apply (Hreach example_menu_state example_well_formed example_idle
             example_filled_trace).
Defined.

Lemma exec_all_trace {P : Platform} allowed fuel (l : list event) :
  forall s s',
    forallb allowed l = true -> exec_all fuel s l = Some s' ->
    trace allowed s s'.
Proof.
  induction l as [|e l IH]; intros s s' Ha He; cbn in He.
  - injection He as <-. apply trace_nil.
  - cbn in Ha. apply andb_prop in Ha. destruct Ha as [Ha Hl].
    destruct (exec fuel s e) as [s1|] eqn:E1; [cbn [bind] in He
                                               | discriminate He].
    eapply trace_cons; [exact Ha | exact E1 | exact (IH _ _ Hl He)].
Qed.

Lemma example_orphaned_trace :
  @trace nested_platform interactive example_menu_state
    (filled example_orphaned 9%nat 8%nat 128).
Proof.
  eapply trace_app.
  - apply (@exec_all_trace nested_platform interactive 5
             example_orphaned_events);
      [reflexivity | vm_compute; reflexivity].
  - apply (@filled_trace nested_platform example_orphaned 9%nat 8%nat
             128 0).
    vm_compute. discriminate.
Qed.

(** C1.  An in-flight request for which the claim fails.  The pipe
    menu of the example holds a pipe-menu item; the pointer moves onto
    it and the menu is closed, which frees the pipe menu and the item
    but not the request.  The subprocess then writes 128 chunks of
    8192 bytes, which fill the buffer to the limit, and one byte more.
    For its log line the handler reads the command of the item that
    was freed: the call has no defined outcome, where the claim has the
    subprocess signalled and the request torn down. *)
Theorem oversized_output_after_close :
  @trace nested_platform interactive example_menu_state
    (filled example_orphaned 9%nat 8%nat 128) /\
  find_ctx (filled example_orphaned 9%nat 8%nat 128) 9%nat
  = Some (mkCtx 9%nat 8%nat (chunk_of (128 * read_size)) 100 5) /\
  buf_len (chunk_of (128 * read_size)) = PIPEMENU_MAX_BUF_SIZE /\
  find_item (filled example_orphaned 9%nat 8%nat 128) 8%nat = None /\
  handle_pipemenu_readable (P := nested_platform) 0
    (filled example_orphaned 9%nat 8%nat 128) 9%nat (ReadOk (chunk_of 1))
  = None.
Proof.
  split; [exact example_orphaned_trace|]. split; [reflexivity|].
  split; [rewrite filled_len; reflexivity|]. split; [reflexivity|].
  unfold handle_pipemenu_readable, filled, find_ctx.
  cbn [ctxs set_ctxs find ctx_addr addr_eqb Nat.eqb bind ctx_buf ctx_item].
  rewrite filled_len, chunk_of_len.
  reflexivity.
Qed.

Lemma select_ignored_while_request_in_flight_witness :
  menu_process_item_selection 1 example_spawn example_requested 4%nat
  = Some example_requested /\
  (List.length (ctxs example_requested) <= 1)%nat.
Proof.
  destruct (@select_ignored_while_request_in_flight example_platform
              example_menu_state example_requested) as [Hselect Hlen].
  - split; reflexivity.
  - apply trace_cons with (fuel := 1%nat) (e := Select 2%nat example_spawn)
                          (s1 := example_requested);
      [reflexivity | vm_compute; reflexivity | apply trace_nil].
  - split; [|exact Hlen]. apply Hselect. vm_compute. discriminate.
Defined.

Lemma malformed_output_aborts_witness :
  exists s',
    handle_pipemenu_readable (P := example_platform) 0 example_streaming
      6%nat (ReadOk EmptyString) = Some s' /\
    log s' = log example_streaming ++ [DiagPipeExpectLessThan] /\
    killed s' = killed example_streaming /\
    ctxs s' = [] /\ waiting_for_pipe_menu s' = false /\
    menus s' = menus example_streaming /\
    item_without_submenu s' 2%nat.
Proof.
  refine (proj1 (@malformed_output_aborts example_platform 0%nat
                   example_menu_state example_streaming 6%nat
                   (mkCtx 6%nat 2%nat "not xml" 100 5) _ _ _ _) _).
  - exact example_well_formed.
  - split; reflexivity.
  - exact example_streaming_trace.
  - reflexivity.
  - reflexivity.
Defined.

Lemma ids_unique_unless_diagnosed_witness :
  exists s',
    exec (P := example_platform) 0 initial_state
      (ParseBuf duplicate_config_text) = Some s' /\
    repeated_ids s' = 1%nat /\ diagnosed s' = 1%nat /\
    accounted initial_state s'.
Proof.
  eexists. split; [vm_compute; reflexivity|].
  split; [reflexivity|]. split; [reflexivity|].
  refine (proj1 (@ids_unique_unless_diagnosed example_platform
                   initial_state _ _)).
  eapply trace_cons with (fuel := 0%nat)
                         (e := ParseBuf duplicate_config_text);
    [reflexivity | vm_compute; reflexivity | apply trace_nil].
Defined.


Lemma menu_update_width_spec_witness :
  size_width (menu_update_width (P := example_platform) example_root_menu)
  = spec_menu_width example_theme (menuitems example_root_menu)
  /\ spec_menu_width example_theme (menuitems example_root_menu) = 70.
Proof.
  split; [|reflexivity].
  apply (proj2 (@menu_update_width_spec example_platform example_root_menu));
    [simpl; lia | cbv; split; [discriminate | reflexivity]
    | cbv; split; [discriminate | reflexivity]].
Defined.

(** The width stored is not always the one the formula gives.  With a
    minimum of 100 and a maximum of 50, an item of natural width 150 is
    cut to 50 by the loop, below the minimum: 64 is stored where the
    formula gives 114.  With a horizontal padding of 2^30 the doubling
    leaves the range of [int]: -2147483592 is stored where the formula
    gives 2147483704. *)
Lemma menu_update_width_disagrees :
  (size_width (menu_update_width (P := unordered_platform) example_wide_menu)
   = 64 /\
   spec_menu_width (mkTheme 100 50 7 4 0 0 1 3 6)
     (menuitems example_wide_menu) = 114) /\
  (size_width (menu_update_width (P := padded_platform) example_root_menu)
   = -2147483592 /\
   spec_menu_width (mkTheme 20 200 1073741824 4 0 0 1 3 6)
     (menuitems example_root_menu) = 2147483704).
Proof. repeat split. Qed.

Lemma menu_create_duplicate_keeps_first_witness :
  log (fst (menu_create (P := example_platform) example_menu_state
              "root-menu" None))
  = log example_menu_state ++ [DiagMenuIdExists] /\
  menu_get_by_id
    (fst (menu_create (P := example_platform) example_menu_state
            "root-menu" None))
    (Some "root-menu"%string) = Some example_root_menu.
Proof.
  assert (Hfirst : first_registered example_menu_state "root-menu"
                     example_root_menu).
  { exists [], []. repeat split. intros x []. }
  destruct (proj1 (@menu_create_duplicate_keeps_first example_platform)
              example_menu_state "root-menu"%string None example_root_menu
              Hfirst) as (Hlog & _ & Hget & _).
  split; [exact Hlog | exact Hget].
Defined.





Lemma select_same_item_again_witness :
  menu_process_item_selection 1 example_spawn example_requested 2%nat
  = Some example_requested.
Proof.
  refine (@select_same_item_again example_platform 1%nat example_spawn
            example_menu_state 2%nat example_requested _ 1%nat example_spawn).
  vm_compute. reflexivity.
Defined.

(** ** Lookup after creation *)

Lemma find_app {A : Type} (f : A -> bool) (l1 l2 : list A) :
  find f (l1 ++ l2)
  = match find f l1 with Some x => Some x | None => find f l2 end.
Proof.
  induction l1 as [|x l1 IH]; simpl; [reflexivity|].
  destruct (f x); [reflexivity | exact IH].
Qed.

(** X1.  Creating a menu never changes what a lookup that already
    succeeded returns; a lookup that failed finds the new menu exactly
    when it asks for the new id.  The new menu carries the label (the id
    when the label is null), the parser's current menu as parent, the
    pipe-menu flag of the moment, the minimum width, no items, and is
    hidden. *)
Theorem menu_create_lookup `{Platform} (s : state) (id : string)
    (label : option string) (id' : string) :
  menu_get_by_id (fst (menu_create s id label)) (Some id')
  = match menu_get_by_id s (Some id') with
    | Some m => Some m
    | None =>
      if String.eqb id id' then
        Some (mkMenu (next_addr s) id
                (match label with Some l => l | None => id end)
                (current_menu s) (menu_min_width server_theme) 0 0 []
                (waiting_for_pipe_menu s) 0 None None 0 0 false None)
      else None
    end.
Proof.
  unfold menu_create, menu_get_by_id.
  destruct (is_unique_id s id); cbn; rewrite find_app; cbn;
    destruct (find (fun m => String.eqb (menu_id m) id') (menus s));
    try reflexivity; destruct (String.eqb id id'); reflexivity.
Qed.

(** ** Teardown of the whole registry *)

Lemma free_all_only_menus (l : list addr) :
  forall s, free_all l s = set_menus s (menus (free_all l s)).
Proof.
  induction l as [|a l IH]; intros s.
  - destruct s; reflexivity.
  - rewrite free_all_cons, (IH (menu_free s a)). reflexivity.
Qed.

Lemma free_all_covers (l : list addr) :
  forall s,
    (forall m, In m (menus s) -> In (menu_addr m) l) ->
    menus (free_all l s) = [].
Proof.
  induction l as [|a l IH]; intros s Hall.
  - cbn. destruct (menus s) as [|m rest]; [reflexivity|].
    destruct (Hall m (or_introl eq_refl)).
  - rewrite free_all_cons. apply IH.
    rewrite menu_free_menus. intros m Hin.
    apply filter_In in Hin. destruct Hin as [Hin Hne].
    apply in_map_iff in Hin. destruct Hin as (m0 & <- & Hin0).
    rewrite nullify_in_addr in Hne |- *.
    destruct (Hall m0 Hin0) as [->|Hl]; [|exact Hl].
    unfold addr_eqb in Hne. rewrite Nat.eqb_refl in Hne. discriminate Hne.
Qed.

Lemma freed_from_all (from : option addr) (l : list menu) :
  freed_from true from l = map menu_addr l.
Proof.
  induction l as [|m l IH]; cbn; [reflexivity | rewrite IH; reflexivity].
Qed.

(** X2.  [menu_finish] unlinks every menu and touches nothing else:
    neither the parser's statics nor [menu_current] are reset. *)
Theorem menu_finish_empties (s : state) : menu_finish s = set_menus s [].
Proof.
  unfold menu_finish. rewrite menu_free_from_free_all.
  rewrite free_all_only_menus. f_equal.
  apply free_all_covers. intros m Hin. cbn [is_some negb].
  rewrite freed_from_all. apply in_map. exact Hin.
Qed.

(** ** What closing the menu tree leaves of the registry *)

Lemma free_all_outline (l : list addr) :
  forall s,
    map outline (menus (free_all l s))
    = map outline
        (filter (fun m => negb (existsb (addr_eqb (menu_addr m)) l))
           (menus s)) /\
    map is_pipemenu (menus (free_all l s))
    = map is_pipemenu
        (filter (fun m => negb (existsb (addr_eqb (menu_addr m)) l))
           (menus s)).
Proof.
  induction l as [|a l IH]; intros s.
  - cbn.
    assert (Hid : forall l0 : list menu, filter (fun _ => true) l0 = l0).
    { induction l0 as [|x l0 IH0]; cbn; [reflexivity | rewrite IH0; reflexivity]. }
    rewrite Hid. split; reflexivity.
  - rewrite free_all_cons. destruct (IH (menu_free s a)) as [Ho Hp].
    rewrite Ho, Hp, menu_free_menus. clear Ho Hp IH.
    induction (menus s) as [|m rest IHm]; [split; reflexivity|].
    destruct IHm as [IHo IHp].
    cbn [map filter existsb]. rewrite nullify_in_addr.
    assert (Eo : outline (nullify_in a m) = outline m).
    { unfold outline, nullify_in.
      destruct (ptr_eqb (menu_parent _) a); cbn; rewrite map_map;
        f_equal; apply map_ext; intros i;
        destruct (ptr_eqb (item_submenu i) a); reflexivity. }
    assert (Ep : is_pipemenu (nullify_in a m) = is_pipemenu m).
    { unfold nullify_in.
      destruct (ptr_eqb (menu_parent _) a); reflexivity. }
    destruct (addr_eqb (menu_addr m) a) eqn:Ea; cbn [negb orb].
    + split; assumption.
    + cbn [filter existsb]. rewrite nullify_in_addr.
      destruct (existsb (addr_eqb (menu_addr m)) l); cbn [negb map].
      * split; assumption.
      * rewrite Eo, Ep, IHo, IHp. split; reflexivity.
Qed.

Lemma existsb_addr_in (a : addr) (l : list addr) :
  existsb (addr_eqb a) l = true <-> In a l.
Proof.
  rewrite existsb_exists. split.
  - intros (x & Hin & E). apply Nat.eqb_eq in E. subst. exact Hin.
  - intros Hin. exists a. split; [exact Hin | apply Nat.eqb_refl].
Qed.

Lemma pipemenu_addresses (l : list menu) :
  NoDup (map menu_addr l) ->
  forall m, In m l ->
    existsb (addr_eqb (menu_addr m)) (map menu_addr (filter is_pipemenu l))
    = is_pipemenu m.
Proof.
  intros Hnd m Hin.
  destruct (is_pipemenu m) eqn:Ep.
  - apply existsb_addr_in. apply in_map. apply filter_In. auto.
  - destruct (existsb _ _) eqn:Ex; [|reflexivity].
    apply existsb_addr_in in Ex. apply in_map_iff in Ex.
    destruct Ex as (m0 & Ea & Hin0). apply filter_In in Hin0.
    destruct Hin0 as [Hin0 Ep0].
    rewrite (NoDup_map_inj_in _ _ Hnd _ _ Hin0 Hin Ea) in Ep0. congruence.
Qed.

(** X3.  [destroy_pipemenus] frees exactly the pipe menus: the static
    menus stay registered, in their order, each with its id and its
    items in order, and no menu that is left is a pipe menu. *)
Theorem destroy_pipemenus_keeps_static (s : state) :
  NoDup (map menu_addr (menus s)) ->
  map outline (menus (destroy_pipemenus s))
  = map outline (filter (fun m => negb (is_pipemenu m)) (menus s)) /\
  forall m, In m (menus (destroy_pipemenus s)) -> is_pipemenu m = false.
Proof.
  intros Hnd. rewrite destroy_pipemenus_free_all.
  destruct (free_all_outline
              (map menu_addr (filter is_pipemenu (menus s))) s) as [Ho Hp].
  assert (Hf : filter
                 (fun m =>
                    negb (existsb (addr_eqb (menu_addr m))
                            (map menu_addr (filter is_pipemenu (menus s)))))
                 (menus s)
               = filter (fun m => negb (is_pipemenu m)) (menus s)).
  { apply filter_ext_in. intros m Hin.
    rewrite (pipemenu_addresses _ Hnd _ Hin). reflexivity. }
  rewrite Hf in Ho, Hp. split; [exact Ho|].
  intros m Hin. apply (in_map is_pipemenu) in Hin. rewrite Hp in Hin.
  apply in_map_iff in Hin. destruct Hin as (m0 & E & Hin0).
  apply filter_In in Hin0. destruct Hin0 as [_ Hn].
  rewrite <- E. destruct (is_pipemenu m0); [discriminate Hn | reflexivity].
Qed.

Lemma destroy_pipemenus_keeps_static_witness :
  map outline (menus (destroy_pipemenus example_piped))
  = [(1%nat, "root-menu"%string, [2%nat; 3%nat; 4%nat])] /\
  forall m, In m (menus (destroy_pipemenus example_piped)) ->
            is_pipemenu m = false.
Proof.
  apply (destroy_pipemenus_keeps_static example_piped).
  cbn. repeat constructor; cbn; intuition discriminate.
Defined.

(** ** Validation *)

Section Validation.

Context {P : Platform}.

Lemma invalid_actions_total (l : list menu) :
  fold_right (fun m acc => (invalid_actions m + acc)%nat) 0%nat l
  = List.length
      (filter (fun a => negb (action_is_valid a))
         (flat_map item_actions (flat_map menuitems l))).
Proof.
  induction l as [|m l IH]; [reflexivity|].
  cbn [fold_right flat_map]. rewrite IH. unfold invalid_actions.
  rewrite flat_map_app, filter_app, length_app. reflexivity.
Qed.

Lemma log_fold (l : list diag) :
  forall s, log (fold_left wlr_log l s) = log s ++ l.
Proof.
  induction l as [|d l IH]; intros s; cbn [fold_left].
  - rewrite app_nil_r. reflexivity.
  - rewrite IH. cbn. rewrite <- app_assoc. reflexivity.
Qed.

Lemma menus_fold (l : list diag) :
  forall s, menus (fold_left wlr_log l s) = menus s.
Proof.
  induction l as [|d l IH]; intros s; cbn [fold_left];
    [reflexivity | rewrite IH; reflexivity].
Qed.

Lemma validate_actions (s : state) :
  all_actions (validate s) = filter action_is_valid (all_actions s).
Proof.
  unfold all_actions, all_items, validate. rewrite menus_fold.
  cbn [menus set_menus].
  induction (menus s) as [|m l IH]; [reflexivity|].
  cbn [map flat_map]. rewrite !flat_map_app, filter_app, IH. f_equal.
  unfold validate_menu. cbn [menuitems with_items].
  induction (menuitems m) as [|i r IHi]; [reflexivity|].
  cbn [map flat_map]. rewrite filter_app, IHi. reflexivity.
Qed.

Lemma filter_idem {A : Type} (f : A -> bool) (l : list A) :
  filter f (filter f l) = filter f l.
Proof.
  induction l as [|x l IH]; cbn; [reflexivity|].
  destruct (f x) eqn:E; cbn; [rewrite E, IH; reflexivity | exact IH].
Qed.

Lemma filter_none_left {A : Type} (f : A -> bool) (l : list A) :
  filter (fun x => negb (f x)) (filter f l) = [].
Proof.
  induction l as [|x l IH]; cbn; [reflexivity|].
  destruct (f x) eqn:E; cbn; [rewrite E; exact IH | exact IH].
Qed.

Lemma validate_menu_idem (m : menu) :
  validate_menu (validate_menu m) = validate_menu m.
Proof.
  unfold validate_menu, with_items. cbn. f_equal.
  rewrite map_map. apply map_ext. intros i.
  unfold with_actions. cbn. rewrite filter_idem. reflexivity.
Qed.

(** X4.  After [validate] every action that is left is valid, the valid
    actions are all still there in their order, one diagnostic has been
    logged for each action removed, and validating again changes
    nothing. *)
Theorem validate_removes_invalid_actions (s : state) :
  all_actions (validate s) = filter action_is_valid (all_actions s) /\
  (forall a, In a (all_actions (validate s)) -> action_is_valid a = true) /\
  log (validate s)
  = log s
    ++ repeat DiagInvalidAction
         (List.length (all_actions s)
          - List.length (all_actions (validate s))) /\
  validate (validate s) = validate s.
Proof.
  split; [apply validate_actions|]. split; [|split].
  - intros a Hin. rewrite validate_actions in Hin.
    apply filter_In in Hin. apply Hin.
  - rewrite validate_actions. unfold validate at 1. rewrite log_fold.
    cbn [log set_menus]. f_equal. f_equal.
    rewrite invalid_actions_total. fold (all_items s). fold (all_actions s).
    pose proof (filter_length action_is_valid (all_actions s)) as Hlen.
    lia.
  - assert (Hnone :
      fold_right (fun m acc => (invalid_actions m + acc)%nat) 0%nat
        (menus (validate s)) = 0%nat).
    { rewrite invalid_actions_total. fold (all_items (validate s)).
      fold (all_actions (validate s)). rewrite validate_actions.
      rewrite filter_none_left. reflexivity. }
    unfold validate at 1. rewrite Hnone. cbn [repeat fold_left].
    assert (Hm : map validate_menu (menus (validate s)) = menus (validate s)).
    { unfold validate. rewrite menus_fold. cbn [menus set_menus].
      rewrite map_map. apply map_ext. intros m. apply validate_menu_idem. }
    rewrite Hm. destruct (validate s); reflexivity.
Qed.

End Validation.

(** ** Hiding a submenu *)

Lemma reposition_submenus (items : list menuitem) :
  forall y,
    map (fun i => (item_addr i, item_submenu i)) (fst (reposition y items))
    = map (fun i => (item_addr i, item_submenu i)) items.
Proof.
  induction items as [|i items IH]; intros y; [reflexivity|].
  cbn [reposition]. specialize (IH (y + item_height_of i)).
  destruct (reposition (y + item_height_of i) items) as [rest h].
  cbn [fst map] in *. rewrite IH. reflexivity.
Qed.

Lemma hide_submenu_in_links (hide : addr) (m : menu) :
  map (fun i => (item_addr i, item_submenu i))
    (menuitems (hide_submenu_in hide m))
  = map (fun i => (item_addr i, item_submenu i))
      (filter (fun item => negb (ptr_eqb (item_submenu item) hide))
         (menuitems m)).
Proof.
  unfold hide_submenu_in.
  destruct (existsb (fun item => ptr_eqb (item_submenu item) hide)
              (menuitems m)) eqn:Ex.
  - pose proof (reposition_submenus
                  (filter (fun item => negb (ptr_eqb (item_submenu item) hide))
                     (menuitems m)) 0) as Hr.
    destruct (reposition 0 _) as [items h]. exact Hr.
  - rewrite filter_none by exact Ex. reflexivity.
Qed.

(** X5.  [menu_hide_submenu] removes the items that link to the menu
    registered first under the id, and only those: the items that are
    left are the others, in their order and with their links; the menu
    itself, like every other menu, stays registered.  An id that is not
    registered leaves the state as it is. *)
Theorem menu_hide_submenu_removes_links (s : state) (id : string) :
  match menu_get_by_id s (Some id) with
  | None => menu_hide_submenu s id = s
  | Some hide =>
    let s' := menu_hide_submenu s id in
    map (fun m => (menu_addr m, menu_id m)) (menus s')
    = map (fun m => (menu_addr m, menu_id m)) (menus s) /\
    map (fun m => map (fun i => (item_addr i, item_submenu i)) (menuitems m))
      (menus s')
    = map (fun m =>
             map (fun i => (item_addr i, item_submenu i))
               (filter (fun i =>
                          negb (ptr_eqb (item_submenu i) (menu_addr hide)))
                  (menuitems m)))
        (menus s) /\
    forall i, In i (all_items s') -> item_submenu i <> Some (menu_addr hide)
  end.
Proof.
  unfold menu_hide_submenu.
  destruct (menu_get_by_id s (Some id)) as [hide|]; [|reflexivity].
  cbn zeta. cbn [menus set_menus].
  assert (Hlinks :
    map (fun m => map (fun i => (item_addr i, item_submenu i)) (menuitems m))
      (map (hide_submenu_in (menu_addr hide)) (menus s))
    = map (fun m =>
             map (fun i => (item_addr i, item_submenu i))
               (filter (fun i =>
                          negb (ptr_eqb (item_submenu i) (menu_addr hide)))
                  (menuitems m)))
        (menus s)).
  { rewrite map_map. apply map_ext. intros m. apply hide_submenu_in_links. }
  split; [|split; [exact Hlinks|]].
  - rewrite map_map. apply map_ext. intros m.
    destruct (hide_submenu_in_frame (menu_addr hide) m) as (-> & -> & _).
    reflexivity.
  - intros i Hin Hsub. unfold all_items in Hin. cbn [menus set_menus] in Hin.
    apply in_flat_map in Hin. destruct Hin as (m' & Hm' & Hi).
    apply in_map_iff in Hm'. destruct Hm' as (m & <- & Hm).
    apply (in_map (fun i => (item_addr i, item_submenu i))) in Hi.
    rewrite hide_submenu_in_links in Hi. apply in_map_iff in Hi.
    destruct Hi as (i0 & E & Hi0). apply filter_In in Hi0.
    destruct Hi0 as [_ Hn]. injection E as _ E. rewrite E, Hsub in Hn.
    rewrite ptr_eqb_refl in Hn. discriminate Hn.
Qed.

(** ** The guard on pipe-menu output *)

Lemma skip_blanks_split (x : string) :
  exists blanks,
    x = (blanks ++ skip_blanks x)%string /\ all_blank blanks = true /\
    match skip_blanks x with
    | EmptyString => True
    | String c _ => blank c = false
    end.
Proof.
  induction x as [|c x IH].
  - exists EmptyString. repeat split.
  - cbn [skip_blanks]. fold (blank c).
    destruct (blank c) eqn:Eb.
    + destruct IH as (blanks & Hx & Hb & Hc).
      exists (String c blanks). cbn. rewrite Eb, Hb, <- Hx. repeat split.
      exact Hc.
    + exists EmptyString. cbn. repeat split. exact Eb.
Qed.

Lemma skip_blanks_blanks (blanks rest : string) :
  all_blank blanks = true ->
  skip_blanks (blanks ++ rest) = skip_blanks rest.
Proof.
  induction blanks as [|c blanks IH]; intros Hb; [reflexivity|].
  cbn in Hb. apply andb_prop in Hb. destruct Hb as [Hc Hb].
  cbn [String.append skip_blanks]. fold (blank c). rewrite Hc. apply IH, Hb.
Qed.

(** X6.  The guard accepts a buffer exactly when it consists of blanks
    (space, tab, carriage return, newline) followed by ['<']; the empty
    buffer and a buffer of blanks alone are refused. *)
Theorem starts_with_less_than_iff (x : string) :
  starts_with_less_than x = true <->
  exists blanks rest,
    x = (blanks ++ String "<" rest)%string /\ all_blank blanks = true.
Proof.
  unfold starts_with_less_than. split.
  - intros H. destruct (skip_blanks_split x) as (blanks & Hx & Hb & _).
    destruct (skip_blanks x) as [|c rest]; [discriminate H|].
    apply Ascii.eqb_eq in H. subst c. exists blanks, rest. auto.
  - intros (blanks & rest & -> & Hb).
    rewrite skip_blanks_blanks by exact Hb. reflexivity.
Qed.

(** ** Requests that end without a menu *)

Section RequestEnd.

Context {P : Platform}.

(** X7.  A request that times out or whose pipe cannot be read, and
    whose item is live, is destroyed and leaves no request behind, so
    that the next selection is processed again; the menus are not
    touched.  Only the timeout signals the subprocess.  Both handlers
    name the item's command in their log line: where the item was
    freed while the request was in flight they read freed memory, and
    the call has no defined outcome. *)
Theorem request_released_on_failure fuel s0 s c ctx :
  idle s0 -> trace any_event s0 s -> find_ctx s c = Some ctx ->
  match find_item s (ctx_item ctx) with
  | Some _ =>
    (exists s',
        handle_pipemenu_timeout s c = Some s' /\ idle s' /\
        killed s' = killed s ++ [(ctx_pid ctx, SIGTERM)] /\
        log s' = log s ++ [DiagPipeTimeout] /\ menus s' = menus s) /\
    (exists s',
        handle_pipemenu_readable fuel s c ReadError = Some s' /\ idle s' /\
        killed s' = killed s /\
        log s' = log s ++ [DiagPipeReadFailed] /\ menus s' = menus s)
  | None =>
    handle_pipemenu_timeout s c = None /\
    handle_pipemenu_readable fuel s c ReadError = None
  end.
Proof.
  intros Hidle Htrace Hf.
  pose proof (trace_one_request Htrace (idle_one_request Hidle)) as Hone.
  destruct (@one_request_find _ _ _ Hone Hf) as [Hctxs Hc].
  unfold handle_pipemenu_timeout, handle_pipemenu_readable.
  rewrite Hf. cbn [bind].
  destruct (find_item s (ctx_item ctx)) as [item|]; cbn [bind];
    [|split; reflexivity].
  split.
  - eexists. split; [reflexivity|]. repeat split.
    apply pipemenu_ctx_destroy_nil with (ctx := ctx); assumption.
  - eexists. split; [reflexivity|]. repeat split.
    apply pipemenu_ctx_destroy_nil with (ctx := ctx); assumption.
Qed.

(** X8.  Along the events that occur while a menu is shown, from a
    well-formed state with no request in flight, the buffer of a request
    never holds more than 1 MiB. *)
Theorem buffer_within_limit s0 s ctx :
  well_formed s0 -> idle s0 -> trace interactive s0 s ->
  In ctx (ctxs s) -> buf_len (ctx_buf ctx) <= 1048576.
Proof.
  intros Hwf Hidle Htrace Hin.
  destruct (trace_requests_bounded Htrace Hidle Hwf) as (_ & _ & Hb).
  apply (Hb ctx Hin).
Qed.

(** X9.  The command of a pipe-menu item is only spawned when no menu is
    registered under the item's id, and a request is only registered
    when the spawn succeeded; in both other cases one diagnostic is
    logged and nothing else changes. *)
Theorem parse_pipemenu_guards spawn_piped s item id execute :
  item_id item = Some id -> item_execute item = Some execute ->
  exists s',
    parse_pipemenu spawn_piped s item = Some s' /\ menus s' = menus s /\
    (menu_get_by_id s (Some id) <> None ->
     s' = wlr_log s DiagPipeDuplicateId) /\
    (menu_get_by_id s (Some id) = None -> fst (spawn_piped execute) <= 0 ->
     s' = wlr_log s DiagPipeSpawnFailed) /\
    (menu_get_by_id s (Some id) = None -> 0 < fst (spawn_piped execute) ->
     ctxs s'
     = ctxs s
       ++ [mkCtx (next_addr s) (item_addr item) EmptyString
             (fst (spawn_piped execute)) (snd (spawn_piped execute))] /\
     waiting_for_pipe_menu s' = true /\ log s' = log s).
Proof.
  intros Hid Hex. unfold parse_pipemenu. rewrite Hid, Hex. cbn [bind].
  assert (Hlookup :
    is_unique_id s id = true <-> menu_get_by_id s (Some id) = None).
  { rewrite is_unique_id_true_iff. unfold menu_get_by_id. split.
    - intros Hn. destruct (find _ (menus s)) as [m|] eqn:Ef; [|reflexivity].
      apply find_some in Ef. destruct Ef as [Hin E].
      apply String.eqb_eq in E. exfalso. apply Hn.
      rewrite <- E. apply in_map. exact Hin.
    - intros Hnone Hin. apply in_map_iff in Hin.
      destruct Hin as (m & E & Hin).
      pose proof (find_none _ _ Hnone m Hin) as Hm. cbv beta in Hm.
      rewrite E, String.eqb_refl in Hm. discriminate Hm. }
  destruct (is_unique_id s id) eqn:Eu; cbn [negb].
  - assert (Hnone : menu_get_by_id s (Some id) = None)
      by (apply Hlookup; reflexivity).
    destruct (spawn_piped execute) as [pid fd] eqn:Es. cbn [fst snd].
    destruct (pid <=? 0) eqn:Epid.
    + eexists. split; [reflexivity|]. split; [reflexivity|].
      split; [congruence|]. split; [reflexivity|].
      intros _ Hpos. apply Z.leb_le in Epid. lia.
    + eexists. split; [reflexivity|]. split; [reflexivity|].
      split; [congruence|]. split.
      * intros _ Hle. apply Z.leb_gt in Epid. lia.
      * intros _ _. repeat split.
  - eexists. split; [reflexivity|]. split; [reflexivity|].
    assert (Hsome : menu_get_by_id s (Some id) <> None).
    { intros Hnone. apply Hlookup in Hnone. discriminate Hnone. }
    split; [reflexivity|]. split; intros Hnone; contradiction.
Qed.

(** ** Creating an item *)

(** X10.  [item_create] hands out a new address.  When the font buffers
    can be created the item is appended to its menu and the address is
    returned; when they cannot, the failure is logged, null is returned,
    and no menu gains an item or height. *)
Theorem item_create_outcome s ma m text show_arrow :
  find_menu s ma = Some m ->
  exists s' r,
    item_create s (Some ma) text show_arrow = Some (s', r) /\
    next_addr s' = S (next_addr s) /\
    map (fun m => (menu_addr m, menu_id m)) (menus s')
    = map (fun m => (menu_addr m, menu_id m)) (menus s) /\
    if scaled_font_buffer_create (next_addr s) then
      r = Some (next_addr s) /\ log s' = log s /\
      map (fun m => map item_addr (menuitems m)) (menus s')
      = map (fun m =>
               if addr_eqb (menu_addr m) ma
               then map item_addr (menuitems m) ++ [next_addr s]
               else map item_addr (menuitems m))
          (menus s)
    else
      r = None /\ log s' = log s ++ [DiagItemCreateFailed] /\
      map (fun m => (menuitems m, size_height m)) (menus s')
      = map (fun m => (menuitems m, size_height m)) (menus s).
Proof.
  intros Hf. unfold item_create. cbn [bind]. rewrite Hf. cbn [bind].
  unfold znew. cbv beta iota zeta.
  assert (Hcase : forall (A : Type) (proj : menu -> A) (g h : menu -> menu)
                         (r : menu -> A),
             (forall x, addr_eqb (menu_addr x) ma = true ->
                        menu_addr (h x) = menu_addr x /\
                        proj (g (h x)) = r x) ->
             (forall x, addr_eqb (menu_addr x) ma = false -> proj x = r x) ->
             map proj
               (map (fun x => if addr_eqb (menu_addr x) ma then g x else x)
                  (map (fun x => if addr_eqb (menu_addr x) ma then h x else x)
                     (menus s)))
             = map r (menus s)).
  { intros A proj g h r Hyes Hno. rewrite !map_map. apply map_ext.
    intros x. destruct (addr_eqb (menu_addr x) ma) eqn:Ex.
    - destruct (Hyes x Ex) as [Ha Hp]. rewrite Ha, Ex. exact Hp.
    - rewrite Ex. apply Hno, Ex. }
  assert (Hcase1 : forall (A : Type) (proj : menu -> A) (h : menu -> menu),
             (forall x, proj (h x) = proj x) ->
             map proj
               (map (fun x => if addr_eqb (menu_addr x) ma then h x else x)
                  (menus s))
             = map proj (menus s)).
  { intros A proj h Hh. rewrite map_map. apply map_ext. intros x.
    destruct (addr_eqb (menu_addr x) ma); [apply Hh | reflexivity]. }
  destruct (scaled_font_buffer_create (next_addr s)) eqn:Eb.
  - eexists. eexists. split; [reflexivity|]. split; [reflexivity|].
    cbn [menus update_menu set_menus].
    split; [|split; [reflexivity|split; [reflexivity|]]].
    + rewrite Hcase with (r := fun m => (menu_addr m, menu_id m));
        [reflexivity| |reflexivity].
      intros x _. destruct (menu_item_height x =? 0); split; reflexivity.
    + apply Hcase.
      * intros x Ex. rewrite Ex.
        destruct (menu_item_height x =? 0); split; try reflexivity;
          cbn [menuitems with_items]; rewrite map_app; reflexivity.
      * intros x Ex. rewrite Ex. reflexivity.
  - eexists. eexists. split; [reflexivity|]. split; [reflexivity|].
    cbn [menus update_menu set_menus wlr_log].
    split; [|split; [reflexivity|split; [reflexivity|]]].
    + apply Hcase1. intros x.
      destruct (menu_item_height x =? 0); reflexivity.
    + apply Hcase1. intros x.
      destruct (menu_item_height x =? 0); reflexivity.
Qed.

End RequestEnd.

Lemma request_released_on_failure_witness :
  (exists s',
      handle_pipemenu_timeout example_streaming 6%nat = Some s' /\ idle s' /\
      killed s' = killed example_streaming ++ [(100, SIGTERM)] /\
      log s' = log example_streaming ++ [DiagPipeTimeout] /\
      menus s' = menus example_streaming) /\
  (exists s',
      handle_pipemenu_readable (P := example_platform) 1 example_streaming
        6%nat ReadError = Some s' /\ idle s' /\
      killed s' = killed example_streaming /\
      log s' = log example_streaming ++ [DiagPipeReadFailed] /\
      menus s' = menus example_streaming).
Proof.
  assert (Hlive : find_item example_streaming 2%nat <> None)
    by (vm_compute; discriminate).
  pose proof (@request_released_on_failure example_platform 1
                example_menu_state example_streaming 6%nat
                (mkCtx 6%nat 2%nat "not xml" 100 5)) as H.
  cbn [ctx_item ctx_pid] in H.
  destruct (find_item example_streaming 2%nat) as [item|];
    [|contradiction Hlive; reflexivity].
  apply H.
  - split; reflexivity.
  - apply trace_cons with (fuel := 1%nat) (e := Select 2%nat example_spawn)
                          (s1 := example_requested);
      [reflexivity | vm_compute; reflexivity |].
    apply trace_cons with (fuel := 1%nat)
                          (e := Readable 6%nat (ReadOk "not xml"))
                          (s1 := example_streaming);
      [reflexivity | vm_compute; reflexivity | apply trace_nil].
  - reflexivity.
Defined.

Lemma buffer_within_limit_witness :
  buf_len "not xml" <= 1048576.
Proof.
  apply (@buffer_within_limit example_platform example_menu_state
           example_streaming (mkCtx 6%nat 2%nat "not xml" 100 5)).
  - exact example_well_formed.
  - split; reflexivity.
  - exact example_streaming_trace.
  - left. reflexivity.
Defined.

Lemma parse_pipemenu_guards_witness :
  exists s',
    parse_pipemenu example_spawn example_menu_state
      (mkItem 2%nat 1%nat (Some "list-apps"%string) (Some "apps"%string)
         true 24 56 None 0 true []) = Some s' /\
    menus s' = menus example_menu_state /\
    (menu_get_by_id example_menu_state (Some "apps"%string) <> None ->
     s' = wlr_log example_menu_state DiagPipeDuplicateId) /\
    (menu_get_by_id example_menu_state (Some "apps"%string) = None ->
     fst (example_spawn "list-apps") <= 0 ->
     s' = wlr_log example_menu_state DiagPipeSpawnFailed) /\
    (menu_get_by_id example_menu_state (Some "apps"%string) = None ->
     0 < fst (example_spawn "list-apps") ->
     ctxs s'
     = ctxs example_menu_state
       ++ [mkCtx (next_addr example_menu_state) 2%nat EmptyString
             (fst (example_spawn "list-apps"))
             (snd (example_spawn "list-apps"))] /\
     waiting_for_pipe_menu s' = true /\ log s' = log example_menu_state).
Proof.
  apply (@parse_pipemenu_guards example_spawn example_menu_state
           (mkItem 2%nat 1%nat (Some "list-apps"%string) (Some "apps"%string)
              true 24 56 None 0 true []) "apps" "list-apps");
    reflexivity.
Defined.

Lemma item_create_outcome_witness :
  exists s' r,
    item_create (P := example_platform) example_menu_state (Some 1%nat)
      "Terminal" false = Some (s', r) /\
    r = Some 6%nat /\
    map (fun m => map item_addr (menuitems m)) (menus s')
    = [[2%nat; 3%nat; 4%nat; 6%nat]].
Proof.
  destruct (@item_create_outcome example_platform example_menu_state 1%nat
              example_root_menu "Terminal" false eq_refl)
    as (s' & r & Hs' & _ & _ & Hr & _ & Hitems).
  exists s', r. split; [exact Hs'|]. split; [exact Hr | exact Hitems].
Defined.

(** ** Alignment handed down, and where a menu is put *)

Lemma land_bit_eqb (x n : Z) :
  0 <= n -> (Z.land x (2 ^ n) =? 0) = negb (Z.testbit x n).
Proof.
  intros Hn. destruct (Z.testbit x n) eqn:E; cbn [negb].
  - apply Z.eqb_neq. intros H0.
    assert (Hb : Z.testbit (Z.land x (2 ^ n)) n = true)
      by (rewrite Z.land_spec, E, Z.pow2_bits_true; auto).
    rewrite H0, Z.bits_0 in Hb. discriminate Hb.
  - apply Z.eqb_eq. apply Z.bits_inj'. intros k Hk.
    rewrite Z.land_spec, Z.bits_0.
    destruct (Z.eq_dec n k) as [<-|Hne].
    + rewrite E. reflexivity.
    + rewrite Z.pow2_bits_false by auto. apply andb_false_r.
Qed.

Lemma opens_bits (align : Z) :
  opens_left align = Z.testbit align 0 /\
  opens_right align = Z.testbit align 1 /\
  opens_top align = Z.testbit align 2 /\
  opens_bottom align = Z.testbit align 3.
Proof.
  pose proof (@land_bit_eqb align 0 ltac:(lia)) as H0.
  pose proof (@land_bit_eqb align 1 ltac:(lia)) as H1.
  pose proof (@land_bit_eqb align 2 ltac:(lia)) as H2.
  pose proof (@land_bit_eqb align 3 ltac:(lia)) as H3.
  change (2 ^ 0) with 1 in H0. change (2 ^ 1) with 2 in H1.
  change (2 ^ 2) with 4 in H2. change (2 ^ 3) with 8 in H3.
  unfold opens_left, opens_right, opens_top, opens_bottom,
    LAB_MENU_OPEN_LEFT, LAB_MENU_OPEN_RIGHT, LAB_MENU_OPEN_TOP,
    LAB_MENU_OPEN_BOTTOM.
  rewrite H0, H1, H2, H3, !negb_involutive. repeat split.
Qed.

(** X11.  An alignment other than [LAB_MENU_OPEN_AUTO] keeps its
    horizontal bits: a submenu, and a pipe menu configured with the
    alignment stored in its parent, opens to the side its parent opened
    to.  The vertical bits are decided afresh for every menu, and
    exactly one of them is set. *)
Theorem resolve_align_keeps_side (align full_width height ox oy : Z)
    (area : wlr_box) :
  align <> LAB_MENU_OPEN_AUTO ->
  let r := resolve_align align full_width height ox oy area in
  opens_left r = opens_left align /\
  opens_right r = opens_right align /\
  opens_top r = (oy + height >? box_height area) /\
  opens_bottom r = negb (oy + height >? box_height area).
Proof.
  intros Hne. cbv zeta. unfold resolve_align.
  apply Z.eqb_neq in Hne. rewrite Hne.
  destruct (opens_bits align) as (Hl & Hr & _ & _).
  rewrite Hl, Hr.
  destruct (oy + height >? box_height area);
    match goal with
    | |- context [Z.lor ?x ?y] =>
      destruct (opens_bits (Z.lor x y)) as (-> & -> & -> & ->)
    end;
    unfold LAB_MENU_OPEN_TOP, LAB_MENU_OPEN_BOTTOM;
    rewrite !Z.lor_spec, !Z.land_spec, !Z.lnot_spec by lia;
    cbn [Z.testbit Pos.testbit negb]; cbn;
    rewrite ?andb_true_r, ?orb_false_r, ?andb_false_r, ?orb_true_r;
    repeat split.
Qed.

Lemma resolve_align_keeps_side_witness :
  let r := resolve_align 10 0 55 100 1060 (mkBox 0 0 1920 1080) in
  opens_left r = false /\ opens_right r = true /\
  opens_top r = true /\ opens_bottom r = false.
Proof.
  apply (@resolve_align_keeps_side 10 0 55 100 1060 (mkBox 0 0 1920 1080)).
  discriminate.
Defined.

Section Placement.

Context {P : Platform}.


End Placement.


(** ** The registry only grows while menus are built *)

Lemma menu_kept_refl (m : menu) : menu_kept m m.
Proof. repeat split. Qed.

Lemma menu_kept_trans (a b c : menu) :
  menu_kept a b -> menu_kept b c -> menu_kept a c.
Proof.
  intros (H1 & H2 & H3 & H7) (H4 & H5 & H6 & H8). repeat split; congruence.
Qed.

Lemma grows_refl (s : state) : grows s s.
Proof.
  split; [|repeat split; reflexivity || lia].
  exists (fun m => m), []. rewrite map_id, app_nil_r.
  split; [reflexivity|]. split; [intros m; apply menu_kept_refl|].
  intros m [].
Qed.

Lemma grows_trans (a b c : state) : grows a b -> grows b c -> grows a c.
Proof.
  intros [(f & l & Hm & Hf & Hl) (Hn & H1 & H2 & H3 & H4 & H5 & H6)]
         [(g & l' & Hm' & Hg & Hl') (Hn' & H1' & H2' & H3' & H4' & H5' & H6')].
  split; [|repeat split; try congruence; lia].
  exists (fun m => g (f m)), (map g l ++ l').
  split; [|split].
  - rewrite Hm', Hm, map_app, map_map, <- app_assoc. reflexivity.
  - intros m. eapply menu_kept_trans; [apply Hg | apply Hf].
  - intros m Hin. apply in_app_or in Hin. destruct Hin as [Hin|Hin].
    + apply in_map_iff in Hin. destruct Hin as (m0 & <- & Hin).
      destruct (Hg m0) as (-> & _). specialize (Hl m0 Hin). lia.
    + specialize (Hl' m Hin). lia.
Qed.

(** A write to the menus that are there. *)
Lemma grows_map (s s' : state) (f : menu -> menu) :
  menus s' = map f (menus s) -> (forall m, menu_kept (f m) m) ->
  (next_addr s <= next_addr s')%nat ->
  menu_current s' = menu_current s -> input_mode s' = input_mode s ->
  ctxs s' = ctxs s -> waiting_for_pipe_menu s' = waiting_for_pipe_menu s ->
  selected_item s' = selected_item s -> killed s' = killed s ->
  grows s s'.
Proof.
  intros Hm Hf Hn H1 H2 H3 H4 H5 H6.
  split; [|repeat split; assumption].
  exists f, []. rewrite app_nil_r. split; [exact Hm|].
  split; [exact Hf | intros m []].
Qed.

Lemma grows_same (s s' : state) :
  menus s' = menus s -> (next_addr s <= next_addr s')%nat ->
  menu_current s' = menu_current s -> input_mode s' = input_mode s ->
  ctxs s' = ctxs s -> waiting_for_pipe_menu s' = waiting_for_pipe_menu s ->
  selected_item s' = selected_item s -> killed s' = killed s ->
  grows s s'.
Proof.
  intros Hm. apply grows_map with (f := fun m => m);
    [rewrite map_id; exact Hm | intros m; apply menu_kept_refl].
Qed.

Lemma grows_menus_below (s s' : state) :
  grows s s' -> menus_below s -> menus_below s'.
Proof.
  intros [(f & l & Hm & Hf & Hl) (Hn & _)] Hb m Hin.
  rewrite Hm in Hin. apply in_app_or in Hin. destruct Hin as [Hin|Hin].
  - apply in_map_iff in Hin. destruct Hin as (m0 & <- & Hin).
    destruct (Hf m0) as (-> & _). specialize (Hb m0 Hin). lia.
  - specialize (Hl m Hin). lia.
Qed.

Lemma find_map_kept {A : Type} (key : menu -> A) (test : A -> bool)
    (f : menu -> menu) (l : list menu) :
  (forall m, key (f m) = key m) ->
  find (fun m => test (key m)) (map f l)
  = option_map f (find (fun m => test (key m)) l).
Proof.
  intros Hk. induction l as [|m l IH]; [reflexivity|].
  cbn [map find]. rewrite Hk. destruct (test (key m)); [reflexivity | exact IH].
Qed.

Lemma grows_find_menu (s s' : state) (a : addr) (m : menu) :
  grows s s' -> find_menu s a = Some m ->
  exists m', find_menu s' a = Some m' /\ menu_kept m' m.
Proof.
  intros [(f & l & Hm & Hf & _) _] Hfind. unfold find_menu in *.
  rewrite Hm, find_app.
  rewrite (find_map_kept menu_addr (fun x => addr_eqb x a) f)
    by (intros x; apply Hf).
  rewrite Hfind. cbn. exists (f m). split; [reflexivity | apply Hf].
Qed.

Lemma grows_lookup (s s' : state) (id : string) (m : menu) :
  grows s s' -> menu_get_by_id s (Some id) = Some m ->
  exists m', menu_get_by_id s' (Some id) = Some m' /\ menu_kept m' m.
Proof.
  intros [(f & l & Hm & Hf & _) _] Hfind. unfold menu_get_by_id in *.
  rewrite Hm, find_app.
  rewrite (find_map_kept menu_id (fun x => String.eqb x id) f)
    by (intros x; apply Hf).
  rewrite Hfind. cbn. exists (f m). split; [reflexivity | apply Hf].
Qed.

Lemma steady_refl (s : state) : steady s s.
Proof. split; [apply grows_refl | split; reflexivity]. Qed.

Lemma steady_trans (a b c : state) : steady a b -> steady b c -> steady a c.
Proof.
  intros (G1 & L1 & C1) (G2 & L2 & C2).
  split; [eapply grows_trans; eassumption | split; congruence].
Qed.

Lemma steady_balanced (s s' : state) : steady s s' -> balanced s s'.
Proof. intros (G & L & C). split; [exact G | intros _; split; assumption]. Qed.

Lemma balanced_trans (a b c : state) :
  balanced a b -> balanced b c -> balanced a c.
Proof.
  intros (G1 & B1) (G2 & B2).
  split; [eapply grows_trans; eassumption|].
  intros Hb. destruct (B1 Hb) as [L1 C1].
  destruct (B2 (grows_menus_below G1 Hb)) as [L2 C2]. split; congruence.
Qed.

(** A write that leaves the registry as it is. *)
Ltac steady_same :=
  split; [apply grows_same; try reflexivity; simpl; lia
         | split; reflexivity].

Ltac kept_tac :=
  intros; unfold menu_kept;
  repeat match goal with |- context [if ?b then _ else _] => destruct b end;
  repeat split; reflexivity.

Lemma steady_update_menu (s : state) (a : addr) (g : menu -> menu) :
  (forall m, menu_kept (g m) m) -> steady s (update_menu s a g).
Proof.
  intros Hg. split; [|split; reflexivity].
  eapply grows_map; try reflexivity; try (simpl; lia).
  intros m. cbv beta. destruct (addr_eqb (menu_addr m) a);
    [apply Hg | apply menu_kept_refl].
Qed.

Lemma steady_update_item (s : state) (a : addr) (g : menuitem -> menuitem) :
  steady s (update_item s a g).
Proof.
  split; [|split; reflexivity].
  eapply grows_map; try reflexivity; try (simpl; lia).
  intros m. repeat split.
Qed.

Section Built.

Context {P : Platform}.

Lemma steady_item_create s menu text show_arrow s' r :
  item_create s menu text show_arrow = Some (s', r) -> steady s s'.
Proof.
  unfold item_create. intros H. bind_inv H; subst.
  - apply steady_trans with (fst (znew s)); [steady_same|].
    eapply steady_trans; apply steady_update_menu; kept_tac.
  - apply steady_trans with (fst (znew s)); [steady_same|].
    match goal with
    | |- steady _ (wlr_log ?x _) =>
      apply steady_trans with x;
        [apply steady_update_menu; kept_tac | steady_same]
    end.
Qed.

Lemma steady_separator_create s menu label s' r :
  separator_create s menu label = Some (s', r) -> steady s s'.
Proof.
  unfold separator_create. intros H. bind_inv H; subst.
  apply steady_trans with (fst (znew s)); [steady_same|].
  apply steady_update_menu; kept_tac.
Qed.

Lemma steady_action_arg s a n c s' :
  action_arg_from_xml_node s a n c = Some s' -> steady s s'.
Proof.
  unfold action_arg_from_xml_node. intros H.
  destruct (find_action s a); [cbn [bind] in H | discriminate H].
  injection H as <-.
  split; [|split; reflexivity].
  eapply grows_map; try reflexivity; try (simpl; lia).
  intros m. repeat split.
Qed.

Lemma steady_fill_item s n c s' : fill_item s n c = Some s' -> steady s s'.
Proof.
  unfold fill_item. intros H. bind_inv H; subst.
  - eapply steady_trans; [eapply steady_item_create; eassumption|].
    steady_same.
  - apply steady_refl.
  - eapply steady_trans; [|apply steady_update_item]. steady_same.
  - steady_same.
  - eapply steady_action_arg; eassumption.
  - steady_same.
  - steady_same.
Qed.

Lemma steady_entry s node n c s' : entry s node n c = Some s' -> steady s s'.
Proof.
  unfold entry. intros H. bind_inv H; subst;
    try apply steady_refl; eapply steady_fill_item; eassumption.
Qed.

Lemma steady_process_node s parents node s' :
  process_node s parents node = Some s' -> steady s s'.
Proof.
  unfold process_node. intros H. bind_inv H; subst;
    [apply steady_refl | eapply steady_entry; eassumption].
Qed.

Lemma steady_walk_attribute s parents attr s' :
  walk_attribute s parents attr = Some s' -> steady s s'.
Proof.
  unfold walk_attribute. intros H. bind_inv H; subst;
    [apply steady_refl | eapply steady_process_node; eassumption].
Qed.

Lemma steady_handle_separator_element s n s' :
  handle_separator_element s n = Some s' -> steady s s'.
Proof.
  unfold handle_separator_element. intros H. bind_inv H; subst.
  eapply steady_trans; [eapply steady_separator_create; eassumption|].
  steady_same.
Qed.

Lemma grows_menu_create s id label : grows s (fst (menu_create s id label)).
Proof.
  unfold menu_create.
  destruct (is_unique_id s id); cbn;
    (split; [|repeat split; simpl; lia || reflexivity]);
    eexists (fun m => m), [_]; rewrite map_id;
    (split; [reflexivity|]);
    (split; [intros m; apply menu_kept_refl|]);
    intros m [<-|[]]; cbn; lia.
Qed.

Lemma menu_create_found s id label :
  menus_below s ->
  exists m,
    find_menu (fst (menu_create s id label)) (snd (menu_create s id label))
    = Some m /\
    menu_parent m = current_menu s /\ menu_id m = id /\ menuitems m = [] /\
    menu_addr m = snd (menu_create s id label).
Proof.
  intros Hb. unfold menu_create, find_menu.
  assert (Hnone : find (fun m => addr_eqb (menu_addr m) (next_addr s))
                    (menus s) = None).
  { destruct (find _ (menus s)) as [m|] eqn:E; [|reflexivity].
    apply find_some in E. destruct E as [Hin E].
    apply Nat.eqb_eq in E. specialize (Hb m Hin). lia. }
  destruct (is_unique_id s id); cbn; rewrite find_app, Hnone; cbn;
    unfold addr_eqb; rewrite Nat.eqb_refl; eexists;
    (split; [reflexivity|]); repeat split.
Qed.

Lemma menu_create_statics s id label :
  menu_level (fst (menu_create s id label)) = menu_level s /\
  current_menu (fst (menu_create s id label)) = current_menu s /\
  next_addr (fst (menu_create s id label)) = S (next_addr s) /\
  snd (menu_create s id label) = next_addr s.
Proof.
  unfold menu_create. destruct (is_unique_id s id); repeat split.
Qed.

End Built.

(** ** A property of every step of the tree walk holds of the walk *)

Section Walk.

Context {P : Platform}.

Variable R : state -> state -> Prop.

Hypothesis R_refl : forall s, R s s.
Hypothesis R_trans : forall a b c, R a b -> R b c -> R a c.
Hypothesis R_in_item : forall s b, R s (set_in_item s b).
Hypothesis R_process_node :
  forall s parents node s', process_node s parents node = Some s' -> R s s'.
Hypothesis R_separator :
  forall s n s', handle_separator_element s n = Some s' -> R s s'.
Hypothesis R_menu :
  forall (trav : state -> option state) s parents n s',
    (forall s0 s1, trav s0 = Some s1 -> R s0 s1) ->
    handle_menu_element trav s parents n = Some s' -> R s s'.

Lemma walk_fold_bind {A : Type} (f : state -> A -> option state)
    (l : list A) :
  (forall x s s', f s x = Some s' -> R s s') ->
  forall s s',
    fold_left (fun acc x => s <- acc ;; f s x) l (Some s) = Some s' ->
    R s s'.
Proof.
  intros Hf. induction l as [|x l IH]; intros s s' H; simpl in H.
  - injection H as <-. apply R_refl.
  - destruct (f s x) as [s1|] eqn:E.
    + eapply R_trans; [exact (Hf _ _ _ E) | exact (IH _ _ H)].
    + rewrite fold_bind_none in H. discriminate H.
Qed.

Lemma walk_with
    (trav : list string -> xmlNode -> state -> option state) parents nodes :
  Forall (fun n => forall p s s', trav p n s = Some s' -> R s s') nodes ->
  forall s s', xml_tree_walk_with trav parents nodes s = Some s' -> R s s'.
Proof.
  induction 1 as [|n nodes Hn _ IH]; intros s s' H; simpl in H.
  - injection H as <-. apply R_refl.
  - destruct (xml_name n) as [name|]; [|injection H as <-; apply R_refl].
    destruct (strcasecmp_eq name "comment"); [exact (IH _ _ H)|].
    destruct (strcasecmp_eq name "menu").
    { destruct (handle_menu_element (trav parents n) s parents n)
        as [s1|] eqn:E; [|discriminate H].
      eapply R_trans; [|exact (IH _ _ H)].
      eapply R_menu; [|exact E].
      intros s0 s2. apply Hn. }
    destruct (strcasecmp_eq name "separator").
    { destruct (handle_separator_element s n) as [s1|] eqn:E;
        [|discriminate H].
      eapply R_trans; [|exact (IH _ _ H)].
      eapply R_separator. exact E. }
    destruct (strcasecmp_eq name "item").
    { destruct (trav parents n (set_in_item s true)) as [s1|] eqn:E;
        [|discriminate H].
      apply R_trans with (set_in_item s true); [apply R_in_item|].
      eapply R_trans; [exact (Hn _ _ _ E)|].
      apply R_trans with (set_in_item s1 false); [apply R_in_item|].
      exact (IH _ _ H). }
    destruct (trav parents n s) as [s1|] eqn:E; [|discriminate H].
    eapply R_trans; [exact (Hn _ _ _ E) | exact (IH _ _ H)].
Qed.

Lemma walk_traverse (n : xmlNode) :
  forall parents s s', traverse parents n s = Some s' -> R s s'.
Proof.
  induction n as [name content properties children IH]
    using xmlNode_forall_ind.
  intros parents s s' H. simpl in H.
  destruct (process_node s parents (XmlNode name content properties children))
    as [s1|] eqn:E1; [|discriminate H].
  cbn [bind] in H.
  match type of H with
  | bind ?x _ = _ => destruct x as [s2|] eqn:E2; [|discriminate H]
  end.
  cbn [bind] in H.
  eapply R_trans; [eapply R_process_node; exact E1|].
  eapply R_trans.
  - eapply walk_fold_bind; cycle 1; [exact E2|].
    intros attr s0 s3 H0. unfold walk_attribute in H0.
    destruct (String.eqb (snd attr) "");
      [injection H0 as <-; apply R_refl | eapply R_process_node; exact H0].
  - eapply walk_with; [|exact H]. exact IH.
Qed.

Lemma walk_xml_tree_walk parents nodes s s' :
  xml_tree_walk parents nodes s = Some s' -> R s s'.
Proof.
  apply walk_with.
  apply Forall_forall. intros n _ p s0 s1. apply walk_traverse.
Qed.

End Walk.

Section Balance.

Context {P : Platform}.

Lemma steady_inline_item s (label : option string) s2 o :
  (if menu_level s >? 0
   then l <- label ;;
        ' (s, item) <- item_create s (current_menu s) l true ;;
        Some (set_current_item s item, item)
   else Some (s, None)) = Some (s2, o) ->
  steady s s2.
Proof.
  intros H. bind_inv H; subst; [|apply steady_refl].
  eapply steady_trans; [eapply steady_item_create; eassumption|].
  steady_same.
Qed.

Lemma steady_link_item s (o : option addr) (p : option addr) :
  steady s match o with
           | Some it => update_item s it (fun x => with_submenu x p)
           | None => s
           end.
Proof.
  destruct o; [apply steady_update_item | apply steady_refl].
Qed.

(** The branch of [handle_menu_element] that defines a menu. *)
Lemma balanced_definition (trav : state -> option state) s0 s
    (submenu : option addr) i label s' :
  (forall s0 s1, trav s0 = Some s1 -> balanced s0 s1) ->
  steady s0 s ->
  (let s := set_menu_level s (menu_level s + 1) in
   let '(s, ma) := menu_create s i label in
   let s := set_current_menu s (Some ma) in
   let s :=
     match submenu with
     | Some it => update_item s it (fun x => with_submenu x (Some ma))
     | None => s
     end in
   s <- trav s ;;
   cm <- current_menu s ;;
   m <- find_menu s cm ;;
   Some (set_menu_level (set_current_menu s (menu_parent m))
           (menu_level s - 1))) = Some s' ->
  balanced s0 s'.
Proof.
  intros Htrav (G0 & L0 & C0) H. cbv zeta in H.
  pose proof (grows_menu_create (set_menu_level s (menu_level s + 1)) i label)
    as Gc.
  pose proof (menu_create_statics (set_menu_level s (menu_level s + 1))
                i label) as (Lc & Cc & Nc & Ac).
  pose proof (fun Hb =>
                @menu_create_found _ (set_menu_level s (menu_level s + 1))
                  i label Hb) as Fc.
  destruct (menu_create (set_menu_level s (menu_level s + 1)) i label)
    as [s1 ma]. cbn [fst snd] in Gc, Lc, Cc, Nc, Ac, Fc.
  set (s2 := set_current_menu s1 (Some ma)) in H.
  assert (G2 : grows s1 s2)
    by (apply grows_same; try reflexivity; simpl; lia).
  set (s3 := match submenu with
             | Some it => update_item s2 it (fun x => with_submenu x (Some ma))
             | None => s2
             end) in H.
  pose proof (steady_link_item s2 submenu (Some ma)) as (G3 & L3 & C3).
  fold s3 in G3, L3, C3.
  destruct (trav s3) as [s4|] eqn:E4; [cbn [bind] in H | discriminate H].
  destruct (Htrav _ _ E4) as (G4 & B4).
  destruct (current_menu s4) as [cm|] eqn:Ecm;
    [cbn [bind] in H | discriminate H].
  destruct (find_menu s4 cm) as [m|] eqn:Em;
    [cbn [bind] in H | discriminate H].
  injection H as <-.
  assert (Gs : grows s (set_menu_level s (menu_level s + 1)))
    by (apply grows_same; try reflexivity; simpl; lia).
  assert (G03 : grows s0 s3).
  { eapply grows_trans; [exact G0|]. eapply grows_trans; [exact Gs|].
    eapply grows_trans; [exact Gc|]. eapply grows_trans; [exact G2|].
    exact G3. }
  split.
  - eapply grows_trans; [exact G03|]. eapply grows_trans; [exact G4|].
    apply grows_same; try reflexivity; simpl; lia.
  - intros Hb0.
    assert (Hb : menus_below (set_menu_level s (menu_level s + 1))).
    { apply (grows_menus_below (grows_trans G0 Gs) Hb0). }
    destruct (B4 (grows_menus_below G03 Hb0)) as [L4 C4].
    destruct (Fc Hb) as (new & Hnew & Hparent & _).
    assert (Hf3 : exists m3, find_menu s3 ma = Some m3 /\ menu_kept m3 new).
    { apply (@grows_find_menu s1 s3); [|exact Hnew].
      eapply grows_trans; [exact G2 | exact G3]. }
    destruct Hf3 as (m3 & Hm3 & K3).
    destruct (@grows_find_menu _ _ _ _ G4 Hm3) as (m4 & Hm4 & K4).
    assert (Ecm' : cm = ma).
    { rewrite C3 in C4. cbn in C4. congruence. }
    subst cm. rewrite Hm4 in Em. injection Em as <-.
    cbn [menu_level current_menu set_menu_level set_current_menu].
    destruct K3 as (_ & _ & K3 & _). destruct K4 as (_ & _ & K4 & _).
    rewrite K4, K3, Hparent. cbn [current_menu set_menu_level].
    split; [|exact C0].
    rewrite L4, L3. subst s2. cbn [menu_level set_current_menu].
    rewrite Lc. cbn [menu_level set_menu_level]. lia.
Qed.

Lemma balanced_handle_menu_element (trav : state -> option state) s parents
    n s' :
  (forall s0 s1, trav s0 = Some s1 -> balanced s0 s1) ->
  handle_menu_element trav s parents n = Some s' -> balanced s s'.
Proof.
  intros Htrav. unfold handle_menu_element. intros H.
  destruct (xmlGetProp n "id") as [i|] eqn:Ei; cycle 1.
  { destruct (xmlGetProp n "execute"), (xmlGetProp n "label");
      injection H as <-; apply steady_balanced, steady_refl. }
  assert (Hdef :
    forall label,
      (if is_some label
          || is_toplevel_static_menu_definition s parents (Some i)
       then
         ' (s, submenu) <-
           (if menu_level s >? 0 then
              l <- label ;;
              ' (s, item) <- item_create s (current_menu s) l true ;;
              Some (set_current_item s item, item)
            else Some (s, None)) ;;
         (let s := set_menu_level s (menu_level s + 1) in
          let '(s, ma) := menu_create s i label in
          let s := set_current_menu s (Some ma) in
          let s :=
            match submenu with
            | Some it => update_item s it (fun x => with_submenu x (Some ma))
            | None => s
            end in
          s <- trav s ;;
          cm <- current_menu s ;;
          m <- find_menu s cm ;;
          Some (set_menu_level (set_current_menu s (menu_parent m))
                  (menu_level s - 1)))
       else
         from_pipemenu <-
           match current_menu s with
           | Some cm => m <- find_menu s cm ;; Some (is_pipemenu m)
           | None => Some false
           end ;;
         if from_pipemenu : bool then Some (wlr_log s DiagLinkFromPipemenu)
         else
           match menu_get_by_id s (Some i) with
           | Some target =>
             ' (s, item) <-
               item_create s (current_menu s) (menu_label target) true ;;
             let s := set_current_item s item in
             Some (match item with
                   | Some it =>
                     update_item s it
                       (fun x => with_submenu x (Some (menu_addr target)))
                   | None => s
                   end)
           | None => Some (wlr_log s DiagNoMenuWithId)
           end) = Some s' ->
      balanced s s').
  { clear H. intros label H.
    destruct (is_some label
              || is_toplevel_static_menu_definition s parents (Some i)).
    - match type of H with
      | bind ?x _ = _ =>
        destruct x as [[s1 submenu]|] eqn:E1;
          [cbn [bind] in H | discriminate H]
      end.
      apply steady_inline_item in E1.
      eapply balanced_definition; [exact Htrav | exact E1 | exact H].
    - apply steady_balanced. bind_inv H; subst;
        first
          [ steady_same
          | match goal with
            | |- steady _ (match ?o with
                           | Some _ => update_item ?x _ _
                           | None => _
                           end) =>
              apply steady_trans with x; [|apply steady_link_item];
              eapply steady_trans;
                [eapply steady_item_create; eassumption | steady_same]
            end ]. }
  destruct (xmlGetProp n "execute") as [e|];
    destruct (xmlGetProp n "label") as [l|];
    try (apply (Hdef None); exact H);
    try (apply (Hdef (Some l)); exact H).
  apply steady_balanced. bind_inv H; subst.
  eapply steady_trans; [eapply steady_item_create; eassumption|].
  eapply steady_trans; [|apply steady_update_item]. steady_same.
Qed.

Lemma balanced_xml_tree_walk parents nodes s s' :
  xml_tree_walk parents nodes s = Some s' -> balanced s s'.
Proof.
  apply walk_xml_tree_walk.
  - intros s0. apply steady_balanced, steady_refl.
  - apply balanced_trans.
  - intros s0 b. apply steady_balanced. steady_same.
  - intros s0 p node s1 H. apply steady_balanced.
    eapply steady_process_node. exact H.
  - intros s0 n s1 H. apply steady_balanced.
    eapply steady_handle_separator_element. exact H.
  - apply balanced_handle_menu_element.
Qed.

Lemma balanced_parse_buf s buf s' ok :
  parse_buf s buf = Some (s', ok) -> balanced s s'.
Proof.
  unfold parse_buf. intros H.
  destruct (xmlParseMemory buf) as [root|].
  - destruct (xml_tree_walk [] [root] s) as [s1|] eqn:E; [|discriminate H].
    injection H as <- _. eapply balanced_xml_tree_walk. exact E.
  - injection H as <- _. apply steady_balanced. steady_same.
Qed.

(** X13.  Parsing a buffer leaves the parser where it was: whatever the
    document, once [parse_buf] has returned, the nesting level and the
    current menu are what they were before, however many menus were
    defined in between. *)
Theorem parse_buf_leaves_parser_in_place s buf s' ok :
  menus_below s -> parse_buf s buf = Some (s', ok) ->
  menu_level s' = menu_level s /\ current_menu s' = current_menu s.
Proof.
  intros Hb H. destruct (balanced_parse_buf _ _ H) as [_ B]. exact (B Hb).
Qed.

(** X14.  Parsing a buffer only adds to the registry: a menu that could
    be looked up still is, under the same id, and is the same menu with
    the same parent; the new menus have new addresses. *)
Theorem parse_buf_keeps_registry s buf s' ok :
  parse_buf s buf = Some (s', ok) ->
  (forall id m,
      menu_get_by_id s (Some id) = Some m ->
      exists m', menu_get_by_id s' (Some id) = Some m' /\ menu_kept m' m) /\
  exists added,
    map outline_id (menus s') = map outline_id (menus s) ++ added /\
    forall x, In x added -> (next_addr s <= fst x < next_addr s')%nat.
Proof.
  intros H. destruct (balanced_parse_buf _ _ H) as [G _]. split.
  - intros id m Hm. exact (@grows_lookup _ _ _ _ G Hm).
  - destruct G as [(f & l & Hm & Hf & Hl) _].
    exists (map outline_id l). split.
    + rewrite Hm, map_app, map_map. f_equal. apply map_ext. intros m.
      unfold outline_id. destruct (Hf m) as (-> & -> & _). reflexivity.
    + intros x Hin. apply in_map_iff in Hin. destruct Hin as (m & <- & Hin).
      apply Hl, Hin.
Qed.

End Balance.

(** ** The default menus *)

Lemma find_exists {A : Type} (f : A -> bool) (l : list A) (x : A) :
  In x l -> f x = true -> exists y, find f l = Some y.
Proof.
  intros Hin Hx. destruct (find f l) as [y|] eqn:E; [exists y; reflexivity|].
  rewrite (find_none _ _ E x Hin) in Hx. discriminate Hx.
Qed.

Section Defaults.

Context {P : Platform} {E : Environment}.

Lemma grows_post_processing s : grows s (post_processing s).
Proof.
  eapply grows_map; try reflexivity; try (simpl; lia).
  intros m. repeat split.
Qed.

Lemma grows_validate s : grows s (validate s).
Proof.
  unfold validate.
  apply grows_trans with (set_menus s (map validate_menu (menus s))).
  - eapply grows_map; try reflexivity; try (simpl; lia).
    intros m. repeat split.
  - generalize (set_menus s (map validate_menu (menus s))).
    induction (repeat DiagInvalidAction _) as [|d l IH]; intros s0;
      [apply grows_refl|].
    cbn [fold_left]. eapply grows_trans; [|apply IH].
    apply grows_same; try reflexivity; simpl; lia.
Qed.

Lemma grows_menu_hide_submenu s id : grows s (menu_hide_submenu s id).
Proof.
  unfold menu_hide_submenu.
  destruct (menu_get_by_id s (Some id)) as [hide|]; [|apply grows_refl].
  eapply grows_map; try reflexivity; try (simpl; lia).
  intros m. unfold menu_kept, hide_submenu_in.
  destruct (existsb _ (menuitems m)); [|repeat split].
  destruct (reposition 0 _). repeat split.
Qed.

Lemma in_find_menu s m :
  In m (menus s) -> exists m', find_menu s (menu_addr m) = Some m'.
Proof.
  intros Hin. apply (find_exists _ _ m Hin). apply Nat.eqb_refl.
Qed.

Lemma lookup_found s id m :
  In m (menus s) -> menu_id m = id ->
  exists r, menu_get_by_id s (Some id) = Some r.
Proof.
  intros Hin Hid. apply (find_exists _ _ m Hin).
  rewrite Hid. apply String.eqb_refl.
Qed.

Lemma default_menu_returns s id :
  exists s1 m,
    default_menu s id = Some (s1, m) /\ grows s s1 /\ In m (menus s1) /\
    (exists r, menu_get_by_id s1 (Some id) = Some r) /\
    match menu_get_by_id s (Some id) with
    | Some found => s1 = s /\ m = found
    | None => menus_below s -> menuitems m = []
    end.
Proof.
  unfold default_menu.
  destruct (menu_get_by_id s (Some id)) as [m|] eqn:Em.
  - exists s, m. split; [reflexivity|]. split; [apply grows_refl|].
    split; [|split; [exists m; exact Em | split; reflexivity]].
    unfold menu_get_by_id in Em. apply find_some in Em. apply Em.
  - pose proof (grows_menu_create (set_current_menu s None) id
                  (Some EmptyString)) as G.
    pose proof (menu_create_menus (set_current_menu s None) id
                  (Some EmptyString)) as (new & Hm & Ha & Hid & _).
    pose proof (fun Hb =>
                  @menu_create_found _ (set_current_menu s None) id
                    (Some EmptyString) Hb) as Hfound.
    destruct (menu_create (set_current_menu s None) id (Some EmptyString))
      as [s1 a]. cbn [fst snd] in *.
    assert (Hin : In new (menus s1))
      by (rewrite Hm; apply in_or_app; right; left; reflexivity).
    destruct (in_find_menu _ _ Hin) as (m & Hfind). rewrite Ha in Hfind.
    rewrite Hfind. cbn [bind]. exists s1, m. split; [reflexivity|].
    split.
    { eapply grows_trans; [|exact G].
      apply grows_same; try reflexivity; simpl; lia. }
    split; [apply find_some in Hfind; apply Hfind|].
    split; [eapply lookup_found; eassumption|].
    intros Hb. destruct (Hfound Hb) as (m0 & Hm0 & _ & _ & Hitems & _).
    congruence.
Qed.

Lemma item_create_found s menu text show_arrow s' a :
  item_create s menu text show_arrow = Some (s', Some a) ->
  exists item, find_item s' a = Some item.
Proof.
  unfold item_create. intros H.
  destruct menu as [ma|]; [cbn [bind] in H | discriminate H].
  destruct (find_menu s ma) as [m|] eqn:E0;
    [cbn [bind] in H | discriminate H].
  unfold znew in H. cbv beta iota zeta in H.
  destruct (scaled_font_buffer_create (next_addr s)); [|discriminate H].
  injection H as <- <-.
  apply find_some in E0. destruct E0 as [Hin Ha].
  unfold find_item, all_items.
  match goal with
  | |- context [update_menu (update_menu ?s0 ?ma ?h) ?ma ?g] =>
    set (g0 := g); set (h0 := h); set (st := s0)
  end.
  apply find_exists
    with (x := mkItem (next_addr s) ma None None true
                 (menu_item_height (h0 m)) 
                 (font_width text
                  + (if show_arrow then font_width arrow else 0))
                 None (size_height (h0 m)) true []);
    [|apply Nat.eqb_refl].
  apply in_flat_map. exists (g0 (h0 m)). split.
  - cbn [menus update_menu set_menus]. rewrite map_map.
    apply in_map_iff. exists m. split; [|exact Hin].
    rewrite Ha.
    assert (Hh : menu_addr (h0 m) = menu_addr m)
      by (unfold h0; destruct (menu_item_height m =? 0); reflexivity).
    rewrite Hh, Ha. reflexivity.
  - unfold g0. cbn [menuitems with_items]. apply in_or_app. right. left.
    reflexivity.
Qed.

Lemma default_item_returns s ma text action m :
  keeps_nodename "name.action" -> find_menu s ma = Some m ->
  exists s', default_item s ma text action = Some s' /\ steady s s'.
Proof.
  intros Hkeep Hf. unfold default_item.
  destruct (item_create s (Some ma) (gettext text) false)
    as [[s1 item]|] eqn:Ec.
  2:{ unfold item_create in Ec. cbn [bind] in Ec. rewrite Hf in Ec.
      cbn [bind] in Ec. unfold znew in Ec. cbv beta iota zeta in Ec.
      destruct (scaled_font_buffer_create _); discriminate Ec. }
  cbn [bind]. pose proof (steady_item_create _ _ _ _ Ec) as S1.
  assert (S2 : steady s (set_current_item s1 item)).
  { eapply steady_trans; [exact S1|]. steady_same. }
  assert (Hfill :
    exists s', fill_item (set_current_item s1 item) "name.action" action
               = Some s').
  { unfold fill_item. unfold keeps_nodename in Hkeep. rewrite Hkeep.
    cbn [String.eqb Ascii.eqb Bool.eqb andb]. cbn [current_item set_current_item].
    destruct item as [ci|]; [|eexists; reflexivity].
    destruct (action_create action); [|eexists; reflexivity].
    unfold znew. cbv beta iota zeta.
    destruct (item_create_found _ _ _ _ Ec) as (it & Hit).
    match goal with
    | |- context [find_item ?x ci] =>
      replace (find_item x ci) with (Some it) by (symmetry; exact Hit)
    end.
    cbn [bind]. eexists. reflexivity. }
  destruct Hfill as (s' & Hs'). exists s'. split; [exact Hs'|].
  eapply steady_trans; [exact S2|]. eapply steady_fill_item. exact Hs'.
Qed.

Lemma steady_default_item s ma text action s' :
  default_item s ma text action = Some s' -> steady s s'.
Proof.
  unfold default_item. intros H.
  destruct (item_create s (Some ma) (gettext text) false)
    as [[s1 item]|] eqn:Ec; [cbn [bind] in H | discriminate H].
  eapply steady_trans; [eapply steady_item_create; exact Ec|].
  eapply steady_trans; [|eapply steady_fill_item; exact H]. steady_same.
Qed.

(** X15.  [init_rootmenu] always returns, provided the node name
    ["name.action"] passes the truncations of [fill_item] unchanged.
    Afterwards a menu is registered under ["root-menu"], everything that
    was registered still is, and a root menu from the configuration that
    has items is left exactly as it was. *)
Theorem init_rootmenu_ensures_root_menu s :
  keeps_nodename "name.action" ->
  exists s',
    init_rootmenu s = Some s' /\ grows s s' /\
    (exists root, menu_get_by_id s' (Some "root-menu"%string) = Some root) /\
    forall m,
      menu_get_by_id s (Some "root-menu"%string) = Some m ->
      menuitems m <> [] -> s' = s.
Proof.
  intros Hkeep. unfold init_rootmenu.
  destruct (default_menu_returns s "root-menu")
    as (s1 & m & Hd & G1 & Hin & (r & Hr) & Hcase).
  rewrite Hd. cbn [bind].
  destruct (menuitems m) as [|i rest] eqn:Ei; cbn [is_nil].
  - destruct (in_find_menu _ _ Hin) as (m1 & Hm1).
    destruct (@default_item_returns s1 (menu_addr m) "Reconfigure"%string
                "Reconfigure"%string m1 Hkeep Hm1) as (s2 & H2 & S2).
    rewrite H2. cbn [bind].
    destruct (@grows_find_menu _ _ _ _ (proj1 S2) Hm1) as (m2 & Hm2 & _).
    destruct (@default_item_returns s2 (menu_addr m) "Exit"%string
                "Exit"%string m2 Hkeep Hm2) as (s3 & H3 & S3).
    exists s3. split; [exact H3|].
    assert (G13 : grows s1 s3)
      by (eapply grows_trans; [apply S2 | apply S3]).
    split; [eapply grows_trans; eassumption|]. split.
    + destruct (@grows_lookup _ _ _ _ G13 Hr) as (r' & Hr' & _).
      exists r'. exact Hr'.
    + intros m0 Hm0 Hne. rewrite Hm0 in Hcase. destruct Hcase as [_ ->].
      rewrite Ei in Hne. contradiction.
  - exists s1. split; [reflexivity|]. split; [exact G1|].
    split; [exists r; exact Hr|].
    intros m0 Hm0 _. rewrite Hm0 in Hcase. apply Hcase.
Qed.

End Defaults.

(** ** A property of every building step holds of [menu_init] *)

Section Init.

Context {P : Platform} {E : Environment}.

Variable R : state -> state -> Prop.

Hypothesis R_refl : forall s, R s s.
Hypothesis R_trans : forall a b c, R a b -> R b c -> R a c.
Hypothesis R_set_current_item : forall s p, R s (set_current_item s p).
Hypothesis R_set_current_menu : forall s p, R s (set_current_menu s p).
Hypothesis R_link :
  forall s a p, R s (update_item s a (fun i => with_submenu i p)).
Hypothesis R_item_create :
  forall s menu text show_arrow s' r,
    item_create s menu text show_arrow = Some (s', r) -> R s s'.
Hypothesis R_separator_create :
  forall s menu label s' r,
    separator_create s menu label = Some (s', r) -> R s s'.
Hypothesis R_fill_item :
  forall s n c s', fill_item s n c = Some s' -> R s s'.
Hypothesis R_menu_create :
  forall s id label, R s (fst (menu_create s id label)).
Hypothesis R_hide : forall s id, R s (menu_hide_submenu s id).
Hypothesis R_parse_buf :
  forall s buf s' ok, parse_buf s buf = Some (s', ok) -> R s s'.
Hypothesis R_post_processing : forall s, R s (post_processing s).
Hypothesis R_validate : forall s, R s (validate s).

Lemma init_default_menu s id s1 m :
  default_menu s id = Some (s1, m) -> R s s1.
Proof.
  unfold default_menu. intros H.
  destruct (menu_get_by_id s (Some id)) as [found|].
  - injection H as <- _. apply R_refl.
  - pose proof (R_menu_create (set_current_menu s None) id
                  (Some EmptyString)) as Rc.
    destruct (menu_create (set_current_menu s None) id (Some EmptyString))
      as [s2 a]. cbn [fst] in Rc.
    destruct (find_menu s2 a); [|discriminate H]. injection H as <- _.
    eapply R_trans; [apply R_set_current_menu | exact Rc].
Qed.

Lemma init_default_item s ma text action s' :
  default_item s ma text action = Some s' -> R s s'.
Proof.
  unfold default_item. intros H.
  destruct (item_create s (Some ma) (gettext text) false)
    as [[s1 item]|] eqn:Ec; [cbn [bind] in H | discriminate H].
  eapply R_trans; [eapply R_item_create; exact Ec|].
  eapply R_trans; [apply R_set_current_item|].
  eapply R_fill_item. exact H.
Qed.

(** From [a] to a state that differs from it by writes of the parser's
    current item and of one item's submenu. *)
Ltac reach :=
  first
    [ apply R_refl
    | eapply R_trans; [|apply R_set_current_item]; reach
    | eapply R_trans; [|apply R_link]; reach ].

Ltac chain :=
  repeat
    match goal with
    | H : R ?src ?b |- R ?a ?z =>
      apply R_trans with src; [solve [reach]|];
      apply R_trans with b; [exact H|]; clear H
    end;
  reach.

Ltac steps :=
  repeat
    match goal with
    | H : default_item _ _ _ _ = Some _ |- _ => apply init_default_item in H
    | H : item_create _ _ _ _ = Some _ |- _ => apply R_item_create in H
    | H : separator_create _ _ _ = Some _ |- _ =>
      apply R_separator_create in H
    | H : fill_item _ _ _ = Some _ |- _ => apply R_fill_item in H
    | H : menu_create ?s ?i ?l = _ |- _ =>
      let Rc := fresh "Rc" in
      pose proof (R_menu_create s i l) as Rc; rewrite H in Rc;
      cbn [fst] in Rc; clear H
    end.

Lemma init_init_rootmenu s s' :
  init_rootmenu s = Some s' ->
  exists s1 m,
    default_menu s "root-menu" = Some (s1, m) /\ R s s1 /\ R s1 s'.
Proof.
  unfold init_rootmenu. intros H.
  destruct (default_menu s "root-menu") as [[s1 m]|] eqn:Ed;
    [cbn [bind] in H | discriminate H].
  exists s1, m. split; [reflexivity|].
  split; [eapply init_default_menu; exact Ed|].
  bind_inv H; subst; steps; chain.
Qed.

Lemma init_init_windowmenu s s' :
  init_windowmenu s = Some s' ->
  exists s1 m,
    default_menu s "client-menu" = Some (s1, m) /\ R s s1 /\ R s1 s'.
Proof.
  unfold init_windowmenu. intros H.
  destruct (default_menu s "client-menu") as [[s1 m]|] eqn:Ed;
    [cbn [bind] in H | discriminate H].
  exists s1, m. split; [reflexivity|].
  split; [eapply init_default_menu; exact Ed|].
  match type of H with
  | bind ?x _ = _ => destruct x as [s2|] eqn:Eb; [cbn [bind] in H | discriminate H]
  end.
  injection H as <-.
  apply R_trans with s2.
  - bind_inv Eb; subst; steps; chain.
  - destruct (rc_workspaces =? 1)%nat; [apply R_hide | apply R_refl].
Qed.

Lemma init_parse_stream s stream s' :
  parse_stream s stream = Some s' -> R s s'.
Proof.
  unfold parse_stream. intros H.
  match type of H with
  | bind ?x _ = _ =>
    destruct x as [[s1 ok]|] eqn:Eb; [cbn [bind] in H | discriminate H]
  end.
  injection H as <-. eapply R_parse_buf. exact Eb.
Qed.

Lemma init_parse_paths merge paths :
  forall s s', parse_paths merge s paths = Some s' -> R s s'.
Proof.
  induction paths as [|path rest IH]; intros s s' H; cbn [parse_paths] in H.
  - injection H as <-. apply R_refl.
  - destruct (fopen path) as [stream|]; [|injection H as <-; apply R_refl].
    destruct (parse_stream s stream) as [s1|] eqn:Es;
      [cbn [bind] in H | discriminate H].
    apply init_parse_stream in Es. eapply R_trans; [exact Es|].
    destruct merge; [exact (IH _ _ H) | injection H as <-; apply R_refl].
Qed.

Lemma init_menu_init s s' :
  menu_init s = Some s' ->
  exists s1 s2 s3,
    R (set_menus s []) s1 /\ init_rootmenu s1 = Some s2 /\
    init_windowmenu s2 = Some s3 /\ R s1 s2 /\ R s2 s3 /\ R s3 s'.
Proof.
  unfold menu_init. intros H. cbv zeta in H.
  destruct (parse_xml (set_menus s []) "menu.xml") as [s1|] eqn:E1;
    [cbn [bind] in H | discriminate H].
  destruct (init_rootmenu s1) as [s2|] eqn:E2;
    [cbn [bind] in H | discriminate H].
  destruct (init_windowmenu s2) as [s3|] eqn:E3;
    [cbn [bind] in H | discriminate H].
  injection H as <-. exists s1, s2, s3.
  split; [eapply init_parse_paths; exact E1|].
  split; [exact E2|]. split; [exact E3|].
  destruct (init_init_rootmenu _ E2) as (? & ? & _ & Ra & Rb).
  destruct (init_init_windowmenu _ E3) as (? & ? & _ & Rc & Rd).
  split; [eapply R_trans; eassumption|].
  split; [eapply R_trans; eassumption|].
  eapply R_trans; [apply R_post_processing | apply R_validate].
Qed.

End Init.

(** ** What [menu_init] builds *)

Section Rebuild.

Context {P : Platform} {E : Environment}.

Lemma appended_items_from n s s' ma (A : menu -> menu)
    (extra : menu -> list menuitem) :
  items_from n s ->
  menus s' = map (fun m => if addr_eqb (menu_addr m) ma then A m else m)
               (menus s) ->
  (forall m, menuitems (A m) = menuitems m ++ extra m /\
             (extra m = [] \/
              exists i, extra m = [i] /\ item_addr i = next_addr s)) ->
  next_addr s' = S (next_addr s) ->
  items_from n s'.
Proof.
  intros [Hn Hi] Hmenus HA Hnext. split; [lia|].
  intros i Hin. unfold all_items in Hin. rewrite Hmenus in Hin.
  apply in_flat_map in Hin. destruct Hin as (m' & Hm' & Hin).
  apply in_map_iff in Hm'. destruct Hm' as (m & <- & Hm).
  assert (Hold : In i (menuitems m) -> (n <= item_addr i)%nat).
  { intros H. apply Hi. apply in_flat_map. exists m. auto. }
  destruct (addr_eqb (menu_addr m) ma); [|exact (Hold Hin)].
  destruct (HA m) as [Eitems Hextra]. rewrite Eitems in Hin.
  apply in_app_or in Hin. destruct Hin as [Hin|Hin]; [exact (Hold Hin)|].
  destruct Hextra as [Hnil|(i0 & Hone & Ha)].
  - rewrite Hnil in Hin. destruct Hin.
  - rewrite Hone in Hin. destruct Hin as [<-|[]]. lia.
Qed.

Lemma prim_items_from n s s' : prim s s' -> items_from n s -> items_from n s'.
Proof.
  intros Hp Hq. pose proof Hq as [Hn Hi].
  destruct Hp as
      [s s' Hmenus _ _ _ _ _ Hnext | s f Hf | s g Hg | s f
       | s menu text show_arrow s' r H | s menu label s' r H
       | s id label | s id].
  - split; [lia|]. unfold all_items. rewrite Hmenus. exact Hi.
  - split; [exact Hn|]. unfold all_items. cbn [menus set_menus].
    rewrite flat_map_items_same by (intros m; apply Hf). exact Hi.
  - split; [exact Hn|]. rewrite all_items_map_items. intros i Hin.
    apply in_map_iff in Hin. destruct Hin as (i0 & <- & Hin).
    destruct (Hg i0) as (-> & _). apply Hi, Hin.
  - split; [exact Hn|]. intros i Hin. apply Hi.
    unfold all_items in Hin. cbn [menus set_menus] in Hin.
    eapply in_flat_map_filter. exact Hin.
  - destruct (item_create_append _ _ _ _ H)
      as (ma & A & extra & Hmenus & _ & HA & Hnext).
    eapply appended_items_from; eassumption.
  - destruct (separator_create_append _ _ _ H)
      as (ma & A & extra & Hmenus & _ & HA & Hnext).
    eapply appended_items_from; eassumption.
  - destruct (menu_create_menus s id label)
      as (m0 & Hmenus & _ & _ & Hitems & _).
    destruct (menu_create_statics s id label) as (_ & _ & Hnext & _).
    split; [lia|]. unfold all_items. rewrite Hmenus, flat_map_app.
    cbn [flat_map]. rewrite Hitems, !app_nil_r. exact Hi.
  - unfold menu_hide_submenu.
    destruct (menu_get_by_id s (Some id)) as [hide|]; [|exact Hq].
    split; [exact Hn|]. intros i Hin. unfold all_items in Hin.
    cbn [menus set_menus] in Hin. apply (in_map item_addr) in Hin.
    rewrite hide_all_addrs in Hin. apply in_map_iff in Hin.
    destruct Hin as (i0 & <- & Hin). apply filter_In in Hin.
    apply Hi, Hin.
Qed.

Lemma run_menu_init s s' :
  menu_init s = Some s' -> run (set_menus s []) s'.
Proof.
  intros H.
  destruct (@init_menu_init P E run run_refl run_trans) with (s := s) (s' := s')
    as (s1 & s2 & s3 & R1 & _ & _ & R2 & R3 & R4); try exact H.
  - intros s0 p. statics.
  - intros s0 p. statics.
  - intros s0 a p. apply run_update_item. frame_tac.
  - apply run_item_create.
  - apply run_separator_create.
  - apply run_fill_item.
  - apply run_menu_create.
  - apply run_menu_hide_submenu.
  - apply run_parse_buf.
  - apply run_post_processing.
  - apply run_validate.
  - eapply run_trans; [exact R1|]. eapply run_trans; [exact R2|].
    eapply run_trans; [exact R3 | exact R4].
Qed.

Lemma grows_menu_init s s' :
  menu_init s = Some s' ->
  exists s1 s2 s3,
    grows (set_menus s []) s1 /\ init_rootmenu s1 = Some s2 /\
    init_windowmenu s2 = Some s3 /\ grows s1 s2 /\ grows s2 s3 /\
    grows s3 s'.
Proof.
  intros H.
  apply (@init_menu_init P E grows grows_refl grows_trans); try exact H.
  - intros s0 p. apply grows_same; try reflexivity; simpl; lia.
  - intros s0 p. apply grows_same; try reflexivity; simpl; lia.
  - intros s0 a p. apply steady_update_item.
  - intros s0 menu text show_arrow s1 r H0.
    apply (steady_item_create _ _ _ _ H0).
  - intros s0 menu label s1 r H0.
    apply (steady_separator_create _ _ _ H0).
  - intros s0 n c s1 H0. apply (steady_fill_item _ _ _ H0).
  - apply grows_menu_create.
  - apply grows_menu_hide_submenu.
  - intros s0 buf s1 ok H0. apply (balanced_parse_buf _ _ H0).
  - apply grows_post_processing.
  - apply grows_validate.
Qed.

Lemma grows_init_rootmenu_lookup s s' :
  init_rootmenu s = Some s' ->
  grows s s' /\
  exists root, menu_get_by_id s' (Some "root-menu"%string) = Some root.
Proof.
  intros H.
  destruct (@init_init_rootmenu P E grows grows_refl grows_trans)
    with (s := s) (s' := s') as (s1 & m & Hd & G1 & G2); try exact H.
  - intros s0 p. apply grows_same; try reflexivity; simpl; lia.
  - intros s0 p. apply grows_same; try reflexivity; simpl; lia.
  - intros s0 menu text show_arrow s2 r H0.
    apply (steady_item_create _ _ _ _ H0).
  - intros s0 n c s2 H0. apply (steady_fill_item _ _ _ H0).
  - apply grows_menu_create.
  - split; [eapply grows_trans; eassumption|].
    destruct (default_menu_returns s "root-menu")
      as (s1' & m' & Hd' & _ & _ & (r & Hr) & _).
    rewrite Hd in Hd'. injection Hd' as <- <-.
    destruct (@grows_lookup _ _ _ _ G2 Hr) as (r' & Hr' & _).
    exists r'. exact Hr'.
Qed.

Lemma grows_init_windowmenu_lookup s s' :
  init_windowmenu s = Some s' ->
  grows s s' /\
  exists client, menu_get_by_id s' (Some "client-menu"%string) = Some client.
Proof.
  intros H.
  destruct (@init_init_windowmenu P E grows grows_refl grows_trans)
    with (s := s) (s' := s') as (s1 & m & Hd & G1 & G2); try exact H.
  - intros s0 p. apply grows_same; try reflexivity; simpl; lia.
  - intros s0 p. apply grows_same; try reflexivity; simpl; lia.
  - intros s0 a p. apply steady_update_item.
  - intros s0 menu text show_arrow s2 r H0.
    apply (steady_item_create _ _ _ _ H0).
  - intros s0 menu label s2 r H0.
    apply (steady_separator_create _ _ _ H0).
  - intros s0 n c s2 H0. apply (steady_fill_item _ _ _ H0).
  - apply grows_menu_create.
  - apply grows_menu_hide_submenu.
  - split; [eapply grows_trans; eassumption|].
    destruct (default_menu_returns s "client-menu")
      as (s1' & m' & Hd' & _ & _ & (r & Hr) & _).
    rewrite Hd in Hd'. injection Hd' as <- <-.
    destruct (@grows_lookup _ _ _ _ G2 Hr) as (r' & Hr' & _).
    exists r'. exact Hr'.
Qed.

Lemma menu_init_facts s s' :
  menu_init s = Some s' ->
  (exists root, menu_get_by_id s' (Some "root-menu"%string) = Some root) /\
  (exists client,
      menu_get_by_id s' (Some "client-menu"%string) = Some client) /\
  well_formed s' /\ all_layout_ok s' /\
  (forall m, In m (menus s') -> (next_addr s <= menu_addr m)%nat) /\
  (forall i, In i (all_items s') -> (next_addr s <= item_addr i)%nat) /\
  menu_current s' = menu_current s /\ ctxs s' = ctxs s /\
  waiting_for_pipe_menu s' = waiting_for_pipe_menu s.
Proof.
  intros H. pose proof (@run_menu_init _ _ H) as Hrun.
  destruct (@grows_menu_init _ _ H) as (s1 & s2 & s3 & G1 & H2 & H3 & G2 & G3 & G4).
  destruct (@grows_init_rootmenu_lookup _ _ H2) as [_ (root & Hroot)].
  destruct (@grows_init_windowmenu_lookup _ _ H3) as [_ (client & Hclient)].
  assert (G : grows (set_menus s []) s').
  { eapply grows_trans; [exact G1|]. eapply grows_trans; [exact G2|].
    eapply grows_trans; [exact G3 | exact G4]. }
  split.
  { destruct (@grows_lookup _ _ _ _ (grows_trans G3 G4) Hroot)
      as (r & Hr & _). exists r. exact Hr. }
  split.
  { destruct (@grows_lookup _ _ _ _ G4 Hclient) as (r & Hr & _).
    exists r. exact Hr. }
  split.
  { apply (evolves_well_formed (evolves_run Hrun)).
    unfold well_formed, all_items. cbn.
    repeat split; try constructor; intros x []. }
  split.
  { apply (evolves_layout (evolves_run Hrun)). intros m []. }
  split.
  { destruct G as [(f & l & Hm & _ & Hl) _]. cbn [menus set_menus map] in Hm.
    intros m Hin. rewrite Hm in Hin. cbn [app] in Hin.
    apply (Hl m Hin). }
  split.
  { assert (Hq : items_from (next_addr s) s').
    { apply (run_invariant (items_from (next_addr s))
               (@prim_items_from (next_addr s))) in Hrun; [exact Hrun|].
      split; [cbn; lia | intros i []]. }
    apply Hq. }
  destruct G as (_ & _ & Hc & _ & Hx & Hw & _).
  split; [exact Hc|]. split; [exact Hx | exact Hw].
Qed.


(** X17.  [menu_reconfigure] rebuilds the registry and clears
    [menu_current], but leaves a pipe-menu request that is in flight
    registered.  The item the request belongs to is gone with the old
    registry, so when the stream of such a request ends with output that
    passes the guard, [create_pipe_menu] dereferences the freed item:
    the call has no defined outcome. *)
Theorem request_outlives_reconfigure fuel s s' c ctx :
  menu_reconfigure s = Some s' ->
  find_ctx s c = Some ctx -> (ctx_item ctx < next_addr s)%nat ->
  menu_current s' = None /\
  waiting_for_pipe_menu s' = waiting_for_pipe_menu s /\
  find_ctx s' c = Some ctx /\
  find_item s' (ctx_item ctx) = None /\
  (buf_len (ctx_buf ctx) <= PIPEMENU_MAX_BUF_SIZE ->
   starts_with_less_than (ctx_buf ctx) = true ->
   handle_pipemenu_readable fuel s' c (ReadOk EmptyString) = None).
Proof.
  unfold menu_reconfigure. intros H Hctx Hitem.
  destruct (@menu_init_facts _ _ H) as (_ & _ & _ & _ & _ & Hi & Hc & Hx & Hw).
  cbn [next_addr set_menu_current] in Hi.
  assert (Hnext : next_addr (menu_finish s) = next_addr s).
  { unfold menu_finish. rewrite menu_free_from_free_all, free_all_only_menus.
    reflexivity. }
  assert (Hctxs : ctxs (menu_finish s) = ctxs s /\
                  waiting_for_pipe_menu (menu_finish s)
                  = waiting_for_pipe_menu s).
  { unfold menu_finish. rewrite menu_free_from_free_all, free_all_only_menus.
    split; reflexivity. }
  destruct Hctxs as [Hctxs Hwait]. rewrite Hnext in Hi.
  cbn [menu_current ctxs waiting_for_pipe_menu set_menu_current] in Hc, Hx, Hw.
  rewrite Hctxs in Hx. rewrite Hwait in Hw.
  assert (Hfc : find_ctx s' c = Some ctx)
    by (unfold find_ctx; rewrite Hx; exact Hctx).
  assert (Hfi : find_item s' (ctx_item ctx) = None).
  { unfold find_item.
    destruct (find _ (all_items s')) as [i|] eqn:Ef; [|reflexivity].
    apply find_some in Ef. destruct Ef as [Hin Ea].
    apply Nat.eqb_eq in Ea. specialize (Hi i Hin). lia. }
  split; [exact Hc|]. split; [exact Hw|]. split; [exact Hfc|].
  split; [exact Hfi|].
  intros Hlen Hguard. unfold handle_pipemenu_readable. rewrite Hfc.
  cbn [bind]. change (buf_len EmptyString) with 0.
  assert (Hle : (buf_len (ctx_buf ctx) + 0 >? PIPEMENU_MAX_BUF_SIZE) = false)
    by (rewrite Z.gtb_ltb; apply Z.ltb_ge; lia).
  rewrite Hle. cbn [Z.eqb negb]. rewrite Hguard. cbn [negb].
  unfold create_pipe_menu. rewrite Hfi. reflexivity.
Qed.

End Rebuild.

Lemma parse_buf_leaves_parser_in_place_witness :
  menu_level example_menu_state = menu_level initial_state /\
  current_menu example_menu_state = current_menu initial_state.
Proof.
  apply (@parse_buf_leaves_parser_in_place example_platform initial_state
           example_config_text example_menu_state true).
  - intros m [].
  - vm_compute. reflexivity.
Defined.

Lemma parse_buf_keeps_registry_witness :
  exists s',
    parse_buf (P := example_platform) example_menu_state
      duplicate_config_text = Some (s', true) /\
    (exists m',
        menu_get_by_id s' (Some "root-menu"%string) = Some m' /\
        menu_kept m' example_root_menu) /\
    map outline_id (menus s')
    = [(1%nat, "root-menu"%string); (6%nat, "a"%string);
       (7%nat, "a"%string)].
Proof.
  eexists. split; [vm_compute; reflexivity|].
  match goal with
  | |- (exists m', menu_get_by_id ?s' _ = _ /\ _) /\ _ =>
    destruct (@parse_buf_keeps_registry example_platform example_menu_state
                duplicate_config_text s' true eq_refl) as [Hkept _]
  end.
  split; [|reflexivity].
  apply (Hkept "root-menu"%string example_root_menu). reflexivity.
Defined.

Lemma init_rootmenu_ensures_root_menu_witness :
  exists s',
    init_rootmenu (P := example_platform) (E := example_environment)
      initial_state = Some s' /\
    exists root, menu_get_by_id s' (Some "root-menu"%string) = Some root.
Proof.
  destruct (@init_rootmenu_ensures_root_menu example_platform
              example_environment initial_state eq_refl)
    as (s' & Hs' & _ & Hroot & _).
  exists s'. split; [exact Hs' | exact Hroot].
Defined.


Lemma request_outlives_reconfigure_witness :
  menu_reconfigure (P := piped_platform) (E := example_environment)
    example_received = Some example_reconfigured /\
  find_ctx example_reconfigured 6%nat
  = Some (mkCtx 6%nat 2%nat example_pipe_text 100 5) /\
  find_item example_reconfigured 2%nat = None /\
  handle_pipemenu_readable (P := piped_platform) 5 example_reconfigured
    6%nat (ReadOk EmptyString) = None.
Proof.
  assert (H : menu_reconfigure (P := piped_platform)
                (E := example_environment) example_received
              = Some example_reconfigured) by (vm_compute; reflexivity).
  split; [exact H|].
  destruct (@request_outlives_reconfigure piped_platform example_environment
              5 example_received example_reconfigured 6%nat
              (mkCtx 6%nat 2%nat example_pipe_text 100 5) H eq_refl)
    as (_ & _ & Hc & Hi & Hr).
  - cbn. lia.
  - split; [exact Hc|]. split; [exact Hi|].
    apply Hr; [vm_compute; discriminate | vm_compute; reflexivity].
Defined.

(** ** Keyboard navigation: the walk over the items *)

Lemma link_item_app (pre : list menuitem) (x : menuitem)
    (post : list menuitem) :
  link_item (pre ++ x :: post) (S (List.length pre)) = Some x.
Proof.
  cbn [link_item]. rewrite nth_error_app2 by lia.
  rewrite Nat.sub_diag. reflexivity.
Qed.

(** Forward over a stretch of items that does not hold [start]. *)
Lemma forward_stretch (start k : nat) (seg : list menuitem) :
  forall pre post,
    (forall q, (List.length pre < q <= List.length pre + List.length seg)%nat ->
               q <> start) ->
    item_select_loop (List.length seg + k) true (pre ++ seg ++ post) start
      (List.length pre)
    = match find item_selectable seg with
      | Some item => Some (Some item)
      | None =>
        item_select_loop k true (pre ++ seg ++ post) start
          (List.length pre + List.length seg)
      end.
Proof.
  induction seg as [|x seg IH]; intros pre post Hstart.
  - cbn [List.length find Nat.add]. rewrite Nat.add_0_r. reflexivity.
  - cbn [List.length Nat.add item_select_loop find].
    unfold link_next.
    assert (Hlen : (List.length pre =? List.length (pre ++ (x :: seg) ++ post))%nat
                   = false).
    { apply Nat.eqb_neq. rewrite !length_app. cbn [List.length]. lia. }
    rewrite Hlen.
    assert (Hs : (S (List.length pre) =? start)%nat = false).
    { apply Nat.eqb_neq. apply Hstart. cbn [List.length]. lia. }
    rewrite Hs. cbn [Nat.eqb].
    change ((x :: seg) ++ post) with (x :: seg ++ post).
    rewrite link_item_app. cbn [bind].
    destruct (item_selectable x); [reflexivity|].
    specialize (IH (pre ++ [x]) post).
    rewrite <- !app_assoc in IH. cbn [app] in IH.
    rewrite length_app in IH. cbn [List.length] in IH.
    replace (List.length pre + 1)%nat with (S (List.length pre)) in IH by lia.
    rewrite IH.
    + replace (S (List.length pre) + List.length seg)%nat
        with (List.length pre + S (List.length seg))%nat by lia.
      reflexivity.
    + intros q Hq. apply Hstart. cbn [List.length]. lia.
Qed.

(** Backward over a stretch of items that does not hold [start], from
    a position [c] whose predecessor is the last item of the
    stretch. *)
Lemma backward_stretch (start k : nat) (seg : list menuitem) :
  forall pre post c,
    link_prev (pre ++ seg ++ post) c
    = (List.length pre + List.length seg)%nat ->
    (forall q, (List.length pre < q <= List.length pre + List.length seg)%nat ->
               q <> start) ->
    item_select_loop (List.length seg + k) false (pre ++ seg ++ post) start c
    = match find item_selectable (rev seg) with
      | Some item => Some (Some item)
      | None =>
        item_select_loop k false (pre ++ seg ++ post) start
          (match seg with [] => c | _ :: _ => S (List.length pre) end)
      end.
Proof.
  induction seg as [|x seg IH] using rev_ind; intros pre post c Hc Hstart.
  - reflexivity.
  - rewrite length_app. cbn [List.length].
    replace (List.length seg + 1 + k)%nat with (S (List.length seg + k))
      by lia.
    cbn [item_select_loop]. rewrite Hc, length_app. cbn [List.length].
    replace (List.length pre + (List.length seg + 1))%nat
      with (S (List.length pre + List.length seg)) by lia.
    assert (Hs : (S (List.length pre + List.length seg) =? start)%nat = false).
    { apply Nat.eqb_neq. apply Hstart. rewrite length_app.
      cbn [List.length]. lia. }
    rewrite Hs. cbn [Nat.eqb].
    assert (Hitem : link_item (pre ++ (seg ++ [x]) ++ post)
                      (S (List.length pre + List.length seg)) = Some x).
    { rewrite <- app_assoc. cbn [app]. rewrite app_assoc.
      rewrite <- length_app. apply link_item_app. }
    rewrite Hitem. cbn [bind]. rewrite rev_app_distr. cbn [rev app find].
    destruct (item_selectable x); [reflexivity|].
    specialize (IH pre ([x] ++ post)
                  (S (List.length pre + List.length seg))).
    rewrite <- app_assoc in *. cbn [app] in *.
    rewrite IH; [|reflexivity|intros q Hq; apply Hstart; rewrite length_app;
                               cbn [List.length]; lia].
    destruct (find item_selectable (rev seg)); [reflexivity|].
    destruct seg as [|y seg]; cbn [app]; [|reflexivity].
    cbn [List.length]. rewrite Nat.add_0_r. reflexivity.
Qed.

Lemma firstn_skipn_split (items : list menuitem) (k : nat) :
  (k <= List.length items)%nat ->
  items = firstn k items ++ skipn k items /\
  List.length (firstn k items) = k /\
  List.length (skipn k items) = (List.length items - k)%nat.
Proof.
  intros Hk. split; [symmetry; apply firstn_skipn|].
  split; [apply firstn_length_le; exact Hk | apply length_skipn].
Qed.

(** The walk of [menu_item_select] from a position of the list returns
    within one round, with the first selectable item in visiting
    order, or with none when it is back where it started. *)
Lemma item_select_loop_visits (forward : bool) (items : list menuitem)
    (start : nat) :
  (start <= List.length items)%nat ->
  item_select_loop (S (List.length items)) forward items start start
  = Some (find item_selectable (visit_order forward items start)).
Proof.
  intros Hstart. unfold visit_order.
  destruct forward.
  - destruct start as [|k].
    + cbn [skipn firstn Nat.sub]. rewrite app_nil_r.
      pose proof (@forward_stretch 0 1 items [] [] ltac:(cbn; lia)) as H.
      cbn [app List.length] in H. rewrite app_nil_r in H.
      replace (S (List.length items)) with (List.length items + 1)%nat by lia.
      rewrite H. destruct (find item_selectable items); [reflexivity|].
      cbn [item_select_loop Nat.add]. unfold link_next.
      rewrite Nat.eqb_refl. reflexivity.
    + cbn [Nat.sub]. rewrite Nat.sub_0_r, find_app.
      destruct (@firstn_skipn_split items (S k) Hstart) as (Hsplit & L1 & L2).
      assert (Hk : (k <= List.length items)%nat) by lia.
      destruct (@firstn_skipn_split items k Hk) as (Hsplit' & L1' & L2').
      pose proof (@forward_stretch (S k) (k + 2) (skipn (S k) items)
                    (firstn (S k) items) []) as H1.
      rewrite app_nil_r, <- Hsplit, L1, L2 in H1.
      replace (S (List.length items))
        with (List.length items - S k + (k + 2))%nat by lia.
      rewrite H1 by (intros q Hq; lia).
      destruct (find item_selectable (skipn (S k) items)); [reflexivity|].
      replace (S k + (List.length items - S k))%nat
        with (List.length items) by lia.
      replace (k + 2)%nat with (S (k + 1)) by lia.
      cbn [item_select_loop]. unfold link_next.
      rewrite Nat.eqb_refl. cbn [Nat.eqb].
      pose proof (@forward_stretch (S k) 1 (firstn k items) []
                    (skipn k items)) as H2.
      cbn [app List.length] in H2. rewrite <- Hsplit', L1' in H2.
      rewrite H2 by (intros q Hq; lia).
      destruct (find item_selectable (firstn k items)); [reflexivity|].
      cbn [item_select_loop Nat.add]. unfold link_next.
      assert (Hne : (k =? List.length items)%nat = false)
        by (apply Nat.eqb_neq; lia).
      rewrite Hne, Nat.eqb_refl. reflexivity.
  - destruct start as [|k].
    + cbn [skipn firstn Nat.sub rev app].
      pose proof (@backward_stretch 0 1 items [] [] 0%nat) as H.
      cbn [app List.length] in H. rewrite app_nil_r in H.
      replace (S (List.length items)) with (List.length items + 1)%nat by lia.
      rewrite H; [|reflexivity|intros q Hq; lia].
      destruct (find item_selectable (rev items)); [reflexivity|].
      destruct items; reflexivity.
    + cbn [Nat.sub]. rewrite Nat.sub_0_r, find_app.
      destruct (@firstn_skipn_split items (S k) Hstart) as (Hsplit & L1 & L2).
      assert (Hk : (k <= List.length items)%nat) by lia.
      destruct (@firstn_skipn_split items k Hk) as (Hsplit' & L1' & L2').
      pose proof (@backward_stretch (S k)
                    (List.length items - S k + 2) (firstn k items) []
                    (skipn k items) (S k)) as H1.
      cbn [app List.length] in H1. rewrite <- Hsplit', L1' in H1.
      replace (S (List.length items))
        with (k + (List.length items - S k + 2))%nat by lia.
      rewrite H1; [|reflexivity|intros q Hq; lia].
      destruct (find item_selectable (rev (firstn k items))); [reflexivity|].
      assert (Hhead :
        forall c, link_prev items c = 0%nat -> c <> 0%nat ->
          item_select_loop (List.length items - S k + 2) false items (S k) c
          = Some (find item_selectable (rev (skipn (S k) items)))).
      { intros c Hc Hc0.
        replace (List.length items - S k + 2)%nat
          with (S (List.length items - S k + 1)) by lia.
        cbn [item_select_loop]. rewrite Hc. cbn [Nat.eqb].
        pose proof (@backward_stretch (S k) 1 (skipn (S k) items)
                      (firstn (S k) items) [] 0%nat) as H2.
        rewrite app_nil_r, <- Hsplit, L1, L2 in H2.
        rewrite H2; [|cbn [link_prev]; lia|intros q Hq; lia].
        destruct (find item_selectable (rev (skipn (S k) items)));
          [reflexivity|].
        destruct (skipn (S k) items) as [|y rest] eqn:Es.
        - cbn [item_select_loop link_prev]. cbn [List.length] in L2.
          replace (List.length items) with (S k) by lia.
          rewrite Nat.eqb_refl. reflexivity.
        - cbn [item_select_loop link_prev]. rewrite Nat.eqb_refl.
          reflexivity. }
      destruct (firstn k items) as [|y rest] eqn:Ef.
      * cbn [List.length] in L1'. subst k. apply Hhead; [reflexivity|lia].
      * apply Hhead; [reflexivity|lia].
Qed.

Lemma link_of_bound (a : addr) (items : list menuitem) :
  forall p, link_of a items = Some p ->
            (1 <= p <= List.length items)%nat /\
            exists item, link_item items p = Some item /\ item_addr item = a.
Proof.
  induction items as [|x items IH]; intros p H; cbn [link_of] in H;
    [discriminate H|].
  destruct (addr_eqb (item_addr x) a) eqn:Ea.
  - injection H as <-. cbn [List.length]. split; [lia|].
    exists x. split; [reflexivity | apply Nat.eqb_eq, Ea].
  - destruct (link_of a items) as [q|]; [|discriminate H].
    injection H as <-. destruct (IH q eq_refl) as (Hq & item & Hi & Ha).
    cbn [List.length]. split; [lia|]. exists item. split; [|exact Ha].
    destruct q as [|q]; [lia|]. exact Hi.
Qed.

Lemma find_split {A : Type} (f : A -> bool) (l : list A) (x : A) :
  find f l = Some x ->
  exists l1 l2,
    l = l1 ++ x :: l2 /\ f x = true /\ forall y, In y l1 -> f y = false.
Proof.
  induction l as [|y l IH]; intros H; cbn [find] in H; [discriminate H|].
  destruct (f y) eqn:Ey.
  - injection H as <-. exists [], l. repeat split; [exact Ey | intros ? []].
  - destruct (IH H) as (l1 & l2 & -> & Hx & Hl1).
    exists (y :: l1), l2. repeat split; [exact Hx|].
    intros z [<-|Hz]; [exact Ey | exact (Hl1 z Hz)].
Qed.

Lemma find_skip {A : Type} (f : A -> bool) (l1 l2 : list A) :
  (forall y, In y l1 -> f y = false) -> find f (l1 ++ l2) = find f l2.
Proof.
  intros H. induction l1 as [|y l1 IH]; [reflexivity|].
  cbn [app find]. rewrite (H y (or_introl eq_refl)).
  apply IH. intros z Hz. apply H. right. exact Hz.
Qed.

Lemma firstn_exact {A : Type} (l1 l2 : list A) :
  firstn (List.length l1) (l1 ++ l2) = l1.
Proof.
  induction l1 as [|x l1 IH]; cbn; [destruct l2; reflexivity|].
  rewrite IH. reflexivity.
Qed.

Lemma skipn_exact {A : Type} (l1 l2 : list A) :
  skipn (List.length l1) (l1 ++ l2) = l2.
Proof. induction l1 as [|x l1 IH]; cbn; [reflexivity | exact IH]. Qed.

Lemma visit_order_at (forward : bool) (before : list menuitem)
    (x : menuitem) (after : list menuitem) :
  visit_order forward (before ++ x :: after) (S (List.length before))
  = if forward then after ++ before else rev before ++ rev after.
Proof.
  unfold visit_order. cbn [Nat.sub]. rewrite Nat.sub_0_r, firstn_exact.
  replace (S (List.length before)) with (List.length (before ++ [x]))
    by (rewrite length_app; cbn; lia).
  replace (before ++ x :: after) with ((before ++ [x]) ++ after)
    by (rewrite <- app_assoc; reflexivity).
  rewrite skipn_exact. reflexivity.
Qed.

Lemma link_item_split (items : list menuitem) (p : nat) (x : menuitem) :
  link_item items p = Some x ->
  exists before after,
    items = before ++ x :: after /\ p = S (List.length before).
Proof.
  destruct p as [|k]; [discriminate|]. cbn [link_item]. intros H.
  apply nth_error_split in H. destruct H as (before & after & -> & <-).
  exists before, after. split; reflexivity.
Qed.

Lemma link_of_unique (before : list menuitem) (x : menuitem)
    (after : list menuitem) :
  NoDup (map item_addr (before ++ x :: after)) ->
  link_of (item_addr x) (before ++ x :: after) = Some (S (List.length before)).
Proof.
  induction before as [|y before IH]; intros Hnd.
  - cbn. unfold addr_eqb. rewrite Nat.eqb_refl. reflexivity.
  - cbn [app map] in Hnd. inversion Hnd as [|? ? Hnotin Hnd']. subst.
    cbn [app link_of List.length].
    destruct (addr_eqb (item_addr y) (item_addr x)) eqn:Ea.
    + exfalso. apply Hnotin. apply Nat.eqb_eq in Ea. rewrite Ea.
      rewrite map_app. apply in_or_app. right. left. reflexivity.
    + rewrite (IH Hnd'). reflexivity.
Qed.

Lemma in_rev_inv {A : Type} (l : list A) (y : A) : In y (rev l) -> In y l.
Proof. intros H. apply in_rev. exact H. Qed.

(** X18.  Among the selectable items of a menu, next and previous are
    inverse to each other: from a selectable item, the item the walk in
    one direction ends on leads back to it by the walk in the other
    direction. *)
Theorem select_next_and_previous_are_inverse (forward : bool)
    (items : list menuitem) (p : nat) (selection target : menuitem) :
  NoDup (map item_addr items) ->
  link_item items p = Some selection ->
  item_selectable selection = true ->
  item_select_loop (S (List.length items)) forward items p p
  = Some (Some target) ->
  exists q,
    link_of (item_addr target) items = Some q /\
    item_select_loop (S (List.length items)) (negb forward) items q q
    = Some (Some selection).
Proof.
  intros Hnd Hp Hsel Hloop.
  destruct (link_item_split _ _ Hp) as (before & after & -> & ->).
  rewrite item_select_loop_visits in Hloop
    by (rewrite length_app; cbn [List.length]; lia).
  injection Hloop as Hfind. rewrite visit_order_at in Hfind.
  assert (Hback :
    forall l1 l2,
      before ++ selection :: after = l1 ++ target :: l2 ->
      find item_selectable
        (if negb forward then l2 ++ l1 else rev l1 ++ rev l2)
      = Some selection ->
      exists q,
        link_of (item_addr target) (before ++ selection :: after) = Some q /\
        item_select_loop (S (List.length (before ++ selection :: after)))
          (negb forward) (before ++ selection :: after) q q
        = Some (Some selection)).
  { intros l1 l2 Hsplit Hf. exists (S (List.length l1)). split.
    - rewrite Hsplit in Hnd |- *. apply link_of_unique. exact Hnd.
    - rewrite item_select_loop_visits.
      + rewrite Hsplit, visit_order_at, Hf. reflexivity.
      + rewrite Hsplit, length_app. cbn [List.length]. lia. }
  assert (Hhere : forall l, find item_selectable (selection :: l)
                            = Some selection)
    by (intros l; cbn [find]; rewrite Hsel; reflexivity).
  destruct forward; cbn [negb] in *.
  - (* forward first: the target lies after the selection, or, past the
       head, before it *)
    rewrite find_app in Hfind.
    destruct (find item_selectable after) as [t|] eqn:Ea.
    + injection Hfind as ->.
      destruct (find_split _ _ Ea) as (a1 & a2 & -> & _ & Ha1).
      apply (Hback (before ++ selection :: a1) a2).
      * rewrite <- app_assoc. reflexivity.
      * rewrite rev_app_distr. cbn [rev]. rewrite <- !app_assoc.
        cbn [app]. rewrite find_skip; [apply Hhere|].
        intros y Hy. apply Ha1, in_rev_inv, Hy.
    + destruct (find_split _ _ Hfind) as (b1 & b2 & -> & _ & Hb1).
      apply (Hback b1 (b2 ++ selection :: after)).
      * rewrite <- app_assoc. reflexivity.
      * rewrite rev_app_distr. cbn [rev]. rewrite <- !app_assoc.
        cbn [app].
        rewrite find_skip
          by (intros y Hy; apply Hb1, in_rev_inv, Hy).
        rewrite find_skip; [apply Hhere|].
        intros y Hy. apply in_rev_inv in Hy.
        exact (find_none _ _ Ea y Hy).
  - (* backward first *)
    rewrite find_app in Hfind.
    destruct (find item_selectable (rev before)) as [t|] eqn:Eb.
    + injection Hfind as ->.
      destruct (find_split _ _ Eb) as (r1 & r2 & Hrev & _ & Hr1).
      assert (Hbefore : before = rev r2 ++ target :: rev r1).
      { rewrite <- (rev_involutive before), Hrev, rev_app_distr.
        cbn [rev]. rewrite <- app_assoc. reflexivity. }
      subst before.
      apply (Hback (rev r2) (rev r1 ++ selection :: after)).
      * rewrite <- app_assoc. reflexivity.
      * rewrite <- !app_assoc. cbn [app].
        rewrite find_skip; [apply Hhere|].
        intros y Hy. apply in_rev_inv in Hy. exact (Hr1 y Hy).
    + destruct (find_split _ _ Hfind) as (r1 & r2 & Hrev & _ & Hr1).
      assert (Hafter : after = rev r2 ++ target :: rev r1).
      { rewrite <- (rev_involutive after), Hrev, rev_app_distr.
        cbn [rev]. rewrite <- app_assoc. reflexivity. }
      subst after.
      apply (Hback (before ++ selection :: rev r2) (rev r1)).
      * rewrite <- app_assoc. reflexivity.
      * rewrite find_skip
          by (intros y Hy; apply in_rev_inv in Hy; exact (Hr1 y Hy)).
        rewrite find_skip; [apply Hhere|].
        intros y Hy. apply (find_none _ _ Eb y). apply in_rev.
        rewrite rev_involutive. exact Hy.
Qed.

Lemma submenu_enter_stretch (seg : list menuitem) :
  forall pre,
    submenu_enter_loop (S (List.length seg)) (pre ++ seg) 0
      (List.length pre)
    = Some (find item_selectable seg).
Proof.
  induction seg as [|x seg IH]; intros pre.
  - cbn [List.length submenu_enter_loop find]. unfold link_next.
    rewrite app_nil_r, Nat.eqb_refl. reflexivity.
  - cbn [List.length submenu_enter_loop find]. unfold link_next.
    assert (Hlen : (List.length pre =? List.length (pre ++ x :: seg))%nat
                   = false).
    { apply Nat.eqb_neq. rewrite length_app. cbn [List.length]. lia. }
    rewrite Hlen. cbn [Nat.eqb]. rewrite link_item_app. cbn [bind].
    destruct (item_selectable x); [reflexivity|].
    specialize (IH (pre ++ [x])). rewrite <- app_assoc in IH.
    cbn [app] in IH. rewrite length_app in IH. cbn [List.length] in IH.
    replace (List.length pre + 1)%nat with (S (List.length pre)) in IH by lia.
    exact IH.
Qed.

Lemma selection_leaf_loop_deepest (fuel : nat) (s : state) :
  forall a b,
    selection_leaf_loop fuel s a = Some b ->
    exists m,
      find_menu s b = Some m /\
      (b = a \/ selection_item m <> None) /\
      forall sub,
        selection_menu m = Some sub ->
        exists open, find_menu s sub = Some open /\ selection_item open = None.
Proof.
  induction fuel as [|fuel IH]; intros a b H; [discriminate H|].
  cbn [selection_leaf_loop] in H.
  destruct (find_menu s a) as [m|] eqn:Em; [cbn [bind] in H | discriminate H].
  destruct (selection_menu m) as [sub|] eqn:Esub.
  - destruct (find_menu s sub) as [open|] eqn:Eo;
      [cbn [bind] in H | discriminate H].
    destruct (selection_item open) as [sel|] eqn:Esel; cbn [is_some] in H.
    + destruct (IH _ _ H) as (mb & Hmb & Hor & Hdeep).
      exists mb. split; [exact Hmb|]. split; [|exact Hdeep].
      right. destruct Hor as [->|Hne]; [|exact Hne].
      rewrite Eo in Hmb. injection Hmb as <-. rewrite Esel. discriminate.
    + injection H as <-. exists m. split; [exact Em|].
      split; [left; reflexivity|].
      intros sub' Hsub'. rewrite Esub in Hsub'. injection Hsub' as <-.
      exists open. split; assumption.
  - injection H as <-. exists m. split; [exact Em|].
    split; [left; reflexivity|]. intros sub' Hsub'.
    rewrite Esub in Hsub'. discriminate Hsub'.
Qed.

(** X19.  [get_selection_leaf] returns null exactly when no menu is
    shown.  Otherwise the menu it returns is live, is the current menu
    or has a selected item, and its open submenu, if it has one, has no
    selected item. *)
Theorem get_selection_leaf_is_deepest (fuel : nat) (s : state)
    (leaf : option addr) :
  get_selection_leaf fuel s = Some leaf ->
  match leaf with
  | None => menu_current s = None
  | Some b =>
    menu_current s <> None /\
    exists m,
      find_menu s b = Some m /\
      (menu_current s = Some b \/ selection_item m <> None) /\
      forall sub,
        selection_menu m = Some sub ->
        exists open, find_menu s sub = Some open /\ selection_item open = None
  end.
Proof.
  unfold get_selection_leaf. intros H.
  destruct (menu_current s) as [a|].
  - destruct (selection_leaf_loop fuel s a) as [b|] eqn:Eb;
      [cbn [bind] in H | discriminate H].
    injection H as <-. split; [discriminate|].
    destruct (selection_leaf_loop_deepest _ _ _ Eb) as (m & Hm & Hor & Hd).
    exists m. split; [exact Hm|]. split; [|exact Hd].
    destruct Hor as [->|Hne]; [left; reflexivity | right; exact Hne].
  - injection H as <-. reflexivity.
Qed.

(** X20.  Keyboard selection moves to the first selectable item after
    the selected one (before it, when going backward), around the end of
    the list if need be, passing over separators; with no selection it
    starts from the list head.  When the leaf menu has no other
    selectable item nothing happens. *)
Theorem menu_item_select_picks fuel spawn_piped s forward a m start :
  get_selection_leaf fuel s = Some (Some a) ->
  find_menu s a = Some m ->
  match selection_item m with
  | Some selection => link_of selection (menuitems m)
  | None => Some 0%nat
  end = Some start ->
  menu_item_select fuel spawn_piped s forward
  = match find item_selectable (visit_order forward (menuitems m) start) with
    | Some item =>
      menu_process_item_selection fuel spawn_piped s (item_addr item)
    | None => Some s
    end.
Proof.
  intros Hleaf Hm Hstart. unfold menu_item_select.
  rewrite Hleaf. cbn [bind]. rewrite Hm. cbn [bind]. rewrite Hstart.
  cbn [bind].
  assert (Hle : (start <= List.length (menuitems m))%nat).
  { destruct (selection_item m) as [sel|].
    - destruct (link_of_bound _ _ Hstart) as [Hb _]. lia.
    - injection Hstart as <-. lia. }
  rewrite (item_select_loop_visits forward _ Hle). cbn [bind]. reflexivity.
Qed.

(** X21.  Entering the open submenu selects its first selectable item,
    and does nothing when it has none, when no submenu is open or when
    no menu is shown. *)
Theorem menu_submenu_enter_picks fuel spawn_piped s :
  menu_submenu_enter fuel spawn_piped s
  = match get_selection_leaf fuel s with
    | None => None
    | Some None => Some s
    | Some (Some a) =>
      match find_menu s a with
      | None => None
      | Some m =>
        match selection_menu m with
        | None => Some s
        | Some sub =>
          match find_menu s sub with
          | None => None
          | Some open =>
            match find item_selectable (menuitems open) with
            | Some item =>
              menu_process_item_selection fuel spawn_piped s (item_addr item)
            | None => Some s
            end
          end
        end
      end
    end.
Proof.
  unfold menu_submenu_enter.
  destruct (get_selection_leaf fuel s) as [[a|]|]; cbn [bind];
    try reflexivity.
  destruct (find_menu s a) as [m|]; cbn [bind]; [|reflexivity].
  destruct (selection_menu m) as [sub|]; [|reflexivity].
  destruct (find_menu s sub) as [open|]; cbn [bind]; [|reflexivity].
  pose proof (submenu_enter_stretch (menuitems open) []) as H.
  cbn [app List.length] in H. rewrite H. cbn [bind]. reflexivity.
Qed.

Lemma get_selection_leaf_is_deepest_witness :
  exists m,
    find_menu example_piped 1%nat = Some m /\
    (menu_current example_piped = Some 1%nat \/ selection_item m <> None) /\
    forall sub,
      selection_menu m = Some sub ->
      exists open,
        find_menu example_piped sub = Some open /\ selection_item open = None.
Proof.
  refine (proj2 (@get_selection_leaf_is_deepest 3 example_piped
                   (Some 1%nat) _)).
  vm_compute. reflexivity.
Defined.

Lemma menu_item_select_picks_witness :
  menu_item_select 3 example_spawn example_piped true
  = menu_process_item_selection 3 example_spawn example_piped 4%nat.
Proof.
  destruct (find_menu example_piped 1%nat) as [m|] eqn:Em;
    [|vm_compute in Em; discriminate Em].
  rewrite (@menu_item_select_picks 3 example_spawn example_piped true 1%nat
             m 1%nat); vm_compute in Em; injection Em as <-; reflexivity.
Defined.

Lemma select_next_and_previous_are_inverse_witness :
  exists q,
    link_of 4%nat (menuitems example_root_menu) = Some q /\
    item_select_loop 4 false (menuitems example_root_menu) q q
    = Some (nth_error (menuitems example_root_menu) 0).
Proof.
  apply (@select_next_and_previous_are_inverse true
           (menuitems example_root_menu) 1%nat
           (nth 0 (menuitems example_root_menu)
              (mkItem 0%nat 0%nat None None false 0 0 None 0 false []))
           (nth 2 (menuitems example_root_menu)
              (mkItem 0%nat 0%nat None None false 0 0 None 0 false []))).
  - cbn. repeat constructor; cbn; intuition discriminate.
  - reflexivity.
  - reflexivity.
  - reflexivity.
Defined.

(** ** Closing and opening the menu tree *)

Lemma find_filter_addr (a x : addr) (l : list menu) :
  find (fun m => addr_eqb (menu_addr m) a)
    (filter (fun m => negb (addr_eqb (menu_addr m) x)) l)
  = if addr_eqb a x then None
    else find (fun m => addr_eqb (menu_addr m) a) l.
Proof.
  induction l as [|m l IH]; cbn [filter find];
    [destruct (addr_eqb a x); reflexivity|].
  destruct (addr_eqb (menu_addr m) x) eqn:Ex; cbn [negb].
  - rewrite IH. destruct (addr_eqb a x) eqn:Eax; [reflexivity|].
    destruct (addr_eqb (menu_addr m) a) eqn:Ea; [|reflexivity].
    apply Nat.eqb_eq in Ex, Ea. apply Nat.eqb_neq in Eax. congruence.
  - cbn [find]. destruct (addr_eqb (menu_addr m) a) eqn:Ea; [|exact IH].
    destruct (addr_eqb a x) eqn:Eax; [|reflexivity].
    apply Nat.eqb_eq in Eax, Ea. apply Nat.eqb_neq in Ex. congruence.
Qed.

Lemma find_menu_update s x (g : menu -> menu) a :
  (forall m, menu_addr (g m) = menu_addr m) ->
  find_menu (update_menu s x g) a
  = option_map (fun m => if addr_eqb (menu_addr m) x then g m else m)
      (find_menu s a).
Proof.
  intros Hg. unfold find_menu, update_menu. cbn [menus set_menus].
  apply (find_map_kept menu_addr (fun k => addr_eqb k a)).
  intros m. destruct (addr_eqb (menu_addr m) x); [apply Hg | reflexivity].
Qed.

Lemma find_menu_free s x a :
  find_menu (menu_free s x) a
  = if addr_eqb a x then None else option_map (nullify_in x) (find_menu s a).
Proof.
  unfold find_menu. rewrite menu_free_menus, find_filter_addr.
  destruct (addr_eqb a x); [reflexivity|].
  apply (find_map_kept menu_addr (fun k => addr_eqb k a)).
  apply nullify_in_addr.
Qed.

Section Traced.

Variable K : menu -> menu -> Prop.

Hypothesis K_refl : forall m, K m m.
Hypothesis K_trans : forall a b c, K a b -> K b c -> K a c.
Hypothesis K_hide : forall m, K (with_enabled m false) m.
Hypothesis K_unselect_item : forall m, K (with_selection_item m None) m.
Hypothesis K_unselect_menu : forall m, K (with_selection_menu m None) m.
Hypothesis K_nullify : forall x m, K (nullify_in x m) m.
Hypothesis K_place :
  forall m x y align, K (with_align (with_position m x y) align) m.

Lemma traced_refl s : traced K s s.
Proof. intros a m' H. exists m'. split; [exact H | apply K_refl]. Qed.

Lemma traced_trans s1 s2 s3 :
  traced K s1 s2 -> traced K s2 s3 -> traced K s1 s3.
Proof.
  intros H12 H23 a m3 H3. destruct (H23 _ _ H3) as (m2 & H2 & K32).
  destruct (H12 _ _ H2) as (m1 & H1 & K21).
  exists m1. split; [exact H1 | eapply K_trans; eassumption].
Qed.

Lemma traced_same s s' : menus s' = menus s -> traced K s s'.
Proof.
  intros Hm a m' H. exists m'. unfold find_menu in *. rewrite <- Hm.
  split; [exact H | apply K_refl].
Qed.

Lemma traced_update s x (g : menu -> menu) :
  (forall m, menu_addr (g m) = menu_addr m) -> (forall m, K (g m) m) ->
  traced K s (update_menu s x g).
Proof.
  intros Ha Hg a m' H. rewrite (find_menu_update s x g a Ha) in H.
  destruct (find_menu s a) as [m|]; [|discriminate H].
  injection H as <-. exists m. split; [reflexivity|].
  destruct (addr_eqb (menu_addr m) x); [apply Hg | apply K_refl].
Qed.

Lemma traced_menu_free s x : traced K s (menu_free s x).
Proof.
  intros a m' H. rewrite find_menu_free in H.
  destruct (addr_eqb a x); [discriminate H|].
  destruct (find_menu s a) as [m|]; [|discriminate H].
  injection H as <-. exists m. split; [reflexivity | apply K_nullify].
Qed.

Lemma traced_free_all (l : list addr) : forall s, traced K s (free_all l s).
Proof.
  induction l as [|x l IH]; intros s; [apply traced_refl|].
  rewrite free_all_cons.
  eapply traced_trans; [apply traced_menu_free | apply IH].
Qed.

Lemma traced_destroy_pipemenus s : traced K s (destroy_pipemenus s).
Proof. rewrite destroy_pipemenus_free_all. apply traced_free_all. Qed.

Lemma traced__close fuel :
  forall s a s', _close fuel s a = Some s' -> traced K s s'.
Proof.
  induction fuel as [|fuel IH]; intros s a s' H; simpl in H;
    [discriminate H|].
  destruct (find_menu s a); [cbn [bind] in H | discriminate H].
  set (s1 := menu_set_selection _ a None) in H.
  assert (H1 : traced K s s1).
  { unfold s1, menu_set_selection.
    eapply traced_trans; apply traced_update; try reflexivity;
      intros m0; [apply K_hide | apply K_unselect_item]. }
  destruct (find_menu s1 a) as [m1|]; [cbn [bind] in H | discriminate H].
  destruct (selection_menu m1) as [sub|].
  - destruct (_close fuel s1 sub) as [s2|] eqn:E2;
      [cbn [bind] in H | discriminate H].
    injection H as <-.
    eapply traced_trans; [exact H1|].
    eapply traced_trans; [exact (IH _ _ _ E2)|].
    apply traced_update; [reflexivity | apply K_unselect_menu].
  - injection H as <-. exact H1.
Qed.

Lemma traced_menu_close fuel s p s' :
  menu_close fuel s p = Some s' -> traced K s s'.
Proof.
  destruct p as [a|]; simpl; intros H.
  - eapply traced__close. exact H.
  - injection H as <-. apply traced_same. reflexivity.
Qed.

Lemma traced_close_all_submenus fuel :
  forall s a s', close_all_submenus fuel s a = Some s' -> traced K s s'.
Proof.
  induction fuel as [|fuel IH]; intros s a s' H; simpl in H;
    [discriminate H|].
  destruct (find_menu s a) as [m|]; [cbn [bind] in H | discriminate H].
  match type of H with
  | bind ?x _ = _ => destruct x as [s1|] eqn:E; [cbn [bind] in H
                                               | discriminate H]
  end.
  injection H as <-.
  eapply traced_trans;
    [|apply traced_update; [reflexivity | apply K_unselect_menu]].
  eapply (fold_bind_invariant _ _ (fun s0 => traced K s s0));
    cycle 2; [exact E| |apply traced_refl].
  intros item _ s0 s2 Hs0 H0. cbv beta in H0.
  destruct (item_submenu item) as [sub|]; [|injection H0 as <-; exact Hs0].
  destruct (find_menu s0 sub); [cbn [bind] in H0 | discriminate H0].
  eapply traced_trans; [exact Hs0|].
  eapply traced_trans; [|exact (IH _ _ _ H0)].
  apply traced_update; [reflexivity | apply K_hide].
Qed.

Lemma traced_menu_configure {P : Platform} fuel :
  forall s a lx ly align s',
    menu_configure fuel s a lx ly align = Some s' -> traced K s s'.
Proof.
  induction fuel as [|fuel IH]; intros s a lx ly align s' H; simpl in H;
    [discriminate H|].
  destruct (find_menu s a) as [m|]; [cbn [bind] in H | discriminate H].
  destruct (wlr_output_layout_output_at lx ly) as [out|];
    [|injection H as <-; apply traced_same; reflexivity].
  match type of H with
  | bind ?x _ = _ => destruct x as [fw|]; [cbn [bind] in H | discriminate H]
  end.
  eapply (fold_bind_invariant _ _ (fun s0 => traced K s s0));
    cycle 2; [exact H| |apply traced_update; [reflexivity|]].
  - intros item _ s0 s1 Hs0 H0. cbv beta in H0.
    destruct (item_submenu item) as [sub|]; [|injection H0 as <-; exact Hs0].
    destruct (get_submenu_position s0 item _) as [[x y]|];
      [cbn [bind] in H0 | discriminate H0].
    eapply traced_trans; [exact Hs0 | exact (IH _ _ _ _ _ _ H0)].
  - intros m0. apply K_place.
Qed.

End Traced.

Lemma stays_closed_refl (m : menu) : stays_closed m m.
Proof. repeat split; auto. Qed.

Lemma stays_closed_trans (a b c : menu) :
  stays_closed a b -> stays_closed b c -> stays_closed a c.
Proof. intros (H1 & H2 & H3) (H4 & H5 & H6). repeat split; auto. Qed.

Lemma stays_closed_nullify (x : addr) (m : menu) :
  stays_closed (nullify_in x m) m.
Proof.
  unfold stays_closed, nullify_in.
  destruct (ptr_eqb (menu_parent _) x); repeat split; auto.
Qed.

Lemma same_place_nullify (x : addr) (m : menu) :
  same_place (nullify_in x m) m.
Proof.
  unfold same_place, nullify_in.
  destruct (ptr_eqb (menu_parent _) x); repeat split.
Qed.

Lemma same_place_trans (a b c : menu) :
  same_place a b -> same_place b c -> same_place a c.
Proof. intros [H1 H2] [H3 H4]. split; congruence. Qed.

(** Once [_close] has returned, the menu it was called on is hidden
    and has neither a selected item nor an open submenu. *)
Lemma _close_closed fuel s a s' m' :
  _close fuel s a = Some s' -> find_menu s' a = Some m' -> closed m'.
Proof.
  destruct fuel as [|fuel]; [discriminate|]. simpl. intros H Hm'.
  destruct (find_menu s a) as [m|] eqn:Em; [cbn [bind] in H | discriminate H].
  set (s1 := menu_set_selection _ a None) in H.
  assert (H1 : find_menu s1 a
               = Some (with_selection_item (with_enabled m false) None)).
  { unfold s1, menu_set_selection.
    rewrite !find_menu_update by reflexivity. rewrite Em. cbn [option_map].
    pose proof (find_some _ _ Em) as [_ Ea]. cbv beta in Ea.
    rewrite Ea. cbn [menu_addr with_enabled]. rewrite Ea. reflexivity. }
  rewrite H1 in H. cbn [bind selection_menu with_selection_item with_enabled]
    in H.
  destruct (selection_menu m) as [sub|] eqn:Esub.
  - destruct (_close fuel s1 sub) as [s2|] eqn:E2;
      [cbn [bind] in H | discriminate H].
    injection H as <-.
    rewrite find_menu_update in Hm' by reflexivity.
    destruct (find_menu s2 a) as [m2|] eqn:Em2; [|discriminate Hm'].
    apply find_some in Em2 as Hin. destruct Hin as [_ Ea2].
    cbn [option_map] in Hm'. rewrite Ea2 in Hm'. injection Hm' as <-.
    destruct (@traced__close stays_closed stays_closed_refl
                stays_closed_trans
                ltac:(intros; repeat split; auto)
                ltac:(intros; repeat split; auto)
                ltac:(intros; repeat split; auto)
                fuel s1 sub s2 E2 a m2 Em2) as (m1 & Hm1 & Hk1 & Hk2 & _).
    rewrite H1 in Hm1. injection Hm1 as <-.
    repeat split; [apply Hk1 | apply Hk2]; reflexivity.
  - injection H as <-. rewrite H1 in Hm'. injection Hm' as <-.
    repeat split. exact Esub.
Qed.

Lemma destroy_pipemenus_none_left s m :
  In m (menus (destroy_pipemenus s)) -> is_pipemenu m = false.
Proof.
  intros Hin. rewrite destroy_pipemenus_free_all in Hin.
  destruct (free_all_outline
              (map menu_addr (filter is_pipemenu (menus s))) s) as [_ Hp].
  apply (in_map is_pipemenu) in Hin. rewrite Hp in Hin.
  apply in_map_iff in Hin. destruct Hin as (m0 & E0 & Hin0).
  apply filter_In in Hin0. destruct Hin0 as [Hin0 Hn].
  rewrite <- E0. destruct (is_pipemenu m0) eqn:Ep; [|reflexivity].
  assert (Hex : existsb (addr_eqb (menu_addr m0))
                  (map menu_addr (filter is_pipemenu (menus s))) = true).
  { apply existsb_addr_in. apply in_map. apply filter_In. auto. }
  rewrite Hex in Hn. discriminate Hn.
Qed.

Lemma destroy_pipemenus_only_menus s :
  destroy_pipemenus s = set_menus s (menus (destroy_pipemenus s)).
Proof. rewrite destroy_pipemenus_free_all. apply free_all_only_menus. Qed.

(** X22.  [menu_close_root] asserts the menu input mode.  Once it has
    returned, input passes through and no menu is current; if a menu was
    current, it is hidden with its selection cleared, and no pipe menu
    is left in the registry. *)
Theorem menu_close_root_closes fuel s s' :
  menu_close_root fuel s = Some s' ->
  input_mode s = LAB_INPUT_STATE_MENU /\
  input_mode s' = LAB_INPUT_STATE_PASSTHROUGH /\
  menu_current s' = None /\
  match menu_current s with
  | None => menus s' = menus s
  | Some root =>
    (forall m, In m (menus s') -> is_pipemenu m = false) /\
    forall m', find_menu s' root = Some m' -> closed m'
  end.
Proof.
  unfold menu_close_root. intros H.
  destruct (input_mode s); [discriminate H|]. split; [reflexivity|].
  destruct (menu_current s) as [root|] eqn:Ec.
  - cbn [menu_close] in H.
    destruct (_close fuel s root) as [s1|] eqn:E1;
      [cbn [bind] in H | discriminate H].
    injection H as <-.
    rewrite destroy_pipemenus_only_menus.
    split; [reflexivity|]. split; [reflexivity|].
    cbn [menus set_input_mode set_menus]. split.
    + apply destroy_pipemenus_none_left.
    + intros m' Hm'.
      assert (Hm1 : find_menu (destroy_pipemenus (set_menu_current s1 None))
                      root = Some m') by exact Hm'.
      destruct (@traced_destroy_pipemenus stays_closed stays_closed_refl
                  stays_closed_trans stays_closed_nullify
                  (set_menu_current s1 None) root m' Hm1)
        as (m1 & Hf1 & Hk1 & Hk2 & Hk3).
      destruct (@_close_closed fuel s root s1 m1 E1 Hf1) as (C1 & C2 & C3).
      split; [apply Hk1, C1 | split; [apply Hk2, C2 | apply Hk3, C3]].
  - cbn [bind] in H. injection H as <-.
    split; [reflexivity|]. split; [exact Ec | reflexivity].
Qed.

(** X23.  A click on an item that is not selectable, as a separator is,
    or on an item that opens a submenu is refused and changes nothing.
    Any other click closes the menu tree: once [menu_execute_item] has
    returned no menu is current and no pipe menu is left in the
    registry. *)
Theorem menu_execute_item_closes fuel s item it s' accepted :
  find_item s item = Some it ->
  menu_execute_item fuel s item = Some (s', accepted) ->
  accepted = negb (is_some (item_submenu it) || negb (item_selectable it)) /\
  if accepted then
    menu_current s' = None /\
    forall m, In m (menus s') -> is_pipemenu m = false
  else s' = s.
Proof.
  unfold menu_execute_item. intros Hit H. rewrite Hit in H. cbn [bind] in H.
  destruct (is_some (item_submenu it) || negb (item_selectable it)).
  - injection H as <- <-. split; reflexivity.
  - destruct (find_menu s (item_parent it)); [cbn [bind] in H|discriminate H].
    destruct (menu_close fuel s (menu_current s)) as [s1|];
      [cbn [bind] in H | discriminate H].
    injection H as <- <-. split; [reflexivity|]. cbn [negb].
    rewrite destroy_pipemenus_only_menus. split; [reflexivity|].
    cbn [menus set_menus]. apply destroy_pipemenus_none_left.
Qed.

Section Opening.

Context {P : Platform}.

(** X24.  Once [menu_open_root] has returned, the menu is the current
    menu and is shown with no item selected, the input mode is the menu
    mode and the pointer is on no item.  At a point that lies on no
    output the failure is logged and the menu is shown all the same,
    where it was placed before. *)
Theorem menu_open_root_opens fuel s a x y s' :
  menu_open_root fuel s a x y = Some s' ->
  menu_current s' = Some a /\
  input_mode s' = LAB_INPUT_STATE_MENU /\
  selected_item s' = None /\
  exists m',
    find_menu s' a = Some m' /\ node_enabled m' = true /\
    selection_item m' = None /\
    (wlr_output_layout_output_at x y = None ->
     In DiagNoScreenSpace (log s') /\
     exists m, find_menu s a = Some m /\ same_place m' m).
Proof.
  unfold menu_open_root. intros H.
  match type of H with
  | bind ?x _ = _ => destruct x as [s1|] eqn:E1; [cbn [bind] in H
                                                | discriminate H]
  end.
  destruct (close_all_submenus fuel s1 a) as [s2|] eqn:E2;
    [cbn [bind] in H | discriminate H].
  destruct (menu_configure fuel (menu_set_selection s2 a None) a x y
              LAB_MENU_OPEN_AUTO) as [s3|] eqn:E3;
    [cbn [bind] in H | discriminate H].
  destruct (find_menu s3 a) as [m3|] eqn:Em3;
    [cbn [bind] in H | discriminate H].
  injection H as <-.
  split; [reflexivity|]. split; [reflexivity|]. split; [reflexivity|].
  assert (Hfind :
    find_menu
      (set_selected_item
         (set_input_mode
            (set_menu_current
               (update_menu s3 a (fun m => with_enabled m true)) (Some a))
            LAB_INPUT_STATE_MENU) None) a
    = Some (with_enabled m3 true)).
  { change (find_menu (update_menu s3 a (fun m => with_enabled m true)) a
            = Some (with_enabled m3 true)).
    rewrite find_menu_update by reflexivity. rewrite Em3. cbn [option_map].
    apply find_some in Em3. destruct Em3 as [_ Ea]. rewrite Ea.
    reflexivity. }
  exists (with_enabled m3 true). split; [exact Hfind|].
  split; [reflexivity|].
  split.
  { destruct (@traced_menu_configure stays_closed stays_closed_refl
                stays_closed_trans
                ltac:(intros; repeat split; auto) P fuel
                (menu_set_selection s2 a None) a x y LAB_MENU_OPEN_AUTO s3
                E3 a m3 Em3) as (mset & Hset & _ & Hk & _).
    unfold menu_set_selection in Hset.
    rewrite find_menu_update in Hset by reflexivity.
    destruct (find_menu s2 a) as [m2|] eqn:Em2; [|discriminate Hset].
    cbn [option_map] in Hset.
    pose proof (find_some _ _ Em2) as [_ Ea]. cbv beta in Ea.
    rewrite Ea in Hset. injection Hset as <-.
    cbn [selection_item with_enabled]. apply Hk. reflexivity. }
  intros Hout.
  assert (H3 : s3 = wlr_log (menu_set_selection s2 a None) DiagNoScreenSpace).
  { destruct fuel as [|fuel']; [discriminate E3|]. simpl in E3.
    destruct (find_menu (menu_set_selection s2 a None) a);
      [cbn [bind] in E3 | discriminate E3].
    rewrite Hout in E3. injection E3 as <-. reflexivity. }
  split.
  { cbn [log set_selected_item set_input_mode set_menu_current update_menu
           set_menus]. rewrite H3. cbn [log wlr_log].
    apply in_or_app. right. left. reflexivity. }
  assert (Hsel : exists m2,
             find_menu s2 a = Some m2 /\
             m3 = with_selection_item m2 None).
  { rewrite H3 in Em3.
    change (find_menu (menu_set_selection s2 a None) a = Some m3) in Em3.
    unfold menu_set_selection in Em3.
    rewrite find_menu_update in Em3 by reflexivity.
    destruct (find_menu s2 a) as [m2|] eqn:Em2; [|discriminate Em3].
    exists m2. split; [reflexivity|]. cbn [option_map] in Em3.
    apply find_some in Em2. destruct Em2 as [_ Ea]. rewrite Ea in Em3.
    injection Em3 as <-. reflexivity. }
  destruct Hsel as (m2 & Hm2 & ->).
  assert (T2 : traced same_place s1 s2).
  { apply (@traced_close_all_submenus same_place) with (fuel := fuel)
                                                        (a := a);
      try exact E2; try (intros; split; reflexivity).
    apply same_place_trans. }
  assert (T1 : traced same_place s s1).
  { destruct (menu_current s) as [cur|].
    - destruct (menu_close fuel s (Some cur)) as [s0|] eqn:E0;
        [cbn [bind] in E1 | discriminate E1].
      injection E1 as <-.
      eapply (@traced_trans same_place same_place_trans).
      + apply (@traced_menu_close same_place) with (fuel := fuel)
                                                   (p := Some cur);
          try exact E0; try (intros; split; reflexivity).
        apply same_place_trans.
      + apply (@traced_destroy_pipemenus same_place);
          try (intros; split; reflexivity);
          [apply same_place_trans | apply same_place_nullify].
    - injection E1 as <-. apply traced_refl. intros; split; reflexivity. }
  destruct (T2 _ _ Hm2) as (m1 & Hm1 & K21).
  destruct (T1 _ _ Hm1) as (m0 & Hm0 & K10).
  exists m0. split; [exact Hm0|].
  eapply same_place_trans; [|exact K10].
  eapply same_place_trans; [|exact K21]. split; reflexivity.
Qed.

End Opening.

(** ** Reading the configuration files *)

Section Files.

Context {P : Platform} {E : Environment}.

Lemma parse_paths_readable (paths : list string) :
  forall s,
    parse_paths true s paths = parse_paths true s (readable_prefix paths).
Proof.
  induction paths as [|path rest IH]; intros s; [reflexivity|].
  cbn [parse_paths readable_prefix].
  destruct (fopen path) as [stream|] eqn:Ef; cbn [is_some]; [|reflexivity].
  cbn [parse_paths]. rewrite Ef.
  destruct (parse_stream s stream); cbn [bind]; [apply IH | reflexivity].
Qed.

(** X25.  [parse_xml] reads the highest path alone unless the
    configuration asks for merging, and then reads all paths from the
    lowest to the highest, each on top of what the ones before it
    defined.  In both cases it stops for good at the first path that
    cannot be opened: the paths after it are not tried. *)
Theorem parse_xml_stops_at_unreadable (s : state) (filename : string) :
  parse_xml s filename
  = parse_paths true s
      (readable_prefix
         (if rc_merge_config then rev (paths_config_create filename)
          else firstn 1 (paths_config_create filename))).
Proof.
  unfold parse_xml. cbv zeta. destruct rc_merge_config.
  - apply parse_paths_readable.
  - destruct (paths_config_create filename) as [|path rest]; [reflexivity|].
    cbn [firstn parse_paths readable_prefix].
    destruct (fopen path) as [stream|] eqn:Ef; cbn [is_some parse_paths];
      [|reflexivity].
    rewrite Ef. destruct (parse_stream s stream); reflexivity.
Qed.

(** ** The default window menu without font buffers *)

Lemma item_create_fails s menu text show_arrow s' r :
  (forall a, scaled_font_buffer_create a = false) ->
  item_create s menu text show_arrow = Some (s', r) -> r = None.
Proof.
  intros Hfail. unfold item_create. intros H.
  destruct menu as [ma|]; [cbn [bind] in H | discriminate H].
  destruct (find_menu s ma); [cbn [bind] in H | discriminate H].
  unfold znew in H. cbv beta iota zeta in H. rewrite Hfail in H.
  injection H as _ <-. reflexivity.
Qed.

(** X26.  Where no font buffer can be created, building the default
    window menu has no defined outcome: the item that is to open the
    workspace submenu is null and is written through all the same.
    ([init_rootmenu] and the inline definitions of [handle_menu_element]
    test the item first.) *)
Theorem init_windowmenu_needs_font_buffers (s : state) :
  (forall a, scaled_font_buffer_create a = false) ->
  menus_below s ->
  (forall m,
      menu_get_by_id s (Some "client-menu"%string) = Some m ->
      menuitems m = []) ->
  init_windowmenu s = None.
Proof.
  intros Hfail Hb Hempty. unfold init_windowmenu.
  destruct (default_menu_returns s "client-menu")
    as (s1 & m & Hd & _ & _ & _ & Hcase).
  rewrite Hd. cbn [bind].
  assert (Hitems : menuitems m = []).
  { destruct (menu_get_by_id s (Some "client-menu"%string)) as [found|].
    - destruct Hcase as [_ ->]. apply Hempty. reflexivity.
    - apply Hcase, Hb. }
  rewrite Hitems. cbn [is_nil].
  match goal with
  | |- bind ?x _ = None => assert (Hx : x = None); [|rewrite Hx; reflexivity]
  end.
  repeat
    first
      [ reflexivity
      | match goal with
        | |- bind (item_create ?s0 ?menu ?text ?arrow) _ = None =>
          let Ec := fresh "Ec" in
          destruct (item_create s0 menu text arrow) as [[? ?]|] eqn:Ec;
            [apply (item_create_fails _ _ _ _ Hfail) in Ec; subst;
             cbn [bind]
            | reflexivity]
        | |- bind ?x _ = None =>
          destruct x as [?|]; [cbn [bind] | reflexivity]
        | |- (let '(_, _) := ?x in _) = None => destruct x as [? ?]
        end ].
Qed.

End Files.

Lemma init_windowmenu_needs_font_buffers_witness :
  init_windowmenu (P := fontless_platform) (E := example_environment)
    initial_state = None.
Proof.
  apply (@init_windowmenu_needs_font_buffers fontless_platform
           example_environment initial_state).
  - reflexivity.
  - intros m [].
  - intros m H. discriminate H.
Defined.

Lemma menu_close_root_closes_witness :
  exists s',
    menu_close_root 3 example_piped = Some s' /\
    input_mode s' = LAB_INPUT_STATE_PASSTHROUGH /\
    menu_current s' = None /\
    (forall m, In m (menus s') -> is_pipemenu m = false) /\
    forall m', find_menu s' 1%nat = Some m' -> closed m'.
Proof.
  destruct (menu_close_root 3 example_piped) as [s'|] eqn:Es;
    [|vm_compute in Es; discriminate Es].
  exists s'. split; [reflexivity|].
  destruct (@menu_close_root_closes 3 example_piped s' Es)
    as (_ & Hi & Hc & Hp & Hroot).
  split; [exact Hi|]. split; [exact Hc|]. split; [exact Hp | exact Hroot].
Defined.

Lemma menu_execute_item_closes_witness :
  exists s',
    menu_execute_item 3 example_piped 4%nat = Some (s', true) /\
    menu_current s' = None /\
    forall m, In m (menus s') -> is_pipemenu m = false.
Proof.
  destruct (menu_execute_item 3 example_piped 4%nat) as [[s' b]|] eqn:Es;
    [|vm_compute in Es; discriminate Es].
  destruct (find_item example_piped 4%nat) as [it|] eqn:Ei;
    [|vm_compute in Ei; discriminate Ei].
  destruct (@menu_execute_item_closes 3 example_piped 4%nat it s' b Ei Es)
    as [Hb Hs].
  vm_compute in Ei. injection Ei as <-. cbn in Hb. subst b.
  exists s'. split; [reflexivity | exact Hs].
Defined.

Lemma menu_open_root_opens_witness :
  exists s' m',
    menu_open_root (P := example_platform) 3 example_menu_state 1%nat
      5000 5000 = Some s' /\
    menu_current s' = Some 1%nat /\
    find_menu s' 1%nat = Some m' /\ node_enabled m' = true /\
    In DiagNoScreenSpace (log s') /\
    same_place m' example_root_menu.
Proof.
  destruct (menu_open_root (P := example_platform) 3 example_menu_state
              1%nat 5000 5000) as [s'|] eqn:Es;
    [|vm_compute in Es; discriminate Es].
  destruct (@menu_open_root_opens example_platform 3 example_menu_state
              1%nat 5000 5000 s' Es)
    as (Hc & _ & _ & m' & Hm' & He & _ & Hoff).
  destruct (Hoff eq_refl) as (Hlog & m & Hm & Hplace).
  vm_compute in Hm. injection Hm as <-.
  exists s', m'. split; [reflexivity|]. split; [exact Hc|].
  split; [exact Hm'|]. split; [exact He|]. split; [exact Hlog|exact Hplace].
Defined.

(** ** The menu a pipe request builds *)

Lemma carried_refl (s : state) : carried s s.
Proof. intros a m H. exists m. split; [exact H | apply menu_kept_refl]. Qed.

Lemma carried_trans (s1 s2 s3 : state) :
  carried s1 s2 -> carried s2 s3 -> carried s1 s3.
Proof.
  intros H12 H23 a m H. destruct (H12 _ _ H) as (m2 & H2 & K2).
  destruct (H23 _ _ H2) as (m3 & H3 & K3).
  exists m3. split; [exact H3 | exact (@menu_kept_trans _ _ _ K3 K2)].
Qed.

Lemma carried_grows (s s' : state) : grows s s' -> carried s s'.
Proof. intros G a m H. exact (@grows_find_menu _ _ _ _ G H). Qed.

Lemma find_map_key {A B : Type} (key : A -> B) (test : B -> bool)
    (f : A -> A) (l : list A) :
  (forall x, key (f x) = key x) ->
  find (fun x => test (key x)) (map f l)
  = option_map f (find (fun x => test (key x)) l).
Proof.
  intros Hk. induction l as [|x l IH]; cbn; [reflexivity|].
  rewrite Hk. destruct (test (key x)); [reflexivity | exact IH].
Qed.

Lemma find_item_map_items (g : menuitem -> menuitem) (s : state) (a : addr) :
  (forall i, item_addr (g i) = item_addr i) ->
  find_item (map_items g s) a = option_map g (find_item s a).
Proof.
  intros Hg. unfold find_item. rewrite all_items_map_items.
  apply (find_map_key item_addr (fun x => addr_eqb x a) g _ Hg).
Qed.

Lemma find_item_same (s s' : state) (a : addr) :
  all_items s' = all_items s -> find_item s' a = find_item s a.
Proof. intros H. unfold find_item. rewrite H. reflexivity. Qed.

Lemma outline_nullify_in (a : addr) (m : menu) :
  outline (nullify_in a m) = outline m.
Proof.
  unfold outline, nullify_in.
  destruct (ptr_eqb (menu_parent _) a); cbn; rewrite map_map;
    f_equal; apply map_ext; intros i;
    destruct (ptr_eqb (item_submenu i) a); reflexivity.
Qed.

Lemma filter_below (a : addr) (l : list menu) :
  (forall m, In m l -> (menu_addr m < a)%nat) ->
  filter (fun m => negb (addr_eqb (menu_addr m) a)) l = l.
Proof.
  induction l as [|m l IH]; intros H; cbn; [reflexivity|].
  assert (E : addr_eqb (menu_addr m) a = false).
  { apply Nat.eqb_neq. pose proof (H m (or_introl eq_refl)). lia. }
  rewrite E. cbn. rewrite IH; [reflexivity|].
  intros m0 Hin. apply H. right. exact Hin.
Qed.

Section PipeMenu.

Context {P : Platform}.

Lemma menu_configure_statics fuel :
  forall s a lx ly align s',
    menu_configure fuel s a lx ly align = Some s' ->
    menu_level s' = menu_level s /\ current_menu s' = current_menu s.
Proof.
  induction fuel as [|fuel IH]; intros s a lx ly align s' H; simpl in H;
    [discriminate H|].
  destruct (find_menu s a) as [m|]; [cbn [bind] in H | discriminate H].
  destruct (wlr_output_layout_output_at lx ly) as [out|];
    [|injection H as <-; split; reflexivity].
  match type of H with
  | bind ?x _ = _ => destruct x as [fw|]; [cbn [bind] in H | discriminate H]
  end.
  eapply (fold_bind_invariant _ _
            (fun s0 => menu_level s0 = menu_level s /\
                       current_menu s0 = current_menu s));
    cycle 2; [exact H| |split; reflexivity].
  intros item _ s0 s1 Hs0 H0. cbv beta in H0.
  destruct (item_submenu item) as [sub|]; [|injection H0 as <-; exact Hs0].
  destruct (get_submenu_position s0 item _) as [[x y]|];
    [cbn [bind] in H0 | discriminate H0].
  destruct (IH _ _ _ _ _ _ H0) as [L C]. destruct Hs0 as [L0 C0].
  split; congruence.
Qed.

Lemma carried_menu_configure fuel s a lx ly align s' :
  menu_configure fuel s a lx ly align = Some s' -> carried s s'.
Proof.
  intros H x m Hm.
  destruct (same_shape_find _ (menu_configure_shape _ _ _ _ _ _ H) Hm)
    as (m' & Hm' & _).
  exists m'. split; [exact Hm'|].
  assert (Hplace : forall m0 x0 y0 al,
             menu_kept (with_align (with_position m0 x0 y0) al) m0).
  { intros. repeat split. }
  destruct (@traced_menu_configure menu_kept menu_kept_refl
              (fun a b c H1 H2 => @menu_kept_trans a b c H1 H2) Hplace
              _ _ _ _ _ _ _ _ H x _ Hm') as (m0 & Hm0 & K).
  rewrite Hm in Hm0. injection Hm0 as <-. exact K.
Qed.

End PipeMenu.

Section PipeMenuOutcome.

Context {P : Platform}.

Lemma menu_create_appends s id label :
  exists new,
    menus (fst (menu_create s id label)) = menus s ++ [new] /\
    menu_addr new = next_addr s /\ menu_id new = id /\
    menu_parent new = current_menu s /\ menuitems new = [].
Proof.
  unfold menu_create. destruct (is_unique_id s id); eexists; cbn;
    repeat split.
Qed.

Lemma find_menu_fresh s a :
  menus_below s -> (next_addr s <= a)%nat -> find_menu s a = None.
Proof.
  intros Hb Ha. destruct (find_menu s a) as [m|] eqn:E; [|reflexivity].
  apply find_menu_in in E. destruct E as [Hin <-].
  pose proof (Hb m Hin). lia.
Qed.

Lemma items_post_processing s : all_items (post_processing s) = all_items s.
Proof.
  unfold all_items, post_processing. cbn [menus set_menus].
  induction (menus s) as [|m l IH]; cbn; [reflexivity|].
  rewrite IH. reflexivity.
Qed.

Lemma level_fold (l : list diag) :
  forall s,
    menu_level (fold_left wlr_log l s) = menu_level s /\
    current_menu (fold_left wlr_log l s) = current_menu s.
Proof.
  induction l as [|d l IH]; intros s; cbn; [split; reflexivity|].
  destruct (IH (wlr_log s d)) as [L C]. rewrite L, C. split; reflexivity.
Qed.

Lemma items_validate s :
  all_items (validate s)
  = map (fun item =>
           with_actions item (filter action_is_valid (item_actions item)))
      (all_items s).
Proof.
  unfold all_items, validate. rewrite menus_fold. cbn [menus set_menus].
  induction (menus s) as [|m l IH]; cbn; [reflexivity|].
  rewrite IH, map_app. reflexivity.
Qed.

(** X27.  What [create_pipe_menu] does for a request whose item and
    parent menu are live, in a state whose menu addresses were all
    handed out by the allocator.  If the parent menu is no longer shown,
    a diagnostic is logged and nothing else happens.  If the output is
    not an XML document, the registry holds the menus it held, the item
    has no submenu and a diagnostic is logged.  Otherwise a pipe menu is
    registered at a new address under the item's id, with the item's
    menu as parent; it is shown, it is the submenu of the item and the
    open submenu of its parent.  In the last two cases the nesting level
    is what it was and the parser's current menu is the item's menu. *)
Theorem create_pipe_menu_outcome fuel s ctx item parent s' :
  menus_below s ->
  find_item s (ctx_item ctx) = Some item ->
  find_menu s (item_parent item) = Some parent ->
  create_pipe_menu fuel s ctx = Some s' ->
  if node_enabled parent then
    menu_level s' = menu_level s /\
    current_menu s' = Some (item_parent item) /\
    match xmlParseMemory (ctx_buf ctx) with
    | Some _ =>
      exists pm p' it',
        find_menu s' (next_addr s) = Some pm /\
        Some (menu_id pm) = item_id item /\ is_pipemenu pm = true /\
        menu_parent pm = Some (item_parent item) /\
        node_enabled pm = true /\
        find_menu s' (item_parent item) = Some p' /\
        selection_menu p' = Some (next_addr s) /\
        find_item s' (ctx_item ctx) = Some it' /\
        item_submenu it' = Some (next_addr s)
    | None =>
      map outline (menus s') = map outline (menus s) /\
      In DiagXmlParse (log s') /\
      forall i,
        In i (all_items s') -> item_addr i = ctx_item ctx ->
        item_submenu i = None
    end
  else s' = wlr_log s DiagPipeParentClosed.
Proof.
  intros Hb Hitem Hparent H. unfold create_pipe_menu in H.
  rewrite Hitem in H. cbn [bind] in H. rewrite Hparent in H. cbn [bind] in H.
  destruct (node_enabled parent) eqn:En; cbn [negb] in H;
    [|injection H as <-; reflexivity].
  destruct (item_id item) as [id|] eqn:Eid; [cbn [bind] in H | discriminate H].
  pose proof (menu_create_appends s id None) as (new & Hsc & Na & Ni & Np & Nt).
  pose proof (menu_create_statics s id None) as (Lc & Cc & Nc & Ea).
  pose proof (grows_menu_create s id None) as Gc.
  destruct (menu_create s id None) as [sc pm] eqn:Ec.
  cbn [fst snd] in *. subst pm.
  set (pa := item_parent item) in *.
  assert (Hpa : (pa < next_addr s)%nat).
  { apply find_menu_in in Hparent. destruct Hparent as [Hin <-].
    exact (Hb _ Hin). }
  match type of H with
  | context [parse_buf ?x _] => set (s1 := x) in *
  end.
  assert (F1 : menus s1
               = menus s
                 ++ [with_parent
                       (with_triggered_by_view (with_is_pipemenu new true)
                          (triggered_by_view parent)) (Some pa)]).
  { subst s1. cbn [menus set_current_menu set_menu_level update_menu set_menus].
    rewrite Hsc, map_app. f_equal.
    - rewrite <- (map_id (menus s)) at 2. apply map_ext_in. intros m Hin.
      assert (E : addr_eqb (menu_addr m) (next_addr s) = false).
      { apply Nat.eqb_neq. pose proof (Hb m Hin). lia. }
      rewrite E. reflexivity.
    - cbn. rewrite Na. unfold addr_eqb. rewrite Nat.eqb_refl. reflexivity. }
  assert (L1 : menu_level s1 = menu_level s + 1).
  { subst s1. cbn. rewrite Lc. reflexivity. }
  assert (C1 : current_menu s1 = Some (next_addr s)) by reflexivity.
  assert (N1 : next_addr s1 = S (next_addr s)).
  { subst s1. cbn. exact Nc. }
  clearbody s1. clear Hsc Lc Cc Nc Gc Ec sc.
  set (new1 := with_parent _ _) in F1.
  assert (A1 : menu_addr new1 = next_addr s) by exact Na.
  assert (I1 : menu_id new1 = id) by exact Ni.
  assert (P1 : menu_parent new1 = Some pa) by reflexivity.
  assert (Q1 : is_pipemenu new1 = true) by reflexivity.
  assert (T1 : menuitems new1 = []) by exact Nt.
  clearbody new1. clear Na Ni Np Nt new.
  assert (Hf1 : find_menu s1 (next_addr s) = Some new1).
  { unfold find_menu. rewrite F1, find_app.
    change (find _ (menus s)) with (find_menu s (next_addr s)).
    rewrite (find_menu_fresh Hb (le_n _)). cbn. rewrite A1.
    unfold addr_eqb. rewrite Nat.eqb_refl. reflexivity. }
  assert (Hc1 : carried s s1).
  { intros a m Hm. exists m. split; [|apply menu_kept_refl].
    unfold find_menu. rewrite F1, find_app. unfold find_menu in Hm.
    rewrite Hm. reflexivity. }
  assert (Hi1 : all_items s1 = all_items s).
  { unfold all_items. rewrite F1, flat_map_app. cbn.
    rewrite T1, !app_nil_r. reflexivity. }
  assert (Hb1 : menus_below s1).
  { intros m Hin. rewrite F1 in Hin. rewrite N1. apply in_app_or in Hin.
    destruct Hin as [Hin|[<-|[]]];
      [pose proof (Hb m Hin); lia | rewrite A1; lia]. }
  destruct (parse_buf s1 (ctx_buf ctx)) as [[s2 ok]|] eqn:Ep;
    [cbn [bind] in H | discriminate H].
  destruct (balanced_parse_buf _ _ Ep) as [G2 B2].
  destruct (B2 Hb1) as [L2 C2].
  unfold parse_buf in Ep.
  destruct (xmlParseMemory (ctx_buf ctx)) as [root|].
  - destruct (xml_tree_walk [] [root] s1) as [sw|];
      [cbn [bind] in Ep | discriminate Ep].
    injection Ep as -> <-. cbv iota in H.
    destruct (find_item s2 (ctx_item ctx)) as [i2|] eqn:Ei2;
      [cbn [bind] in H | discriminate H].
    match type of H with
    | context [post_processing ?x] => set (s3 := x) in *
    end.
    set (s4 := post_processing s3) in *.
    destruct (find_item s4 (ctx_item ctx)) as [item0|] eqn:Ei4;
      [cbn [bind] in H | discriminate H].
    destruct (find_menu s4 (item_parent item0)) as [parent0|] eqn:Ep0;
      [cbn [bind] in H | discriminate H].
    destruct (find_menu s4 pa) as [pp|] eqn:Epp;
      [cbn [bind] in H | discriminate H].
    match type of H with
    | context [menu_configure fuel s4 ?a ?x ?y ?al] =>
      destruct (menu_configure fuel s4 a x y al) as [s5|] eqn:Ecf;
        [cbn [bind] in H | discriminate H]
    end.
    destruct (find_menu (validate s5) (next_addr s)) as [m6|] eqn:Em6;
      [cbn [bind] in H | discriminate H].
    injection H as <-.
    assert (Hc6 : carried s1 (validate s5)).
    { eapply carried_trans; [apply carried_grows; exact G2|].
      eapply carried_trans;
        [apply carried_grows; apply (steady_update_item s2)|].
      eapply carried_trans;
        [apply carried_grows; apply (grows_post_processing s3)|].
      eapply carried_trans; [exact (carried_menu_configure _ _ _ _ _ _ Ecf)|].
      apply carried_grows. apply grows_validate. }
    destruct (Hc6 _ _ Hf1) as (m6' & Hm6' & K6).
    rewrite Em6 in Hm6'. injection Hm6' as <-.
    destruct K6 as (Ka & Ki & Kp & Kq).
    destruct (carried_trans Hc1 Hc6 pa Hparent) as (p6 & Hp6 & Kp6).
    destruct Kp6 as (Kpa & _).
    assert (Hne : addr_eqb (next_addr s) pa = false).
    { apply Nat.eqb_neq. lia. }
    assert (Hne' : addr_eqb pa (next_addr s) = false).
    { apply Nat.eqb_neq. lia. }
    destruct (level_fold
                (repeat DiagInvalidAction
                   (fold_right (fun m acc => (invalid_actions m + acc)%nat)
                      0%nat (menus s5)))
                (set_menus s5 (map validate_menu (menus s5)))) as [L6 _].
    change (fold_left wlr_log _ _) with (validate s5) in L6.
    cbn [menus set_menus menu_level] in L6.
    destruct (menu_configure_statics _ _ _ _ _ _ Ecf) as [L5 _].
    split.
    { cbn [menu_level set_menu_level]. rewrite L6, L5. subst s4 s3.
      cbn [menu_level post_processing update_item set_menus].
      rewrite L2, L1. lia. }
    split; [reflexivity|].
    exists (with_enabled m6 true), (with_selection_menu p6 (Some (next_addr s))),
      (with_actions (with_submenu i2 (Some (next_addr s)))
         (filter action_is_valid (item_actions i2))).
    match goal with
    | |- context [set_current_menu ?x _] => set (s7 := x)
    end.
    assert (Hpm : find_menu s7 (next_addr s) = Some (with_enabled m6 true)).
    { subst s7. rewrite !find_menu_update by reflexivity. rewrite Em6.
      cbn [option_map]. unfold addr_eqb in *. rewrite Ka, A1.
      rewrite Nat.eqb_refl. cbn [menu_addr with_enabled]. rewrite Ka, A1, Hne.
      reflexivity. }
    assert (Hp7 : find_menu s7 pa
                  = Some (with_selection_menu p6 (Some (next_addr s)))).
    { subst s7. rewrite !find_menu_update by reflexivity. rewrite Hp6.
      cbn [option_map]. apply find_menu_in in Hparent.
      destruct Hparent as [_ Eparent]. unfold addr_eqb in *.
      rewrite Kpa, Eparent, Hne'.
      rewrite Kpa, Eparent. rewrite Nat.eqb_refl.
      reflexivity. }
    assert (Hit : find_item s7 (ctx_item ctx)
                  = Some (with_actions (with_submenu i2 (Some (next_addr s)))
                            (filter action_is_valid (item_actions i2)))).
    { subst s7. unfold find_item.
      rewrite !items_update_menu by reflexivity.
      rewrite items_validate.
      rewrite (find_map_key item_addr (fun x => addr_eqb x (ctx_item ctx)))
        by reflexivity.
      rewrite (menu_configure_items _ _ _ _ _ _ Ecf). subst s4.
      rewrite items_post_processing. subst s3.
      change (find _ (all_items (update_item ?x ?a ?g)))
        with (find_item
                (map_items
                   (fun i => if addr_eqb (item_addr i) a then g i else i) x)
                (ctx_item ctx)).
      rewrite find_item_map_items
        by (intros i; destruct (addr_eqb (item_addr i) (ctx_item ctx));
            reflexivity).
      rewrite Ei2. cbn [option_map]. rewrite (find_item_addr _ _ Ei2).
      unfold addr_eqb. rewrite Nat.eqb_refl. reflexivity. }
    split; [exact Hpm|]. cbn [menu_id with_enabled]. rewrite Ki, I1.
    split; [reflexivity|]. split; [cbn; rewrite Kq; exact Q1|].
    split; [cbn; rewrite Kp; exact P1|]. split; [reflexivity|].
    split; [exact Hp7|]. split; [reflexivity|]. split; [exact Hit|].
    reflexivity.
  - injection Ep as <- <-. cbv iota in H.
    match type of H with
    | context [update_item ?x _ _] => set (sf := x) in *
    end.
    destruct (find_item sf (ctx_item ctx)) as [i0|];
      [cbn [bind] in H | discriminate H].
    injection H as <-.
    split; [cbn; rewrite L1; lia|]. split; [reflexivity|].
    assert (Hf : menus sf = map (nullify_in (next_addr s)) (menus s)).
    { subst sf. rewrite menu_free_menus. cbn [menus wlr_log].
      rewrite F1, map_app, filter_app. cbn [map filter].
      rewrite nullify_in_addr, A1. unfold addr_eqb at 2.
      rewrite Nat.eqb_refl. cbn [negb]. rewrite app_nil_r.
      apply filter_below. intros m Hin. apply in_map_iff in Hin.
      destruct Hin as (m0 & <- & Hin0). rewrite nullify_in_addr.
      exact (Hb _ Hin0). }
    split; [|split].
    + cbn [menus set_menu_level set_current_menu update_item set_menus].
      rewrite Hf, !map_map. apply map_ext. intros m.
      rewrite <- (outline_nullify_in (next_addr s) m).
      unfold outline. cbn. rewrite map_map. f_equal. apply map_ext.
      intros i. destruct (addr_eqb (item_addr i) (ctx_item ctx)); reflexivity.
    + cbn. apply in_or_app. right. left. reflexivity.
    + intros i Hin Ei.
      change (all_items _)
        with (all_items
                (map_items
                   (fun i => if addr_eqb (item_addr i) (ctx_item ctx)
                             then with_submenu i None else i) sf)) in Hin.
      rewrite all_items_map_items in Hin. apply in_map_iff in Hin.
      destruct Hin as (i1 & <- & _).
      destruct (addr_eqb (item_addr i1) (ctx_item ctx)) eqn:E1;
        [reflexivity|].
      apply Nat.eqb_neq in E1. contradiction.
Qed.

End PipeMenuOutcome.

Lemma create_pipe_menu_outcome_witness :
  exists s' pm,
    create_pipe_menu (P := piped_platform) 5 example_received
      (mkCtx 6%nat 2%nat example_pipe_text 100 5) = Some s' /\
    find_menu s' 7%nat = Some pm /\ menu_id pm = "apps"%string /\
    is_pipemenu pm = true /\ menu_parent pm = Some 1%nat /\
    node_enabled pm = true.
Proof.
  destruct (create_pipe_menu (P := piped_platform) 5 example_received
              (mkCtx 6%nat 2%nat example_pipe_text 100 5)) as [s'|] eqn:Es;
    [|vm_compute in Es; discriminate Es].
  destruct (find_item example_received 2%nat) as [item|] eqn:Ei;
    [|vm_compute in Ei; discriminate Ei].
  destruct (find_menu example_received (item_parent item)) as [parent|] eqn:Ep;
    [|vm_compute in Ei; injection Ei as <-; vm_compute in Ep; discriminate Ep].
  assert (Hb : menus_below example_received).
  { intros m Hin. vm_compute in Hin.
    repeat (destruct Hin as [<-|Hin]; [vm_compute; lia|]). destruct Hin. }
  pose proof (@create_pipe_menu_outcome piped_platform 5 example_received
                (mkCtx 6%nat 2%nat example_pipe_text 100 5) item parent s'
                Hb Ei Ep Es) as H.
  vm_compute in Ei. injection Ei as <-.
  vm_compute in Ep. injection Ep as <-.
  cbv beta iota delta [node_enabled] in H.
  destruct H as (_ & _ & H).
  change (xmlParseMemory (ctx_buf (mkCtx 6%nat 2%nat example_pipe_text 100 5)))
    with (Some example_pipe_document) in H.
  destruct H as (pm & _ & _ & Hpm & Hid & Hq & Hp & He & _).
  exists s', pm. split; [reflexivity|]. split; [exact Hpm|].
  split; [injection Hid as ->; reflexivity|].
  split; [exact Hq|]. split; [exact Hp | exact He].
Defined.

(** ** The buffer [parse_stream] hands to the parser *)

Lemma c_string_plain (x : string) : plain_line x = true -> c_string x = x.
Proof.
  induction x as [|c x IH]; cbn; [reflexivity|]. intros H.
  apply andb_prop in H. destruct H as [H Hx].
  apply andb_prop in H. destruct H as [Hz _].
  match goal with
  | |- context [if ?b then _ else _] => change (negb b = true) in Hz; destruct b
  end; [discriminate Hz|]. rewrite (IH Hx).
  reflexivity.
Qed.

Lemma cut_last_newline_plain (x : string) :
  plain_line x = true -> cut_last_newline x = None.
Proof.
  induction x as [|c x IH]; cbn; [reflexivity|]. intros H.
  apply andb_prop in H. destruct H as [H Hx].
  apply andb_prop in H. destruct H as [_ Hn].
  rewrite (IH Hx).
  match goal with
  | |- context [if ?b then _ else _] => change (negb b = true) in Hn; destruct b
  end; [discriminate Hn | reflexivity].
Qed.

Lemma strip_newline_plain (x : string) :
  plain_line x = true -> strip_newline x = x.
Proof.
  intros H. unfold strip_newline. rewrite (c_string_plain _ H).
  rewrite (cut_last_newline_plain _ H). reflexivity.
Qed.

Lemma strip_newline_line (x : string) :
  plain_line x = true -> strip_newline (x ++ newline) = x.
Proof.
  intros H. unfold strip_newline.
  assert (Hc : c_string (x ++ newline) = (x ++ newline)%string).
  { induction x as [|c x IH]; [reflexivity|]. cbn in H |- *.
    apply andb_prop in H. destruct H as [H Hx].
    apply andb_prop in H. destruct H as [Hz _].
    match goal with
    | |- context [if ?b then _ else _] =>
      change (negb b = true) in Hz; destruct b
    end; [discriminate Hz|]. rewrite (IH Hx).
    reflexivity. }
  rewrite Hc. clear Hc.
  assert (Hl : cut_last_newline (x ++ newline) = Some x).
  { induction x as [|c x IH]; [reflexivity|]. cbn in H |- *.
    apply andb_prop in H. destruct H as [_ Hx]. rewrite (IH Hx).
    reflexivity. }
  rewrite Hl. reflexivity.
Qed.

Lemma string_append_assoc (a b c : string) :
  ((a ++ b) ++ c = a ++ (b ++ c))%string.
Proof.
  induction a as [|x a IH]; cbn; [reflexivity | rewrite IH; reflexivity].
Qed.

Lemma string_append_empty (a : string) : (a ++ EmptyString)%string = a.
Proof.
  induction a as [|x a IH]; cbn; [reflexivity | rewrite IH; reflexivity].
Qed.

Lemma buffer_of_lines (f : string -> string) (bodies : list string) :
  (forall x, In x bodies -> strip_newline (f x) = x /\ plain_line x = true) ->
  forall b,
    fold_left (fun b line => buf_add b (strip_newline line)) (map f bodies) b
    = (b ++ fold_right String.append EmptyString bodies)%string.
Proof.
  induction bodies as [|x l IH]; intros H b; cbn [map fold_left fold_right].
  - rewrite string_append_empty. reflexivity.
  - rewrite IH by (intros y Hy; apply H; right; exact Hy).
    destruct (H x (or_introl eq_refl)) as [Hs Hp].
    unfold buf_add. rewrite Hs, (c_string_plain _ Hp), string_append_assoc.
    reflexivity.
Qed.

Section Stream.

Context {P : Platform}.

(** X28.  The buffer [parse_stream] parses is the lines read, one after
    the other, each without its newline: nothing stands in for the line
    breaks of the file.  A last line that has no newline is added as it
    is. *)
Theorem parse_stream_joins_lines (s : state) (lines rest : list string) :
  forallb plain_line lines = true -> forallb plain_line rest = true ->
  parse_stream s (map (fun l => (l ++ newline)%string) lines ++ rest)
  = (' (s', _) <-
       parse_buf s (fold_right String.append EmptyString (lines ++ rest)) ;;
     Some s').
Proof.
  intros Hl Hr. unfold parse_stream. cbv zeta.
  rewrite fold_left_app.
  rewrite (buffer_of_lines (fun l => (l ++ newline)%string) lines).
  - rewrite <- (map_id rest) at 1.
    rewrite (buffer_of_lines (fun l => l) rest).
    + cbn [String.append]. rewrite fold_right_app.
      assert (E : forall (l : list string) (x : string),
                 fold_right String.append x l
                 = (fold_right String.append EmptyString l ++ x)%string).
      { induction l as [|y l IH]; intros x; cbn; [reflexivity|].
        rewrite IH, string_append_assoc. reflexivity. }
      rewrite (E lines (fold_right String.append EmptyString rest)).
      reflexivity.
    + intros x Hx. rewrite forallb_forall in Hr.
      split; [apply strip_newline_plain|]; apply Hr; exact Hx.
  - intros x Hx. rewrite forallb_forall in Hl.
    split; [apply strip_newline_line|]; apply Hl; exact Hx.
Qed.

End Stream.

Lemma parse_stream_joins_lines_witness :
  parse_stream (P := example_platform) initial_state
    [("<openbox_menu>" ++ newline)%string; "</openbox_menu>"%string]
  = (' (s', _) <-
       parse_buf (P := example_platform) initial_state
         "<openbox_menu></openbox_menu>" ;;
     Some s').
Proof.
  apply (@parse_stream_joins_lines example_platform initial_state
           ["<openbox_menu>"%string] ["</openbox_menu>"%string]);
    reflexivity.
Defined.

(** ** [menu_init] returns *)

Section Returns.

Context {P : Platform} {E : Environment}.

Hypothesis font_buffers : forall a, scaled_font_buffer_create a = true.
Hypothesis name_kept : keeps_nodename "name.action".
Hypothesis to_kept : keeps_nodename "to.action".

Lemma fill_item_to_returns s content :
  current_action_live s ->
  exists s', fill_item s "to.action" content = Some s' /\ steady s s'.
Proof.
  intros Hlive.
  destruct (fill_item s "to.action" content) as [s'|] eqn:Ef.
  - exists s'. split; [reflexivity | exact (steady_fill_item _ _ _ Ef)].
  - exfalso. unfold fill_item in Ef. unfold keeps_nodename in to_kept.
    rewrite to_kept in Ef.
    cbn [String.eqb Ascii.eqb Bool.eqb andb] in Ef.
    destruct (current_item s); [|discriminate Ef].
    unfold current_action_live in Hlive.
    destruct (current_item_action s) as [act|]; [|discriminate Ef].
    unfold action_arg_from_xml_node in Ef.
    destruct (find_action s act); [discriminate Ef | apply Hlive; reflexivity].
Qed.

(** The action [default_item] leaves as the current one is the one it
    appended to the item it created, or null. *)
Lemma default_item_live s ma text action m s' :
  find_menu s ma = Some m ->
  default_item s ma text action = Some s' -> current_action_live s'.
Proof.
  intros Hm H. unfold default_item in H.
  destruct (item_create s (Some ma) (gettext text) false)
    as [[s1 r]|] eqn:Ec; [cbn [bind] in H | discriminate H].
  assert (Hr : exists ci, r = Some ci).
  { unfold item_create in Ec. cbn [bind] in Ec. rewrite Hm in Ec.
    cbn [bind] in Ec. unfold znew in Ec. cbv beta iota zeta in Ec.
    rewrite font_buffers in Ec. injection Ec as _ <-. eexists.
    reflexivity. }
  destruct Hr as (ci & ->).
  unfold fill_item in H. unfold keeps_nodename in name_kept.
  rewrite name_kept in H.
  cbn [String.eqb Ascii.eqb Bool.eqb andb current_item set_current_item] in H.
  destruct (action_create action);
    [|injection H as <-; exact I].
  unfold znew in H. cbv beta iota zeta in H.
  match type of H with
  | bind (find_item ?x ci) _ = _ =>
    destruct (find_item x ci) as [it|] eqn:Ei;
      [cbn [bind] in H | discriminate H]
  end.
  injection H as <-. unfold current_action_live.
  cbn [current_item_action update_item set_menus set_current_item_action].
  unfold find_action.
  match goal with
  | |- find ?f ?l <> None =>
    assert (Hin : In (mkAction (next_addr s1) action []) l)
  end.
  { match goal with
    | |- In _ (flat_map _ (all_items (update_item ?x ?a ?g))) =>
      change (all_items (update_item x a g))
        with (all_items
                (map_items
                   (fun i => if addr_eqb (item_addr i) a then g i else i) x))
    end.
    rewrite all_items_map_items. apply in_flat_map.
    pose proof (find_some _ _ Ei) as [Hit Ha]. cbv beta in Ha.
    eexists. split; [apply in_map; exact Hit|].
    cbv beta. rewrite Ha. cbn [item_actions with_actions].
    apply in_or_app. right. left. reflexivity. }
  intros Hnone.
  apply (find_none _ _ Hnone) in Hin. cbn [action_addr] in Hin.
  unfold addr_eqb in Hin. rewrite Nat.eqb_refl in Hin. discriminate Hin.
Qed.

Lemma item_create_returns s ma m text show_arrow :
  find_menu s ma = Some m ->
  exists s' a item,
    item_create s (Some ma) text show_arrow = Some (s', Some a) /\
    steady s s' /\ find_item s' a = Some item.
Proof.
  intros Hm.
  destruct (item_create s (Some ma) text show_arrow) as [[s' r]|] eqn:Ec.
  - assert (Hr : exists a, r = Some a).
    { unfold item_create in Ec. cbn [bind] in Ec. rewrite Hm in Ec.
      cbn [bind] in Ec. unfold znew in Ec. cbv beta iota zeta in Ec.
      rewrite font_buffers in Ec. injection Ec as _ <-. eexists.
      reflexivity. }
    destruct Hr as (a & ->). destruct (item_create_found _ _ _ _ Ec) as (i & Hi).
    exists s', a, i. split; [reflexivity|].
    split; [exact (steady_item_create _ _ _ _ Ec) | exact Hi].
  - exfalso. unfold item_create in Ec. cbn [bind] in Ec. rewrite Hm in Ec.
    cbn [bind] in Ec. unfold znew in Ec. cbv beta iota zeta in Ec.
    rewrite font_buffers in Ec. discriminate Ec.
Qed.

Lemma separator_create_returns s ma m label :
  find_menu s ma = Some m ->
  exists s' r, separator_create s (Some ma) label = Some (s', r) /\ steady s s'.
Proof.
  intros Hm.
  destruct (separator_create s (Some ma) label) as [[s' r]|] eqn:Ec.
  - exists s', r. split; [reflexivity|].
    exact (steady_separator_create _ _ _ Ec).
  - exfalso. unfold separator_create in Ec. cbn [bind] in Ec.
    rewrite Hm in Ec. cbn [bind] in Ec. unfold znew in Ec.
    cbv beta iota zeta in Ec. discriminate Ec.
Qed.

Ltac item_step G Hm0 :=
  match goal with
  | |- context [default_item ?s ?ma ?t ?a] =>
    let mX := fresh "m" in
    let HmX := fresh "Hm" in
    let s' := fresh "s" in
    let H := fresh "H" in
    let S := fresh "S" in
    destruct (@grows_find_menu _ _ _ _ G Hm0) as (mX & HmX & _);
    destruct (@default_item_returns _ _ s ma t a mX name_kept HmX)
      as (s' & H & S);
    rewrite H; cbn [bind]; clear H mX HmX;
    apply proj1 in S;
    pose proof (grows_trans G S) as H; clear G S; rename H into G
  end.

Ltac grow_both G W S :=
  let H := fresh "H" in
  let H' := fresh "H" in
  apply proj1 in S;
  pose proof (grows_trans G S) as H; pose proof (grows_trans W S) as H';
  clear G W S; rename H into G; rename H' into W.

Ltac item_step_both Gf Hm0 G W :=
  match goal with
  | |- context [default_item ?s ?ma ?t ?a] =>
    let mX := fresh "m" in
    let HmX := fresh "Hm" in
    let s' := fresh "s" in
    let H := fresh "H" in
    let S := fresh "S" in
    destruct (@grows_find_menu _ _ _ _ Gf Hm0) as (mX & HmX & _);
    destruct (@default_item_returns _ _ s ma t a mX name_kept HmX)
      as (s' & H & S);
    pose proof (@default_item_live _ _ _ _ _ _ HmX H);
    rewrite H; cbn [bind]; clear H mX HmX;
    grow_both G W S
  end.

Ltac fill_step_both G W :=
  match goal with
  | |- context [fill_item ?s "to.action"%string ?c] =>
    let s' := fresh "s" in
    let H := fresh "H" in
    let S := fresh "S" in
    destruct (@fill_item_to_returns s c ltac:(assumption)) as (s' & H & S);
    rewrite H; cbn [bind]; clear H;
    grow_both G W S
  end.

Lemma init_windowmenu_returns s : exists s', init_windowmenu s = Some s'.
Proof.
  unfold init_windowmenu.
  destruct (default_menu_returns s "client-menu")
    as (s1 & m & Hd & _ & Hin & _ & _).
  rewrite Hd. cbn [bind]. clear Hd.
  destruct (is_nil (menuitems m)); [|cbn [bind]; eexists; reflexivity].
  destruct (in_find_menu _ _ Hin) as (m1 & Hm1).
  pose proof (grows_refl s1) as G.
  do 6 item_step G Hm1.
  match goal with
  | |- context [menu_create ?x "workspaces"%string ?l] =>
    pose proof (menu_create_appends x "workspaces" l) as (new & Hnew & Na & _);
    pose proof (menu_create_statics x "workspaces" l) as (_ & _ & _ & Ea);
    pose proof (grows_menu_create x "workspaces" l) as Gc;
    destruct (menu_create x "workspaces"%string l) as [sw wa]
  end.
  cbn [fst snd] in *. subst wa.
  pose proof (grows_trans G Gc) as G'. clear G Gc. rename G' into G.
  assert (Hw : exists w, find_menu sw (menu_addr new) = Some w).
  { apply in_find_menu. rewrite Hnew. apply in_or_app.
    right. left. reflexivity. }
  rewrite Na in Hw. clear Hnew Na new.
  destruct Hw as (w & Hw). pose proof (grows_refl sw) as W.
  item_step_both W Hw G W. fill_step_both G W.
  item_step_both W Hw G W. fill_step_both G W.
  match goal with
  | |- context [separator_create ?x (Some ?a) ?l] =>
    destruct (@grows_find_menu _ _ _ _ W Hw) as (w1 & Hw1 & _);
    destruct (@separator_create_returns x a w1 l Hw1) as (sp & r & Hsp & Sp);
    rewrite Hsp; cbn [bind]; clear Hsp w1 Hw1
  end.
  grow_both G W Sp.
  assert (Sc : steady sp (set_current_item sp r)) by steady_same.
  grow_both G W Sc.
  item_step_both W Hw G W.
  match goal with
  | |- context [item_create ?x (Some ?a) ?t ?b] =>
    destruct (@grows_find_menu _ _ _ _ G Hm1) as (m2 & Hm2 & _);
    destruct (@item_create_returns x a m2 t b Hm2)
      as (si & ci & it & Hsi & Si & Hit);
    rewrite Hsi; cbn [bind]; clear Hsi m2 Hm2
  end.
  grow_both G W Si.
  change (find_item (set_current_item si (Some ci)) ci)
    with (find_item si ci).
  rewrite Hit. cbn [bind].
  match goal with
  | |- context [default_item ?x _ _ _] =>
    assert (Su : steady si x)
      by (eapply steady_trans;
          [|apply (steady_update_item (set_current_item si (Some ci)))];
          steady_same)
  end.
  grow_both G W Su.
  item_step_both G Hm1 G W.
  cbn [bind]. eexists. reflexivity.
Qed.

Lemma init_rootmenu_returns s : exists s', init_rootmenu s = Some s'.
Proof.
  unfold init_rootmenu.
  destruct (default_menu_returns s "root-menu")
    as (s1 & m & Hd & _ & Hin & _ & _).
  rewrite Hd. cbn [bind]. clear Hd.
  destruct (is_nil (menuitems m)); [|eexists; reflexivity].
  destruct (in_find_menu _ _ Hin) as (m1 & Hm1).
  pose proof (grows_refl s1) as G.
  item_step G Hm1.
  destruct (@grows_find_menu _ _ _ _ G Hm1) as (m2 & Hm2 & _).
  destruct (@default_item_returns _ _ s0 (menu_addr m) "Exit"%string
              "Exit"%string m2 name_kept Hm2) as (s2 & H2 & _).
  exists s2. exact H2.
Qed.

(** X29.  With font buffers to be had, and the node names
    ["name.action"] and ["to.action"] passing the truncations of
    [fill_item] unchanged, [menu_init] returns whenever reading the
    configuration does: the default menus are always built. *)
Theorem menu_init_returns s s1 :
  parse_xml (set_menus s []) "menu.xml" = Some s1 ->
  exists s', menu_init s = Some s'.
Proof.
  intros Hx. unfold menu_init. cbv zeta. rewrite Hx. cbn [bind].
  destruct (init_rootmenu_returns s1) as (s2 & H2). rewrite H2. cbn [bind].
  destruct (init_windowmenu_returns s2) as (s3 & H3).
  rewrite H3. cbn [bind]. eexists. reflexivity.
Qed.

End Returns.

Lemma menu_init_returns_witness :
  exists s',
    menu_init (P := example_platform) (E := example_environment)
      initial_state = Some s'.
Proof.
  apply (@menu_init_returns example_platform example_environment
           (fun _ => eq_refl) eq_refl eq_refl initial_state
           (set_menus initial_state [])).
  reflexivity.
Defined.
